(* ===== verification/_CoqProject ===== *)
-Q . S2P
Prelude.v
Bytes.v
Params.v
FsTypes.v
Machine.v
Spinlock.v
ProcCore.v
Sched.v
Mlfq.v
Mem.v
Kalloc.v
Vm.v
PageTable.v
VmMap.v
VmCopy.v
Kstring.v
Pres.v
PresVm.v
Services.v
Proc.v
Syscall.v
Trap.v
FsCore.v
Sleeplock.v
Calm.v
Bio.v
Lru.v
BioSpec.v
Log.v
LogSpec.v
Fs.v
Dir.v
FsSpec.v
FsWrite.v
FsAlloc.v
Path.v
Uart.v
Console.v
Pipe.v
FileTable.v
Exec.v
Sysfile.v
Virtio.v
Printf.v
Kernel.v
Start.v
Asm.v
ProcSpec.v
PipeSpec.v
User.v
Ulib.v
Grep.v
Umalloc.v
Shell.v
ShellSpec.v
Programs.v
Usertests.v
TestsSpec.v
Grind.v
Fds.v
Mkfs.v
MkfsSpec.v
MkfsImage.v
Mount.v
