(* ===== verification/Prelude.v ===== *)
(** * A verification library for an xv6 kernel with an MLFQ scheduler

    ** The program

    [src/kernel] is xv6 for RISC-V with a multilevel feedback queue in place of the
    round-robin scheduler and a system call, getpinfo, that reports the process
    table. [src/user] has the library, the shell and the programs that run on it;
    [src/mkfs] builds the disk image that the kernel mounts.
    A hart boots through [start.c] into [main.c], which initialises every component
    and ends in [scheduler()]. Processes enter the kernel through [trap.c]; its
    interrupts go to the drivers, its system calls through [syscall.c] to
    [sysproc.c] and [sysfile.c]. These use the processes ([proc.c]), the memory
    ([kalloc.c], [vm.c]) and the files: [file.c] over [pipe.c], [console.c] and
    [fs.c], which is over the log ([log.c]), the buffer cache ([bio.c]) and the disk
    driver ([virtio_disk.c]).

    ** How the code is modelled

    Kernel code is written in the monad [M] of [Machine]: a function of the state
    [kstate] (the global variables, physical memory, and the registers of the hart)
    that returns, stops ([stop]: a panic, undefined behaviour, a lock that is never
    released, or no fuel) or switches to another context with what remains to be
    done ([Swtch]). Integers are [Z] with the wrap-around of their C type written
    out ([u8] to [s64] below). Objects that the code reaches by a pointer into a
    table are indices into that table; pages, page tables and user memory are bytes
    of physical memory. A lock is an object of the state, and a wait for one is a
    context switch or a stop, so that other threads act only where the code lets
    them. User programs are trees of system calls ([User]), which a handler answers.

    ** The files

    - [Prelude], [Bytes]: integers, lists, little-endian data, automation.
    - [Params]: [param.h], [memlayout.h], the page macros of [riscv.h].
    - [FsTypes]: the structures of [fs.h], [buf.h], [file.h], [stat.h], [pstat.h] and of
      the files of the file system and the drivers.
    - [Machine]: the state and the monad; [riscv.h], [spinlock.h], [proc.h].
    - [Spinlock]: [spinlock.c]; the module [Contention] interleaves harts on a lock.
    - [ProcCore], [Sched], [Proc]: [proc.c]; [Mlfq], [ProcSpec]: its properties.
    - [Mem], [Kstring]: [string.c], on physical memory and on strings.
    - [Kalloc], [Vm]: [kalloc.c], [vm.c]; [PageTable], [VmMap], [VmCopy]: the meaning of a
      page table and the specifications of mapping and copying.
    - [Services]: the interface of [proc.c], [trap.c] and [syscall.c] to the file system
      and the devices; [Kernel] instantiates it.
    - [Syscall], [Trap]: [syscall.c], [sysproc.c], [trap.c].
    - [FsCore], [Sleeplock], [Bio], [Log], [Fs], [Dir]: [sleeplock.c], [bio.c], [log.c], [fs.c];
      [Calm], [Lru], [BioSpec], [LogSpec]: the specifications of the cache and the log;
      [FsSpec], [FsWrite], [FsAlloc], [Path]: of reading, writing, the free map and path
      names.
    - [Uart], [Console], [Pipe], [FileTable], [Exec], [Sysfile], [Virtio], [Printf]: [uart.c] and
      [plic.c], [console.c], [pipe.c], [file.c], [exec.c], [sysfile.c], [virtio_disk.c],
      [printf.c]; [PipeSpec]: a pipe is a queue.
    - [Pres], [PresVm]: a program logic for invariants across context switches.
    - [Kernel]: [main.c], the components put together, the reachable states.
    - [Start]: [start.c] and the control registers of [riscv.h]. [Asm]: the assembly files.
    - [User], [Ulib]: [user.h], [ulib.c], [user/printf.c].
    - [Grep], [Umalloc], [Shell], [ShellSpec], [Programs]: [grep.c], [umalloc.c], [sh.c], and
      the other programs of [src/user]; [Grind], [Fds]: [grind.c] and its descriptors;
      [Usertests], [TestsSpec]: [usertests.c] and the verdict of its driver.
    - [Mkfs]: [mkfs.c] in a monad of its own, on the list of the blocks of the image;
      [MkfsSpec], [MkfsImage]: what the image contains; [Mount]: the kernel reads it.

    ** What the theorems show

    - Scheduling. The selection takes the first runnable process of the highest
      level that has one ([select_proc_spec]); a runnable process is dispatched
      within a bounded number of passes ([mlfq_no_starvation]); levels stay in range
      in every reachable state of the kernel ([mlfq_levels_invariant]). The rule of
      demotion ([run_chosen_spec]) never applies to a preempted process
      ([preempted_not_demoted]), ticks in user mode are not counted
      ([user_ticks_not_counted]), and two harts can run one process
      ([double_dispatch]).
    - Processes. getpinfo and kill as functions of the process table
      ([getpinfo_spec], [kill_zero_poisons]).
    - Locks. Mutual exclusion of spin locks ([spinlock_mutual_exclusion]).
    - Memory. The allocator loses and duplicates no page ([kalloc_conserves_pages]);
      mappings are installed ([mappages_spec]); copies to user space are exact and read
      back ([copyout_spec], [copyout_copyin]), and pages that the process must not write
      are refused ([copyout_protects]).
    - File system. The buffer cache implements a map of blocks ([bread_spec]); a
      transaction is atomic under a crash at any disk write ([commit_crash_safe]),
      recovery is right and can be repeated ([recover_from_log_spec]); a full transaction
      exhausts the cache ([full_transaction_panics]). On top of these, reading returns the
      bytes of a file ([readi_spec]), writing puts them there, touches nothing else and
      refuses what is out of range ([writei_spec], [writei_readi]), a name is found in a
      directory ([dirlookup_spec]), a path is resolved without losing a reference
      ([namei_spec]), and blocks are allocated in the free map ([balloc_spec]).
    - Image. The image that mkfs builds is a file system in the sense of the previous
      group, with exactly the files of the command line and a free map of exactly the
      blocks that they take ([mkfs_builds]); the kernel that mounts it finds
      each of them by its path and reads its bytes ([mkfs_then_read]).
    - Pipes. Writing and reading implement a queue ([pipewrite_refines],
      [piperead_refines]).
    - Boot and traps. A hart enters main() as it expects ([start_boots]); a trap gives
      every user register back ([trap_roundtrip]).
    - User level. The allocator hands out disjoint blocks, loses no byte and keeps its
      ring ([malloc_spec], [free_spec]); for requests near 2 GB and above its arithmetic
      overflows ([malloc_huge_wraps]). The parser of the shell is total, with a command or
      a diagnostic ([parsecmd_total]), and inverts a printer ([parse_print]);
      grep decides its patterns and prints the lines that match ([match_decides],
      [grep_prints_matches]). The test driver passes exactly when
      every test does and no page is lost ([usertests_verdict]). Kernel numbers are
      printed inside their buffer ([printint_spec]).

    Every property with hypotheses is followed by a witness, which applies it to a
    concrete state.

    ** Bounds

    A loop that the code bounds has that bound. A loop that waits, or that runs for
    ever, takes [fuel] rounds ([Class Fuel]) and then stops with [SFuel], or [Pfuel] in
    a user program. Theorems that say that a function returns hold from the stated
    amount of fuel on; invariants hold for every amount. Recursion over the line of
    the shell has [parse_fuel], which [parsecmd_total] shows to be enough.

    ** Assumptions and what is not modelled

    - Device registers ([Mmio]), the content of uninitialised stack variables, and the
      legal values of control registers ([Start]) are parameters with their laws. In
      [Start] the registers sie, mie and mideleg are independent of each other; on the
      hardware sie is a view of mie masked by mideleg.
    - The theorems on the cache, the log and the file system run over a contract of the
      disk driver ([disk_rw] of [BioSpec]): a request is carried out before the call
      returns. [Virtio] models the driver itself, of which the contract is not proved.
    - [Contention] takes the two reads of holding() for one step, and so the check and the
      store of release().
    - A disk write of one block is atomic, as [log.c] assumes. The cache and the log
      are specified for one process at a time ([Calm]); the code itself is modelled
      with its waits.
    - The C code is modelled without registers: there, a context switch is [Swtch], and
      a trap starts with what [uservec] leaves. [Asm] shows that the assembly code does
      what this takes for granted, for a given translation of addresses.
    - Weak memory and the races on unlocked fields, other than those of [Contention]
      and [double_dispatch].
    - A child that [user/usertests.c] or another test forks is a branch of the tree of
      its program; how the processes interleave is up to the handler. [test-xv6.py] and
      the build files run on the host.
    - [mkfs.c] is modelled for a little-endian host. Its files and the failures of its
      calls are parameters; what it prints is left out.
    - The shell takes [malloc] to succeed, as its code does. *)

From stdpp Require Export prelude gmap list strings.
From Stdlib Require Export ZArith Lia.

Declare Scope kernel_scope.
Delimit Scope kernel_scope with kernel.

Open Scope Z_scope.

(** ** C integers

    A C integer is a [Z]; an operation that can leave the range of its type
    is followed by the wrap-around of the type's width. *)

(** [unsigned char], [unsigned int] and [unsigned long] on rv64. *)
Definition u8 (z : Z) : Z := z mod 2 ^ 8.
Definition u16 (z : Z) : Z := z mod 2 ^ 16.
Definition u32 (z : Z) : Z := z mod 2 ^ 32.
Definition u64 (z : Z) : Z := z mod 2 ^ 64.

(** [int]: two's complement on 32 bits, as the compiled code computes it. *)
Definition s32 (z : Z) : Z := (z + 2 ^ 31) mod 2 ^ 32 - 2 ^ 31.
Definition s16 (z : Z) : Z := (z + 2 ^ 15) mod 2 ^ 16 - 2 ^ 15.
Definition s8 (z : Z) : Z := (z + 2 ^ 7) mod 2 ^ 8 - 2 ^ 7.
Definition s64 (z : Z) : Z := (z + 2 ^ 63) mod 2 ^ 64 - 2 ^ 63.

(** A C condition: an integer is true when it is not zero. *)
Definition truthy (z : Z) : bool := negb (z =? 0).

(** The [n] bytes of an integer in memory, least significant first. *)
Fixpoint le_bytes (n : nat) (v : Z) : list Z :=
  match n with
  | O => []
  | S n => u8 v :: le_bytes n (v / 256)
  end.

Lemma u64_small z : 0 <= z < 2 ^ 64 -> u64 z = z.
Proof. intros. unfold u64. by apply Z.mod_small. Qed.

Lemma u32_small z : 0 <= z < 2 ^ 32 -> u32 z = z.
Proof. intros. unfold u32. by apply Z.mod_small. Qed.

Lemma u64_range z : 0 <= u64 z < 2 ^ 64.
Proof. apply Z.mod_pos_bound. lia. Qed.

Lemma u32_range z : 0 <= u32 z < 2 ^ 32.
Proof. apply Z.mod_pos_bound. lia. Qed.

Lemma s32_small z : - 2 ^ 31 <= z < 2 ^ 31 -> s32 z = z.
Proof. intros. unfold s32. rewrite Z.mod_small; lia. Qed.

Lemma s32_range z : - 2 ^ 31 <= s32 z < 2 ^ 31.
Proof. unfold s32. pose proof (Z.mod_pos_bound (z + 2 ^ 31) (2 ^ 32)). lia. Qed.

Lemma lor_range n a b :
  0 <= n -> 0 <= a < 2 ^ n -> 0 <= b < 2 ^ n -> 0 <= Z.lor a b < 2 ^ n.
Proof.
  intros Hn Ha Hb. assert (H0 : 0 <= Z.lor a b) by (apply Z.lor_nonneg; lia).
  split; [done|]. destruct (Z.eq_dec (Z.lor a b) 0) as [->|Hne]; [lia|].
  apply Z.log2_lt_pow2; [lia|]. rewrite Z.log2_lor by lia.
  destruct (Z.eq_dec a 0) as [->|], (Z.eq_dec b 0) as [->|]; [done|..].
  - rewrite Z.max_r by apply Z.log2_nonneg. apply Z.log2_lt_pow2; lia.
  - rewrite Z.max_l by apply Z.log2_nonneg. apply Z.log2_lt_pow2; lia.
  - apply Z.max_lub_lt; apply Z.log2_lt_pow2; lia.
Qed.

Lemma truthy_true z : truthy z = true <-> z <> 0.
Proof. unfold truthy. rewrite negb_true_iff, Z.eqb_neq. done. Qed.

Lemma truthy_false z : truthy z = false <-> z = 0.
Proof. unfold truthy. rewrite negb_false_iff, Z.eqb_eq. done. Qed.

(** ** Record fields

    [r <| f := v |>] is the record [r] with its field [f] set to [v]. A record
    of the model declares its eta expansion, from which the update of each of
    its fields is derived. *)
Class Eta (R : Type) := eta : R -> R.

Class Setter {R T : Type} (proj : R -> T) := set_field : (T -> T) -> R -> R.
Arguments set_field {R T} proj {_} g r / : assert.

Ltac solve_setter :=
  match goal with
  | |- @Setter ?R ?T ?proj =>
      let inst := constr:(_ : Eta R) in
      let g := fresh "g" in
      let r := fresh "r" in
      unfold Setter; intros g r;
      let t := eval hnf in (inst r) in
      let t := eval pattern (proj r) in t in
      match t with
      | ?f _ => let u := eval cbv beta in (f (g (proj r))) in exact u
      end
  end.

#[export] Hint Extern 0 (Setter _) => solve_setter : typeclass_instances.

Notation "r <| f := v |>" := (set_field f (fun _ => v) r)
  (at level 1, left associativity, f at level 50, v at level 200,
   format "r  <| f  :=  v |>") : kernel_scope.

Open Scope kernel_scope.

(** ** Fuel

    The rounds that a loop of the model may take when the code does not bound it. *)
Class Fuel : Type := fuel : nat.

(** ** Automation *)

Create HintDb xv6.

(** Turn the boolean tests of the code into the propositions they decide. *)
Ltac bool_to_prop :=
  repeat match goal with
  | H : andb _ _ = true |- _ => apply andb_true_iff in H; destruct H
  | H : orb _ _ = false |- _ => apply orb_false_iff in H; destruct H
  | H : negb _ = true |- _ => apply negb_true_iff in H
  | H : negb _ = false |- _ => apply negb_false_iff in H
  | H : (_ =? _) = true |- _ => apply Z.eqb_eq in H
  | H : (_ =? _) = false |- _ => apply Z.eqb_neq in H
  | H : (_ <? _) = true |- _ => apply Z.ltb_lt in H
  | H : (_ <? _) = false |- _ => apply Z.ltb_ge in H
  | H : (_ <=? _) = true |- _ => apply Z.leb_le in H
  | H : (_ <=? _) = false |- _ => apply Z.leb_gt in H
  | H : truthy _ = true |- _ => apply truthy_true in H
  | H : truthy _ = false |- _ => apply truthy_false in H
  | H : bool_decide _ = true |- _ => apply bool_decide_eq_true in H
  | H : bool_decide _ = false |- _ => apply bool_decide_eq_false in H
  end.

(** Case analysis on the condition of an [if] of the goal or of a hypothesis. *)
Ltac case_if :=
  match goal with
  | |- context [if ?b then _ else _] =>
      match type of b with bool => let E := fresh "Hif" in destruct b eqn:E end
  | H : context [if ?b then _ else _] |- _ =>
      match type of b with bool => let E := fresh "Hif" in destruct b eqn:E end
  end.

(** ** Lists *)

(** The element a pointer into an array denotes after an update of the array. *)
Lemma list_lookup_insert_if {A} (l : list A) i j x :
  (i < length l)%nat -> <[i := x]> l !! j = if decide (i = j) then Some x else l !! j.
Proof.
  intros. case_decide; subst.
  - by apply list_lookup_insert_eq.
  - by apply list_lookup_insert_ne.
Qed.

Lemma list_insert_insert_eq' {A} (l : list A) i x y :
  <[i := x]> (<[i := y]> l) = <[i := x]> l.
Proof. apply list_insert_insert_eq. Qed.

Lemma list_insert_same {A} (l : list A) i x :
  l !! i = Some x -> <[i := x]> l = l.
Proof. apply list_insert_id. Qed.

Lemma list_alter_as_insert {A} (l : list A) i g x :
  l !! i = Some x -> alter g i l = <[i := g x]> l.
Proof.
  intros H. apply list_eq. intros j. rewrite list_lookup_insert_if by by eapply lookup_lt_Some.
  case_decide; subst.
  - by rewrite list_lookup_alter_eq, H.
  - by rewrite list_lookup_alter_ne.
Qed.

Lemma list_alter_id {A} (l : list A) i : alter (fun x => x) i l = l.
Proof.
  apply list_eq. intros j. destruct (decide (i = j)) as [->|].
  - rewrite list_lookup_alter_eq. by destruct (l !! j).
  - by rewrite list_lookup_alter_ne.
Qed.

Lemma list_alter_alter {A} (l : list A) i (f g : A -> A) :
  alter f i (alter g i l) = alter (fun x => f (g x)) i l.
Proof.
  apply list_eq. intros j. destruct (decide (i = j)) as [->|].
  - rewrite !list_lookup_alter_eq. by destruct (l !! j).
  - by rewrite !list_lookup_alter_ne.
Qed.

Lemma list_alter_cong {A} (l : list A) i (f g : A -> A) :
  (forall x, l !! i = Some x -> f x = g x) -> alter f i l = alter g i l.
Proof.
  intros H. apply list_eq. intros j. destruct (decide (i = j)) as [->|].
  - rewrite !list_lookup_alter_eq. destruct (l !! j) eqn:E; simpl; [by rewrite H|done].
  - by rewrite !list_lookup_alter_ne.
Qed.

Lemma filter_all {A} (P : A -> Prop) `{!forall x, Decision (P x)} (l : list A) :
  (forall x, x ∈ l -> P x) -> filter P l = l.
Proof.
  induction l as [|x l IH]; intros Hl; [done|]. rewrite filter_cons, decide_True by set_solver.
  f_equal. apply IH. set_solver.
Qed.
