(* ===== verification/Bytes.v ===== *)
(** * Structures in arrays of bytes

    Little-endian integers of [n] bytes, and the bytes of an array from an offset
    on: what the code reads and writes through a cast of [bp->data]. *)

From S2P Require Import Prelude.

(** The integer whose bytes, least significant first, are the list. *)
Fixpoint le_of_bytes (l : list Z) : Z :=
  match l with [] => 0 | b :: l => b + 256 * le_of_bytes l end.

(** [n] bytes from offset [off], and the array with [new] written at [off]. *)
Definition slice {A} (off n : nat) (l : list A) : list A := take n (drop off l).
Definition splice {A} (off : nat) (new l : list A) : list A :=
  take off l ++ new ++ drop (off + length new) l.

Definition le_at (n : nat) (off : Z) (l : list Z) : Z := le_of_bytes (slice (Z.to_nat off) n l).
Definition put_le (n : nat) (off v : Z) (l : list Z) : list Z :=
  splice (Z.to_nat off) (le_bytes n v) l.

Definition byte (b : Z) : Prop := 0 <= b < 256.

Lemma length_le_bytes n v : length (le_bytes n v) = n.
Proof. revert v. induction n; intros v; simpl; [done|by f_equal]. Qed.

Lemma le_bytes_byte n v : Forall byte (le_bytes n v).
Proof.
  revert v. induction n; intros v; simpl; constructor; [|done].
  unfold byte, u8. apply Z.mod_pos_bound. lia.
Qed.

Lemma le_of_bytes_range l :
  Forall byte l -> 0 <= le_of_bytes l < 256 ^ Z.of_nat (length l).
Proof.
  induction 1 as [|b l Hb _ IH]; simpl; [lia|].
  rewrite Nat2Z.inj_succ, Z.pow_succ_r by lia. unfold byte in Hb. lia.
Qed.

Lemma le_of_bytes_le_bytes n v : le_of_bytes (le_bytes n v) = v mod 256 ^ Z.of_nat n.
Proof.
  revert v. induction n as [|n IH]; intros v; cbn [le_bytes le_of_bytes].
  { change (256 ^ Z.of_nat 0) with 1. by rewrite Z.mod_1_r. }
  rewrite IH, Nat2Z.inj_succ, Z.pow_succ_r by lia. unfold u8. change (2 ^ 8) with 256.
  rewrite Z.rem_mul_r; lia.
Qed.

Lemma le_bytes_le_of_bytes l : Forall byte l -> le_bytes (length l) (le_of_bytes l) = l.
Proof.
  induction 1 as [|b l Hb Hl IH]; simpl; [done|]. unfold byte in Hb. f_equal.
  - unfold u8. change (2 ^ 8) with 256. rewrite (Z.mul_comm 256), Z_mod_plus_full.
    by apply Z.mod_small.
  - rewrite Z.mul_comm, Z.div_add, (Z.div_small b) by lia. by rewrite Z.add_0_l.
Qed.

Section splice.
Context {A : Type}.
Implicit Types new l : list A.

Lemma length_slice off n l : (off + n <= length l)%nat -> length (slice off n l) = n.
Proof. intros. unfold slice. rewrite length_take, length_drop. lia. Qed.

Lemma length_splice off new l :
  (off + length new <= length l)%nat -> length (splice off new l) = length l.
Proof. intros. unfold splice. rewrite !length_app, length_take, length_drop. lia. Qed.

Lemma slice_splice_eq off new l :
  (off + length new <= length l)%nat -> slice off (length new) (splice off new l) = new.
Proof.
  intros. unfold slice, splice. rewrite drop_app_ge by (rewrite length_take; lia).
  rewrite length_take, Nat.min_l, Nat.sub_diag, drop_0 by lia. apply take_app_length.
Qed.

Lemma lookup_splice off new l i :
  (off + length new <= length l)%nat ->
  splice off new l !! i =
  if decide (off <= i < off + length new)%nat then new !! (i - off)%nat else l !! i.
Proof.
  intros Hl. unfold splice. case_decide as Hi.
  - rewrite lookup_app_r by (rewrite length_take; lia).
    rewrite length_take, Nat.min_l by lia. by rewrite lookup_app_l by lia.
  - destruct (decide (i < off)%nat).
    + rewrite lookup_app_l by (rewrite length_take; lia). by rewrite lookup_take_lt.
    + rewrite lookup_app_r by (rewrite length_take; lia).
      rewrite length_take, Nat.min_l by lia. rewrite lookup_app_r by lia.
      rewrite lookup_drop. f_equal. lia.
Qed.

Lemma lookup_slice off n l i :
  slice off n l !! i = if decide (i < n)%nat then l !! (off + i)%nat else None.
Proof.
  unfold slice. case_decide.
  - by rewrite lookup_take_lt, lookup_drop.
  - by rewrite lookup_take_ge by lia.
Qed.

Lemma slice_splice_ne off new l off' n :
  (off + length new <= length l)%nat ->
  (off' + n <= off \/ off + length new <= off')%nat ->
  slice off' n (splice off new l) = slice off' n l.
Proof.
  intros Hl Hd. apply list_eq. intros i. rewrite !lookup_slice. case_decide; [|done].
  rewrite lookup_splice by done. rewrite decide_False; [done|lia].
Qed.

Lemma splice_id off l n : (off + n <= length l)%nat -> splice off (slice off n l) l = l.
Proof.
  intros. apply list_eq. intros i. rewrite lookup_splice by (rewrite length_slice; lia).
  rewrite length_slice by lia. case_decide; [|done]. rewrite lookup_slice, decide_True by lia.
  f_equal. lia.
Qed.

Lemma splice_splice off new new' l :
  length new = length new' -> (off + length new <= length l)%nat ->
  splice off new (splice off new' l) = splice off new l.
Proof.
  intros Hn Hl. apply list_eq. intros i.
  rewrite lookup_splice by (rewrite length_splice; lia).
  rewrite !lookup_splice by lia. rewrite <- Hn. by case_decide.
Qed.
End splice.

Lemma Forall_splice (P : Z -> Prop) off new l :
  Forall P new -> Forall P l -> Forall P (splice off new l).
Proof.
  intros. unfold splice. repeat apply Forall_app_2; [by apply Forall_take|done|].
  by apply Forall_drop.
Qed.

Lemma length_put_le n off v l :
  (Z.to_nat off + n <= length l)%nat -> length (put_le n off v l) = length l.
Proof. intros. unfold put_le. by rewrite length_splice by (rewrite length_le_bytes; lia). Qed.

Lemma le_at_put_le_eq n off v l :
  (Z.to_nat off + n <= length l)%nat -> le_at n off (put_le n off v l) = v mod 256 ^ Z.of_nat n.
Proof.
  intros. unfold le_at, put_le.
  rewrite <- (length_le_bytes n v) at 1.
  rewrite slice_splice_eq by (rewrite length_le_bytes; lia). apply le_of_bytes_le_bytes.
Qed.

Lemma le_at_put_le_ne n off v n' off' l :
  0 <= off -> 0 <= off' -> (Z.to_nat off + n <= length l)%nat ->
  off' + Z.of_nat n' <= off \/ off + Z.of_nat n <= off' ->
  le_at n' off' (put_le n off v l) = le_at n' off' l.
Proof.
  intros. unfold le_at, put_le.
  rewrite slice_splice_ne; [done|rewrite length_le_bytes; lia..].
Qed.

#[global] Arguments slice : simpl never.
#[global] Arguments splice : simpl never.
#[global] Arguments le_at : simpl never.
#[global] Arguments put_le : simpl never.

(** The array of the [count] unsigned integers from offset [off]. *)
Definition uints_at (off : Z) (count : nat) (l : list Z) : list Z :=
  (fun i => le_at 4 (off + 4 * Z.of_nat i) l) <$> seq 0 count.

Fixpoint put_uints (off : Z) (vs : list Z) (l : list Z) : list Z :=
  match vs with
  | [] => l
  | v :: vs => put_uints (off + 4) vs (put_le 4 off v l)
  end.

Lemma length_put_uints off vs l :
  0 <= off -> off + 4 * Z.of_nat (length vs) <= Z.of_nat (length l) ->
  length (put_uints off vs l) = length l.
Proof.
  revert off l. induction vs as [|v vs IH]; intros off l Ho Hl; simpl in *; [done|].
  assert (length (put_le 4 off v l) = length l) by (apply length_put_le; lia).
  rewrite IH by lia. done.
Qed.

Lemma le_at_put_uints_ne off vs n' off' l :
  0 <= off -> 0 <= off' -> off + 4 * Z.of_nat (length vs) <= Z.of_nat (length l) ->
  off' + Z.of_nat n' <= off \/ off + 4 * Z.of_nat (length vs) <= off' ->
  le_at n' off' (put_uints off vs l) = le_at n' off' l.
Proof.
  revert off l. induction vs as [|v vs IH]; intros off l Ho Ho' Hl Hd; simpl in *; [done|].
  assert (length (put_le 4 off v l) = length l) by (apply length_put_le; lia).
  rewrite IH by lia. apply le_at_put_le_ne; lia.
Qed.

Lemma uints_at_put_uints off vs l :
  0 <= off -> off + 4 * Z.of_nat (length vs) <= Z.of_nat (length l) ->
  uints_at off (length vs) (put_uints off vs l) = u32 <$> vs.
Proof.
  revert off l. induction vs as [|v vs IH]; intros off l Ho Hl; [done|].
  cbn [put_uints length] in *.
  assert (Hlen : length (put_le 4 off v l) = length l) by (apply length_put_le; lia).
  unfold uints_at. rewrite fmap_cons. cbn [seq]. rewrite fmap_cons. f_equal.
  - rewrite le_at_put_uints_ne by lia. rewrite Z.add_0_r, le_at_put_le_eq by lia. done.
  - rewrite <- (IH (off + 4) (put_le 4 off v l)) by lia. unfold uints_at.
    rewrite <- fmap_S_seq, <- list_fmap_compose. apply list_fmap_ext. intros i x _.
    unfold compose. f_equal. lia.
Qed.
