(* ===== verification/Params.v ===== *)
(** * Constants and address macros

    [src/kernel/param.h], [src/kernel/memlayout.h] and the page macros of
    [src/kernel/riscv.h]. *)

From S2P Require Import Prelude.

(** ** param.h *)

Definition NPROC : Z := 64.
Definition NCPU : Z := 8.
Definition NOFILE : Z := 16.
Definition NFILE : Z := 100.
Definition NINODE : Z := 50.
Definition NDEV : Z := 10.
Definition ROOTDEV : Z := 1.
Definition MAXARG : Z := 32.
Definition MAXOPBLOCKS : Z := 10.
Definition LOGBLOCKS : Z := MAXOPBLOCKS * 3.
Definition NBUF : Z := MAXOPBLOCKS * 3.
Definition FSSIZE : Z := 2000.
Definition MAXPATH : Z := 128.
Definition USERSTACK : Z := 1.

Definition NQUEUES : Z := 4.
Definition TIME_SLICE_0 : Z := 4.
Definition TIME_SLICE_1 : Z := 8.
Definition TIME_SLICE_2 : Z := 16.
Definition TIME_SLICE_3 : Z := 32.
Definition PROMO_THRESHOLD : Z := 10.
Definition INIT_RR_INDEX : Z := 0.

(** The indices of the process table, [proc[0]] to [proc[NPROC-1]]. *)
Definition proc_ids : list nat := seq 0 (Z.to_nat NPROC).
#[global] Arguments proc_ids : simpl never.

Lemma elem_of_proc_ids i : i ∈ proc_ids <-> (i < Z.to_nat NPROC)%nat.
Proof. unfold proc_ids. rewrite elem_of_seq. lia. Qed.

(** ** riscv.h: pages and page-table entries *)

Definition PGSIZE : Z := 4096.
Definition PGSHIFT : Z := 12.

(** [(((sz)+PGSIZE-1) & ~(PGSIZE-1))] on [uint64]. *)
Definition PGROUNDUP (sz : Z) : Z := u64 (Z.land (sz + PGSIZE - 1) (Z.lnot (PGSIZE - 1))).
Definition PGROUNDDOWN (a : Z) : Z := Z.land a (Z.lnot (PGSIZE - 1)).

Definition PTE_V : Z := Z.shiftl 1 0.
Definition PTE_R : Z := Z.shiftl 1 1.
Definition PTE_W : Z := Z.shiftl 1 2.
Definition PTE_X : Z := Z.shiftl 1 3.
Definition PTE_U : Z := Z.shiftl 1 4.

Definition PA2PTE (pa : Z) : Z := Z.shiftl (Z.shiftr pa 12) 10.
Definition PTE2PA (pte : Z) : Z := Z.shiftl (Z.shiftr pte 10) 12.
Definition PTE_FLAGS (pte : Z) : Z := Z.land pte 0x3FF.

Definition PXMASK : Z := 0x1FF.
Definition PXSHIFT (level : Z) : Z := PGSHIFT + 9 * level.
Definition PX (level va : Z) : Z := Z.land (Z.shiftr va (PXSHIFT level)) PXMASK.

Definition MAXVA : Z := Z.shiftl 1 (9 + 9 + 9 + 12 - 1).

Definition SATP_SV39 : Z := Z.shiftl 8 60.
Definition MAKE_SATP (pagetable : Z) : Z := Z.lor SATP_SV39 (Z.shiftr pagetable 12).

(** ** memlayout.h *)

Definition UART0 : Z := 0x10000000.
Definition UART0_IRQ : Z := 10.
Definition VIRTIO0 : Z := 0x10001000.
Definition VIRTIO0_IRQ : Z := 1.
Definition PLIC : Z := 0x0c000000.
Definition KERNBASE : Z := 0x80000000.
Definition PHYSTOP : Z := KERNBASE + 128 * 1024 * 1024.
Definition TRAMPOLINE : Z := MAXVA - PGSIZE.
Definition KSTACK (p : Z) : Z := TRAMPOLINE - (p + 1) * 2 * PGSIZE.
Definition TRAPFRAME : Z := TRAMPOLINE - PGSIZE.

(** Unfold the constants so that [lia] sees their values. *)
Ltac params :=
  unfold NPROC, NCPU, NOFILE, NFILE, NINODE, NDEV, ROOTDEV, MAXARG, LOGBLOCKS,
    NBUF, MAXOPBLOCKS, FSSIZE, MAXPATH, USERSTACK, NQUEUES, TIME_SLICE_0,
    TIME_SLICE_1, TIME_SLICE_2, TIME_SLICE_3, PROMO_THRESHOLD, INIT_RR_INDEX in *.

Ltac layout :=
  unfold TRAPFRAME, KSTACK, TRAMPOLINE, PHYSTOP, KERNBASE, MAXVA, PGSIZE, PGSHIFT in *;
  change (Z.shiftl 1 (9 + 9 + 9 + 12 - 1)) with 274877906944 in *.

(** ** Facts of the macros *)

Lemma land_page_mask a : Z.land a (Z.lnot (PGSIZE - 1)) = a - a mod PGSIZE.
Proof.
  change (PGSIZE - 1) with (Z.ones 12). change PGSIZE with (2 ^ 12).
  rewrite <- Z.ldiff_land, Z.ldiff_ones_r by lia.
  rewrite Z.shiftl_mul_pow2, Z.shiftr_div_pow2 by lia.
  pose proof (Z.div_mod a (2 ^ 12)). lia.
Qed.

Lemma PGROUNDDOWN_spec a : PGROUNDDOWN a = a - a mod PGSIZE.
Proof. apply land_page_mask. Qed.

Lemma PGROUNDUP_spec sz :
  0 <= sz <= 2 ^ 64 - PGSIZE ->
  PGROUNDUP sz mod PGSIZE = 0 /\ sz <= PGROUNDUP sz < sz + PGSIZE.
Proof.
  intros Hsz. unfold PGROUNDUP. rewrite land_page_mask. unfold PGSIZE in *.
  assert (Hr : 0 <= sz + 4096 - 1 - (sz + 4096 - 1) mod 4096 < 2 ^ 64).
  { Z.div_mod_to_equations. lia. }
  rewrite u64_small by exact Hr. split; Z.div_mod_to_equations; lia.
Qed.

(** A page-aligned physical address survives the trip through a PTE, whatever
    the ten flag bits are: [PTE2PA(PA2PTE(pa) | flags) == pa]. *)
Lemma PTE2PA_PA2PTE pa flags :
  0 <= pa -> pa mod PGSIZE = 0 -> 0 <= flags < 2 ^ 10 ->
  PTE2PA (Z.lor (PA2PTE pa) flags) = pa.
Proof.
  intros Hpa Hal Hf. unfold PTE2PA, PA2PTE.
  rewrite Z.shiftr_lor, Z.shiftr_shiftl_l by lia.
  rewrite (Z.shiftr_div_pow2 flags), (Z.div_small flags) by lia.
  rewrite Z.lor_0_r, Z.sub_diag, Z.shiftl_0_r.
  rewrite Z.shiftl_mul_pow2, Z.shiftr_div_pow2 by lia. unfold PGSIZE in Hal.
  Z.div_mod_to_equations. lia.
Qed.

Lemma PTE_FLAGS_PA2PTE pa flags :
  0 <= flags < 2 ^ 10 -> PTE_FLAGS (Z.lor (PA2PTE pa) flags) = flags.
Proof.
  intros Hf. unfold PTE_FLAGS, PA2PTE. change 0x3FF with (Z.ones 10).
  rewrite Z.land_lor_distr_l, !Z.land_ones by lia.
  rewrite Z.shiftl_mul_pow2, Z.mod_mul by lia.
  by rewrite Z.lor_0_l, Z.mod_small by lia.
Qed.

Lemma PX_range level va : 0 <= PX level va < 512.
Proof.
  unfold PX, PXMASK. change 0x1FF with (Z.ones 9). rewrite Z.land_ones by lia.
  apply Z.mod_pos_bound. lia.
Qed.

Lemma PX_div level va : 0 <= level -> PX level va = (va / 2 ^ (12 + 9 * level)) mod 512.
Proof.
  intros. unfold PX, PXMASK, PXSHIFT, PGSHIFT. change 0x1FF with (Z.ones 9).
  rewrite Z.land_ones, Z.shiftr_div_pow2 by lia. done.
Qed.

(** The three indices of a virtual address below [MAXVA] determine its page. *)
Lemma PX_inj va1 va2 :
  0 <= va1 < MAXVA -> 0 <= va2 < MAXVA ->
  PX 0 va1 = PX 0 va2 -> PX 1 va1 = PX 1 va2 -> PX 2 va1 = PX 2 va2 ->
  va1 / PGSIZE = va2 / PGSIZE.
Proof.
  rewrite !PX_div by lia. layout. intros H1 H2.
  change (2 ^ (12 + 9 * 0)) with 4096. change (2 ^ (12 + 9 * 1)) with (4096 * 512).
  change (2 ^ (12 + 9 * 2)) with (4096 * 512 * 512).
  rewrite <- !Z.div_div by lia.
  assert (0 <= va1 / 4096 < 512 * 512 * 512) by (Z.div_mod_to_equations; lia).
  assert (0 <= va2 / 4096 < 512 * 512 * 512) by (Z.div_mod_to_equations; lia).
  set (a := va1 / 4096) in *. set (b := va2 / 4096) in *. clearbody a b.
  intros. Z.div_mod_to_equations. lia.
Qed.

(** ** vm.h *)

Definition SBRK_EAGER : Z := 1.
Definition SBRK_LAZY : Z := 2.
