(* ===== verification/FsTypes.v ===== *)
(** * The data of the file system and of the devices

    The structs of [fs.h], [buf.h], [sleeplock.h], [file.h], [stat.h], [virtio.h]
    and of [log.c], [pipe.c], [console.c], [uart.c] and [virtio_disk.c], with the
    global variables of these files gathered in two records. A disk block is a
    list of [BSIZE] bytes; an in-memory object that the code reaches through a
    pointer is an index into its table. *)

From S2P Require Import Prelude Params.

(** ** fs.h *)

Definition ROOTINO : Z := 1.
Definition BSIZE : Z := 1024.
Definition FSMAGIC : Z := 0x10203040.
Definition NDIRECT : Z := 12.
Definition NINDIRECT : Z := BSIZE / 4.
Definition MAXFILE : Z := NDIRECT + NINDIRECT.
Definition sizeof_dinode : Z := 64.
Definition IPB : Z := BSIZE / sizeof_dinode.
Definition BPB : Z := BSIZE * 8.
Definition DIRSIZ : Z := 14.
Definition sizeof_dirent : Z := 16.

Record superblock : Type := Superblock {
  magic : Z;
  sb_size : Z;
  nblocks : Z;
  ninodes : Z;
  nlog : Z;
  logstart : Z;
  inodestart : Z;
  bmapstart : Z;
}.

(** The block with inode [i], and the block of the free map with the bit of
    block [b], in unsigned arithmetic. *)
Definition IBLOCK (i : Z) (sb : superblock) : Z := u32 (i / IPB + inodestart sb).
Definition BBLOCK (b : Z) (sb : superblock) : Z := u32 (b / BPB + bmapstart sb).

Record dinode : Type := Dinode {
  di_type : Z;
  di_major : Z;
  di_minor : Z;
  di_nlink : Z;
  di_size : Z;
  di_addrs : list Z;
}.

Record dirent : Type := Dirent { de_inum : Z; de_name : list Z }.

(** ** stat.h and fcntl.h *)

Definition T_DIR : Z := 1.
Definition T_FILE : Z := 2.
Definition T_DEVICE : Z := 3.

Definition O_RDONLY : Z := 0x000.
Definition O_WRONLY : Z := 0x001.
Definition O_RDWR : Z := 0x002.
Definition O_CREATE : Z := 0x200.
Definition O_TRUNC : Z := 0x400.

Record stat : Type := Stat {
  st_dev : Z;
  st_ino : Z;
  st_type : Z;
  st_nlink : Z;
  st_size : Z;
}.

(** ** pstat.h *)

Record pstat : Type := Pstat {
  isused : list Z;
  ps_pid : list Z;
  ps_ppid : list Z;
  pname : list (list Z);
  ps_priority : list Z;
  pstate : list Z;
  memsize : list Z;
}.

#[export] Instance eta_pstat : Eta pstat :=
  fun r => Pstat r.(isused) r.(ps_pid) r.(ps_ppid) r.(pname) r.(ps_priority) r.(pstate) r.(memsize).

(** ** sleeplock.h and buf.h *)

(** The [lk] field of a sleep lock is the spin lock [LkSleep a], where [a]
    identifies the sleep lock. *)
Record sleeplock : Type := Sleeplock {
  sl_locked : Z;
  sl_name : string;
  sl_pid : Z;
}.

#[export] Instance eta_sleeplock : Eta sleeplock :=
  fun r => Sleeplock r.(sl_locked) r.(sl_name) r.(sl_pid).

(** [prev] and [next] are indices; [bcache.buf[i]] is number [i] and [bcache.head]
    is number [NBUF]. *)
Record buf : Type := Buf {
  b_valid : Z;
  b_disk : Z;
  b_dev : Z;
  b_blockno : Z;
  b_refcnt : Z;
  b_prev : nat;
  b_next : nat;
  b_data : list Z;
}.

#[export] Instance eta_buf : Eta buf :=
  fun r => Buf r.(b_valid) r.(b_disk) r.(b_dev) r.(b_blockno) r.(b_refcnt) r.(b_prev)
    r.(b_next) r.(b_data).

Definition bhead : nat := Z.to_nat NBUF.

(** ** log.c *)

Record logheader : Type := Logheader { lh_n : Z; lh_block : list Z }.

#[export] Instance eta_logheader : Eta logheader := fun r => Logheader r.(lh_n) r.(lh_block).

Record log : Type := Log {
  log_start : Z;
  log_outstanding : Z;
  log_committing : Z;
  log_dev : Z;
  log_lh : logheader;
}.

#[export] Instance eta_log : Eta log :=
  fun r => Log r.(log_start) r.(log_outstanding) r.(log_committing) r.(log_dev) r.(log_lh).

(** ** file.h and pipe.c *)

Record inode : Type := Inode {
  i_dev : Z;
  i_inum : Z;
  i_ref : Z;
  i_valid : Z;
  i_type : Z;
  i_major : Z;
  i_minor : Z;
  i_nlink : Z;
  i_size : Z;
  i_addrs : list Z;
}.

#[export] Instance eta_inode : Eta inode :=
  fun r => Inode r.(i_dev) r.(i_inum) r.(i_ref) r.(i_valid) r.(i_type) r.(i_major)
    r.(i_minor) r.(i_nlink) r.(i_size) r.(i_addrs).

Inductive fdtype : Type := FD_NONE | FD_PIPE | FD_INODE | FD_DEVICE.

#[export] Instance fdtype_eq_dec : EqDecision fdtype.
Proof. solve_decision. Defined.

Record file : Type := File {
  f_type : fdtype;
  f_ref : Z;
  f_readable : Z;
  f_writable : Z;
  f_pipe : Z;
  f_ip : option nat;
  f_off : Z;
  f_major : Z;
}.

#[export] Instance eta_file : Eta file :=
  fun r => File r.(f_type) r.(f_ref) r.(f_readable) r.(f_writable) r.(f_pipe) r.(f_ip)
    r.(f_off) r.(f_major).

Definition CONSOLE : Z := 1.
Definition PIPESIZE : Z := 512.

(** The functions that [devsw] entries can point to: [consoleread] and
    [consolewrite] are the only ones of the kernel. *)
Inductive driver : Type := DrvConsole.

Record devsw : Type := Devsw { dv_read : option driver; dv_write : option driver }.

#[export] Instance eta_devsw : Eta devsw := fun r => Devsw r.(dv_read) r.(dv_write).

(** A pipe lives in the page of memory that [kalloc()] gave for it; the model
    keeps its fields beside the page. *)
Record pipe : Type := Pipe {
  pi_data : list Z;
  pi_nread : Z;
  pi_nwrite : Z;
  pi_readopen : Z;
  pi_writeopen : Z;
}.

#[export] Instance eta_pipe : Eta pipe :=
  fun r => Pipe r.(pi_data) r.(pi_nread) r.(pi_nwrite) r.(pi_readopen) r.(pi_writeopen).

(** ** virtio.h and virtio_disk.c *)

Definition NUM : Z := 8.

(** What a descriptor's [addr] points to. *)
Inductive dma : Type :=
| DmaNull
| DmaOps (i : nat)      (* &disk.ops[i] *)
| DmaData (b : nat)     (* bcache.buf[b].data *)
| DmaStatus (i : nat).  (* &disk.info[i].status *)

#[export] Instance dma_eq_dec : EqDecision dma.
Proof. solve_decision. Defined.

Record virtq_desc : Type := VirtqDesc { vd_addr : dma; vd_len : Z; vd_flags : Z; vd_next : Z }.

#[export] Instance eta_virtq_desc : Eta virtq_desc :=
  fun r => VirtqDesc r.(vd_addr) r.(vd_len) r.(vd_flags) r.(vd_next).

Record virtio_blk_req : Type := BlkReq { rq_type : Z; rq_reserved : Z; rq_sector : Z }.

(** [info[i]]: the buffer of the request, and its status byte. *)
Record vinfo : Type := Vinfo { vi_b : option nat; vi_status : Z }.

#[export] Instance eta_vinfo : Eta vinfo := fun r => Vinfo r.(vi_b) r.(vi_status).

(** [struct disk], with the rings that its pointers [avail] and [used] reach. *)
Record disk : Type := Disk {
  d_desc : list virtq_desc;
  d_avail_idx : Z;
  d_avail_ring : list Z;
  d_used_idx : Z;       (* used->idx *)
  d_used_ring : list Z; (* used->ring[].id *)
  d_free : list Z;
  d_seen_idx : Z;       (* disk.used_idx *)
  d_info : list vinfo;
  d_ops : list virtio_blk_req;
  d_pages : Z * Z * Z;  (* the pages of desc, avail and used *)
}.

#[export] Instance eta_disk : Eta disk :=
  fun r => Disk r.(d_desc) r.(d_avail_idx) r.(d_avail_ring) r.(d_used_idx) r.(d_used_ring)
    r.(d_free) r.(d_seen_idx) r.(d_info) r.(d_ops) r.(d_pages).

(** ** console.c, uart.c, printf.c and main.c *)

Definition INPUT_BUF_SIZE : Z := 128.

Record console : Type := Console { c_buf : list Z; c_r : Z; c_w : Z; c_e : Z }.

#[export] Instance eta_console : Eta console := fun r => Console r.(c_buf) r.(c_r) r.(c_w) r.(c_e).

(** ** The global variables *)

(** [fs_blocks] is what the disk itself holds and [fs_writes] the blocks written
    to it, newest first: the persistent part of the state. *)
Record fsst : Type := FsSt {
  fs_sleep : gmap Z sleeplock;
  fs_bufs : list buf;
  fs_blocks : gmap Z (list Z);
  fs_writes : list (Z * list Z);
  fs_log : log;
  fs_sb : superblock;
  fs_inodes : list inode;
  fs_files : list file;
  fs_pipes : gmap Z pipe;
  fs_devsw : list devsw;
}.

#[export] Instance eta_fsst : Eta fsst :=
  fun r => FsSt r.(fs_sleep) r.(fs_bufs) r.(fs_blocks) r.(fs_writes) r.(fs_log) r.(fs_sb)
    r.(fs_inodes) r.(fs_files) r.(fs_pipes) r.(fs_devsw).

Record devst : Type := DevSt {
  dev_disk : disk;
  dev_cons : console;
  dev_tx_busy : Z;
  dev_panicking : Z;
  dev_panicked : Z;
  dev_started : Z;
}.

#[export] Instance eta_devst : Eta devst :=
  fun r => DevSt r.(dev_disk) r.(dev_cons) r.(dev_tx_busy) r.(dev_panicking) r.(dev_panicked)
    r.(dev_started).

(** ** The data segment at boot *)

Definition zero_block : list Z := replicate (Z.to_nat BSIZE) 0.
Definition buf_zero : buf := Buf 0 0 0 0 0 0 0 zero_block.
Definition superblock_zero : superblock := Superblock 0 0 0 0 0 0 0 0.
Definition log_zero : log := Log 0 0 0 0 (Logheader 0 (replicate (Z.to_nat LOGBLOCKS) 0)).
Definition inode_zero : inode := Inode 0 0 0 0 0 0 0 0 0 (replicate (Z.to_nat (NDIRECT + 1)) 0).
Definition file_zero : file := File FD_NONE 0 0 0 0 None 0 0.

Definition fsst_zero : fsst :=
  FsSt ∅ (replicate (Z.to_nat NBUF + 1) buf_zero) ∅ [] log_zero superblock_zero
    (replicate (Z.to_nat NINODE) inode_zero) (replicate (Z.to_nat NFILE) file_zero) ∅
    (replicate (Z.to_nat NDEV) (Devsw None None)).

Definition desc_zero : virtq_desc := VirtqDesc DmaNull 0 0 0.

Definition disk_zero : disk :=
  let n := Z.to_nat NUM in
  Disk (replicate n desc_zero) 0 (replicate n 0) 0 (replicate n 0) (replicate n 0) 0
    (replicate n (Vinfo None 0)) (replicate n (BlkReq 0 0 0)) (0, 0, 0).

Definition devst_zero : devst :=
  DevSt disk_zero (Console (replicate (Z.to_nat INPUT_BUF_SIZE) 0) 0 0 0) 0 0 0 0.

#[global] Arguments zero_block : simpl never.
#[global] Arguments fsst_zero : simpl never.
#[global] Arguments devst_zero : simpl never.
