(* ===== verification/Machine.v ===== *)
(** * The machine, the kernel's data and the kernel monad

    The hart registers the kernel reads and writes ([src/kernel/riscv.h]), the
    structures of [src/kernel/spinlock.h] and [src/kernel/proc.h], the kernel's
    global variables as one record [kstate], and the monad in which every
    kernel function is written: state passing with panics, undefined
    behaviour, blocking on a spin lock and context switches as outcomes. *)

From S2P Require Import Prelude Params FsTypes.

(** ** Locks and channels *)

(** The spin locks of the kernel: one constructor per [struct spinlock]
    variable or field. *)
Inductive lockid : Type :=
| LkPid                 (* pid_lock, proc.c *)
| LkWait                (* wait_lock, proc.c *)
| LkProc (i : nat)      (* proc[i].lock *)
| LkTicks               (* tickslock, trap.c *)
| LkKmem                (* kmem.lock, kalloc.c *)
| LkCons                (* cons.lock, console.c *)
| LkTx                  (* tx_lock, uart.c *)
| LkPr                  (* pr.lock, printf.c *)
| LkBcache              (* bcache.lock, bio.c *)
| LkLog                 (* log.lock, log.c *)
| LkItable              (* itable.lock, fs.c *)
| LkFtable              (* ftable.lock, file.c *)
| LkDisk                (* disk.vdisk_lock, virtio_disk.c *)
| LkPipe (pi : Z)       (* pi->lock, pipe.c *)
| LkSleep (a : Z).      (* the lk field of the sleep lock at a *)

Definition lockid_code (l : lockid) : Z * Z :=
  match l with
  | LkPid => (0, 0) | LkWait => (1, 0) | LkProc i => (2, Z.of_nat i)
  | LkTicks => (3, 0) | LkKmem => (4, 0) | LkCons => (5, 0) | LkTx => (6, 0)
  | LkPr => (7, 0) | LkBcache => (8, 0) | LkLog => (9, 0) | LkItable => (10, 0)
  | LkFtable => (11, 0) | LkDisk => (12, 0) | LkPipe pi => (13, pi)
  | LkSleep a => (14, a)
  end.

Definition lockid_decode (c : Z * Z) : lockid :=
  match c with
  | (0, _) => LkPid | (1, _) => LkWait | (2, i) => LkProc (Z.to_nat i)
  | (3, _) => LkTicks | (4, _) => LkKmem | (5, _) => LkCons | (6, _) => LkTx
  | (7, _) => LkPr | (8, _) => LkBcache | (9, _) => LkLog | (10, _) => LkItable
  | (11, _) => LkFtable | (12, _) => LkDisk | (13, pi) => LkPipe pi
  | (_, a) => LkSleep a
  end.

Lemma lockid_decode_code l : lockid_decode (lockid_code l) = l.
Proof. destruct l; simpl; by rewrite ?Nat2Z.id. Qed.

#[export] Instance lockid_eq_dec : EqDecision lockid.
Proof. solve_decision. Defined.

#[export] Instance lockid_countable : Countable lockid :=
  inj_countable' lockid_code lockid_decode lockid_decode_code.

(** The addresses processes sleep on: [sleep(p, ..)] in [kwait],
    [sleep(&ticks, ..)], [sleep(lk, ..)] on a sleep lock, [sleep(&log, ..)], the
    two counters of a pipe, [&cons.r], [&tx_chan], and the disk's channels. *)
Inductive chanid : Type :=
| ChProc (i : nat)
| ChTicks
| ChSleep (a : Z)
| ChLog
| ChNread (pi : Z)
| ChNwrite (pi : Z)
| ChCons
| ChTx
| ChDiskFree
| ChBuf (b : Z).

#[export] Instance chanid_eq_dec : EqDecision chanid.
Proof. solve_decision. Defined.

(** [struct spinlock]. *)
Record spinlock : Type := Spinlock {
  locked : Z;
  lk_name : string;
  lk_cpu : option nat;  (* the cpu holding the lock *)
}.

#[export] Instance eta_spinlock : Eta spinlock :=
  fun r => Spinlock r.(locked) r.(lk_name) r.(lk_cpu).

(** ** Harts and CPUs *)

(** The control registers of a hart. [sstatus] is kept as its three bits the
    kernel uses: SIE, SPIE and SPP. *)
Record hart : Type := Hart {
  sie : bool;
  spie : bool;
  spp : bool;
  scause : Z;
  sepc : Z;
  stval : Z;
  stvec : Z;
  satp : Z;
  stimecmp : Z;
  time : Z;
}.

#[export] Instance eta_hart : Eta hart :=
  fun r => Hart r.(sie) r.(spie) r.(spp) r.(scause) r.(sepc) r.(stval) r.(stvec)
    r.(satp) r.(stimecmp) r.(time).

(** [struct context]: the registers [swtch] saves, [cs] being s0 to s11. *)
Record context : Type := Context { ra : Z; sp : Z; cs : list Z }.

Definition context_zero : context := Context 0 0 (replicate 12 0).

(** [struct cpu]. A [struct proc *] is an index into [proc[]], [None] for a
    null pointer. *)
Record cpu : Type := Cpu {
  c_proc : option nat;
  c_context : context;
  noff : Z;
  intena : bool;
}.

#[export] Instance eta_cpu : Eta cpu :=
  fun r => Cpu r.(c_proc) r.(c_context) r.(noff) r.(intena).

(** ** Processes *)

(** [enum procstate], with the numbers the compiler gives its constants. *)
Inductive procstate : Type := UNUSED | USED | SLEEPING | RUNNABLE | RUNNING | ZOMBIE.

#[export] Instance procstate_eq_dec : EqDecision procstate.
Proof. solve_decision. Defined.

Definition procstate_code (st : procstate) : Z :=
  match st with
  | UNUSED => 0 | USED => 1 | SLEEPING => 2 | RUNNABLE => 3 | RUNNING => 4 | ZOMBIE => 5
  end.

(** [struct proc]; its [lock] is [LkProc i] of the lock map. Pointers to
    kernel objects are indices into their tables, pages are addresses. *)
Record proc : Type := Proc {
  p_state : procstate;
  p_chan : option chanid;
  p_killed : Z;
  p_xstate : Z;
  p_pid : Z;
  p_parent : option nat;
  p_kstack : Z;
  p_sz : Z;
  p_pagetable : Z;
  p_trapframe : Z;
  p_context : context;
  p_ofile : list (option nat);
  p_cwd : option nat;
  p_name : list Z;
  priority : Z;
  timer_ticks_used : Z;
  wait_timer_ticks : Z;
  max_time_slice : Z;
  queue_level : Z;
  voluntarily_yielded : Z;
}.

#[export] Instance eta_proc : Eta proc :=
  fun r => Proc r.(p_state) r.(p_chan) r.(p_killed) r.(p_xstate) r.(p_pid)
    r.(p_parent) r.(p_kstack) r.(p_sz) r.(p_pagetable) r.(p_trapframe) r.(p_context)
    r.(p_ofile) r.(p_cwd) r.(p_name) r.(priority) r.(timer_ticks_used)
    r.(wait_timer_ticks) r.(max_time_slice) r.(queue_level) r.(voluntarily_yielded).

(** A process slot of the zero-initialised [proc[]] array. *)
Definition proc_zero : proc :=
  Proc UNUSED None 0 0 0 None 0 0 0 0 context_zero
    (replicate (Z.to_nat NOFILE) None) None (replicate 16 0) 0 0 0 0 0 0.

(** ** The kernel state *)

(** What the lock functions work on: the running hart ([tp]), the harts, the
    [cpus] array and the spin locks. *)
Record syncst : Type := SyncSt {
  s_hart : nat;
  s_harts : list hart;
  s_cpus : list cpu;
  s_locks : gmap lockid spinlock;
}.

#[export] Instance eta_syncst : Eta syncst :=
  fun r => SyncSt r.(s_hart) r.(s_harts) r.(s_cpus) r.(s_locks).

(** The addresses the linker fixes ([src/kernel/kernel.ld]): the end of the
    kernel's text, its trampoline page, the first address after the kernel, and
    the entry points the kernel stores in registers and trap frames. *)
Record symbols : Type := Symbols {
  sym_etext : Z;
  sym_trampoline : Z;
  sym_end : Z;
  sym_forkret : Z;
  sym_kernelvec : Z;
  sym_usertrap : Z;
  sym_uservec : Z;
  sym_userret : Z;
}.

(** The global variables of the kernel. [k_mem] is the physical memory the
    page allocator hands out, a map from addresses to bytes; [k_out] is the
    console output, newest first. *)
Record kstate : Type := KState {
  k_sync : syncst;
  k_procs : list proc;  (* proc[NPROC] *)
  k_initproc : option nat;
  k_nextpid : Z;
  k_rr : list (list Z);  (* rr_state[NCPU].last_queued_proc[NQUEUES] *)
  k_ticks : Z;
  k_mem : gmap Z Z;
  k_freelist : Z;  (* kmem.freelist *)
  k_out : list string;
  k_syms : symbols;
  k_kpgtbl : Z;  (* kernel_pagetable *)
  k_first : Z;  (* the static variable first of forkret *)
  k_fs : fsst;
  k_dev : devst;
}.

#[export] Instance eta_kstate : Eta kstate :=
  fun r => KState r.(k_sync) r.(k_procs) r.(k_initproc) r.(k_nextpid) r.(k_rr)
    r.(k_ticks) r.(k_mem) r.(k_freelist) r.(k_out)
    r.(k_syms) r.(k_kpgtbl) r.(k_first) r.(k_fs) r.(k_dev).

(** The data segment at boot, all zero, with hart [h] running, and a kernel
    image of one megabyte. *)
Definition hart_zero : hart := Hart false false false 0 0 0 0 0 0 0.
Definition cpu_zero : cpu := Cpu None context_zero 0 false.

Definition symbols_1M : symbols :=
  Symbols 0x80008000 0x80007000 0x80100000 0x80001f00 0x80005000 0x80002000 0x80007000 0x8000709a.

Definition kstate_zero (h : nat) : kstate :=
  KState
    (SyncSt h (replicate (Z.to_nat NCPU) hart_zero) (replicate (Z.to_nat NCPU) cpu_zero) ∅)
    (replicate (Z.to_nat NPROC) proc_zero) None 1
    (replicate (Z.to_nat NCPU) (replicate (Z.to_nat NQUEUES) 0)) 0 ∅ 0 []
    symbols_1M 0 1 fsst_zero devst_zero.

(** ** The kernel monad *)

(** Why a computation stops without a result: [panic(msg)]; undefined
    behaviour (a null pointer or an index out of range); a spin on a lock that
    another hart holds; an endless loop [for(;;);]; a loop bound of the model that
    was too small. *)
Inductive stop : Type :=
| SPanic (msg : string)
| SFault
| SSpin (l : lockid)
| SHang
| SFuel.

(** Where [swtch] goes: back to the scheduler of the hart, or to a process. *)
Inductive target : Type := ToScheduler | ToProc (i : nat).

(** The outcome of a kernel function. [Swtch t s k] is a call of [swtch] in
    state [s]; the rest of the function, [k], runs when the thread is switched
    to again, in the state of that moment. *)
Inductive outcome (A : Type) : Type :=
| Ret (a : A) (s : kstate)
| Stop (why : stop)
| Swtch (t : target) (s : kstate) (k : kstate -> outcome A).
Arguments Ret {A} a s.
Arguments Stop {A} why.
Arguments Swtch {A} t s k.

Definition M (A : Type) : Type := kstate -> outcome A.

Definition ret {A} (a : A) : M A := fun s => Ret a s.

Fixpoint obind {A B} (o : outcome A) (f : A -> M B) : outcome B :=
  match o with
  | Ret a s => f a s
  | Stop w => Stop w
  | Swtch t s k => Swtch t s (fun s' => obind (k s') f)
  end.

Definition bind {A B} (m : M A) (f : A -> M B) : M B := fun s => obind (m s) f.

Notation "x ← y ; z" := (bind y (fun x => z))
  (at level 20, y at level 100, z at level 200, only parsing) : kernel_scope.
Notation "' x ← y ; z" := (bind y (fun x => z))
  (at level 20, x pattern, y at level 100, z at level 200, only parsing) : kernel_scope.
Notation "y ;; z" := (bind y (fun _ => z))
  (at level 100, z at level 200, only parsing, right associativity) : kernel_scope.

Definition stop_ {A} (w : stop) : M A := fun _ => Stop w.
Definition panic {A} (msg : string) : M A := stop_ (SPanic msg).
Definition fault {A} : M A := stop_ SFault.
Definition get : M kstate := fun s => Ret s s.
Definition gets {A} (f : kstate -> A) : M A := fun s => Ret (f s) s.
Definition modify (f : kstate -> kstate) : M unit := fun s => Ret tt (f s).
Definition swtch (t : target) : M unit := fun s => Swtch t s (fun s' => Ret tt s').
Definition when (b : bool) (m : M unit) : M unit := if b then m else ret tt.

(** [printf] for its effect on the console. *)
Definition printf (msg : string) : M unit :=
  modify (fun s => s <| k_out := msg :: k_out s |>).

(** A [for] loop over the elements of an array, and one with an early return. *)
Fixpoint for_each {A} (l : list A) (f : A -> M unit) : M unit :=
  match l with
  | [] => ret tt
  | x :: l => f x;; for_each l f
  end.

Fixpoint for_find {A B} (l : list A) (f : A -> M (option B)) : M (option B) :=
  match l with
  | [] => ret None
  | x :: l => r ← f x; match r with Some b => ret (Some b) | None => for_find l f end
  end.

(** ** Access to the arrays *)

(** [proc[i]] as a value, and the update of its fields. *)
Definition get_proc (i : nat) : M proc :=
  fun s => match k_procs s !! i with Some p => Ret p s | None => Stop SFault end.

Definition put_proc (i : nat) (p : proc) (s : kstate) : kstate :=
  s <| k_procs := <[i := p]> (k_procs s) |>.

Definition upd_proc (i : nat) (f : proc -> proc) : M unit :=
  p ← get_proc i; modify (put_proc i (f p)).

(** [*p] for a [struct proc *]: a null pointer faults. *)
Definition deref (p : option nat) : M nat :=
  match p with Some i => ret i | None => fault end.

Definition lift_sync {A} (f : syncst -> stop + (A * syncst)) : M A :=
  fun s => match f (k_sync s) with
           | inl w => Stop w
           | inr (a, y) => Ret a (s <| k_sync := y |>)
           end.

(** ** Reasoning about outcomes *)

Lemma bind_Ret {A B} (m : M A) (f : A -> M B) s a s' :
  m s = Ret a s' -> bind m f s = f a s'.
Proof. intros H. unfold bind. by rewrite H. Qed.

Lemma bind_Swtch {A B} (m : M A) (f : A -> M B) s t s' k :
  m s = Swtch t s' k -> bind m f s = Swtch t s' (fun s'' => obind (k s'') f).
Proof. intros H. unfold bind. by rewrite H. Qed.

Lemma bind_Stop {A B} (m : M A) (f : A -> M B) s w :
  m s = Stop w -> bind m f s = Stop w.
Proof. intros H. unfold bind. by rewrite H. Qed.

Lemma upd_proc_run i f s p :
  k_procs s !! i = Some p -> upd_proc i f s = Ret tt (put_proc i (f p) s).
Proof. intros H. unfold upd_proc, bind, get_proc. by rewrite H. Qed.

Lemma put_proc_lookup i p s j :
  (i < length (k_procs s))%nat ->
  k_procs (put_proc i p s) !! j = if decide (i = j) then Some p else k_procs s !! j.
Proof. intros. by apply list_lookup_insert_if. Qed.

Lemma put_proc_length i p s : length (k_procs (put_proc i p s)) = length (k_procs s).
Proof. apply length_insert. Qed.

Lemma put_proc_id i p s : k_procs s !! i = Some p -> put_proc i p s = s.
Proof. intros H. destruct s; unfold put_proc; simpl in *. by rewrite list_insert_id. Qed.

(** A loop whose body acts on the state as a function of it. *)
Lemma for_each_run {A} (l : list A) (f : A -> M unit) (g : A -> kstate -> kstate)
    (P : kstate -> Prop) s :
  P s ->
  (forall x s, x ∈ l -> P s -> f x s = Ret tt (g x s) /\ P (g x s)) ->
  for_each l f s = Ret tt (foldl (fun s x => g x s) s l) /\ P (foldl (fun s x => g x s) s l).
Proof.
  revert s. induction l as [|x l IH]; intros s Hs Hf; [done|]. simpl.
  destruct (Hf x s) as [E HP]; [by left|done|].
  unfold bind at 1. rewrite E. simpl.
  apply IH; [done|]. intros. apply Hf; [by right|done].
Qed.

(** A loop with an invariant over the elements visited so far. *)
Lemma for_each_inv {A} (l : list A) (f : A -> M unit) (I : list A -> kstate -> Prop) s :
  I [] s ->
  (forall l1 x s, I l1 s -> x ∈ l -> exists s', f x s = Ret tt s' /\ I (l1 ++ [x]) s') ->
  exists s', for_each l f s = Ret tt s' /\ I l s'.
Proof.
  intros H0 Hf.
  assert (Hg : forall l2 l1 s, (forall x, x ∈ l2 -> x ∈ l) -> I l1 s ->
    exists s', for_each l2 f s = Ret tt s' /\ I (l1 ++ l2) s').
  { induction l2 as [|x l2 IH]; intros l1 s1 Hsub H1; simpl.
    - exists s1. by rewrite app_nil_r.
    - destruct (Hf l1 x s1) as (s2 & E & H2); [done|apply Hsub; by left|].
      unfold bind. rewrite E. simpl.
      destruct (IH (l1 ++ [x]) s2) as (s3 & E3 & H3); [|done|].
      + intros y Hy. apply Hsub. by right.
      + exists s3. split; [done|]. by rewrite <- app_assoc in H3. }
  by apply (Hg l []).
Qed.
