(* ===== verification/Spinlock.v ===== *)
(** * Spin locks

    [src/kernel/spinlock.c]: the lock functions on the running hart, with the
    panics of the source, and the protocol of several harts contending for one
    lock as a step relation. *)

From S2P Require Import Prelude Params Machine.

(** ** Registers and per-CPU data *)

Definition r_tp : M nat := gets (fun s => s_hart (k_sync s)).

(** [cpuid()] and [mycpu()]: the index of the running hart into [cpus]. *)
Definition cpuid : M nat := r_tp.
Definition mycpu : M nat := cpuid.

Definition get_cpu (c : nat) : M cpu :=
  fun s => match s_cpus (k_sync s) !! c with Some x => Ret x s | None => Stop SFault end.

Definition put_cpu (c : nat) (x : cpu) (y : syncst) : syncst :=
  y <| s_cpus := <[c := x]> (s_cpus y) |>.

Definition upd_cpu (c : nat) (f : cpu -> cpu) : M unit :=
  x ← get_cpu c; modify (fun s => s <| k_sync := put_cpu c (f x) (k_sync s) |>).

(** The registers of the running hart. *)
Definition get_hart : M hart :=
  fun s => match s_harts (k_sync s) !! s_hart (k_sync s) with
           | Some h => Ret h s
           | None => Stop SFault
           end.

Definition put_hart (h : hart) (y : syncst) : syncst :=
  y <| s_harts := <[s_hart y := h]> (s_harts y) |>.

Definition upd_hart (f : hart -> hart) : M unit :=
  h ← get_hart; modify (fun s => s <| k_sync := put_hart (f h) (k_sync s) |>).

Definition intr_get : M bool := h ← get_hart; ret (sie h).
Definition intr_on : M unit := upd_hart (fun h => h <| sie := true |>).
Definition intr_off : M unit := upd_hart (fun h => h <| sie := false |>).

(** [lk->locked], [lk->cpu]. *)
Definition get_lock (l : lockid) : M spinlock :=
  fun s => match s_locks (k_sync s) !! l with Some x => Ret x s | None => Stop SFault end.

Definition put_lock (l : lockid) (x : spinlock) (y : syncst) : syncst :=
  y <| s_locks := <[l := x]> (s_locks y) |>.

Definition upd_lock (l : lockid) (f : spinlock -> spinlock) : M unit :=
  x ← get_lock l; modify (fun s => s <| k_sync := put_lock l (f x) (k_sync s) |>).

(** ** spinlock.c *)

Definition initlock (l : lockid) (name : string) : M unit :=
  modify (fun s => s <| k_sync := put_lock l (Spinlock 0 name None) (k_sync s) |>).

Definition holding (l : lockid) : M bool :=
  x ← get_lock l;
  c ← mycpu;
  ret (truthy (locked x) && bool_decide (lk_cpu x = Some c)).

Definition push_off : M unit :=
  old ← intr_get;
  intr_off;;
  c ← mycpu;
  x ← get_cpu c;
  when (noff x =? 0) (upd_cpu c (fun x => x <| intena := old |>));;
  c ← mycpu;
  upd_cpu c (fun x => x <| noff := s32 (noff x + 1) |>).

Definition pop_off : M unit :=
  c ← mycpu;
  i ← intr_get;
  if i then panic "pop_off - interruptible"
  else
    x ← get_cpu c;
    if noff x <? 1 then panic "pop_off"
    else
      upd_cpu c (fun x => x <| noff := s32 (noff x - 1) |>);;
      x ← get_cpu c;
      when ((noff x =? 0) && intena x) intr_on.

(** [__sync_lock_test_and_set(&lk->locked, 1)]: an atomic swap that returns the
    old value. *)
Definition test_and_set (l : lockid) : M Z :=
  x ← get_lock l;
  upd_lock l (fun x => x <| locked := 1 |>);;
  ret (locked x).

(** The [while] loop of [acquire] ends when the swap returns 0; while another
    hart holds the lock it does not end, which is the outcome [SSpin]. *)
Definition acquire (l : lockid) : M unit :=
  push_off;;
  h ← holding l;
  if h then panic "acquire"
  else
    old ← test_and_set l;
    if truthy old then stop_ (SSpin l)
    else
      c ← mycpu;
      upd_lock l (fun x => x <| lk_cpu := Some c |>).

Definition release (l : lockid) : M unit :=
  h ← holding l;
  if negb h then panic "release"
  else
    upd_lock l (fun x => x <| lk_cpu := None |>);;
    upd_lock l (fun x => x <| locked := 0 |>);;
    pop_off.

(** ** What the lock functions do to the state *)

(** The running hart has registers and a [struct cpu], [push_off] is nested
    [d] deep on it, and interrupts are off when it is nested at all. *)
Definition sync_at (d : Z) (y : syncst) : Prop :=
  exists h c, s_harts y !! s_hart y = Some h /\ s_cpus y !! s_hart y = Some c /\
    noff c = d /\ (0 < d -> sie h = false).

Definition lock_free (l : lockid) (y : syncst) : Prop :=
  exists name, s_locks y !! l = Some (Spinlock 0 name None).

Definition lock_held (l : lockid) (y : syncst) : Prop :=
  exists name, s_locks y !! l = Some (Spinlock 1 name (Some (s_hart y))).

(** [push_off] at nesting [d] and [pop_off] back to [d]. *)
Definition pushed (y : syncst) : syncst :=
  match s_harts y !! s_hart y, s_cpus y !! s_hart y with
  | Some h, Some c =>
      put_cpu (s_hart y)
        (Cpu (c_proc c) (c_context c) (s32 (noff c + 1))
           (if noff c =? 0 then sie h else intena c))
        (put_hart (h <| sie := false |>) y)
  | _, _ => y
  end.

Definition popped (y : syncst) : syncst :=
  match s_harts y !! s_hart y, s_cpus y !! s_hart y with
  | Some h, Some c =>
      put_hart (h <| sie := (s32 (noff c - 1) =? 0) && intena c |>)
        (put_cpu (s_hart y) (c <| noff := s32 (noff c - 1) |>) y)
  | _, _ => y
  end.

Definition set_locked (l : lockid) (v : Z) (o : option nat) (y : syncst) : syncst :=
  match s_locks y !! l with
  | Some x => put_lock l (Spinlock v (lk_name x) o) y
  | None => y
  end.

Definition acquired (l : lockid) (y : syncst) : syncst :=
  set_locked l 1 (Some (s_hart y)) (pushed y).

Definition released (l : lockid) (y : syncst) : syncst :=
  popped (set_locked l 0 None y).

(** What remains of a matched pair: outside of any [push_off], [intena]
    records whether interrupts are on. *)
Definition settle (y : syncst) : syncst :=
  match s_harts y !! s_hart y, s_cpus y !! s_hart y with
  | Some h, Some c =>
      put_cpu (s_hart y) (c <| intena := if noff c =? 0 then sie h else intena c |>) y
  | _, _ => y
  end.

Definition ksync (f : syncst -> syncst) (s : kstate) : kstate :=
  s <| k_sync := f (k_sync s) |>.

(** ** Equations of the lock functions *)

Ltac msimpl := unfold bind, ret, gets, get, modify, when, panic, fault, stop_; simpl.

Lemma get_hart_run s h :
  s_harts (k_sync s) !! s_hart (k_sync s) = Some h -> get_hart s = Ret h s.
Proof. intros H. unfold get_hart. by rewrite H. Qed.

Lemma upd_hart_run f s h :
  s_harts (k_sync s) !! s_hart (k_sync s) = Some h ->
  upd_hart f s = Ret tt (ksync (put_hart (f h)) s).
Proof. intros H. unfold upd_hart, bind. by rewrite (get_hart_run _ _ H). Qed.

Lemma get_cpu_run c s x : s_cpus (k_sync s) !! c = Some x -> get_cpu c s = Ret x s.
Proof. intros H. unfold get_cpu. by rewrite H. Qed.

Lemma upd_cpu_run c f s x :
  s_cpus (k_sync s) !! c = Some x -> upd_cpu c f s = Ret tt (ksync (put_cpu c (f x)) s).
Proof. intros H. unfold upd_cpu, bind. by rewrite (get_cpu_run _ _ _ H). Qed.

Lemma get_lock_run l s x : s_locks (k_sync s) !! l = Some x -> get_lock l s = Ret x s.
Proof. intros H. unfold get_lock. by rewrite H. Qed.

Lemma upd_lock_run l f s x :
  s_locks (k_sync s) !! l = Some x -> upd_lock l f s = Ret tt (ksync (put_lock l (f x)) s).
Proof. intros H. unfold upd_lock, bind. by rewrite (get_lock_run _ _ _ H). Qed.

Lemma push_off_run d s :
  sync_at d (k_sync s) -> push_off s = Ret tt (ksync pushed s).
Proof.
  intros (h & c & Hh & Hc & Hd & Hs).
  assert (s_hart (k_sync s) < length (s_cpus (k_sync s)))%nat by by eapply lookup_lt_Some.
  unfold push_off, intr_get, intr_off, mycpu, cpuid, r_tp. msimpl.
  rewrite (get_hart_run _ _ Hh). simpl. rewrite (upd_hart_run _ _ _ Hh). simpl.
  erewrite (get_cpu_run _ _ c) by exact Hc. simpl. unfold ksync, pushed. rewrite Hh, Hc.
  destruct (noff c =? 0) eqn:E.
  - erewrite upd_cpu_run by exact Hc. simpl.
    erewrite upd_cpu_run by (simpl; by apply list_lookup_insert_eq). simpl.
    unfold ksync, put_cpu. simpl. by rewrite list_insert_insert_eq.
  - simpl. erewrite upd_cpu_run by exact Hc. simpl. unfold ksync, put_cpu. done.
Qed.

Lemma pop_off_run d s :
  sync_at d (k_sync s) -> 0 < d < 2 ^ 31 -> pop_off s = Ret tt (ksync popped s).
Proof.
  intros (h & c & Hh & Hc & <- & Hs) Hd.
  assert (s_hart (k_sync s) < length (s_cpus (k_sync s)))%nat by by eapply lookup_lt_Some.
  unfold pop_off, intr_get, intr_on, mycpu, cpuid, r_tp. msimpl.
  rewrite (get_hart_run _ _ Hh). simpl. rewrite Hs by lia.
  rewrite (get_cpu_run _ _ _ Hc). simpl.
  destruct (noff c <? 1) eqn:E; bool_to_prop; [lia|].
  erewrite upd_cpu_run by exact Hc. simpl.
  erewrite get_cpu_run by (simpl; by apply list_lookup_insert_eq). simpl.
  unfold ksync, popped. rewrite Hh, Hc.
  destruct (_ && _) eqn:E2.
  - erewrite upd_hart_run by exact Hh. done.
  - destruct s as [y]; simpl in *. unfold put_hart, put_cpu; simpl. do 2 f_equal.
    rewrite (list_insert_id (s_harts y)); [done|]. rewrite Hh. f_equal.
    destruct h; simpl in *. rewrite Hs by lia. done.
Qed.

Lemma pushed_sync_at d y : sync_at d y -> 0 <= d < 2 ^ 31 - 1 -> sync_at (d + 1) (pushed y).
Proof.
  intros (h & c & Hh & Hc & <- & Hs) Hd. unfold pushed. rewrite Hh, Hc.
  eexists _, _. simpl. rewrite !list_lookup_insert_eq by by eapply lookup_lt_Some.
  split_and!; [done|done| |done]. simpl. rewrite s32_small; lia.
Qed.

Lemma set_locked_sync_at d l v o y : sync_at d y -> sync_at d (set_locked l v o y).
Proof. intros H. unfold set_locked. by case_match. Qed.

Lemma acquired_sync_at d l y :
  sync_at d y -> 0 <= d < 2 ^ 31 - 1 -> sync_at (d + 1) (acquired l y).
Proof. intros. unfold acquired. by apply set_locked_sync_at, pushed_sync_at. Qed.

Lemma pushed_locks y : s_locks (pushed y) = s_locks y.
Proof. unfold pushed. by repeat case_match. Qed.

Lemma pushed_hart y : s_hart (pushed y) = s_hart y.
Proof. unfold pushed. by repeat case_match. Qed.

Lemma popped_locks y : s_locks (popped y) = s_locks y.
Proof. unfold popped. by repeat case_match. Qed.

Lemma popped_hart y : s_hart (popped y) = s_hart y.
Proof. unfold popped. by repeat case_match. Qed.

Lemma settle_locks y : s_locks (settle y) = s_locks y.
Proof. unfold settle. by repeat case_match. Qed.

Lemma settle_hart y : s_hart (settle y) = s_hart y.
Proof. unfold settle. by repeat case_match. Qed.

Lemma set_locked_hart l v o y : s_hart (set_locked l v o y) = s_hart y.
Proof. unfold set_locked. by case_match. Qed.

Lemma acquire_run d l s :
  sync_at d (k_sync s) -> 0 <= d < 2 ^ 31 - 1 -> lock_free l (k_sync s) ->
  acquire l s = Ret tt (ksync (acquired l) s).
Proof.
  intros Hs Hd [name Hl]. unfold acquire, holding, test_and_set, mycpu, cpuid, r_tp. msimpl.
  rewrite (push_off_run _ _ Hs). simpl.
  erewrite get_lock_run by (simpl; by rewrite pushed_locks). simpl.
  erewrite get_lock_run by (simpl; by rewrite pushed_locks). simpl.
  erewrite upd_lock_run by (simpl; by rewrite pushed_locks). simpl.
  erewrite upd_lock_run by (simpl; by rewrite lookup_insert_eq). simpl.
  unfold ksync, acquired, set_locked, put_lock. simpl. rewrite pushed_locks, Hl. simpl.
  rewrite insert_insert_eq, pushed_hart. done.
Qed.

Lemma release_run d l s :
  sync_at d (k_sync s) -> 0 < d < 2 ^ 31 -> lock_held l (k_sync s) ->
  release l s = Ret tt (ksync (released l) s).
Proof.
  intros Hs Hd [name Hl]. unfold release, holding, mycpu, cpuid, r_tp. msimpl.
  rewrite (get_lock_run _ _ _ Hl). simpl. rewrite bool_decide_true by done. simpl.
  rewrite (upd_lock_run _ _ _ _ Hl). simpl.
  erewrite upd_lock_run by (simpl; by rewrite lookup_insert_eq). simpl.
  erewrite pop_off_run; [|by destruct Hs as (h & c & ?); exists h, c|done].
  unfold ksync, released, set_locked, put_lock. simpl. rewrite Hl, insert_insert_eq. done.
Qed.

Lemma acquired_held l y : lock_free l y -> lock_held l (acquired l y).
Proof.
  intros [name H]. exists name. unfold acquired, set_locked. rewrite pushed_locks, H.
  simpl. rewrite lookup_insert_eq, pushed_hart. done.
Qed.

Lemma acquired_other l l' y : l <> l' -> s_locks (acquired l y) !! l' = s_locks y !! l'.
Proof.
  intros. unfold acquired, set_locked. rewrite pushed_locks.
  case_match; simpl; rewrite ?pushed_locks; [by rewrite lookup_insert_ne|done].
Qed.

Lemma released_other l l' y : l <> l' -> s_locks (released l y) !! l' = s_locks y !! l'.
Proof.
  intros. unfold released, set_locked. rewrite popped_locks.
  case_match; simpl; [by rewrite lookup_insert_ne|done].
Qed.

Lemma released_free l y : lock_held l y -> lock_free l (released l y).
Proof.
  intros [name H]. exists name. unfold released, set_locked. rewrite popped_locks, H.
  simpl. by rewrite lookup_insert_eq.
Qed.

Lemma released_sync_at d l y :
  sync_at d y -> 0 < d < 2 ^ 31 -> sync_at (d - 1) (released l y).
Proof.
  intros H Hd. unfold released.
  apply (set_locked_sync_at _ l 0 None) in H. revert H.
  generalize (set_locked l 0 None y). clear y. intros y (h & c & Hh & Hc & <- & Hs).
  unfold popped. rewrite Hh, Hc. eexists _, _. simpl.
  rewrite !list_lookup_insert_eq by by eapply lookup_lt_Some.
  split_and!; [done|done| |]; simpl; rewrite s32_small by lia; [done|].
  intros. destruct (_ =? 0) eqn:E; bool_to_prop; [lia|done].
Qed.

Lemma popped_pushed d y :
  sync_at d y -> 0 <= d < 2 ^ 31 - 1 -> popped (pushed y) = settle y.
Proof.
  intros (h & c & Hh & Hc & <- & Hs) Hd.
  assert (Hlc := lookup_lt_Some _ _ _ Hc). assert (Hlh := lookup_lt_Some _ _ _ Hh).
  unfold pushed, popped, settle. rewrite Hh, Hc. simpl.
  rewrite !list_lookup_insert_eq by done. simpl.
  destruct y as [hh hs cs ls]; unfold put_hart, put_cpu; simpl in *.
  rewrite !list_insert_insert_eq, (s32_small (noff c + 1)) by lia.
  rewrite Z.add_simpl_r, s32_small by lia. f_equal.
  apply list_insert_id. rewrite Hh. destruct h; simpl in *. do 2 f_equal.
  destruct (noff c =? 0) eqn:E; bool_to_prop; [done|]. rewrite Hs by lia. done.
Qed.

Lemma set_locked_free l y :
  lock_free l y -> set_locked l 0 None (set_locked l 1 (Some (s_hart y)) y) = y.
Proof.
  intros [name Hl]. unfold set_locked. rewrite Hl. simpl. rewrite lookup_insert_eq.
  destruct y; unfold put_lock; simpl in *. by rewrite insert_insert_eq, insert_id.
Qed.

(** A critical section with an empty body leaves the lock state as it was but
    for [intena]. *)
Lemma released_acquired d l y :
  sync_at d y -> 0 <= d < 2 ^ 31 - 1 -> lock_free l y ->
  released l (acquired l y) = settle y.
Proof.
  intros Hs Hd Hl. unfold released, acquired.
  rewrite <- (pushed_hart y), set_locked_free, (popped_pushed d); [done..|].
  unfold lock_free. by rewrite pushed_locks.
Qed.

Lemma settle_sync_at d y : sync_at d y -> sync_at d (settle y).
Proof.
  intros (h & c & Hh & Hc & Hd & Hs). unfold settle. rewrite Hh, Hc.
  eexists h, _. simpl. rewrite list_lookup_insert_eq by by eapply lookup_lt_Some.
  split_and!; done.
Qed.

Lemma settle_settle y : settle (settle y) = settle y.
Proof.
  unfold settle at 1 3. unfold settle.
  destruct (s_harts y !! s_hart y) as [h|] eqn:Hh; [|by rewrite Hh].
  destruct (s_cpus y !! s_hart y) as [c|] eqn:Hc; [|by rewrite Hh, Hc].
  simpl. rewrite Hh, list_lookup_insert_eq by by eapply lookup_lt_Some.
  unfold put_cpu. simpl. rewrite list_insert_insert_eq. by destruct (noff c =? 0).
Qed.

Lemma settle_lock_free l y : lock_free l (settle y) <-> lock_free l y.
Proof. unfold lock_free. by rewrite settle_locks. Qed.

(** A critical section whose body keeps the lock state of its entry. *)
Lemma crit_run {A} d l (b : M A) s a s2 :
  sync_at d (k_sync s) -> 0 <= d < 2 ^ 31 - 1 -> lock_free l (k_sync s) ->
  b (ksync (acquired l) s) = Ret a s2 -> k_sync s2 = acquired l (k_sync s) ->
  (acquire l;; x ← b; release l;; ret x) s = Ret a (s2 <| k_sync := settle (k_sync s) |>).
Proof.
  intros Hs Hd Hl Hb Hy. unfold bind. rewrite (acquire_run _ _ _ Hs Hd Hl). simpl.
  rewrite Hb. simpl. rewrite (release_run (d + 1)).
  - simpl. unfold ksync. by rewrite Hy, (released_acquired d).
  - rewrite Hy. by apply acquired_sync_at.
  - lia.
  - rewrite Hy. by apply acquired_held.
Qed.

(** ** Harts contending for one lock *)

Module Contention.

(** Where a hart is in [acquire(lk)] or [release(lk)]. *)
Inductive pc : Type :=
| Idle       (* outside *)
| Checking   (* acquire: after push_off, before holding(lk) *)
| Trying     (* acquire: in the test-and-set loop *)
| Got        (* acquire: the swap returned 0, lk->cpu not yet written *)
| Critical   (* between acquire and release *)
| Leaving    (* release: lk->cpu cleared, lk->locked not yet cleared *)
| Panicked.  (* panic("acquire") or panic("release") *)

#[export] Instance pc_eq_dec : EqDecision pc.
Proof. solve_decision. Defined.

Record state : Type := State { lk : spinlock; pcs : list pc }.

Definition init (name : string) (n : nat) : state :=
  State (Spinlock 0 name None) (replicate n Idle).

(** [holding(lk)] on hart [i]. *)
Definition holds (i : nat) (x : spinlock) : bool :=
  truthy (locked x) && bool_decide (lk_cpu x = Some i).

(** The next shared-memory access of hart [i]. *)
Definition access (i : nat) (x : spinlock) (p : pc) : spinlock * pc :=
  match p with
  | Idle => (x, Checking)
  | Checking => (x, if holds i x then Panicked else Trying)
  | Trying => (x <| locked := 1 |>, if truthy (locked x) then Trying else Got)
  | Got => (x <| lk_cpu := Some i |>, Critical)
  | Critical => if holds i x then (x <| lk_cpu := None |>, Leaving) else (x, Panicked)
  | Leaving => (x <| locked := 0 |>, Idle)
  | Panicked => (x, Panicked)
  end.

Inductive step : state -> state -> Prop :=
| step_hart i st p x' p' :
    pcs st !! i = Some p -> access i (lk st) p = (x', p') ->
    step st (State x' (<[i := p']> (pcs st))).

(** The same as a function, for a schedule given as the list of the harts that
    move. *)
Definition move (st : state) (i : nat) : state :=
  match pcs st !! i with
  | Some p => let '(x', p') := access i (lk st) p in State x' (<[i := p']> (pcs st))
  | None => st
  end.

Definition run (sched : list nat) (st : state) : state := foldl move st sched.

(** The code between the swap that takes the lock and the store that frees it. *)
Definition inside (p : pc) : bool :=
  match p with Got | Critical | Leaving => true | _ => false end.

Record inv (st : state) : Prop := Inv {
  inv_free : locked (lk st) = 0 -> forall i p, pcs st !! i = Some p -> inside p = false;
  inv_range : locked (lk st) = 0 \/ locked (lk st) = 1;
  inv_taken : locked (lk st) = 1 -> exists i p, pcs st !! i = Some p /\ inside p = true;
  inv_one : forall i j p q, pcs st !! i = Some p -> pcs st !! j = Some q ->
    inside p = true -> inside q = true -> i = j;
  inv_owner : forall i, lk_cpu (lk st) = Some i <-> pcs st !! i = Some Critical;
  inv_panic : forall i, pcs st !! i <> Some Panicked;
}.

Lemma init_inv name n : inv (init name n).
Proof.
  assert (H : forall i p, replicate n Idle !! i = Some p -> p = Idle).
  { intros i p Hp. by apply lookup_replicate in Hp as [-> _]. }
  split; simpl.
  - intros _ i p Hp. by rewrite (H _ _ Hp).
  - by left.
  - done.
  - intros i j p q Hp. by rewrite (H _ _ Hp).
  - intros i. split; [done|]. intros Hp. by apply H in Hp.
  - intros i Hp. by apply H in Hp.
Qed.

(** What a move of hart [i] has to keep. *)
Lemma inv_update st i p x' p' :
  inv st -> pcs st !! i = Some p -> p' <> Panicked ->
  (locked x' = 0 \/ locked x' = 1) ->
  (locked x' = 0 -> inside p' = false /\ (inside p = true \/ locked (lk st) = 0)) ->
  (locked x' = 1 -> inside p' = true \/ (inside p = false /\ locked (lk st) = 1)) ->
  (inside p' = true -> inside p = true \/ locked (lk st) = 0) ->
  lk_cpu x' = (if decide (p' = Critical) then Some i
               else if decide (p = Critical) then None else lk_cpu (lk st)) ->
  inv (State x' (<[i := p']> (pcs st))).
Proof.
  intros [Hfree _ Htaken Hone Howner Hpanic] Hp Hnp Hr Hz Ho Hi Hc.
  assert (Hlt := lookup_lt_Some _ _ _ Hp).
  assert (Hout : forall j q, inside p = true \/ locked (lk st) = 0 -> j <> i ->
    pcs st !! j = Some q -> inside q = false).
  { intros j q [Hin|Hl] Hne Hq; [|by eapply Hfree].
    destruct (inside q) eqn:E; [|done]. destruct Hne. by eapply Hone. }
  split; simpl.
  - intros Hl j q. destruct (Hz Hl). rewrite list_lookup_insert_if by done.
    destruct (decide (i = j)); [by intros; simplify_eq|]. apply Hout; [done|congruence].
  - done.
  - intros Hl. destruct (Ho Hl) as [Hin|[Hin Hl0]].
    + exists i, p'. by rewrite list_lookup_insert_eq.
    + destruct (Htaken Hl0) as (j & q & Hj & Hq). exists j, q.
      rewrite list_lookup_insert_ne; [done|congruence].
  - intros j k q r. rewrite !list_lookup_insert_if by done.
    destruct (decide (i = j)), (decide (i = k)); subst.
    + done.
    + intros; simplify_eq. assert (inside r = false) by eauto. congruence.
    + intros; simplify_eq. assert (inside q = false) by eauto. congruence.
    + apply Hone.
  - intros j. rewrite list_lookup_insert_if, Hc by done.
    specialize (Howner j). repeat case_decide; subst; naive_solver.
  - intros j. rewrite list_lookup_insert_if by done.
    destruct (decide (i = j)); [congruence|apply Hpanic].
Qed.

Lemma step_inv st st' : inv st -> step st st' -> inv st'.
Proof.
  intros Hinv Hst. destruct Hst as [i st p x' p' Hp Ha].
  assert (Hin : inside p = true -> locked (lk st) = 1).
  { intros Hi. destruct (inv_range _ Hinv) as [H0|]; [|done].
    by rewrite (inv_free _ Hinv H0 _ _ Hp) in Hi. }
  assert (Hold : holds i (lk st) = true <-> p = Critical).
  { unfold holds. rewrite andb_true_iff, truthy_true, bool_decide_eq_true.
    rewrite (inv_owner _ Hinv), Hp. split; [by intros [_ [= ->]]|].
    intros ->. rewrite Hin by done. split; [lia|done]. }
  assert (Hown : p <> Critical -> holds i (lk st) = false).
  { intros Hne. destruct (holds i (lk st)); [|done]. tauto. }
  pose proof (inv_range _ Hinv) as Hr.
  destruct p; simpl in Ha, Hin.
  2: rewrite Hown in Ha by done.
  3: destruct (truthy (locked (lk st))) eqn:Et; bool_to_prop.
  6: rewrite (proj2 Hold eq_refl) in Ha.
  8: by destruct (inv_panic _ Hinv i).
  all: injection Ha as <- <-;
    apply (inv_update _ _ _ _ _ Hinv Hp); simpl; try done; intuition lia.
Qed.

Lemma move_step st i p : pcs st !! i = Some p -> step st (move st i).
Proof.
  intros Hp. unfold move. rewrite Hp. destruct (access i (lk st) p) eqn:E.
  by econstructor.
Qed.

Lemma run_inv sched st : inv st -> inv (run sched st).
Proof.
  revert st. induction sched as [|i sched IH]; intros st H; simpl; [done|].
  apply IH. destruct (pcs st !! i) eqn:E.
  - eapply step_inv, move_step; eauto.
  - unfold move. by rewrite E.
Qed.

(** C29. Mutual exclusion of [acquire]/[release] for any number of harts and any
    interleaving of their memory accesses: two harts are never both between
    the swap that takes the lock and the store that frees it, the lock word is
    0 exactly when no hart is there, [holding()] answers true on exactly the hart
    in the critical section, and neither panic of the two functions is reached. *)
Theorem spinlock_mutual_exclusion name n sched :
  let st := run sched (init name n) in
  (forall i j p q, pcs st !! i = Some p -> pcs st !! j = Some q ->
     inside p = true -> inside q = true -> i = j) /\
  (locked (lk st) = 0 <-> forall i p, pcs st !! i = Some p -> inside p = false) /\
  (forall i, holds i (lk st) = true <-> pcs st !! i = Some Critical) /\
  (forall i, pcs st !! i <> Some Panicked).
Proof.
  intros st0. destruct (run_inv sched _ (init_inv name n)) as [Hf Hr Ht H1 Ho Hp].
  fold st0 in Hf, Hr, Ht, H1, Ho, Hp. split_and!; [done| | |done].
  - split; [by auto|]. intros Hout. destruct Hr as [|Hl]; [done|].
    destruct (Ht Hl) as (i & p & Hi & Hin). rewrite (Hout _ _ Hi) in Hin. done.
  - intros i. unfold holds. rewrite andb_true_iff, truthy_true, bool_decide_eq_true, Ho.
    split; [by intros []|]. intros Hi. split; [|done]. intros Hl.
    by specialize (Hf Hl _ _ Hi).
Qed.

(** Two harts contend: the first is in the critical section, the second spins. *)
Example contention_example :
  pcs (run [0; 1; 0; 1; 0; 1; 0; 1]%nat (init "lk" 2)) = [Critical; Trying].
Proof. reflexivity. Qed.

End Contention.

Lemma pushed_settle y : pushed (settle y) = pushed y.
Proof.
  unfold settle. destruct (s_harts y !! s_hart y) as [h|] eqn:Hh; [|done].
  destruct (s_cpus y !! s_hart y) as [c|] eqn:Hc; [|done].
  assert (Hlc := lookup_lt_Some _ _ _ Hc).
  unfold pushed. simpl. rewrite Hh, Hc, list_lookup_insert_eq by done.
  unfold put_cpu, put_hart. simpl. rewrite list_insert_insert_eq.
  by destruct (noff c =? 0).
Qed.

Lemma acquired_settle l y : acquired l (settle y) = acquired l y.
Proof. unfold acquired. by rewrite pushed_settle, settle_hart. Qed.

(** ** Critical sections in two steps *)

(** The running hart is at depth [d] and [l] is free. *)
Definition can_lock (d : Z) (l : lockid) (y : syncst) : Prop :=
  sync_at d y /\ 0 <= d < 1000 /\ lock_free l y.

Lemma can_lock_acquire d l s :
  can_lock d l (k_sync s) -> acquire l s = Ret tt (ksync (acquired l) s).
Proof. intros (Hs & Hd & Hl). apply (acquire_run d); [done|lia|done]. Qed.

Lemma can_lock_release d l y s2 :
  can_lock d l y -> k_sync s2 = acquired l y ->
  release l s2 = Ret tt (s2 <| k_sync := settle y |>).
Proof.
  intros (Hs & Hd & Hl) Hy. rewrite (release_run (d + 1)).
  - unfold ksync. rewrite Hy, (released_acquired d); [done|done|lia|done].
  - rewrite Hy. apply acquired_sync_at; [done|lia].
  - lia.
  - rewrite Hy. by apply acquired_held.
Qed.

Lemma can_lock_settle d l y : can_lock d l y -> can_lock d l (settle y).
Proof. intros (Hs & Hd & Hl). split; [by apply settle_sync_at|]. by rewrite settle_lock_free. Qed.

#[export] Hint Resolve can_lock_settle : xv6.
