(* ===== verification/ProcCore.v ===== *)
(** * The core of the process module

    The part of [src/kernel/proc.c] every other component calls: the current
    process, process ids, [sched], [yield], [sleep], [wakeup], [kkill] and the
    [killed] flag. *)

From S2P Require Import Prelude Params Machine Spinlock.

(** ** proc.c *)

Definition myproc : M (option nat) :=
  push_off;;
  c ← mycpu;
  x ← get_cpu c;
  let p := c_proc x in
  pop_off;;
  ret p.

(** [struct proc *p = myproc();] where the source then dereferences [p]. *)
Definition myproc_deref : M nat := p ← myproc; deref p.

Definition allocpid : M Z :=
  acquire LkPid;;
  pid ← gets k_nextpid;
  modify (fun s => s <| k_nextpid := s32 (k_nextpid s + 1) |>);;
  release LkPid;;
  ret pid.

Definition sched : M unit :=
  p ← myproc_deref;
  h ← holding (LkProc p);
  if negb h then panic "sched p->lock" else
  c ← mycpu;
  x ← get_cpu c;
  if negb (noff x =? 1) then panic "sched locks" else
  pp ← get_proc p;
  if bool_decide (p_state pp = RUNNING) then panic "sched RUNNING" else
  i ← intr_get;
  if i : bool then panic "sched interruptible" else
  c ← mycpu;
  x ← get_cpu c;
  let ie := intena x in
  swtch ToScheduler;;
  c ← mycpu;
  upd_cpu c (fun x => x <| intena := ie |>).

Definition yield : M unit :=
  p ← myproc_deref;
  acquire (LkProc p);;
  upd_proc p (fun r => r <| p_state := RUNNABLE |>);;
  upd_proc p (fun r => r <| voluntarily_yielded := 1 |>);;
  sched;;
  release (LkProc p).

Definition sleep (chan : option chanid) (lk : lockid) : M unit :=
  p ← myproc_deref;
  acquire (LkProc p);;
  release lk;;
  upd_proc p (fun r => r <| p_chan := chan |>);;
  upd_proc p (fun r => r <| p_state := SLEEPING |>);;
  upd_proc p (fun r => r <| voluntarily_yielded := 1 |>);;
  sched;;
  upd_proc p (fun r => r <| p_chan := None |>);;
  release (LkProc p);;
  acquire lk.

Definition wakeup (chan : option chanid) : M unit :=
  for_each proc_ids (fun p =>
    me ← myproc;
    when (bool_decide (me <> Some p))
      (acquire (LkProc p);;
       r ← get_proc p;
       when (bool_decide (p_state r = SLEEPING) && bool_decide (p_chan r = chan))
         (upd_proc p (fun r => r <| p_state := RUNNABLE |>));;
       release (LkProc p))).

(** The body of the loop of [kkill], [Some 0] being its [return 0]. *)
Definition kkill_slot (pid : Z) (p : nat) : M (option Z) :=
  acquire (LkProc p);;
  r ← get_proc p;
  if p_pid r =? pid then
    upd_proc p (fun r => r <| p_killed := 1 |>);;
    when (bool_decide (p_state r = SLEEPING))
      (upd_proc p (fun r => r <| p_state := RUNNABLE |>));;
    release (LkProc p);;
    ret (Some 0)
  else
    release (LkProc p);;
    ret None.

Definition kkill (pid : Z) : M Z :=
  r ← for_find proc_ids (kkill_slot pid);
  ret (default (-1) r).

Definition setkilled (p : nat) : M unit :=
  acquire (LkProc p);;
  upd_proc p (fun r => r <| p_killed := 1 |>);;
  release (LkProc p).

Definition killed (p : nat) : M Z :=
  acquire (LkProc p);;
  r ← get_proc p;
  let k := p_killed r in
  release (LkProc p);;
  ret k.

(** ** Loops over the process table *)

(** The update of one slot as a function of the state. *)
Definition at_proc (p : nat) (g : proc -> proc) (s : kstate) : kstate :=
  s <| k_procs := alter g p (k_procs s) |>.

(** The running hart is at nesting depth [d] and holds none of the process
    locks; the process table has its NPROC slots. *)
Record kok (d : Z) (s : kstate) : Prop := Kok {
  kok_sync : sync_at d (k_sync s);
  kok_depth : 0 <= d < 1000;
  kok_locks : forall p, (p < Z.to_nat NPROC)%nat -> lock_free (LkProc p) (k_sync s);
  kok_procs : length (k_procs s) = Z.to_nat NPROC;
}.

Lemma kok_lookup d s p :
  kok d s -> (p < Z.to_nat NPROC)%nat -> exists r, k_procs s !! p = Some r.
Proof. intros H Hp. apply lookup_lt_is_Some. by rewrite (kok_procs _ _ H). Qed.

Lemma kok_settle d s : kok d s -> kok d (ksync settle s).
Proof.
  intros [Hs Hd Hl Hp]. split; simpl; [by apply settle_sync_at|done| |done].
  intros. apply settle_lock_free. auto.
Qed.

Lemma kok_at_proc d p g s : kok d s -> kok d (at_proc p g s).
Proof. intros [Hs Hd Hl Hp]. split; simpl; try done. by rewrite length_alter. Qed.

Lemma kok_set_procs d s l :
  kok d s -> length l = Z.to_nat NPROC -> kok d (s <| k_procs := l |>).
Proof. intros [Hs Hd Hl Hp] ?. by split. Qed.

#[export] Hint Resolve kok_settle kok_at_proc kok_sync : xv6.

Lemma ksync_settle_settle s : ksync settle (ksync settle s) = ksync settle s.
Proof. unfold ksync. simpl. by rewrite settle_settle. Qed.

Lemma put_proc_at p g s r :
  k_procs s !! p = Some r -> put_proc p (g r) s = at_proc p g s.
Proof.
  intros H. unfold put_proc, at_proc. simpl. by rewrite (list_alter_as_insert _ _ _ _ H).
Qed.

Lemma upd_proc_at p g s r :
  k_procs s !! p = Some r -> upd_proc p g s = Ret tt (at_proc p g s).
Proof. intros H. by rewrite (upd_proc_run _ _ _ _ H), (put_proc_at _ _ _ _ H). Qed.

Lemma at_proc_lookup p g s : k_procs (at_proc p g s) !! p = g <$> k_procs s !! p.
Proof. simpl. by rewrite list_lookup_alter_eq. Qed.

Lemma at_proc_at_proc p f g s : at_proc p f (at_proc p g s) = at_proc p (fun r => f (g r)) s.
Proof. unfold at_proc. simpl. by rewrite list_alter_alter. Qed.

Lemma at_proc_id p s : at_proc p (fun r => r) s = s.
Proof. destruct s. unfold at_proc. simpl. by rewrite list_alter_id. Qed.

Lemma at_proc_ext p f g s :
  (forall r, k_procs s !! p = Some r -> f r = g r) -> at_proc p f s = at_proc p g s.
Proof. intros H. unfold at_proc. simpl. by rewrite (list_alter_cong _ _ _ _ H). Qed.

(** The slots of a table updated one by one from the first to the last. *)
Lemma foldl_alter_seq {A} (g : nat -> A -> A) (l : list A) :
  foldl (fun l i => alter (g i) i l) l (seq 0 (length l)) = imap g l.
Proof.
  assert (H : forall n, (n <= length l)%nat -> forall i,
    foldl (fun l i => alter (g i) i l) l (seq 0 n) !! i =
      if decide (i < n)%nat then g i <$> l !! i else l !! i).
  { induction n as [|n IH]; intros Hn i; [done|].
    rewrite seq_S, foldl_app. simpl. destruct (decide (i = n)) as [->|Hne].
    - rewrite list_lookup_alter_eq, IH by lia.
      rewrite decide_False, decide_True by lia. done.
    - rewrite list_lookup_alter_ne, IH by lia. repeat case_decide; (lia || done). }
  apply list_eq. intros i. rewrite H, list_lookup_imap by lia.
  case_decide; [done|]. by rewrite lookup_ge_None_2 by lia.
Qed.

(** One [for(p = proc; p < &proc[NPROC]; p++)] whose body is a critical section
    that updates its slot. *)
Lemma proc_loop d (f : nat -> M unit) (g : nat -> proc -> proc) s :
  kok d s ->
  (forall p s', (p < Z.to_nat NPROC)%nat -> kok d s' ->
     ksync settle s' = ksync settle (s <| k_procs := k_procs s' |>) ->
     f p s' = Ret tt (ksync settle (at_proc p (g p) s'))) ->
  for_each proc_ids f s = Ret tt (ksync settle (s <| k_procs := imap g (k_procs s) |>)).
Proof.
  intros Hok Hf.
  destruct (for_each_run proc_ids f (fun p s => ksync settle (at_proc p (g p) s))
    (fun s' => kok d s' /\ ksync settle s' = ksync settle (s <| k_procs := k_procs s' |>)) s)
    as [-> _].
  { split; [done|]. by destruct s. }
  { intros p s' Hp%elem_of_proc_ids [Hok' He]. split; [by apply Hf|].
    split; [auto with xv6|]. rewrite ksync_settle_settle. unfold ksync, at_proc. simpl.
    destruct s', s; unfold ksync in He; simpl in *. injection He as -> ? ? ? ? ? ? ?.
    by subst. }
  f_equal.
  assert (H : forall l s, foldl (fun s p => ksync settle (at_proc p (g p) s)) (ksync settle s) l
    = ksync settle (s <| k_procs := foldl (fun l i => alter (g i) i l) (k_procs s) l |>)).
  { induction l as [|x l IH]; intros s0; [by destruct s0|]. simpl.
    replace (ksync settle (at_proc x (g x) (ksync settle s0)))
      with (ksync settle (at_proc x (g x) s0)); [by rewrite IH|].
    unfold ksync, at_proc. simpl. by rewrite settle_settle. }
  rewrite <- (foldl_alter_seq g (k_procs s)), (kok_procs _ _ Hok). fold proc_ids.
  assert (Hne : exists x l, proc_ids = x :: l) by (by eexists _, _).
  destruct Hne as (x & l & ->). simpl. by rewrite H.
Qed.

(** ** Critical sections on a process *)

Lemma kok_acquire d s p :
  kok d s -> (p < Z.to_nat NPROC)%nat ->
  acquire (LkProc p) s = Ret tt (ksync (acquired (LkProc p)) s).
Proof.
  intros H Hp. apply (acquire_run d); [apply H| |by apply H].
  pose proof (kok_depth _ _ H). lia.
Qed.

Lemma kok_release d s p s2 :
  kok d s -> (p < Z.to_nat NPROC)%nat -> k_sync s2 = acquired (LkProc p) (k_sync s) ->
  release (LkProc p) s2 = Ret tt (s2 <| k_sync := settle (k_sync s) |>).
Proof.
  intros H Hp Hy. pose proof (kok_depth _ _ H). pose proof (kok_locks _ _ H p Hp).
  pose proof (kok_sync _ _ H).
  rewrite (release_run (d + 1)).
  - unfold ksync. rewrite Hy, (released_acquired d); [done|done|lia|done].
  - rewrite Hy. apply acquired_sync_at; [done|lia].
  - lia.
  - rewrite Hy. by apply acquired_held.
Qed.

Lemma get_proc_run p s r : k_procs s !! p = Some r -> get_proc p s = Ret r s.
Proof. intros H. unfold get_proc. by rewrite H. Qed.

(** [acquire(&p->lock); if(cond) update *p; release(&p->lock);] *)
Lemma proc_section d s p (b : proc -> bool) (f : proc -> proc) :
  kok d s -> (p < Z.to_nat NPROC)%nat ->
  (acquire (LkProc p);;
   r ← get_proc p;
   when (b r) (upd_proc p f);;
   release (LkProc p)) s =
  Ret tt (ksync settle (at_proc p (fun r => if b r then f r else r) s)).
Proof.
  intros H Hp. destruct (kok_lookup _ _ _ H Hp) as [r Hr].
  unfold bind at 1. rewrite (kok_acquire _ _ _ H Hp). simpl.
  unfold bind at 1. erewrite get_proc_run by exact Hr. simpl. unfold bind, when.
  destruct (b r) eqn:E.
  - erewrite upd_proc_at by exact Hr. simpl. erewrite kok_release by done.
    erewrite (at_proc_ext p (fun r => if b r then f r else r) f); [done|].
    intros ? ?. simplify_eq. by rewrite E.
  - simpl. erewrite kok_release by done.
    erewrite (at_proc_ext p (fun r => if b r then f r else r) (fun r => r)).
    + by rewrite at_proc_id.
    + intros ? ?. simplify_eq. by rewrite E.
Qed.

(** The process the running hart executes. *)
Definition curproc (y : syncst) : option nat :=
  match s_cpus y !! s_hart y with Some c => c_proc c | None => None end.

Lemma curproc_settle y : curproc (settle y) = curproc y.
Proof.
  unfold curproc, settle. destruct (s_harts y !! s_hart y) eqn:Hh; [|done].
  destruct (s_cpus y !! s_hart y) eqn:Hc; [|by rewrite Hc]. simpl.
  by rewrite list_lookup_insert_eq by by eapply lookup_lt_Some.
Qed.

Lemma myproc_run d s :
  sync_at d (k_sync s) -> 0 <= d < 2 ^ 31 - 1 ->
  myproc s = Ret (curproc (k_sync s)) (ksync settle s).
Proof.
  intros Hs Hd. unfold myproc, mycpu, cpuid, r_tp. msimpl.
  rewrite (push_off_run _ _ Hs). simpl. rewrite pushed_hart.
  pose proof Hs as (h & c & Hh & Hc & Hd' & Hi).
  erewrite get_cpu_run.
  2: { simpl. unfold pushed. rewrite Hh, Hc. simpl.
       apply list_lookup_insert_eq. by eapply lookup_lt_Some. }
  simpl. erewrite pop_off_run; [|by apply pushed_sync_at|lia]. simpl.
  unfold curproc, ksync. rewrite Hc. simpl. by rewrite (popped_pushed d).
Qed.

Lemma kok_myproc d s : kok d s -> myproc s = Ret (curproc (k_sync s)) (ksync settle s).
Proof. intros H. apply (myproc_run d); [apply H|]. pose proof (kok_depth _ _ H). lia. Qed.

(** ** What the functions do *)

Definition wake (chan : option chanid) (r : proc) : proc :=
  if bool_decide (p_state r = SLEEPING) && bool_decide (p_chan r = chan)
  then r <| p_state := RUNNABLE |> else r.

(** [wakeup] makes runnable exactly the processes that sleep on [chan], the
    caller excepted, and changes no other field of any process. *)
Lemma wakeup_run d chan s :
  kok d s ->
  wakeup chan s = Ret tt (ksync settle (s <| k_procs :=
    imap (fun p r => if bool_decide (curproc (k_sync s) = Some p) then r else wake chan r)
      (k_procs s) |>)).
Proof.
  intros H. apply (proc_loop d); [done|]. intros p s' Hp Hok He.
  assert (Hcur : curproc (k_sync s') = curproc (k_sync s)).
  { rewrite <- (curproc_settle (k_sync s')), <- (curproc_settle (k_sync s)).
    f_equal. exact (f_equal k_sync He). }
  unfold bind at 1. rewrite (kok_myproc _ _ Hok). simpl. rewrite Hcur.
  destruct (decide (curproc (k_sync s) = Some p)) as [E|E].
  - rewrite bool_decide_false by tauto. simpl.
    rewrite (at_proc_ext _ _ (fun r => r)), at_proc_id; [done|].
    intros. by rewrite bool_decide_true.
  - rewrite bool_decide_true by done. unfold when at 1.
    rewrite (proc_section d) by auto with xv6.
    rewrite (at_proc_ext p (fun r => if bool_decide _ then r else _) (wake chan)).
    + unfold wake, ksync, at_proc. simpl. by rewrite settle_settle.
    + intros. by rewrite bool_decide_false.
Qed.

Lemma killed_run d p s r :
  kok d s -> (p < Z.to_nat NPROC)%nat -> k_procs s !! p = Some r ->
  killed p s = Ret (p_killed r) (ksync settle s).
Proof.
  intros H Hp Hr. unfold killed, bind. rewrite (kok_acquire _ _ _ H Hp). simpl.
  erewrite get_proc_run by exact Hr. simpl. by erewrite kok_release by done.
Qed.

Lemma setkilled_run d p s :
  kok d s -> (p < Z.to_nat NPROC)%nat ->
  setkilled p s = Ret tt (ksync settle (at_proc p (fun r => r <| p_killed := 1 |>) s)).
Proof.
  intros H Hp. destruct (kok_lookup _ _ _ H Hp) as [r Hr].
  unfold setkilled, bind. rewrite (kok_acquire _ _ _ H Hp). simpl.
  erewrite upd_proc_at by exact Hr. simpl. by erewrite kok_release by done.
Qed.

Lemma curproc_pushed y : curproc (pushed y) = curproc y.
Proof.
  unfold curproc, pushed. destruct (s_harts y !! s_hart y) eqn:Hh; [|done].
  destruct (s_cpus y !! s_hart y) eqn:Hc; [|by rewrite Hc]. simpl.
  by rewrite list_lookup_insert_eq by by eapply lookup_lt_Some.
Qed.

Lemma curproc_acquired l y : curproc (acquired l y) = curproc y.
Proof.
  transitivity (curproc (pushed y)); [|apply curproc_pushed].
  unfold acquired, set_locked. by case_match.
Qed.

(** Inside a [push_off] a matched pair changes nothing. *)
Lemma settle_deep d y : sync_at d y -> 0 < d -> settle y = y.
Proof.
  intros (h & c & Hh & Hc & Hd & Hi) Hpos. unfold settle. rewrite Hh, Hc.
  destruct (noff c =? 0) eqn:E; bool_to_prop; [lia|].
  destruct y; unfold put_cpu; simpl in *. rewrite list_insert_id; [done|].
  rewrite Hc. by destruct c.
Qed.

(** The state after critical sections on the elements of [l] that changed
    nothing. *)
Definition passed {A} (l : list A) (s : kstate) : kstate :=
  match l with [] => s | _ => ksync settle s end.

Lemma settle_passed {A} (l : list A) s : ksync settle (passed l s) = ksync settle s.
Proof. destruct l; [done|]. apply ksync_settle_settle. Qed.

Lemma kok_passed {A} d (l : list A) s : kok d s -> kok d (passed l s).
Proof. destruct l; simpl; auto with xv6. Qed.

Lemma for_find_skip {A B} (l1 l2 : list A) (f : A -> M (option B)) s :
  (forall x s', x ∈ l1 -> s' = s \/ s' = ksync settle s -> f x s' = Ret None (ksync settle s)) ->
  for_find (l1 ++ l2) f s = for_find l2 f (passed l1 s).
Proof.
  revert s. induction l1 as [|x l1 IH]; intros s Hf; simpl; [done|].
  unfold bind at 1. rewrite Hf by (by left || by left). simpl.
  rewrite IH.
  - destruct l1; [done|]. simpl. by rewrite ksync_settle_settle.
  - intros y s' Hy Hs'. rewrite ksync_settle_settle in Hs' |- *.
    apply Hf; [by right|]. tauto.
Qed.

Lemma ksync_settle_eq s s' : ksync settle s = ksync settle s' -> k_procs s = k_procs s'.
Proof. intros H. exact (f_equal k_procs H). Qed.

Lemma proc_ids_split p :
  (p < Z.to_nat NPROC)%nat -> proc_ids = seq 0 p ++ p :: seq (S p) (Z.to_nat NPROC - S p).
Proof.
  intros Hp. unfold proc_ids.
  replace (Z.to_nat NPROC) with (p + S (Z.to_nat NPROC - S p))%nat at 1 by lia.
  by rewrite seq_app.
Qed.

Definition kill_proc (r : proc) : proc :=
  let r := r <| p_killed := 1 |> in
  if bool_decide (p_state r = SLEEPING) then r <| p_state := RUNNABLE |> else r.

Lemma kkill_slot_run d pid p s r :
  kok d s -> (p < Z.to_nat NPROC)%nat -> k_procs s !! p = Some r ->
  kkill_slot pid p s =
  if p_pid r =? pid then Ret (Some 0) (ksync settle (at_proc p kill_proc s))
  else Ret None (ksync settle s).
Proof.
  intros H Hp Hr. unfold kkill_slot, bind at 1. rewrite (kok_acquire _ _ _ H Hp). simpl.
  unfold bind at 1. erewrite get_proc_run by exact Hr. simpl.
  destruct (p_pid r =? pid) eqn:E.
  - unfold bind, when. erewrite upd_proc_at by exact Hr. simpl.
    assert (Hk : at_proc p kill_proc s = if bool_decide (p_state r = SLEEPING)
      then at_proc p (fun r => r <| p_killed := 1 |> <| p_state := RUNNABLE |>) s
      else at_proc p (fun r => r <| p_killed := 1 |>) s).
    { case_bool_decide as Hst; apply at_proc_ext; intros r' ?; simplify_eq;
        unfold kill_proc; simpl; by case_bool_decide. }
    rewrite Hk. case_bool_decide.
    + erewrite upd_proc_at by (rewrite at_proc_lookup; simpl; by rewrite Hr).
      simpl. rewrite at_proc_at_proc. by erewrite kok_release by done.
    + simpl. by erewrite kok_release by done.
  - unfold bind. by erewrite kok_release by done.
Qed.

Lemma kkill_skip d pid s l l2 :
  kok d s -> (forall p, p ∈ l -> p < Z.to_nat NPROC)%nat ->
  (forall p r, p ∈ l -> k_procs s !! p = Some r -> p_pid r <> pid) ->
  for_find (l ++ l2) (kkill_slot pid) s = for_find l2 (kkill_slot pid) (passed l s).
Proof.
  intros H Hl Hne. apply for_find_skip. intros x s' Hx Hs'.
  assert (Hok : kok d s') by (destruct Hs' as [->| ->]; auto with xv6).
  assert (He : ksync settle s' = ksync settle s)
    by (destruct Hs' as [->| ->]; [done|apply ksync_settle_settle]).
  destruct (kok_lookup _ _ x Hok) as [rx Hrx]; [by apply Hl|].
  erewrite kkill_slot_run by eauto. rewrite (ksync_settle_eq _ _ He) in Hrx.
  destruct (p_pid rx =? pid) eqn:E; [|by rewrite He].
  bool_to_prop. by destruct (Hne x rx).
Qed.

Lemma kkill_run_found d pid s p r :
  kok d s -> list_find (fun r => p_pid r = pid) (k_procs s) = Some (p, r) ->
  kkill pid s = Ret 0 (ksync settle (at_proc p kill_proc s)).
Proof.
  intros H Hf. apply list_find_Some in Hf as (Hr & Hpid & Hmin).
  assert (Hp : (p < Z.to_nat NPROC)%nat).
  { rewrite <- (kok_procs _ _ H). by eapply lookup_lt_Some. }
  unfold kkill, bind at 1. rewrite (proc_ids_split p Hp), (kkill_skip d); [|done| |].
  2: { intros x Hx%elem_of_seq. lia. }
  2: { intros x rx Hx%elem_of_seq Hrx. apply (Hmin x); [done|lia]. }
  pose proof (settle_passed (seq 0 p) s) as He. simpl. unfold bind at 1.
  erewrite kkill_slot_run; [|by apply kok_passed|done|by rewrite (ksync_settle_eq _ _ He)].
  apply Z.eqb_eq in Hpid. rewrite Hpid. simpl. f_equal. unfold ksync, at_proc.
  destruct (seq 0 p); [done|]. simpl. by rewrite settle_settle.
Qed.

Lemma kkill_run_none d pid s :
  kok d s -> list_find (fun r => p_pid r = pid) (k_procs s) = None ->
  kkill pid s = Ret (-1) (ksync settle s).
Proof.
  intros H Hf. apply list_find_None in Hf. rewrite Forall_lookup in Hf.
  unfold kkill, bind at 1. rewrite <- (app_nil_r proc_ids), (kkill_skip d); [done|done| |].
  - by intros p ?%elem_of_proc_ids.
  - intros p r _ Hr. by eapply Hf.
Qed.

(** ** Switching to the scheduler *)

(** [intena] of the running CPU. *)
Definition cpu_intena (y : syncst) : bool :=
  match s_cpus y !! s_hart y with Some c => intena c | None => false end.

Lemma sched_run s p r :
  sync_at 1 (k_sync s) -> lock_held (LkProc p) (k_sync s) -> curproc (k_sync s) = Some p ->
  k_procs s !! p = Some r -> p_state r <> RUNNING ->
  sched s = Swtch ToScheduler s (fun s' =>
    upd_cpu (s_hart (k_sync s')) (fun x => x <| intena := cpu_intena (k_sync s) |>) s').
Proof.
  intros Hs [name Hl] Hcur Hr Hst.
  assert (Hself : ksync settle s = s).
  { destruct s. unfold ksync. simpl in *. by rewrite (settle_deep 1). }
  pose proof Hs as (h & c & Hh & Hc & Hd & Hi).
  unfold sched, myproc_deref, holding, intr_get, mycpu, cpuid, r_tp. msimpl.
  rewrite (myproc_run 1), Hself, Hcur by (done || lia). simpl.
  rewrite (get_lock_run _ _ _ Hl). simpl. rewrite bool_decide_true by done. simpl.
  rewrite (get_cpu_run _ _ _ Hc). simpl. rewrite Hd. simpl.
  rewrite (get_proc_run _ _ _ Hr). simpl. rewrite bool_decide_false by done.
  rewrite (get_hart_run _ _ Hh). simpl. rewrite Hi by lia.
  rewrite (get_cpu_run _ _ _ Hc). simpl. unfold cpu_intena. by rewrite Hc.
Qed.

(** The state [sched] switches away in is that of the caller: the process
    lock is held and is the only lock of the hart. *)
Lemma kok_held s p :
  kok 0 s -> (p < Z.to_nat NPROC)%nat ->
  sync_at 1 (acquired (LkProc p) (k_sync s)) /\
  lock_held (LkProc p) (acquired (LkProc p) (k_sync s)) /\
  curproc (acquired (LkProc p) (k_sync s)) = curproc (k_sync s).
Proof.
  intros H Hp. split_and!.
  - apply (acquired_sync_at 0); [apply H|lia].
  - apply acquired_held. by apply H.
  - apply curproc_acquired.
Qed.

Lemma curproc_released l y : curproc (released l y) = curproc y.
Proof.
  transitivity (curproc (set_locked l 0 None y)); [|unfold set_locked; by case_match].
  unfold released. generalize (set_locked l 0 None y). clear y. intros y.
  unfold curproc, popped. destruct (s_harts y !! s_hart y) eqn:Hh; [|done].
  destruct (s_cpus y !! s_hart y) eqn:Hc; [|by rewrite Hc]. simpl.
  by rewrite list_lookup_insert_eq by by eapply lookup_lt_Some.
Qed.

Definition yielded (r : proc) : proc :=
  r <| p_state := RUNNABLE |> <| voluntarily_yielded := 1 |>.

(** [yield] on a running process: no panic is reached, and the process is handed
    to the scheduler RUNNABLE, marked as having yielded, with its lock held.
    When it is switched to again, it releases the lock and returns. *)
Lemma yield_run s p :
  kok 0 s -> curproc (k_sync s) = Some p -> (p < Z.to_nat NPROC)%nat ->
  exists k, yield s = Swtch ToScheduler (ksync (acquired (LkProc p)) (at_proc p yielded s)) k /\
    forall s', sync_at 1 (k_sync s') -> lock_held (LkProc p) (k_sync s') ->
      exists y, k s' = Ret tt (s' <| k_sync := y |>) /\ sync_at 0 y /\ lock_free (LkProc p) y
        /\ curproc y = curproc (k_sync s').
Proof.
  intros H Hcur Hp. destruct (kok_lookup _ _ _ H Hp) as [r Hr].
  destruct (kok_held _ _ H Hp) as (Hs1 & Hl1 & Hc1).
  unfold yield, myproc_deref. unfold bind at 1 2. rewrite (kok_myproc _ _ H), Hcur. simpl.
  unfold bind at 1. rewrite (kok_acquire 0 _ p) by auto with xv6. simpl.
  unfold bind at 1. erewrite upd_proc_at by exact Hr. simpl.
  unfold bind at 1. erewrite upd_proc_at by (rewrite at_proc_lookup; simpl; by rewrite Hr).
  simpl. rewrite at_proc_at_proc.
  erewrite bind_Swtch; [|eapply (sched_run _ p)].
  2: { simpl. by rewrite acquired_settle. }
  2: { simpl. by rewrite acquired_settle. }
  2: { simpl. by rewrite acquired_settle, Hc1. }
  2: { rewrite at_proc_lookup. simpl. by rewrite Hr. }
  2: done.
  eexists. split.
  { f_equal. unfold ksync, at_proc. simpl. by rewrite acquired_settle. }
  intros s' (h & c & Hh & Hc & Hd & Hi) [name Hl]. simpl.
  erewrite upd_cpu_run by exact Hc. simpl.
  assert (Hs' : sync_at 1 (put_cpu (s_hart (k_sync s')) (c <| intena :=
    cpu_intena (acquired (LkProc p) (settle (k_sync s))) |>) (k_sync s'))).
  { eexists h, _. simpl. rewrite list_lookup_insert_eq by by eapply lookup_lt_Some. done. }
  erewrite (release_run 1); [|exact Hs'|lia|by exists name]. eexists. split; [done|].
  split_and!; [by apply (released_sync_at 1)|apply released_free; by exists name|].
  rewrite curproc_released. unfold curproc. simpl.
  by rewrite list_lookup_insert_eq, Hc by by eapply lookup_lt_Some.
Qed.

Definition asleep (chan : option chanid) (r : proc) : proc :=
  r <| p_chan := chan |> <| p_state := SLEEPING |> <| voluntarily_yielded := 1 |>.

Lemma acquired_hart l y : s_hart (acquired l y) = s_hart y.
Proof. unfold acquired. by rewrite set_locked_hart, pushed_hart. Qed.

Lemma released_hart l y : s_hart (released l y) = s_hart y.
Proof. unfold released. by rewrite popped_hart, set_locked_hart. Qed.

Lemma lock_held_other l y y' :
  s_locks y' !! l = s_locks y !! l -> s_hart y' = s_hart y ->
  lock_held l y -> lock_held l y'.
Proof. intros E Eh [n H]. exists n. by rewrite E, Eh. Qed.

(** [sleep(chan, lk)] with [lk] the only lock held: when the process switches
    to the scheduler, [lk] is free and the process already is SLEEPING on [chan]
    with its own lock held, so a [wakeup] that starts once [lk] is free finds it.
    When it is switched to again, it clears [chan] and takes [lk] back. *)
Lemma sleep_run s p r chan lk :
  sync_at 1 (k_sync s) -> lock_held lk (k_sync s) -> lk <> LkProc p ->
  lock_free (LkProc p) (k_sync s) -> curproc (k_sync s) = Some p -> k_procs s !! p = Some r ->
  exists y k,
    sleep chan lk s = Swtch ToScheduler (at_proc p (asleep chan) s <| k_sync := y |>) k /\
    sync_at 1 y /\ lock_held (LkProc p) y /\ lock_free lk y /\
    forall s' r', sync_at 1 (k_sync s') -> lock_held (LkProc p) (k_sync s') ->
      lock_free lk (k_sync s') -> k_procs s' !! p = Some r' ->
      exists y', k s' = Ret tt (at_proc p (fun r => r <| p_chan := None |>) s' <| k_sync := y' |>) /\
        sync_at 1 y' /\ lock_held lk y' /\ lock_free (LkProc p) y'.
Proof.
  intros Hs Hlk Hne Hlp Hcur Hr.
  assert (Hself : ksync settle s = s).
  { destruct s. unfold ksync. simpl in *. by rewrite (settle_deep 1). }
  set (y2 := released lk (acquired (LkProc p) (k_sync s))).
  assert (Hs2 : sync_at 2 (acquired (LkProc p) (k_sync s))).
  { apply (acquired_sync_at 1); [done|lia]. }
  assert (Hl2 : lock_held lk (acquired (LkProc p) (k_sync s))).
  { eapply lock_held_other; [by apply acquired_other|apply acquired_hart|done]. }
  assert (Hy : sync_at 1 y2) by (apply (released_sync_at 2); [done|lia]).
  assert (Hyp : lock_held (LkProc p) y2).
  { eapply lock_held_other; [by apply released_other|apply released_hart|].
    by apply acquired_held. }
  assert (Hyl : lock_free lk y2) by (by apply released_free).
  unfold sleep, myproc_deref. unfold bind at 1 2.
  rewrite (myproc_run 1), Hself, Hcur by (done || lia). simpl.
  unfold bind at 1. rewrite (acquire_run 1) by (done || lia). simpl.
  unfold bind at 1. rewrite (release_run 2) by (done || lia). simpl.
  unfold bind at 1. erewrite upd_proc_at by exact Hr. simpl.
  unfold bind at 1. erewrite upd_proc_at by (rewrite at_proc_lookup; simpl; by rewrite Hr).
  simpl. rewrite at_proc_at_proc. unfold bind at 1.
  erewrite upd_proc_at by (rewrite at_proc_lookup; simpl; by rewrite Hr).
  simpl. rewrite at_proc_at_proc.
  erewrite bind_Swtch; [|eapply (sched_run _ p); simpl; fold y2; try done].
  2: { unfold y2. by rewrite curproc_released, curproc_acquired. }
  2: { rewrite list_lookup_alter_eq, Hr. done. }
  2: { done. }
  exists y2. eexists. split; [done|]. split_and!; [done..|].
  intros s' r' (h & c & Hh & Hc & Hd & Hi) [name Hl] [name' Hf] Hr'. simpl.
  erewrite upd_cpu_run by exact Hc. simpl.
  set (y3 := put_cpu (s_hart (k_sync s')) (c <| intena := cpu_intena y2 |>) (k_sync s')).
  assert (Hs3 : sync_at 1 y3).
  { eexists h, _. simpl. rewrite list_lookup_insert_eq by by eapply lookup_lt_Some. done. }
  unfold bind at 1. erewrite upd_proc_at by exact Hr'. simpl. unfold bind at 1.
  assert (Hl3 : lock_held (LkProc p) y3) by (by exists name).
  rewrite (release_run 1) by (done || lia). simpl.
  assert (Hf3 : lock_free lk (released (LkProc p) y3)).
  { exists name'. by rewrite released_other. }
  exists (acquired lk (released (LkProc p) y3)).
  rewrite (acquire_run 0); [|apply (released_sync_at 1); [done|lia]|lia|done].
  split_and!; [done|..].
  - apply (acquired_sync_at 0); [apply (released_sync_at 1)|]; (done || lia).
  - by apply acquired_held.
  - destruct (released_free _ _ Hl3) as [n' Hn']. exists n'. by rewrite acquired_other.
Qed.
