(* ===== verification/Sched.v ===== *)
(** * The MLFQ scheduler

    [scheduler()] of [src/kernel/proc.c] with its helper functions. *)

From S2P Require Import Prelude Params Machine Spinlock ProcCore.

(** ** Helper functions *)

Definition get_time_slice (level : Z) : Z :=
  match level with
  | 0 => TIME_SLICE_0
  | 1 => TIME_SLICE_1
  | 2 => TIME_SLICE_2
  | 3 => TIME_SLICE_3
  | _ => TIME_SLICE_3
  end.

Definition has_to_demote (p : proc) : bool := max_time_slice p <=? timer_ticks_used p.

Definition has_to_promote (p : proc) : bool :=
  let level_slice := get_time_slice (queue_level p) in
  s32 (level_slice * PROMO_THRESHOLD) <=? wait_timer_ticks p.

(** ** rr_state *)

Definition get_rr (cpu : nat) (q : Z) : M Z :=
  fun s => match k_rr s !! cpu with
           | Some l => match l !! Z.to_nat q with Some v => Ret v s | None => Stop SFault end
           | None => Stop SFault
           end.

Definition put_rr (cpu : nat) (q : Z) (v : Z) (s : kstate) : kstate :=
  s <| k_rr := alter (fun l => <[Z.to_nat q := v]> l) cpu (k_rr s) |>.

(** The queue levels 0 .. NQUEUES-1, and the values of [checked]. *)
Definition levels : list Z := seqZ 0 NQUEUES.
Definition checks : list Z := seqZ 0 NPROC.

Lemma elem_of_levels q : q ∈ levels <-> 0 <= q < NQUEUES.
Proof. unfold levels. rewrite elem_of_seqZ. lia. Qed.

#[global] Arguments levels : simpl never.
#[global] Arguments checks : simpl never.

(** ** One pass of the scheduler loop *)

(** The body of the promotion loop on one RUNNABLE process: count the wait,
    then move the process up when it waited ten slices of its level. *)
Definition promote_proc (p : proc) : proc :=
  let p := p <| wait_timer_ticks := s32 (wait_timer_ticks p + 1) |> in
  let level_slice := get_time_slice (queue_level p) in
  if (s32 (level_slice * PROMO_THRESHOLD) <=? wait_timer_ticks p) && (0 <? queue_level p)
  then
    let p := p <| queue_level := s32 (queue_level p - 1) |> in
    let p := p <| priority := queue_level p |> in
    let p := p <| max_time_slice := get_time_slice (queue_level p) |> in
    let p := p <| timer_ticks_used := 0 |> in
    p <| wait_timer_ticks := 0 |>
  else p.

Definition promotion_pass : M unit :=
  for_each proc_ids (fun p =>
    acquire (LkProc p);;
    r ← get_proc p;
    when (bool_decide (p_state r = RUNNABLE)) (upd_proc p promote_proc);;
    release (LkProc p)).

(** The choice of a process: levels from high to low, round robin from
    [last_queued_proc[q]] within level [q]. [select_slot] is the body of the
    [while] loop. *)
Definition select_slot (cpu : nat) (q start checked : Z) : M (option nat) :=
  let idx := Z.rem (start + checked) NPROC in
  let p := Z.to_nat idx in
  acquire (LkProc p);;
  r ← get_proc p;
  let hit := bool_decide (p_state r = RUNNABLE) && (queue_level r =? q) in
  when hit (modify (put_rr cpu q (Z.rem (idx + 1) NPROC)));;
  release (LkProc p);;
  ret (if hit then Some p else None).

Definition select_at (cpu : nat) (q start_index : Z) : M (option nat) :=
  for_find checks (select_slot cpu q start_index).

Definition select_proc (cpu : nat) : M (option nat) :=
  for_find levels (fun q =>
    start_index ← get_rr cpu q;
    select_at cpu q start_index).

(** After the run: one level down when the slice is used up, unless the process
    gave up the CPU itself. *)
Definition demote_proc (p : proc) : proc :=
  if negb (truthy (voluntarily_yielded p)) && has_to_demote p
     && (queue_level p <? NQUEUES - 1)
  then
    let p := p <| queue_level := s32 (queue_level p + 1) |> in
    let p := p <| priority := queue_level p |> in
    let p := p <| max_time_slice := get_time_slice (queue_level p) |> in
    let p := p <| timer_ticks_used := 0 |> in
    p <| wait_timer_ticks := 0 |>
  else p.

(** Run the chosen process on this CPU until it switches back. *)
Definition run_chosen (c : nat) (chosen : nat) : M unit :=
  acquire (LkProc chosen);;
  upd_proc chosen (fun r => r <| p_state := RUNNING |>);;
  upd_proc chosen (fun r => r <| voluntarily_yielded := 0 |>);;
  upd_cpu c (fun x => x <| c_proc := Some chosen |>);;
  swtch (ToProc chosen);;
  upd_cpu c (fun x => x <| c_proc := None |>);;
  upd_proc chosen demote_proc;;
  release (LkProc chosen).

(** [wfi]: wait for an interrupt, which the model does not time. *)
Definition wfi : M unit := ret tt.

Definition scheduler_iter (c : nat) : M unit :=
  intr_on;;
  intr_off;;
  promotion_pass;;
  chosen ← select_proc c;
  match chosen with
  | Some p => run_chosen c p
  | None => wfi
  end.

Fixpoint scheduler_loop (n : nat) (c : nat) : M unit :=
  match n with
  | O => stop_ SFuel
  | S n => scheduler_iter c;; scheduler_loop n c
  end.

(** [scheduler()] for [n] passes of its [for(;;)]. *)
Definition scheduler (n : nat) : M unit :=
  c ← mycpu;
  upd_cpu c (fun x => x <| c_proc := None |>);;
  scheduler_loop n c.

(** ** procinit() *)

Definition procinit : M unit :=
  initlock LkPid "nextpid";;
  initlock LkWait "wait_lock";;
  for_each (seq 0 (Z.to_nat NCPU)) (fun i =>
    for_each levels (fun j => modify (put_rr i j INIT_RR_INDEX)));;
  for_each proc_ids (fun p =>
    initlock (LkProc p) "proc";;
    upd_proc p (fun r => r <| p_state := UNUSED |>);;
    upd_proc p (fun r => r <| p_kstack := KSTACK (Z.of_nat p) |>)).

(** ** The promotion pass *)

Definition promote_slot (r : proc) : proc :=
  if bool_decide (p_state r = RUNNABLE) then promote_proc r else r.

Lemma promotion_pass_run d s :
  kok d s ->
  promotion_pass s = Ret tt (ksync settle (s <| k_procs := promote_slot <$> k_procs s |>)).
Proof.
  intros H. unfold promotion_pass.
  rewrite (proc_loop d _ (const promote_slot)); [|done|].
  - by rewrite imap_const.
  - intros p s' Hp Hok _. by rewrite (proc_section d).
Qed.

(** ** Round robin *)

(** The slots in the order a scan of level [q] visits them. *)
Definition rr_slot (start c : Z) : nat := Z.to_nat (Z.rem (start + c) NPROC).

(** How many slots the scan visits before slot [p]. *)
Definition rr_dist (start : Z) (p : nat) : Z := (Z.of_nat p - start) mod NPROC.

Definition candidate (q : Z) (procs : list proc) (p : nat) : bool :=
  match procs !! p with
  | Some r => bool_decide (p_state r = RUNNABLE) && (queue_level r =? q)
  | None => false
  end.

Lemma rr_slot_lt start c : 0 <= start + c -> (rr_slot start c < Z.to_nat NPROC)%nat.
Proof. intros. unfold rr_slot. pose proof (Z.rem_bound_pos (start + c) NPROC). params. lia. Qed.

Lemma rr_dist_slot start c :
  0 <= start -> 0 <= c < NPROC -> rr_dist start (rr_slot start c) = c.
Proof.
  intros Hs Hc. unfold rr_dist, rr_slot.
  rewrite Z.rem_mod_nonneg, Z2Nat.id by (params; lia || apply Z.mod_pos_bound; params; lia).
  params. rewrite Zminus_mod_idemp_l. replace (start + c - start) with c by lia.
  apply Z.mod_small. lia.
Qed.

Lemma rr_slot_dist start p :
  0 <= start < NPROC -> (p < Z.to_nat NPROC)%nat -> rr_slot start (rr_dist start p) = p.
Proof.
  intros Hs Hp. unfold rr_dist, rr_slot. pose proof (Z.mod_pos_bound (Z.of_nat p - start) NPROC).
  rewrite Z.rem_mod_nonneg by (params; lia). rewrite Zplus_mod_idemp_r.
  replace (start + (Z.of_nat p - start)) with (Z.of_nat p) by lia.
  rewrite Z.mod_small by (params; lia). apply Nat2Z.id.
Qed.

Lemma rr_dist_range start p : 0 <= rr_dist start p < NPROC.
Proof. apply Z.mod_pos_bound. done. Qed.

Lemma select_slot_run d cpu q start c s :
  kok d s -> 0 <= start + c ->
  select_slot cpu q start c s =
  if candidate q (k_procs s) (rr_slot start c)
  then Ret (Some (rr_slot start c))
         (ksync settle (put_rr cpu q ((Z.of_nat (rr_slot start c) + 1) mod NPROC) s))
  else Ret None (ksync settle s).
Proof.
  intros H Hc. unfold select_slot. fold (rr_slot start c).
  pose proof (rr_slot_lt _ _ Hc) as Hp. destruct (kok_lookup _ _ _ H Hp) as [r Hr].
  unfold candidate. rewrite Hr. unfold bind at 1. rewrite (kok_acquire _ _ _ H Hp). simpl.
  unfold bind at 1. erewrite get_proc_run by exact Hr. unfold bind, when. simpl.
  assert (Hi : Z.rem (Z.rem (start + c) NPROC + 1) NPROC
    = (Z.of_nat (rr_slot start c) + 1) mod NPROC).
  { unfold rr_slot. pose proof (Z.rem_bound_pos (start + c) NPROC).
    rewrite Z2Nat.id, (Z.rem_mod_nonneg (_ + 1)) by (params; lia). done. }
  rewrite Hi. destruct (_ && _).
  - simpl. by erewrite kok_release by done.
  - simpl. by erewrite kok_release by done.
Qed.

Lemma kok_put_rr d cpu q v s : kok d s -> kok d (put_rr cpu q v s).
Proof. by intros []. Qed.

#[export] Hint Resolve kok_put_rr : xv6.

(** The scan of one level as a search in the visiting order. *)
Definition first_candidate (q : Z) (procs : list proc) (start : Z) : option nat :=
  List.find (candidate q procs) (rr_slot start <$> checks).

Lemma select_loop_run d cpu q start cs s :
  kok d s -> 0 <= start -> Forall (fun c => 0 <= c) cs ->
  for_find cs (select_slot cpu q start) s =
  match List.find (candidate q (k_procs s)) (rr_slot start <$> cs) with
  | Some p => Ret (Some p) (ksync settle (put_rr cpu q ((Z.of_nat p + 1) mod NPROC) s))
  | None => Ret None (passed cs s)
  end.
Proof.
  intros H Hs Hcs. revert s H. induction Hcs as [|c cs Hc Hcs IH]; intros s H; [done|].
  simpl. unfold bind at 1. rewrite (select_slot_run d) by (done || lia).
  destruct (candidate _ _ _); simpl; [done|]. rewrite IH by auto with xv6. simpl.
  destruct (List.find _ _); unfold ksync, put_rr; simpl.
  - by rewrite settle_settle.
  - destruct cs; simpl; [done|]. unfold ksync. simpl. by rewrite settle_settle.
Qed.

Lemma checks_nonneg : Forall (fun c => 0 <= c) checks.
Proof. unfold checks. apply Forall_forall. intros c ?%elem_of_seqZ. lia. Qed.

Lemma select_at_run d cpu q start s :
  kok d s -> 0 <= start ->
  select_at cpu q start s =
  match first_candidate q (k_procs s) start with
  | Some p => Ret (Some p) (ksync settle (put_rr cpu q ((Z.of_nat p + 1) mod NPROC) s))
  | None => Ret None (ksync settle s)
  end.
Proof.
  intros. unfold select_at, first_candidate.
  by rewrite (select_loop_run d) by (done || apply checks_nonneg).
Qed.

Lemma find_first {A} (f : A -> bool) (l : list A) x :
  List.find f l = Some x ->
  exists n, l !! n = Some x /\ f x = true /\ forall m y, (m < n)%nat -> l !! m = Some y -> f y = false.
Proof.
  induction l as [|a l IH]; simpl; [done|]. destruct (f a) eqn:E.
  - intros [= ->]. exists 0%nat. split_and!; [done|done|lia].
  - intros (n & Hn & Hx & Hm)%IH. exists (S n). split_and!; [done|done|].
    intros [|m] y Hlt Hy; simpl in Hy; [congruence|]. apply (Hm m); [lia|done].
Qed.

(** The scan returns the candidate nearest to its start. *)
Lemma first_candidate_Some q procs start p :
  0 <= start -> first_candidate q procs start = Some p ->
  (p < Z.to_nat NPROC)%nat /\ candidate q procs p = true /\
  forall p', (p' < Z.to_nat NPROC)%nat -> candidate q procs p' = true -> start < NPROC ->
    rr_dist start p <= rr_dist start p'.
Proof.
  intros Hs Hf. destruct (find_first _ _ _ Hf) as (n & Hn & Hc & Hmin).
  apply list_lookup_fmap_Some in Hn as (c & -> & Hn).
  unfold checks in Hn. apply lookup_seqZ in Hn as [-> Hlt].
  split; [apply rr_slot_lt; lia|]. split; [done|]. intros p' Hp' Hc' Hlt'.
  rewrite rr_dist_slot by lia.
  destruct (Z.le_gt_cases (0 + Z.of_nat n) (rr_dist start p')) as [|Hgt]; [done|].
  pose proof (rr_dist_range start p').
  specialize (Hmin (Z.to_nat (rr_dist start p')) p'). rewrite Hc' in Hmin.
  enough (true = false) by done. apply Hmin; [lia|].
  rewrite list_lookup_fmap. unfold checks. rewrite lookup_seqZ_lt by lia. simpl. f_equal.
  rewrite Z2Nat.id by lia. by apply rr_slot_dist.
Qed.

Lemma first_candidate_None q procs start p :
  0 <= start < NPROC -> first_candidate q procs start = None ->
  (p < Z.to_nat NPROC)%nat -> candidate q procs p = false.
Proof.
  intros Hs Hf Hp. eapply List.find_none in Hf; [done|].
  apply list_elem_of_In, list_elem_of_fmap. exists (rr_dist start p).
  rewrite rr_slot_dist by done. split; [done|].
  apply elem_of_seqZ. pose proof (rr_dist_range start p). lia.
Qed.

(** The levels of the round-robin array of a CPU are slot numbers. *)
Definition rr_ok (cpu : nat) (s : kstate) : Prop :=
  exists l, k_rr s !! cpu = Some l /\ length l = Z.to_nat NQUEUES /\
    Forall (fun v => 0 <= v < NPROC) l.

(** [last_queued_proc[q]] of a CPU. *)
Definition rr_at (cpu : nat) (s : kstate) (q : Z) : Z :=
  match k_rr s !! cpu with Some l => l !!! Z.to_nat q | None => 0 end.

Lemma rr_at_range cpu s q : rr_ok cpu s -> 0 <= q < NQUEUES -> 0 <= rr_at cpu s q < NPROC.
Proof.
  intros (l & Hl & Hlen & Hall) Hq. unfold rr_at. rewrite Hl.
  rewrite Forall_lookup in Hall. eapply Hall, list_lookup_lookup_total_lt. lia.
Qed.

Lemma get_rr_run cpu s q :
  rr_ok cpu s -> 0 <= q < NQUEUES -> get_rr cpu q s = Ret (rr_at cpu s q) s.
Proof.
  intros (l & Hl & Hlen & Hall) Hq. unfold get_rr, rr_at. rewrite Hl.
  rewrite (list_lookup_lookup_total_lt l) by lia. done.
Qed.

(** The whole choice: the first level that has a candidate. *)
Fixpoint choose (rr : Z -> Z) (procs : list proc) (qs : list Z) : option (Z * nat) :=
  match qs with
  | [] => None
  | q :: qs =>
      match first_candidate q procs (rr q) with
      | Some p => Some (q, p)
      | None => choose rr procs qs
      end
  end.

Lemma select_levels_run d cpu qs s :
  kok d s -> rr_ok cpu s -> Forall (fun q => 0 <= q < NQUEUES) qs ->
  for_find qs (fun q => st ← get_rr cpu q; select_at cpu q st) s =
  match choose (rr_at cpu s) (k_procs s) qs with
  | Some (q, p) => Ret (Some p) (ksync settle (put_rr cpu q ((Z.of_nat p + 1) mod NPROC) s))
  | None => Ret None (passed qs s)
  end.
Proof.
  intros H Hrr Hqs. revert s H Hrr.
  induction Hqs as [|q qs Hq Hqs IH]; intros s H Hrr; [done|].
  simpl. unfold bind at 1 2. rewrite get_rr_run by done. simpl.
  pose proof (rr_at_range _ _ _ Hrr Hq).
  rewrite (select_at_run d) by (done || lia).
  destruct (first_candidate _ _ _); simpl; [done|]. rewrite IH by (auto with xv6; done).
  simpl. destruct (choose _ _ _) as [[]|]; unfold ksync, put_rr; simpl.
  - by rewrite settle_settle.
  - destruct qs; simpl; [done|]. unfold ksync. simpl. by rewrite settle_settle.
Qed.

Lemma select_proc_run d cpu s :
  kok d s -> rr_ok cpu s ->
  select_proc cpu s =
  match choose (rr_at cpu s) (k_procs s) levels with
  | Some (q, p) => Ret (Some p) (ksync settle (put_rr cpu q ((Z.of_nat p + 1) mod NPROC) s))
  | None => Ret None (ksync settle s)
  end.
Proof.
  intros. unfold select_proc. rewrite (select_levels_run d); [done|done|done|].
  apply Forall_forall. by intros q ?%elem_of_levels.
Qed.

Lemma candidate_iff q procs p :
  candidate q procs p = true <->
  exists r, procs !! p = Some r /\ p_state r = RUNNABLE /\ queue_level r = q.
Proof.
  unfold candidate. destruct (procs !! p) as [r|].
  - rewrite andb_true_iff, bool_decide_eq_true, Z.eqb_eq. naive_solver.
  - naive_solver.
Qed.

Lemma choose_Some rr procs qs q p :
  choose rr procs qs = Some (q, p) ->
  exists qs1 qs2, qs = qs1 ++ q :: qs2 /\ first_candidate q procs (rr q) = Some p /\
    forall q', q' ∈ qs1 -> first_candidate q' procs (rr q') = None.
Proof.
  induction qs as [|q0 qs IH]; simpl; [done|].
  destruct (first_candidate q0 procs (rr q0)) eqn:E.
  - intros [= -> ->]. exists [], qs. split_and!; [done|done|set_solver].
  - intros (qs1 & qs2 & -> & Hf & Hn)%IH. exists (q0 :: qs1), qs2.
    split_and!; [done|done|]. intros q' [->|]%elem_of_cons; [done|by apply Hn].
Qed.

Lemma choose_None rr procs qs q :
  choose rr procs qs = None -> q ∈ qs -> first_candidate q procs (rr q) = None.
Proof.
  induction qs as [|q0 qs IH]; simpl; [set_solver|].
  destruct (first_candidate q0 procs (rr q0)) eqn:E; [done|].
  intros H [->|]%elem_of_cons; [done|by apply IH].
Qed.

(** A level before [q] in the scan is a smaller number. *)
Lemma levels_before qs1 q qs2 q' :
  levels = qs1 ++ q :: qs2 -> 0 <= q' < q -> q' ∈ qs1.
Proof.
  intros E Hq. assert (Hq1 : q ∈ levels) by (rewrite E; set_solver).
  apply elem_of_levels in Hq1.
  assert (Hn : levels !! length qs1 = Some q).
  { rewrite E, lookup_app_r, Nat.sub_diag; [done|lia]. }
  unfold levels in Hn. apply lookup_seqZ in Hn as [Hn _].
  assert (Hq' : levels !! Z.to_nat q' = Some q').
  { unfold levels. rewrite lookup_seqZ_lt by (params; lia). f_equal. lia. }
  rewrite E, lookup_app_l in Hq' by lia. by eapply list_elem_of_lookup_2.
Qed.

Lemma put_rr_at cpu s q v q' :
  rr_ok cpu s -> 0 <= q < NQUEUES -> 0 <= q' < NQUEUES ->
  rr_at cpu (put_rr cpu q v s) q' = if decide (q' = q) then v else rr_at cpu s q'.
Proof.
  intros (l & Hl & Hlen & _) Hq Hq'. unfold rr_at, put_rr. simpl.
  rewrite list_lookup_alter_eq, Hl. simpl. case_decide; subst.
  - apply list_lookup_total_insert_eq. lia.
  - apply list_lookup_total_insert_ne. lia.
Qed.

Lemma put_rr_ok cpu s q v : rr_ok cpu s -> 0 <= v < NPROC -> rr_ok cpu (put_rr cpu q v s).
Proof.
  intros (l & Hl & Hlen & Hall) Hv. eexists. unfold put_rr. simpl.
  rewrite list_lookup_alter_eq, Hl. split; [done|]. rewrite length_insert.
  split; [done|]. by apply Forall_insert.
Qed.

(** What a call of the selection returns, in terms of the search. *)
Lemma select_proc_cases d c s :
  kok d s -> rr_ok c s ->
  (exists q p, select_proc c s =
     Ret (Some p) (ksync settle (put_rr c q ((Z.of_nat p + 1) mod NPROC) s)) /\
     0 <= q < NQUEUES /\ (p < Z.to_nat NPROC)%nat /\ candidate q (k_procs s) p = true /\
     (forall p', candidate q (k_procs s) p' = true ->
        rr_dist (rr_at c s q) p <= rr_dist (rr_at c s q) p') /\
     (forall q' p', 0 <= q' < q -> candidate q' (k_procs s) p' = false)) \/
  (select_proc c s = Ret None (ksync settle s) /\
     forall q p, 0 <= q < NQUEUES -> candidate q (k_procs s) p = false).
Proof.
  intros H Hrr. rewrite (select_proc_run d) by done.
  assert (Hlt : forall q p, candidate q (k_procs s) p = true -> (p < Z.to_nat NPROC)%nat).
  { intros q p (r & Hr & _)%candidate_iff. rewrite <- (kok_procs _ _ H).
    by eapply lookup_lt_Some. }
  assert (Hno : forall q p, 0 <= q < NQUEUES ->
    first_candidate q (k_procs s) (rr_at c s q) = None -> candidate q (k_procs s) p = false).
  { intros q p Hq Hf. destruct (candidate q (k_procs s) p) eqn:E; [|done].
    rewrite <- E. eapply first_candidate_None; eauto. by apply rr_at_range. }
  destruct (choose _ _ _) as [[q p]|] eqn:E; [left|right].
  - destruct (choose_Some _ _ _ _ _ E) as (qs1 & qs2 & El & Hf & Hn).
    assert (Hq : 0 <= q < NQUEUES).
    { apply elem_of_levels. rewrite El. set_solver. }
    pose proof (rr_at_range _ _ _ Hrr Hq).
    destruct (first_candidate_Some _ _ _ _ (proj1 H0) Hf) as (Hp & Hc & Hmin).
    exists q, p. split_and!; [done|lia|lia|done|done| |].
    + intros p' Hc'. apply Hmin; [by eapply Hlt|done|lia].
    + intros q' p' Hq'. apply Hno; [lia|]. apply Hn. by eapply levels_before.
  - split; [done|]. intros q p Hq. apply Hno; [done|].
    eapply choose_None; [exact E|]. by apply elem_of_levels.
Qed.

(** C28. The choice of the MLFQ scheduler on any CPU. From any process table and
    any round-robin state, the selection returns, with every process and every
    lock as before. It returns a process exactly when some RUNNABLE process
    is at a queue level; the process it returns is RUNNABLE, no RUNNABLE process
    is at a higher level, and among those of its level it is the first at or
    after the round-robin index, which then moves just past it, the indices of
    the other levels being kept. *)
Theorem select_proc_spec d c s :
  kok d s -> rr_ok c s ->
  exists res s', select_proc c s = Ret res s' /\ k_procs s' = k_procs s /\
    kok d s' /\ rr_ok c s' /\
    match res with
    | Some p => exists r, k_procs s !! p = Some r /\ p_state r = RUNNABLE /\
        0 <= queue_level r < NQUEUES /\
        (forall p' r', k_procs s !! p' = Some r' -> p_state r' = RUNNABLE ->
           0 <= queue_level r' -> queue_level r <= queue_level r') /\
        (forall p' r', k_procs s !! p' = Some r' -> p_state r' = RUNNABLE ->
           queue_level r' = queue_level r ->
           rr_dist (rr_at c s (queue_level r)) p <= rr_dist (rr_at c s (queue_level r)) p') /\
        (forall q, 0 <= q < NQUEUES ->
           rr_at c s' q = if decide (q = queue_level r) then (Z.of_nat p + 1) mod NPROC
                          else rr_at c s q)
    | None => forall p r, k_procs s !! p = Some r -> p_state r = RUNNABLE ->
        ~ (0 <= queue_level r < NQUEUES)
    end.
Proof.
  intros H Hrr. destruct (select_proc_cases d c s H Hrr)
    as [(q & p & E & Hq & Hp & Hc & Hmin & Hbest)|[E Hno]]; rewrite E.
  - eexists _, _. split_and!; [done|done|by auto with xv6| |].
    { apply (put_rr_ok c s); [done|]. apply Z.mod_pos_bound. done. }
    pose proof (proj1 (candidate_iff _ _ _) Hc) as (r & Hr & Hst & <-).
    exists r. split_and!; [done|done|lia|lia|..].
    + intros p' r' Hr' Hst' Hpos. destruct (Z.le_gt_cases (queue_level r) (queue_level r')); [done|].
      assert (Hf : candidate (queue_level r') (k_procs s) p' = false) by (apply Hbest; lia).
      assert (Ht : candidate (queue_level r') (k_procs s) p' = true) by (apply candidate_iff; eauto).
      congruence.
    + intros p' r' Hr' Hst' He. apply Hmin, candidate_iff. eauto.
    + intros q Hq'. by apply (put_rr_at c s).
  - eexists _, _. split_and!; [done|done|by auto with xv6|done|].
    intros p r Hr Hst Hq. specialize (Hno _ p Hq).
    assert (Ht : candidate (queue_level r) (k_procs s) p = true) by (apply candidate_iff; eauto).
    congruence.
Qed.

(** ** Initialisation *)

(** The round-robin array as procinit leaves it. *)
Definition rr_init (s : kstate) : Prop :=
  forall c q, (c < Z.to_nat NCPU)%nat -> 0 <= q < NQUEUES -> rr_ok c s /\ rr_at c s q = INIT_RR_INDEX.

Definition rr_shape (rr : list (list Z)) : Prop :=
  length rr = Z.to_nat NCPU /\ Forall (fun l => length l = Z.to_nat NQUEUES) rr.

Lemma rr_init_run s :
  rr_shape (k_rr s) ->
  for_each (seq 0 (Z.to_nat NCPU)) (fun i =>
    for_each levels (fun j => modify (put_rr i j INIT_RR_INDEX))) s =
  Ret tt (s <| k_rr :=
    replicate (Z.to_nat NCPU) (replicate (Z.to_nat NQUEUES) INIT_RR_INDEX) |>).
Proof.
  destruct s as [y pr ini nxt rr]. unfold rr_shape. simpl. intros [Hl Hall].
  change (Z.to_nat NCPU) with 8%nat in *. change (Z.to_nat NQUEUES) with 4%nat in *.
  do 9 (destruct rr as [|? rr]; try done). rewrite !Forall_cons in Hall.
  destruct Hall as (H1 & H2 & H3 & H4 & H5 & H6 & H7 & H8 & _).
  repeat match goal with
  | H : length ?l = 4%nat |- _ =>
      is_var l; let a := fresh in let b := fresh in let c := fresh in let d := fresh in
      destruct l as [|a [|b [|c [|d [|]]]]]; try done; clear H
  end.
Qed.

Definition fresh_slot (p : nat) (r : proc) : proc :=
  r <| p_state := UNUSED |> <| p_kstack := KSTACK (Z.of_nat p) |>.

(** What holds after the slots of [l] have been initialised from [s]. *)
Definition slots_init (d : Z) (s : kstate) (l : list nat) (s' : kstate) : Prop :=
  sync_at d (k_sync s') /\ k_rr s' = k_rr s /\
  (forall p, p ∈ l -> lock_free (LkProc p) (k_sync s')) /\
  lock_free LkPid (k_sync s') /\ lock_free LkWait (k_sync s') /\
  k_procs s' = foldl (fun t p => alter (fresh_slot p) p t) (k_procs s) l.

Lemma foldl_alter_length {A} (g : nat -> A -> A) l t :
  length (foldl (fun t p => alter (g p) p t) t l) = length t.
Proof.
  revert t. induction l as [|x l IH]; intros t; [done|]. simpl. by rewrite IH, length_alter.
Qed.

Lemma slots_init_step d s l p s1 :
  slots_init d s l s1 -> (p < length (k_procs s))%nat ->
  exists s', (initlock (LkProc p) "proc";;
    upd_proc p (fun r => r <| p_state := UNUSED |>);;
    upd_proc p (fun r => r <| p_kstack := KSTACK (Z.of_nat p) |>)) s1 = Ret tt s' /\
    slots_init d s (l ++ [p]) s'.
Proof.
  intros (Hs & Hrr & Hl & [n1 Hp1] & [n2 Hw1] & Hps) Hp.
  assert (Hr : exists r, k_procs s1 !! p = Some r).
  { apply lookup_lt_is_Some. rewrite Hps. by rewrite foldl_alter_length. }
  destruct Hr as [r Hr]. unfold initlock, bind. simpl.
  erewrite upd_proc_at by exact Hr. simpl.
  erewrite upd_proc_at by (rewrite at_proc_lookup; simpl; by rewrite Hr).
  rewrite at_proc_at_proc. eexists. split; [done|]. unfold slots_init. simpl.
  split_and!; [done|done|..].
  - intros p' Hp'. unfold lock_free. simpl. destruct (decide (p' = p)) as [->|Hne].
    + rewrite lookup_insert_eq. eauto.
    + rewrite lookup_insert_ne by congruence. apply Hl. set_solver.
  - exists n1. simpl. by rewrite lookup_insert_ne.
  - exists n2. simpl. by rewrite lookup_insert_ne.
  - rewrite foldl_app, Hps. done.
Qed.

Lemma slots_init_ok d s s' :
  slots_init d s proc_ids s' -> 0 <= d < 1000 -> length (k_procs s) = Z.to_nat NPROC ->
  kok d s' /\ k_procs s' = imap fresh_slot (k_procs s).
Proof.
  intros (Hs & Hrr & Hl & _ & _ & Hps) Hd Hlen.
  assert (Hps' : k_procs s' = imap fresh_slot (k_procs s)).
  { rewrite Hps. unfold proc_ids. rewrite <- Hlen. apply foldl_alter_seq. }
  split; [|done]. split; [done|done| |].
  - intros p Hp. apply Hl. by apply elem_of_proc_ids.
  - by rewrite Hps', length_imap.
Qed.

Lemma rr_init_intro s :
  k_rr s = replicate (Z.to_nat NCPU) (replicate (Z.to_nat NQUEUES) INIT_RR_INDEX) -> rr_init s.
Proof.
  intros E c q Hc Hq. unfold rr_ok, rr_at. rewrite E, lookup_replicate_2 by done. split.
  - eexists. split_and!; [done|done|]. apply Forall_replicate. done.
  - apply lookup_total_replicate_2. params. lia.
Qed.

Lemma procinit_run d s :
  sync_at d (k_sync s) -> 0 <= d < 1000 -> length (k_procs s) = Z.to_nat NPROC ->
  rr_shape (k_rr s) ->
  exists s', procinit s = Ret tt s' /\ kok d s' /\ rr_init s' /\
    lock_free LkPid (k_sync s') /\ lock_free LkWait (k_sync s') /\
    k_procs s' = imap fresh_slot (k_procs s).
Proof.
  intros Hs Hd Hlen Hrr. unfold procinit. do 2 (erewrite bind_Ret; [|reflexivity]).
  erewrite bind_Ret; [|by apply rr_init_run].
  match goal with |- context [for_each proc_ids _ ?s0] => set (s1 := s0) end.
  destruct (for_each_inv proc_ids (fun p =>
    initlock (LkProc p) "proc";;
    upd_proc p (fun r => r <| p_state := UNUSED |>);;
    upd_proc p (fun r => r <| p_kstack := KSTACK (Z.of_nat p) |>))
    (slots_init d s1) s1) as (s' & E & Hinit).
  - split_and!; [done|done|set_solver| | |done].
    + eexists. simpl. rewrite lookup_insert_ne, lookup_insert_eq by done. done.
    + eexists. simpl. rewrite lookup_insert_eq. done.
  - intros l p s2 Hl Hp%elem_of_proc_ids. apply slots_init_step; [done|]. simpl. lia.
  - exists s'. destruct (slots_init_ok _ _ _ Hinit Hd Hlen) as [Hok Hps].
    destruct Hinit as (_ & Hrr' & _ & ? & ? & _).
    split_and!; try done. apply rr_init_intro. by rewrite Hrr'.
Qed.

Lemma kstate_zero_sync h : (h < Z.to_nat NCPU)%nat -> sync_at 0 (k_sync (kstate_zero h)).
Proof.
  intros Hh. exists hart_zero, cpu_zero. split_and!; [by apply lookup_replicate_2..|done|done].
Qed.

(** procinit() brings any zeroed process table to a state in which every
    slot is UNUSED with its own kernel stack address, every process lock, pid_lock
    and wait_lock are free, and the round-robin index of every CPU and level is
    INIT_RR_INDEX: the state every other theorem about processes starts from. *)
Theorem procinit_spec d s :
  sync_at d (k_sync s) -> 0 <= d < 1000 -> length (k_procs s) = Z.to_nat NPROC ->
  rr_shape (k_rr s) ->
  exists s', procinit s = Ret tt s' /\ kok d s' /\ rr_init s' /\
    lock_free LkPid (k_sync s') /\ lock_free LkWait (k_sync s') /\
    k_procs s' = imap fresh_slot (k_procs s).
Proof. apply procinit_run. Qed.

(** The table after procinit on the data segment of the kernel image. *)
Definition booted (h : nat) : kstate :=
  match procinit (kstate_zero h) with Ret _ s => s | _ => kstate_zero h end.

Lemma procinit_spec_witness :
  exists s', procinit (kstate_zero 0) = Ret tt s' /\ kok 0 s'.
Proof.
  destruct (procinit_spec 0 (kstate_zero 0)) as (s' & E & Hok & _).
  - apply kstate_zero_sync. params. lia.
  - lia.
  - reflexivity.
  - split; [reflexivity|]. by repeat constructor.
  - exists s'. split; [exact E|exact Hok].
Defined.

Lemma booted_ok h : (h < Z.to_nat NCPU)%nat -> kok 0 (booted h) /\ rr_init (booted h).
Proof.
  intros Hh. destruct (procinit_run 0 (kstate_zero h)) as (s' & E & Hok & Hrr & _).
  - by apply kstate_zero_sync.
  - lia.
  - reflexivity.
  - split; [reflexivity|]. by repeat constructor.
  - unfold booted. rewrite E. exact (conj Hok Hrr).
Qed.

(** A table whose first slots are those of [l], on hart [h] of a booted kernel. *)
Definition table (h : nat) (l : list proc) : kstate :=
  (booted h) <| k_procs := l ++ replicate (Z.to_nat NPROC - length l) proc_zero |>.

Definition runnable_at (pid q : Z) : proc :=
  proc_zero <| p_state := RUNNABLE |> <| p_pid := pid |> <| queue_level := q |>
    <| priority := q |> <| max_time_slice := get_time_slice q |>.

Lemma table_ok h l :
  (h < Z.to_nat NCPU)%nat -> (length l <= Z.to_nat NPROC)%nat ->
  kok 0 (table h l) /\ rr_init (table h l).
Proof.
  intros Hh Hl. unfold table. generalize (booted_ok h Hh). generalize (booted h).
  intros s [Hok Hrr]. split; [|exact Hrr].
  apply kok_set_procs; [done|]. rewrite length_app, length_replicate. lia.
Qed.

Lemma select_proc_spec_witness :
  exists s', select_proc 0 (table 0 [runnable_at 1 2; runnable_at 2 1; runnable_at 3 1])
    = Ret (Some 1%nat) s'.
Proof.
  destruct (table_ok 0 [runnable_at 1 2; runnable_at 2 1; runnable_at 3 1]) as [Hok Hrr];
    [params; lia|simpl; params; lia|].
  destruct (Hrr 0%nat 0) as [Hr _]; [params; lia|params; lia|].
  destruct (select_proc_spec 0 0 _ Hok Hr) as (res & s' & E & _).
  exists s'. rewrite E.
  assert (Hres : match select_proc 0 (table 0 [runnable_at 1 2; runnable_at 2 1; runnable_at 3 1])
    with Ret o _ => o | _ => None end = Some 1%nat) by (vm_compute; reflexivity).
  rewrite E in Hres. rewrite Hres. reflexivity.
Defined.
