(* ===== verification/Mlfq.v ===== *)
(** * Properties of the MLFQ scheduler

    What the passes of [scheduler()] ([Sched]) give a process: dispatch and
    return, bounded waiting, the effect of preemption, and the behaviour of two
    CPUs that choose at the same time. *)

From S2P Require Import Prelude Params Machine Spinlock ProcCore Sched.

(** ** Dispatch and return *)

Definition set_cproc (c : nat) (o : option nat) (y : syncst) : syncst :=
  y <| s_cpus := alter (fun x => x <| c_proc := o |>) c (s_cpus y) |>.

Definition dispatch_proc (r : proc) : proc :=
  r <| p_state := RUNNING |> <| voluntarily_yielded := 0 |>.

Lemma set_cproc_run c o s x :
  s_cpus (k_sync s) !! c = Some x ->
  upd_cpu c (fun x => x <| c_proc := o |>) s = Ret tt (ksync (set_cproc c o) s).
Proof.
  intros H. rewrite (upd_cpu_run _ _ _ _ H). unfold ksync, put_cpu, set_cproc.
  by rewrite (list_alter_as_insert _ _ _ _ H).
Qed.

Lemma set_cproc_sync_at d c o y : sync_at d y -> sync_at d (set_cproc c o y).
Proof.
  intros (h & x & Hh & Hx & Hd & Hi). unfold sync_at, set_cproc. simpl.
  destruct (decide (c = s_hart y)) as [->|Hne].
  - rewrite list_lookup_alter_eq, Hx. by exists h, (x <| c_proc := o |>).
  - rewrite list_lookup_alter_ne by done. by exists h, x.
Qed.

Lemma set_cproc_cur c o y x :
  s_cpus y !! c = Some x -> s_hart y = c -> curproc (set_cproc c o y) = o.
Proof.
  intros Hx Hc. unfold curproc, set_cproc. simpl.
  by rewrite Hc, list_lookup_alter_eq, Hx.
Qed.

Lemma sync_at_cpu d y : sync_at d y -> exists x, s_cpus y !! s_hart y = Some x.
Proof. intros (h & x & Hh & Hx & _). eauto. Qed.

Definition dispatched (c p : nat) (s : kstate) : kstate :=
  ksync (fun y => set_cproc c (Some p) (acquired (LkProc p) y)) (at_proc p dispatch_proc s).

Definition returned (c p : nat) (s : kstate) : kstate :=
  ksync (fun y => released (LkProc p) (set_cproc c None y)) (at_proc p demote_proc s).

Lemma run_chosen_run s c p :
  kok 0 s -> (p < Z.to_nat NPROC)%nat -> s_hart (k_sync s) = c ->
  exists k, run_chosen c p s = Swtch (ToProc p) (dispatched c p s) k /\
    forall s' r', sync_at 1 (k_sync s') -> s_hart (k_sync s') = c ->
      lock_held (LkProc p) (k_sync s') -> k_procs s' !! p = Some r' ->
      k s' = Ret tt (returned c p s').
Proof.
  intros H Hp Hc. destruct (kok_lookup _ _ _ H Hp) as [r Hr].
  destruct (kok_held _ _ H Hp) as (Hs1 & Hl1 & Hc1).
  unfold run_chosen. unfold bind at 1. rewrite (kok_acquire 0 _ p) by done. simpl.
  unfold bind at 1. erewrite upd_proc_at by exact Hr. simpl.
  unfold bind at 1. erewrite upd_proc_at by (rewrite at_proc_lookup; simpl; by rewrite Hr).
  simpl. rewrite at_proc_at_proc.
  destruct (sync_at_cpu _ _ Hs1) as [x Hx]. rewrite acquired_hart, Hc in Hx.
  unfold bind at 1. erewrite (set_cproc_run c (Some p)) by exact Hx. simpl.
  erewrite bind_Swtch by reflexivity. eexists. split; [done|].
  intros s' r' Hs' Hh' Hl' Hr'. simpl. unfold bind at 1.
  destruct (sync_at_cpu _ _ Hs') as [x' Hx']. rewrite Hh' in Hx'.
  erewrite (set_cproc_run c None) by exact Hx'. simpl.
  unfold bind at 1. erewrite upd_proc_at by exact Hr'. simpl.
  rewrite (release_run 1); [done|by apply set_cproc_sync_at|lia|].
  eapply lock_held_other; [done..|exact Hl'].
Qed.

(** ** One pass of scheduler() *)

(** [intr_on(); intr_off();] *)
Definition quiet (y : syncst) : syncst :=
  y <| s_harts := alter (fun h => h <| sie := false |>) (s_hart y) (s_harts y) |>.

Lemma quiet_run s h :
  s_harts (k_sync s) !! s_hart (k_sync s) = Some h ->
  (intr_on;; intr_off) s = Ret tt (ksync quiet s).
Proof.
  intros Hh. unfold intr_on, intr_off, bind. erewrite upd_hart_run by exact Hh. simpl.
  rewrite (upd_hart_run _ _ (h <| sie := true |>)).
  - unfold ksync, put_hart, quiet. simpl.
    by rewrite list_insert_insert_eq, (list_alter_as_insert _ _ _ _ Hh).
  - simpl. apply list_lookup_insert_eq. by eapply lookup_lt_Some.
Qed.

Lemma kok_quiet s : kok 0 s -> kok 0 (ksync quiet s).
Proof.
  intros [(h & x & Hh & Hx & Hd & Hi) Hd' Hl Hp]. split; try done. simpl.
  exists (h <| sie := false |>), x. simpl. rewrite list_lookup_alter_eq, Hh.
  split_and!; [done|done|done|]. intros; lia.
Qed.

(** The state in which the selection of a pass runs. *)
Definition promoted (s : kstate) : kstate :=
  ksync settle ((ksync quiet s) <| k_procs := promote_slot <$> k_procs s |>).

Lemma kok_promoted s : kok 0 s -> kok 0 (promoted s).
Proof.
  intros H. apply kok_settle, kok_set_procs; [by apply kok_quiet|].
  by rewrite length_fmap, (kok_procs _ _ H).
Qed.

Lemma promoted_rr c s q : rr_at c (promoted s) q = rr_at c s q.
Proof. done. Qed.

Lemma promoted_hart s : s_hart (k_sync (promoted s)) = s_hart (k_sync s).
Proof. unfold promoted, ksync. simpl. by rewrite settle_hart. Qed.

Lemma scheduler_iter_run c s :
  kok 0 s ->
  scheduler_iter c s =
  (chosen ← select_proc c;
   match chosen with Some p => run_chosen c p | None => wfi end) (promoted s).
Proof.
  intros H. pose proof (kok_sync _ _ H) as (h & x & Hh & _).
  pose proof (quiet_run s h Hh) as Hq. unfold scheduler_iter.
  unfold bind at 1 in Hq. unfold bind at 1.
  destruct (intr_on s) as [[] s1| |]; [|done..]. simpl in *.
  erewrite bind_Ret by exact Hq.
  erewrite bind_Ret by (apply (promotion_pass_run 0); by apply kok_quiet). done.
Qed.

(** The state a pass stops in: at the switch to a process, or at its end. *)
Definition after (o : outcome unit) : option kstate :=
  match o with
  | Ret _ s => Some s
  | Swtch _ s _ => Some s
  | Stop _ => None
  end.

Definition dispatches (p : nat) (o : outcome unit) : Prop := exists s k, o = Swtch (ToProc p) s k.

(** What one pass does to the slot of a process it does not choose, and to the
    round-robin index of each level. *)
Lemma scheduler_iter_cases c s :
  kok 0 s -> rr_ok c s -> s_hart (k_sync s) = c ->
  (exists q p' s', after (scheduler_iter c s) = Some s' /\ dispatches p' (scheduler_iter c s) /\
     0 <= q < NQUEUES /\ (p' < Z.to_nat NPROC)%nat /\
     candidate q (promote_slot <$> k_procs s) p' = true /\
     (forall p, candidate q (promote_slot <$> k_procs s) p = true ->
        rr_dist (rr_at c s q) p' <= rr_dist (rr_at c s q) p) /\
     (forall q' p, 0 <= q' < q -> candidate q' (promote_slot <$> k_procs s) p = false) /\
     (forall p, p <> p' -> k_procs s' !! p = promote_slot <$> k_procs s !! p) /\
     rr_at c s' q = (Z.of_nat p' + 1) mod NPROC) \/
  (exists s', scheduler_iter c s = Ret tt s' /\
     forall q p, 0 <= q < NQUEUES -> candidate q (promote_slot <$> k_procs s) p = false).
Proof.
  intros H Hrr Hc. rewrite (scheduler_iter_run c s H).
  destruct (select_proc_cases 0 c (promoted s)) as
    [(q & p' & E & Hq & Hp & Hcand & Hmin & Hbest)|[E Hno]];
    [by apply kok_promoted|done|left|right].
  - erewrite bind_Ret by exact E. set (s2 := ksync settle _).
    assert (H2 : kok 0 s2) by (apply kok_settle, kok_put_rr, kok_promoted, H).
    destruct (run_chosen_run s2 c p' H2 Hp) as (k & Ek & _).
    { unfold s2, ksync. simpl. by rewrite !settle_hart. }
    rewrite Ek. exists q, p'. eexists. split_and!;
      [done|by eexists _, _|lia|lia|done|exact Hcand|exact Hmin|exact Hbest| |].
    + intros p Hne. simpl. rewrite list_lookup_alter_ne by done. apply list_lookup_fmap.
    + unfold dispatched. rewrite <- (decide_True (P := q = q) ((Z.of_nat p' + 1) mod NPROC)
        (rr_at c (promoted s) q) eq_refl).
      by apply (put_rr_at c (promoted s)).
  - erewrite bind_Ret by exact E. eexists. split; [done|]. exact Hno.
Qed.

(** ** Bounded waiting *)

(** The promotions that bring a process to level 0: how many passes are left. *)
Definition passes_left (r : proc) : Z :=
  let rem l := Z.max 1 (get_time_slice l * PROMO_THRESHOLD - wait_timer_ticks r) in
  match queue_level r with
  | 1 => rem 1
  | 2 => rem 2 + get_time_slice 1 * PROMO_THRESHOLD
  | 3 => rem 3 + (get_time_slice 2 + get_time_slice 1) * PROMO_THRESHOLD
  | _ => 0
  end.

(** A waiting process: RUNNABLE, at a level of the queue, with a wait that has not
    overflowed if it matters. *)
Definition waiting (r : proc) : Prop :=
  p_state r = RUNNABLE /\
  (queue_level r = 0 \/ 1 <= queue_level r < NQUEUES /\ 0 <= wait_timer_ticks r < 2 ^ 31 - 1).

Lemma level_cases q : 1 <= q < NQUEUES -> q = 1 \/ q = 2 \/ q = 3.
Proof. params. lia. Qed.

(** The promotion of a RUNNABLE process in plain arithmetic. *)
Lemma promote_slot_level r :
  p_state r = RUNNABLE -> 1 <= queue_level r < NQUEUES -> 0 <= wait_timer_ticks r < 2 ^ 31 - 1 ->
  p_state (promote_slot r) = RUNNABLE /\
  if get_time_slice (queue_level r) * PROMO_THRESHOLD <=? wait_timer_ticks r + 1
  then queue_level (promote_slot r) = queue_level r - 1 /\ wait_timer_ticks (promote_slot r) = 0
  else queue_level (promote_slot r) = queue_level r /\
       wait_timer_ticks (promote_slot r) = wait_timer_ticks r + 1.
Proof.
  intros Hst Hl Hw. unfold promote_slot. rewrite bool_decide_true by done.
  unfold promote_proc. simpl. rewrite (s32_small (wait_timer_ticks r + 1)) by lia.
  assert (E : s32 (get_time_slice (queue_level r) * PROMO_THRESHOLD) =
    get_time_slice (queue_level r) * PROMO_THRESHOLD).
  { by destruct (level_cases _ Hl) as [->|[->| ->]]. }
  rewrite E. replace (0 <? queue_level r) with true by (symmetry; apply Z.ltb_lt; lia).
  rewrite andb_true_r. destruct (_ <=? _); simpl; (split; [done|]); (split; [|done]); [|done].
  apply s32_small. params. lia.
Qed.

Lemma promote_slot_level_0 r :
  p_state r = RUNNABLE -> queue_level r = 0 ->
  p_state (promote_slot r) = RUNNABLE /\ queue_level (promote_slot r) = 0.
Proof.
  intros Hst Hl. unfold promote_slot. rewrite bool_decide_true by done.
  unfold promote_proc. simpl. by rewrite Hl, andb_false_r.
Qed.

Lemma promote_slot_waiting r :
  waiting r ->
  waiting (promote_slot r) /\ passes_left (promote_slot r) <= Z.max 0 (passes_left r - 1).
Proof.
  intros [Hst [Hl|[Hl Hw]]].
  - destruct (promote_slot_level_0 r Hst Hl) as [Hst' Hl'].
    unfold waiting, passes_left. rewrite Hst', Hl', Hl. split; [tauto|lia].
  - destruct (promote_slot_level r Hst Hl Hw) as [Hst' Hp].
    unfold waiting, passes_left. rewrite Hst'.
    destruct (level_cases _ Hl) as [E|[E|E]]; rewrite E in *; simpl in Hp; params;
      destruct (_ <=? _) eqn:Hle in Hp; bool_to_prop; destruct Hp as [Hq Hw']; rewrite Hq, Hw';
      simpl; params; (split; [split; [done|]|]); lia.
Qed.

Lemma passes_left_bound r : waiting r -> 0 <= passes_left r <= 560.
Proof.
  intros [Hst [Hl|[Hl Hw]]]; unfold passes_left; [rewrite Hl; lia|].
  destruct (level_cases _ Hl) as [E|[E|E]]; rewrite E; params; simpl; params; lia.
Qed.

Lemma promote_iter_waiting n r :
  waiting r ->
  waiting (Nat.iter n promote_slot r) /\ passes_left (Nat.iter n promote_slot r) <= passes_left r.
Proof.
  intros Hw. induction n as [|n [IHw IHp]]; simpl; [done|].
  destruct (promote_slot_waiting _ IHw) as [? ?]. split; [done|].
  pose proof (passes_left_bound r Hw). lia.
Qed.

(** A waiting process at no promotion from level 0 is at level 0. *)
Lemma passes_left_0 r : waiting r -> passes_left r <= 0 -> queue_level r = 0.
Proof.
  intros [Hst [Hl|[Hl Hw]]]; [done|]. unfold passes_left.
  destruct (level_cases _ Hl) as [E|[E|E]]; rewrite E; params; simpl; params; lia.
Qed.

(** The passes of CPU [c], in the states [ss], while process [p] waits: every pass
    starts with no lock held; until [p] is chosen, what happens between two
    passes (other processes running, and other CPUs scheduling) keeps the
    round-robin indices of [c], and does no more to [p] than count its wait. *)
Record waits (c p : nat) (ss : nat -> kstate) : Prop := Waits {
  waits_ok : forall i, kok 0 (ss i) /\ rr_ok c (ss i) /\ s_hart (k_sync (ss i)) = c;
  waits_start : exists r, k_procs (ss 0%nat) !! p = Some r /\ waiting r;
  waits_link : forall i s', after (scheduler_iter c (ss i)) = Some s' ->
    ~ dispatches p (scheduler_iter c (ss i)) ->
    (forall q, rr_at c (ss (S i)) q = rr_at c s' q) /\
    exists n, k_procs (ss (S i)) !! p = Nat.iter n promote_slot <$> k_procs s' !! p;
}.

(** Choosing another process of the level brings [p] closer to the index. *)
Lemma rr_dist_decr start p p' :
  0 <= start < NPROC -> (p < Z.to_nat NPROC)%nat -> (p' < Z.to_nat NPROC)%nat -> p <> p' ->
  rr_dist start p' <= rr_dist start p ->
  rr_dist ((Z.of_nat p' + 1) mod NPROC) p < rr_dist start p.
Proof.
  unfold rr_dist. params. intros Hs Hp Hp' Hne Hle.
  rewrite Zminus_mod_idemp_r.
  pose proof (Z.mod_pos_bound (Z.of_nat p - start) 64).
  pose proof (Z.div_mod (Z.of_nat p - start) 64).
  pose proof (Z.div_mod (Z.of_nat p' - start) 64).
  pose proof (Z.mod_pos_bound (Z.of_nat p' - start) 64).
  set (a := (Z.of_nat p - start) mod 64) in *. set (b := (Z.of_nat p' - start) mod 64) in *.
  assert (Hab : a <> b) by (intros E; lia).
  replace (Z.of_nat p - (Z.of_nat p' + 1))
    with (a - b - 1 + ((Z.of_nat p - start) / 64 - (Z.of_nat p' - start) / 64) * 64) by lia.
  rewrite Z.mod_add, Z.mod_small by lia. lia.
Qed.

(** One pass of [c] chooses [p], or leaves it waiting, closer to level 0 and,
    once there, closer to the round-robin index. *)
Lemma waits_step c p ss :
  waits c p ss -> ~ dispatches p (scheduler_iter c (ss 0%nat)) ->
  waits c p (fun i => ss (S i)) /\
  exists r r', k_procs (ss 0%nat) !! p = Some r /\ k_procs (ss 1%nat) !! p = Some r' /\
    waiting r /\ passes_left r' <= Z.max 0 (passes_left r - 1) /\
    (passes_left r <= 1 ->
     rr_dist (rr_at c (ss 1%nat) 0) p < rr_dist (rr_at c (ss 0%nat) 0) p).
Proof.
  intros [Hok (r & Hr & Hw) Hlink] Hnd. destruct (Hok 0%nat) as (H0 & Hrr & Hc).
  assert (Hp : (p < Z.to_nat NPROC)%nat).
  { rewrite <- (kok_procs _ _ H0). by eapply lookup_lt_Some. }
  destruct (promote_slot_waiting r Hw) as [Hw1 Hp1].
  assert (Hcand : candidate (queue_level (promote_slot r))
    (promote_slot <$> k_procs (ss 0%nat)) p = true).
  { apply candidate_iff. exists (promote_slot r). rewrite list_lookup_fmap, Hr.
    split_and!; [done|apply Hw1|done]. }
  assert (Hlev : 0 <= queue_level (promote_slot r) < NQUEUES).
  { destruct Hw1 as [_ [->|[? _]]]; params; lia. }
  destruct (scheduler_iter_cases c _ H0 Hrr Hc) as
    [(q & p' & s' & Ha & Hd & Hq & Hp' & Hc' & Hmin & Hbest & Hsame & Hrr')|(s' & E & Hno)];
    [|by rewrite Hno in Hcand].
  assert (Hne : p <> p') by (intros ->; done).
  destruct (Hlink 0%nat s' Ha Hnd) as [Hrr1 [n Hn]]. rewrite Hsame, Hr in Hn by done. simpl in Hn.
  destruct (promote_iter_waiting n _ Hw1) as [Hw2 Hp2].
  split; [split; [by intros i|by eauto|by intros i; apply (Hlink (S i))]|].
  eexists r, _. split_and!; [done|done|done|lia|]. intros Hle.
  assert (Hq0 : queue_level (promote_slot r) = 0) by (apply passes_left_0; [done|lia]).
  rewrite Hq0 in *. assert (q = 0) as ->.
  { destruct (decide (q = 0)) as [|Hq1]; [done|]. by rewrite (Hbest 0 p) in Hcand by lia. }
  rewrite Hrr1, Hrr'. apply rr_dist_decr; [by apply rr_at_range|done..|by apply Hmin].
Qed.

Lemma dispatches_dec p o : dispatches p o \/ ~ dispatches p o.
Proof.
  destruct o as [|w|[|p'] s k]; try (right; by intros (? & ? & ?)).
  destruct (decide (p' = p)) as [->|]; [left; by eexists _, _|right].
  intros (? & ? & ?). congruence.
Qed.

Lemma waits_level_0 c p n ss r :
  waits c p ss -> k_procs (ss 0%nat) !! p = Some r -> passes_left r <= 1 ->
  rr_dist (rr_at c (ss 0%nat) 0) p < Z.of_nat n ->
  exists i, (i < n)%nat /\ dispatches p (scheduler_iter c (ss i)).
Proof.
  revert ss r. induction n as [|n IH]; intros ss r Hw Hr Hle Hd.
  { pose proof (rr_dist_range (rr_at c (ss 0%nat) 0) p). lia. }
  destruct (dispatches_dec p (scheduler_iter c (ss 0%nat))) as [Hy|Hn].
  { exists 0%nat. split; [lia|done]. }
  destruct (waits_step c p ss Hw Hn) as (Hw' & r0 & r' & Hr0 & Hr' & _ & Hp & Hdist).
  simplify_eq. destruct (IH _ r' Hw' Hr') as (i & Hi & Hdi); [lia|lia|].
  exists (S i). split; [lia|done].
Qed.

Lemma waits_bounded c p n ss r :
  waits c p ss -> k_procs (ss 0%nat) !! p = Some r -> passes_left r <= Z.of_nat n ->
  exists i, (i < n + Z.to_nat NPROC)%nat /\ dispatches p (scheduler_iter c (ss i)).
Proof.
  revert ss r. induction n as [|n IH]; intros ss r Hw Hr Hle.
  { apply (waits_level_0 c p _ _ r); [done..|lia|].
    pose proof (rr_dist_range (rr_at c (ss 0%nat) 0) p). params. lia. }
  destruct (dispatches_dec p (scheduler_iter c (ss 0%nat))) as [Hy|Hn].
  { exists 0%nat. split; [lia|done]. }
  destruct (waits_step c p ss Hw Hn) as (Hw' & r0 & r' & Hr0 & Hr' & _ & Hp & _).
  simplify_eq. destruct (IH _ r' Hw' Hr') as (i & Hi & Hdi); [lia|].
  exists (S i). split; [lia|done].
Qed.

(** C2. No process starves. A process that stays RUNNABLE is switched to by any
    CPU that keeps scheduling, within 560 + 64 of its passes, whatever the other
    processes and CPUs do: the promotions bring it to level 0 within
    10 * (32 + 16 + 8) passes from the bottom level, and there the round robin
    reaches it within NPROC passes. *)
Theorem mlfq_no_starvation c p ss :
  waits c p ss ->
  exists i s' k, (i < 624)%nat /\ scheduler_iter c (ss i) = Swtch (ToProc p) s' k.
Proof.
  intros Hw. destruct (waits_start _ _ _ Hw) as (r & Hr & Hwr).
  destruct (waits_bounded c p 560 ss r Hw Hr) as (i & Hi & s' & k & E).
  - pose proof (passes_left_bound r Hwr). lia.
  - exists i, s', k. split; [params; lia|done].
Qed.

(** Two processes at the bottom level that take turns: the second waits for one
    pass, with its wait counted, and is then chosen. *)
Definition turn_0 : kstate := table 0 [runnable_at 1 3; runnable_at 2 3].
Definition turn_1 : kstate :=
  put_rr 0 3 1 (table 0 [runnable_at 1 3; promote_slot (runnable_at 2 3)]).
Definition turns (i : nat) : kstate := match i with O => turn_0 | S _ => turn_1 end.

Lemma turns_ok i : kok 0 (turns i) /\ rr_ok 0 (turns i).
Proof.
  destruct i; simpl.
  - destruct (table_ok 0 [runnable_at 1 3; runnable_at 2 3]) as [? Hrr];
      [params; lia|simpl; params; lia|]. split; [done|].
    apply (Hrr 0%nat 0); params; lia.
  - destruct (table_ok 0 [runnable_at 1 3; promote_slot (runnable_at 2 3)]) as [? Hrr];
      [params; lia|simpl; params; lia|]. split; [by apply kok_put_rr|].
    apply put_rr_ok; [|params; lia]. apply (Hrr 0%nat 0); params; lia.
Qed.

Definition dispatches_b (p : nat) (o : outcome unit) : bool :=
  match o with Swtch (ToProc p') _ _ => bool_decide (p' = p) | _ => false end.

Lemma dispatches_b_spec p o : dispatches_b p o = true -> dispatches p o.
Proof.
  destruct o as [|w|[|p'] s k]; simpl; try done. intros ->%bool_decide_eq_true.
  by eexists _, _.
Qed.

Lemma turns_first :
  k_rr <$> after (scheduler_iter 0 turn_0) = Some (k_rr turn_1) /\
  (fun s => k_procs s !! 1%nat) <$> after (scheduler_iter 0 turn_0) = Some (k_procs turn_1 !! 1%nat) /\
  dispatches_b 1 (scheduler_iter 0 turn_1) = true.
Proof. vm_compute. done. Qed.

Lemma turns_waits : waits 0 1 turns.
Proof.
  destruct turns_first as (Hrr & Hp & Hd). split.
  - intros i. destruct (turns_ok i) as [Hok Hr]. split; [exact Hok|]. split; [exact Hr|].
    destruct i; vm_compute; reflexivity.
  - exists (runnable_at 2 3). split; [vm_compute; reflexivity|].
    unfold waiting. simpl. params. split; [done|lia].
  - intros [|i] s' Ha Hn; simpl turns in *.
    + rewrite Ha in Hrr, Hp. apply (inj Some) in Hrr, Hp. split.
      * intros q. unfold rr_at. by rewrite Hrr.
      * exists 0%nat. rewrite Hp. by rewrite option_fmap_id.
    + destruct Hn. by apply dispatches_b_spec.
Qed.

Lemma mlfq_no_starvation_witness :
  exists i s' k, (i < 624)%nat /\ scheduler_iter 0 (turns i) = Swtch (ToProc 1) s' k.
Proof. apply (mlfq_no_starvation 0 1 turns). apply turns_waits. Defined.

(** ** Running a process *)

(** One level down with a fresh slice. *)
Definition lowered (r : proc) : proc :=
  r <| queue_level := queue_level r + 1 |> <| priority := queue_level r + 1 |>
    <| max_time_slice := get_time_slice (queue_level r + 1) |>
    <| timer_ticks_used := 0 |> <| wait_timer_ticks := 0 |>.

Lemma demote_proc_spec r :
  0 <= queue_level r < NQUEUES ->
  demote_proc r =
  if decide (voluntarily_yielded r = 0 /\ max_time_slice r <= timer_ticks_used r /\
             queue_level r < NQUEUES - 1)
  then lowered r else r.
Proof.
  intros Hq. unfold demote_proc, has_to_demote. destruct (decide _) as [(Hv & Ht & Hl)|Hn].
  - rewrite Hv. apply Z.leb_le in Ht. rewrite Ht. apply Z.ltb_lt in Hl as Hl'. rewrite Hl'.
    simpl. unfold lowered. simpl. rewrite s32_small by (params; lia). done.
  - destruct (_ && _) eqn:E; [|done]. bool_to_prop. tauto.
Qed.

(** C30. A dispatch and its return. The chosen process is switched to RUNNING,
    marked as not having yielded, recorded as the process of the CPU and with its
    lock held, every other process being untouched. Whenever it switches back
    with its lock held, the pass ends with the lock free and the CPU without a
    process; the process is moved one level down with a fresh slice exactly when
    it did not yield, used up its slice and is not at the bottom already, and is
    left as it is otherwise. *)
Theorem run_chosen_spec s c p r :
  kok 0 s -> s_hart (k_sync s) = c -> k_procs s !! p = Some r ->
  exists s1 k, run_chosen c p s = Swtch (ToProc p) s1 k /\
    k_procs s1 = <[p := dispatch_proc r]> (k_procs s) /\
    curproc (k_sync s1) = Some p /\ lock_held (LkProc p) (k_sync s1) /\ sync_at 1 (k_sync s1) /\
    forall s' r', sync_at 1 (k_sync s') -> s_hart (k_sync s') = c ->
      lock_held (LkProc p) (k_sync s') -> k_procs s' !! p = Some r' ->
      0 <= queue_level r' < NQUEUES ->
      exists s2, k s' = Ret tt s2 /\ sync_at 0 (k_sync s2) /\ lock_free (LkProc p) (k_sync s2) /\
        curproc (k_sync s2) = None /\
        k_procs s2 = <[p := if decide (voluntarily_yielded r' = 0 /\
                                       max_time_slice r' <= timer_ticks_used r' /\
                                       queue_level r' < NQUEUES - 1)
                            then lowered r' else r']> (k_procs s').
Proof.
  intros H Hc Hr. assert (Hp : (p < Z.to_nat NPROC)%nat).
  { rewrite <- (kok_procs _ _ H). by eapply lookup_lt_Some. }
  destruct (kok_held _ _ H Hp) as (Hs1 & Hl1 & _).
  destruct (run_chosen_run s c p H Hp Hc) as (k & -> & Hk).
  destruct (sync_at_cpu _ _ Hs1) as [x Hx]. rewrite acquired_hart, Hc in Hx.
  eexists _, _. split; [done|]. split_and!.
  - simpl. by rewrite (list_alter_as_insert _ _ _ _ Hr).
  - simpl. eapply set_cproc_cur; [exact Hx|]. by rewrite acquired_hart.
  - exact Hl1.
  - simpl. by apply set_cproc_sync_at.
  - intros s' r' Hs' Hc' Hl' Hr' Hq. rewrite (Hk s' r') by done. eexists. split; [done|].
    destruct (sync_at_cpu _ _ Hs') as [x' Hx'].
    simpl. split_and!.
    + apply (released_sync_at 1); [by apply set_cproc_sync_at|lia].
    + by apply released_free.
    + rewrite curproc_released. rewrite Hc' in Hx'. by eapply set_cproc_cur.
    + rewrite <- demote_proc_spec by done. by rewrite (list_alter_as_insert _ _ _ _ Hr').
Qed.

Lemma run_chosen_spec_witness :
  exists s1 k, run_chosen 0 0 (table 0 [runnable_at 1 0]) = Swtch (ToProc 0) s1 k /\
    k_procs s1 !! 0%nat = Some (dispatch_proc (runnable_at 1 0)).
Proof.
  destruct (table_ok 0 [runnable_at 1 0]) as [Hok _]; [params; lia|simpl; params; lia|].
  assert (Hh : s_hart (k_sync (table 0 [runnable_at 1 0])) = 0%nat) by (vm_compute; reflexivity).
  destruct (run_chosen_spec (table 0 [runnable_at 1 0]) 0 0 (runnable_at 1 0) Hok Hh)
    as (s1 & k & E & Hps & _); [reflexivity|].
  exists s1, k. split; [exact E|]. rewrite Hps. reflexivity.
Defined.

(** C31. A preempted process is never demoted. When a timer interrupt makes a
    running process [yield], the process has set its own
    [voluntarily_yielded] flag, so the scheduler that resumes leaves its level,
    its slice and the ticks it used as they were, however many ticks of its
    slice it used up. *)
Theorem preempted_not_demoted s c p r :
  kok 0 s -> s_hart (k_sync s) = c -> curproc (k_sync s) = Some p -> k_procs s !! p = Some r ->
  exists s1 k, yield s = Swtch ToScheduler s1 k /\
    forall s0 s0' k0, kok 0 s0 -> s_hart (k_sync s0) = c ->
      run_chosen c p s0 = Swtch (ToProc p) s0' k0 ->
      exists s2, k0 s1 = Ret tt s2 /\
        k_procs s2 = <[p := r <| p_state := RUNNABLE |> <| voluntarily_yielded := 1 |>]>
          (k_procs s).
Proof.
  intros H Hc Hcur Hr. assert (Hp : (p < Z.to_nat NPROC)%nat).
  { rewrite <- (kok_procs _ _ H). by eapply lookup_lt_Some. }
  destruct (yield_run s p H Hcur Hp) as (k & -> & _). eexists _, _. split; [done|].
  intros s0 s0' k0 H0 Hc0 E. destruct (run_chosen_run s0 c p H0 Hp Hc0) as (k1 & E1 & Hk).
  rewrite E1 in E. injection E as _ <-. destruct (kok_held _ _ H Hp) as (Hs1 & Hl1 & _).
  erewrite Hk; [|exact Hs1|by simpl; rewrite acquired_hart|exact Hl1|].
  2: { simpl. by rewrite list_lookup_alter_eq, Hr. }
  eexists. split; [done|]. simpl. rewrite list_alter_alter.
  rewrite (list_alter_cong _ _ _ yielded) by done.
  by rewrite (list_alter_as_insert _ _ _ _ Hr).
Qed.

Lemma kok_set_cproc d c o s : kok d s -> kok d (ksync (set_cproc c o) s).
Proof. intros [Hs Hd Hl Hp]. split; try done. by apply set_cproc_sync_at. Qed.

(** Process 0 running on CPU 0 with its slice used up. *)
Definition spent : proc :=
  (runnable_at 1 0) <| p_state := RUNNING |> <| timer_ticks_used := 4 |>.

Lemma preempted_not_demoted_witness :
  exists s1 k k0 s2, yield (ksync (set_cproc 0 (Some 0%nat)) (table 0 [spent]))
      = Swtch ToScheduler s1 k /\ k0 s1 = Ret tt s2 /\
    queue_level <$> k_procs s2 !! 0%nat = Some 0.
Proof.
  destruct (table_ok 0 [spent]) as [Hok _]; [params; lia|simpl; params; lia|].
  destruct (table_ok 0 [runnable_at 1 0]) as [Hok0 _]; [params; lia|simpl; params; lia|].
  destruct (preempted_not_demoted (ksync (set_cproc 0 (Some 0%nat)) (table 0 [spent])) 0 0 spent)
    as (s1 & k & E & Hk).
  - by apply kok_set_cproc.
  - vm_compute. reflexivity.
  - vm_compute. reflexivity.
  - reflexivity.
  - assert (Hh : s_hart (k_sync (table 0 [runnable_at 1 0])) = 0%nat) by (vm_compute; reflexivity).
    destruct (run_chosen_run (table 0 [runnable_at 1 0]) 0 0 Hok0) as (k0 & E0 & _);
      [params; lia|exact Hh|].
    destruct (Hk _ _ k0 Hok0 Hh E0) as (s2 & E2 & Hps).
    exists s1, k, k0, s2. split; [exact E|]. split; [exact E2|]. rewrite Hps. reflexivity.
Defined.

(** ** Two CPUs *)

(** The state as hart [h] sees it. *)
Definition on_hart (h : nat) (s : kstate) : kstate := ksync (fun y => y <| s_hart := h |>) s.

(** The functions of one hart keep the registers and the CPU data of another. *)
Definition same_at (h : nat) (y y' : syncst) : Prop :=
  s_harts y' !! h = s_harts y !! h /\ s_cpus y' !! h = s_cpus y !! h.

Lemma same_at_trans h y1 y2 y3 : same_at h y1 y2 -> same_at h y2 y3 -> same_at h y1 y3.
Proof. intros [] []. split; congruence. Qed.

Lemma settle_same_at h y : s_hart y <> h -> same_at h y (settle y).
Proof.
  intros. unfold settle, same_at. repeat case_match; try done; simpl;
    by rewrite list_lookup_insert_ne.
Qed.

Lemma set_locked_same_at h l v o y : same_at h y (set_locked l v o y).
Proof. unfold set_locked, same_at. by case_match. Qed.

Lemma acquired_same_at h l y : s_hart y <> h -> same_at h y (acquired l y).
Proof.
  intros. eapply same_at_trans; [|apply set_locked_same_at]. unfold pushed, same_at.
  repeat case_match; try done; simpl; by rewrite !list_lookup_insert_ne.
Qed.

Lemma released_same_at h l y : s_hart y <> h -> same_at h y (released l y).
Proof.
  intros. eapply same_at_trans; [apply (set_locked_same_at _ l 0 None)|].
  unfold released, popped, same_at. rewrite set_locked_hart.
  repeat case_match; try done; simpl; rewrite ?set_locked_hart;
    by rewrite !list_lookup_insert_ne.
Qed.

Lemma set_cproc_same_at h c o y : c <> h -> same_at h y (set_cproc c o y).
Proof. intros. unfold set_cproc, same_at. simpl. by rewrite list_lookup_alter_ne. Qed.

Lemma kok_other_hart d h s s' :
  kok d (on_hart h s) -> same_at h (k_sync s) (k_sync s') ->
  (forall p, (p < Z.to_nat NPROC)%nat -> lock_free (LkProc p) (k_sync s')) ->
  length (k_procs s') = length (k_procs s) -> kok d (on_hart h s').
Proof.
  intros [(hh & x & Hh & Hx & Hd & Hi) Hd' Hl Hp] [E1 E2] Hl' Hlen. split; simpl in *.
  - exists hh, x. simpl. by rewrite E1, E2.
  - done.
  - exact Hl'.
  - by rewrite Hlen.
Qed.

Lemma select_proc_result d c s p s' :
  kok d s -> rr_ok c s -> select_proc c s = Ret (Some p) s' ->
  (exists r, k_procs s !! p = Some r /\ p_state r = RUNNABLE) /\
  k_procs s' = k_procs s /\ k_sync s' = settle (k_sync s) /\
  forall c', c' <> c -> rr_ok c' s -> rr_ok c' s'.
Proof.
  intros H Hrr E. destruct (select_proc_cases d c s H Hrr)
    as [(q & p' & E' & Hq & Hp & Hc & _)|[E' _]]; rewrite E in E'; [|done].
  injection E' as -> ->. split_and!; [|done|done|].
  - apply candidate_iff in Hc as (r & Hr & Hst & _). eauto.
  - intros c' Hne (l & Hl & Hlen & Hall). exists l. simpl.
    by rewrite list_lookup_alter_ne.
Qed.

Lemma kok_same d s s' :
  kok d s -> k_procs s' = k_procs s -> k_sync s' = k_sync s -> kok d s'.
Proof. intros [Hs Hd Hl Hp] Ep Ey. split; rewrite ?Ep, ?Ey; done. Qed.

Lemma kok_on_hart_settle d h s s' :
  kok d (on_hart h s) -> s_hart (k_sync s) <> h -> k_procs s' = k_procs s ->
  k_sync s' = settle (k_sync s) -> kok d (on_hart h s').
Proof.
  intros H Hne Hp Hy. apply (kok_other_hart d h s); [done| | |by rewrite Hp].
  - rewrite Hy. by apply settle_same_at.
  - intros p Hlt. rewrite Hy. apply settle_lock_free. by apply H.
Qed.

Lemma curproc_cpu y p :
  curproc y = Some p -> exists x, s_cpus y !! s_hart y = Some x /\ c_proc x = Some p.
Proof. unfold curproc. case_match; [eauto|done]. Qed.

Lemma dispatched_cur d c p s :
  sync_at d (acquired (LkProc p) (k_sync s)) -> s_hart (k_sync s) = c ->
  curproc (k_sync (dispatched c p s)) = Some p.
Proof.
  intros Hs Hc. destruct (sync_at_cpu _ _ Hs) as [x Hx]. rewrite acquired_hart, Hc in Hx.
  simpl. eapply set_cproc_cur; [exact Hx|]. by rewrite acquired_hart.
Qed.

(** The table as the second CPU finds it once the process dispatched by the first
    has released its lock. *)
Lemma kok_after_dispatch c1 c2 p s :
  c1 <> c2 -> kok 0 (on_hart c1 s) -> kok 0 (on_hart c2 s) -> (p < Z.to_nat NPROC)%nat ->
  kok 0 (on_hart c2 (ksync (released (LkProc p)) (dispatched c1 p (on_hart c1 s)))).
Proof.
  intros Hne H1 H2 Hp. destruct (kok_held _ _ H1 Hp) as (Hs & Hl & _).
  apply (kok_other_hart 0 c2 s); [done| | |].
  - simpl. eapply same_at_trans; [|apply released_same_at; simpl; by rewrite acquired_hart].
    eapply same_at_trans; [|by apply set_cproc_same_at].
    by apply (acquired_same_at c2 (LkProc p) (k_sync (on_hart c1 s))).
  - intros p' Hp'. simpl. destruct (decide (p' = p)) as [->|Hn].
    + by apply released_free.
    + destruct (kok_locks _ _ H1 p' Hp') as [n Hn']. exists n.
      rewrite released_other by congruence. simpl. by rewrite acquired_other by congruence.
  - simpl. by rewrite length_alter.
Qed.

(** After both selections no lock is held, on either CPU. *)
Lemma select_twice_ok c1 c2 s p s1 s2 :
  c1 <> c2 -> kok 0 (on_hart c1 s) -> kok 0 (on_hart c2 s) ->
  rr_ok c1 s -> rr_ok c2 s ->
  select_proc c1 (on_hart c1 s) = Ret (Some p) s1 ->
  select_proc c2 (on_hart c2 s1) = Ret (Some p) s2 ->
  kok 0 (on_hart c1 s2) /\ kok 0 (on_hart c2 s2) /\ (p < Z.to_nat NPROC)%nat.
Proof.
  intros Hne H1 H2 Hr1 Hr2 E1 E2.
  destruct (select_proc_result 0 c1 _ _ _ H1 Hr1 E1) as ((r & Hr & _) & Hp1 & Hy1 & Hrr1).
  assert (H2' : kok 0 (on_hart c2 s1)).
  { by apply (kok_on_hart_settle 0 c2 (on_hart c1 s)). }
  destruct (select_proc_result 0 c2 _ _ _ H2' (Hrr1 c2 ltac:(done) Hr2) E2)
    as (_ & Hp2 & Hy2 & _).
  assert (Hok1 : kok 0 (on_hart c1 s2)).
  { apply (kok_on_hart_settle 0 c1 (on_hart c2 s1)); [|done|done|done].
    apply (kok_same 0 (ksync settle (on_hart c1 s))); [by apply kok_settle|done|].
    simpl. rewrite Hy1. simpl. unfold settle. simpl. by repeat case_match. }
  assert (Hok2 : kok 0 (on_hart c2 s2)).
  { apply (kok_same 0 (ksync settle (on_hart c2 s1))); [by apply kok_settle|done|].
    simpl. rewrite Hy2. simpl. unfold settle. simpl. by repeat case_match. }
  split_and!; [done|done|]. rewrite <- (kok_procs _ _ H1). by eapply lookup_lt_Some.
Qed.

(** C32. Two CPUs can run one process at the same time. When two CPUs select
    the same process before either has dispatched it, the second still switches
    to it after the first has done so and the process has released its lock (as
    its first action in [forkret] or at the end of [yield]): neither checks again
    that the process is RUNNABLE, and both end up with it as their current
    process. *)
Theorem double_dispatch c1 c2 s p s1 s2 :
  c1 <> c2 -> kok 0 (on_hart c1 s) -> kok 0 (on_hart c2 s) ->
  rr_ok c1 s -> rr_ok c2 s ->
  select_proc c1 (on_hart c1 s) = Ret (Some p) s1 ->
  select_proc c2 (on_hart c2 s1) = Ret (Some p) s2 ->
  exists s3 k3 s4 s5 k5 x1 x2,
    run_chosen c1 p (on_hart c1 s2) = Swtch (ToProc p) s3 k3 /\
    release (LkProc p) s3 = Ret tt s4 /\
    run_chosen c2 p (on_hart c2 s4) = Swtch (ToProc p) s5 k5 /\
    s_cpus (k_sync s5) !! c1 = Some x1 /\ c_proc x1 = Some p /\
    s_cpus (k_sync s5) !! c2 = Some x2 /\ c_proc x2 = Some p.
Proof.
  intros Hne H1 H2 Hr1 Hr2 E1 E2.
  destruct (select_twice_ok c1 c2 s p s1 s2) as (Hok1 & Hok2 & Hp); try done.
  destruct (run_chosen_run (on_hart c1 s2) c1 p Hok1 Hp eq_refl) as (k3 & E3 & _).
  destruct (kok_held _ _ Hok1 Hp) as (Hs3 & Hl3 & _).
  pose proof (kok_after_dispatch c1 c2 p s2 Hne Hok1 Hok2 Hp) as Hok4.
  set (s4 := ksync _ _) in Hok4.
  destruct (run_chosen_run (on_hart c2 s4) c2 p Hok4 Hp eq_refl) as (k5 & E5 & _).
  destruct (kok_held _ _ Hok4 Hp) as (Hs5 & _).
  destruct (curproc_cpu (k_sync s4) p) as (x1 & Hx1 & Hc1).
  { change (k_sync s4) with (released (LkProc p) (k_sync (dispatched c1 p (on_hart c1 s2)))).
    rewrite curproc_released. by apply (dispatched_cur 1). }
  destruct (curproc_cpu (k_sync (dispatched c2 p (on_hart c2 s4))) p) as (x2 & Hx2 & Hc2).
  { by apply (dispatched_cur 1). }
  simpl in Hx1, Hx2. rewrite released_hart in Hx1. simpl in Hx1. rewrite acquired_hart in Hx1, Hx2.
  simpl in Hx1, Hx2. eexists _, k3, s4, _, k5, x1, x2. split; [exact E3|]. split.
  { apply (release_run 1); [by apply set_cproc_sync_at|lia|exact Hl3]. }
  split; [exact E5|]. split; [|by split_and!].
  destruct (acquired_same_at c1 (LkProc p) (k_sync (on_hart c2 s4))) as [_ Hsame]; [done|].
  transitivity (s_cpus (acquired (LkProc p) (k_sync (on_hart c2 s4))) !! c1).
  - simpl. by rewrite list_lookup_alter_ne.
  - rewrite Hsame. exact Hx1.
Qed.

Lemma both_select :
  exists s1 s2,
    select_proc 0 (on_hart 0 (table 0 [runnable_at 1 0])) = Ret (Some 0%nat) s1 /\
    select_proc 1 (on_hart 1 s1) = Ret (Some 0%nat) s2.
Proof.
  assert (H : match select_proc 0 (on_hart 0 (table 0 [runnable_at 1 0])) with
              | Ret (Some 0%nat) s1 =>
                  match select_proc 1 (on_hart 1 s1) with
                  | Ret (Some 0%nat) _ => True
                  | _ => False
                  end
              | _ => False
              end) by (vm_compute; exact I).
  destruct (select_proc 0 _) as [[[|]|] s1| |]; try done. exists s1.
  destruct (select_proc 1 _) as [[[|]|] s2| |]; try done. by exists s2.
Qed.

Lemma double_dispatch_witness :
  exists s3 k3 s5 k5 s2 s4,
    run_chosen 0 0 (on_hart 0 s2) = Swtch (ToProc 0) s3 k3 /\
    run_chosen 1 0 (on_hart 1 s4) = Swtch (ToProc 0) s5 k5.
Proof.
  destruct (table_ok 0 [runnable_at 1 0]) as [H0 Hrr]; [params; lia|simpl; params; lia|].
  assert (H1 : kok 0 (on_hart 1 (table 0 [runnable_at 1 0]))).
  { assert (E : on_hart 1 (table 0 [runnable_at 1 0]) = table 1 [runnable_at 1 0])
      by (vm_compute; reflexivity).
    rewrite E. apply table_ok; [params; lia|simpl; params; lia]. }
  assert (E0 : on_hart 0 (table 0 [runnable_at 1 0]) = table 0 [runnable_at 1 0])
    by (vm_compute; reflexivity).
  destruct both_select as (s1 & s2 & E1 & E2).
  destruct (double_dispatch 0 1 (table 0 [runnable_at 1 0]) 0 s1 s2)
    as (s3 & k3 & s4 & s5 & k5 & x1 & x2 & E3 & _ & E5 & _).
  - lia.
  - rewrite E0. exact H0.
  - exact H1.
  - apply (Hrr 0%nat 0); params; lia.
  - apply (Hrr 1%nat 0); params; lia.
  - exact E1.
  - exact E2.
  - exists s3, k3, s5, k5, s2, s4. split; [exact E3|exact E5].
Defined.
