(* ===== verification/Mem.v ===== *)
(** * Physical memory

    Bytes and 64-bit words of the RAM the kernel maps one to one, and the memory
    functions of [src/kernel/string.c]. Pure functions on the memory describe
    what a sequence of stores does; the kernel functions are the loops of
    the source, and fault on an address outside RAM. *)

From S2P Require Import Prelude Params Machine.

(** ** Bytes and words *)

Notation mem := (gmap Z Z).

Definition mget (m : mem) (a : Z) : Z := u8 (default 0 (m !! a)).
Definition mput (m : mem) (a v : Z) : mem := <[a := u8 v]> m.

(** A [uint64] in memory, least significant byte first. *)
Fixpoint le_get (n : nat) (m : mem) (a : Z) : Z :=
  match n with
  | O => 0
  | S n => mget m a + 256 * le_get n m (a + 1)
  end.

Fixpoint le_put (n : nat) (m : mem) (a v : Z) : mem :=
  match n with
  | O => m
  | S n => mput (le_put n m (a + 1) (v / 256)) a v
  end.

Definition get64 (m : mem) (a : Z) : Z := le_get 8 m a.
Definition put64 (m : mem) (a v : Z) : mem := le_put 8 m a v.

(** Memories that hold the same bytes. *)
Definition same_bytes (P : Z -> Prop) (m m' : mem) : Prop := forall a, P a -> mget m' a = mget m a.

(** ** Loads and stores of the kernel *)

Definition ram (a : Z) : bool := (KERNBASE <=? a) && (a <? PHYSTOP).

Definition load8 (a : Z) : M Z :=
  fun s => if ram a then Ret (mget (k_mem s) a) s else Stop SFault.

Definition store8 (a v : Z) : M unit :=
  fun s => if ram a then Ret tt (s <| k_mem := mput (k_mem s) a v |>) else Stop SFault.

Definition load64 (a : Z) : M Z :=
  fun s => if ram a && ram (a + 7) then Ret (get64 (k_mem s) a) s else Stop SFault.

Definition store64 (a v : Z) : M unit :=
  fun s => if ram a && ram (a + 7) then Ret tt (s <| k_mem := put64 (k_mem s) a v |>)
           else Stop SFault.

(** ** string.c on memory *)

(** [for(i = 0; i < n; i++) cdst[i] = c;] *)
Fixpoint memset_loop (n : nat) (cdst c : Z) : M unit :=
  match n with
  | O => ret tt
  | S n => store8 cdst c;; memset_loop n (cdst + 1) c
  end.

Definition memset (dst c n : Z) : M Z :=
  memset_loop (Z.to_nat (u32 n)) dst c;;
  ret dst.

Fixpoint memcmp_loop (n : nat) (s1 s2 : Z) : M Z :=
  match n with
  | O => ret 0
  | S n =>
      a ← load8 s1;
      b ← load8 s2;
      if negb (a =? b) then ret (a - b) else memcmp_loop n (s1 + 1) (s2 + 1)
  end.

Definition memcmp (v1 v2 n : Z) : M Z := memcmp_loop (Z.to_nat (u32 n)) v1 v2.

(** [while(n-- > 0) *--d = *--s;] *)
Fixpoint move_down (n : nat) (d s : Z) : M unit :=
  match n with
  | O => ret tt
  | S n =>
      v ← load8 (s - 1);
      store8 (d - 1) v;;
      move_down n (d - 1) (s - 1)
  end.

(** [while(n-- > 0) *d++ = *s++;] *)
Fixpoint move_up (n : nat) (d s : Z) : M unit :=
  match n with
  | O => ret tt
  | S n =>
      v ← load8 s;
      store8 d v;;
      move_up n (d + 1) (s + 1)
  end.

Definition memmove (dst src n : Z) : M Z :=
  let n := u32 n in
  if n =? 0 then ret dst else
  let s := src in
  let d := dst in
  (if (s <? d) && (d <? s + n)
   then move_down (Z.to_nat n) (d + n) (s + n)
   else move_up (Z.to_nat n) d s);;
  ret dst.

Definition memcpy (dst src n : Z) : M Z := memmove dst src n.

(** ** Bytes and words, reading after writing *)

Lemma u8_range z : 0 <= u8 z < 256.
Proof. apply Z.mod_pos_bound. done. Qed.

Lemma u8_small z : 0 <= z < 256 -> u8 z = z.
Proof. intros. by apply Z.mod_small. Qed.

Lemma u8_u8 z : u8 (u8 z) = u8 z.
Proof. apply u8_small, u8_range. Qed.

Lemma mget_range m a : 0 <= mget m a < 256.
Proof. apply u8_range. Qed.

Lemma mget_put m a v x : mget (mput m a v) x = if decide (x = a) then u8 v else mget m x.
Proof.
  unfold mget, mput. case_decide as E.
  - rewrite E, lookup_insert_eq. apply u8_u8.
  - by rewrite lookup_insert_ne.
Qed.

Lemma mget_le_put_ne n m a v x :
  x < a \/ a + Z.of_nat n <= x -> mget (le_put n m a v) x = mget m x.
Proof.
  revert m a v. induction n as [|n IH]; intros m a v Hx; [done|]. simpl.
  rewrite mget_put, decide_False by lia. apply IH. lia.
Qed.

Lemma le_get_ext n m m' a :
  (forall x, a <= x < a + Z.of_nat n -> mget m' x = mget m x) -> le_get n m' a = le_get n m a.
Proof.
  revert a. induction n as [|n IH]; intros a H; [done|]. simpl.
  rewrite H by lia. by rewrite IH by (intros; apply H; lia).
Qed.

Lemma le_get_put n m a v : le_get n (le_put n m a v) a = v mod 256 ^ Z.of_nat n.
Proof.
  revert m a v. induction n as [|n IH]; intros m a v; simpl; [by rewrite Z.mod_1_r|].
  rewrite mget_put, decide_True by done.
  rewrite (le_get_ext _ (le_put n m (a + 1) (v / 256)))
    by (intros; rewrite mget_put, decide_False by lia; done).
  rewrite IH. unfold u8. change (2 ^ 8) with 256.
  rewrite Nat2Z.inj_succ, Z.pow_succ_r by lia. by rewrite Z.rem_mul_r by lia.
Qed.

Lemma le_get_range n m a : 0 <= le_get n m a < 256 ^ Z.of_nat n.
Proof.
  revert a. induction n as [|n IH]; intros a; [simpl; lia|].
  rewrite Nat2Z.inj_succ, Z.pow_succ_r by lia. cbn [le_get].
  pose proof (mget_range m a). specialize (IH (a + 1)). lia.
Qed.

Lemma get64_range m a : 0 <= get64 m a < 2 ^ 64.
Proof. exact (le_get_range 8 m a). Qed.

Lemma get64_put64_eq m a v : get64 (put64 m a v) a = u64 v.
Proof. exact (le_get_put 8 m a v). Qed.

Lemma get64_ext m m' a :
  (forall x, a <= x < a + 8 -> mget m' x = mget m x) -> get64 m' a = get64 m a.
Proof. exact (le_get_ext 8 m m' a). Qed.

Lemma mget_put64_ne m a v x : x < a \/ a + 8 <= x -> mget (put64 m a v) x = mget m x.
Proof. exact (mget_le_put_ne 8 m a v x). Qed.

Lemma get64_put64_ne m a v x : x + 8 <= a \/ a + 8 <= x -> get64 (put64 m a v) x = get64 m x.
Proof. intros. apply get64_ext. intros. apply mget_put64_ne. lia. Qed.

Lemma get64_put m a v x : a < x \/ x + 8 <= a -> get64 (mput m a v) x = get64 m x.
Proof. intros. apply get64_ext. intros. rewrite mget_put, decide_False by lia. done. Qed.

(** ** What the memory functions do *)

(** [n] bytes from [a] lie in RAM. *)
Definition ram_range (a n : Z) : Prop := KERNBASE <= a /\ a + n <= PHYSTOP.

Lemma ram_at a n x : ram_range a n -> a <= x < a + n -> ram x = true.
Proof.
  intros [H1 H2] Hx. unfold ram. apply andb_true_iff.
  rewrite Z.leb_le, Z.ltb_lt. lia.
Qed.

Lemma ram_range_sub a n b k : ram_range a n -> a <= b -> b + k <= a + n -> ram_range b k.
Proof. intros [H1 H2] ? ?. split; lia. Qed.

Lemma load8_run a s n b : ram_range b n -> b <= a < b + n -> load8 a s = Ret (mget (k_mem s) a) s.
Proof. intros H Ha. unfold load8. by rewrite (ram_at _ _ _ H Ha). Qed.

Lemma store8_run a v s n b :
  ram_range b n -> b <= a < b + n -> store8 a v s = Ret tt (s <| k_mem := mput (k_mem s) a v |>).
Proof. intros H Ha. unfold store8. by rewrite (ram_at _ _ _ H Ha). Qed.

Lemma load64_run a s : ram_range a 8 -> load64 a s = Ret (get64 (k_mem s) a) s.
Proof. intros H. unfold load64. rewrite !(ram_at a 8) by (done || lia). done. Qed.

Lemma store64_run a v s :
  ram_range a 8 -> store64 a v s = Ret tt (s <| k_mem := put64 (k_mem s) a v |>).
Proof. intros H. unfold store64. rewrite !(ram_at a 8) by (done || lia). done. Qed.

(** The memory after [memset]. *)
Fixpoint fill (n : nat) (m : mem) (a c : Z) : mem :=
  match n with
  | O => m
  | S n => fill n (mput m a c) (a + 1) c
  end.

Lemma mget_fill n m a c x :
  mget (fill n m a c) x = if decide (a <= x < a + Z.of_nat n) then u8 c else mget m x.
Proof.
  revert m a. induction n as [|n IH]; intros m a; cbn [fill].
  - rewrite decide_False by lia. done.
  - rewrite IH, mget_put. repeat case_decide; (lia || done).
Qed.

Lemma memset_loop_run n a c s :
  ram_range a (Z.of_nat n) ->
  memset_loop n a c s = Ret tt (s <| k_mem := fill n (k_mem s) a c |>).
Proof.
  revert a s. induction n as [|n IH]; intros a s H; [by destruct s|]. simpl. unfold bind.
  rewrite (store8_run _ _ _ (Z.of_nat (S n)) a) by (done || lia). simpl.
  rewrite IH; [by destruct s|]. eapply ram_range_sub; [exact H|lia|lia].
Qed.

Lemma memset_run a c n s :
  0 <= n < 2 ^ 32 -> ram_range a n ->
  memset a c n s = Ret a (s <| k_mem := fill (Z.to_nat n) (k_mem s) a c |>).
Proof.
  intros Hn H. unfold memset, bind. rewrite u32_small by done.
  rewrite memset_loop_run by (by rewrite Z2Nat.id by lia). done.
Qed.

(** Eight zero bytes are the word zero. *)
Lemma get64_fill_zero n m a x :
  a <= x -> x + 8 <= a + Z.of_nat n -> get64 (fill n m a 0) x = 0.
Proof.
  intros H1 H2. unfold get64. cbn [le_get].
  rewrite !mget_fill, !decide_True by lia. done.
Qed.

Lemma get64_fill_ne n m a c x :
  x + 8 <= a \/ a + Z.of_nat n <= x -> get64 (fill n m a c) x = get64 m x.
Proof.
  intros. apply get64_ext. intros. rewrite mget_fill, decide_False by lia. done.
Qed.

(** The state after a copy of [n] bytes that reads each source byte before it is
    overwritten. *)
Definition copied (n : Z) (d src : Z) (s s' : kstate) : Prop :=
  exists m', s' = s <| k_mem := m' |> /\
    forall x, mget m' x = if decide (d <= x < d + n) then mget (k_mem s) (src + (x - d))
                          else mget (k_mem s) x.

Lemma move_up_run n d src s :
  ram_range d (Z.of_nat n) -> ram_range src (Z.of_nat n) ->
  d <= src \/ src + Z.of_nat n <= d ->
  exists s', move_up n d src s = Ret tt s' /\ copied (Z.of_nat n) d src s s'.
Proof.
  revert d src s. induction n as [|n IH]; intros d src s Hd Hs Hov.
  { exists s. split; [done|]. exists (k_mem s). split; [by destruct s|].
    intros x. rewrite decide_False by lia. done. }
  simpl. unfold bind.
  rewrite (load8_run _ _ (Z.of_nat (S n)) src) by (done || lia). simpl.
  rewrite (store8_run _ _ _ (Z.of_nat (S n)) d) by (done || lia). simpl.
  edestruct (IH (d + 1) (src + 1)) as (s' & E & m' & -> & Hm').
  { eapply ram_range_sub; [exact Hd|lia|lia]. }
  { eapply ram_range_sub; [exact Hs|lia|lia]. }
  { lia. }
  rewrite E. eexists. split; [done|]. exists m'. split; [done|]. intros x.
  rewrite Hm'. simpl. rewrite !mget_put. repeat case_decide; subst; try lia; try done.
  - f_equal. lia.
  - rewrite u8_small by apply mget_range. f_equal. lia.
Qed.

Lemma move_down_run n d src s :
  ram_range d (Z.of_nat n) -> ram_range src (Z.of_nat n) -> src <= d ->
  exists s', move_down n (d + Z.of_nat n) (src + Z.of_nat n) s = Ret tt s' /\
    copied (Z.of_nat n) d src s s'.
Proof.
  revert s. induction n as [|n IH]; intros s Hd Hs Hov.
  { exists s. split; [done|]. exists (k_mem s). split; [by destruct s|].
    intros x. rewrite decide_False by lia. done. }
  cbn [move_down]. unfold bind.
  rewrite (load8_run _ _ (Z.of_nat (S n)) src) by (done || lia). simpl obind.
  rewrite (store8_run _ _ _ (Z.of_nat (S n)) d) by (done || lia). simpl obind.
  replace (d + Z.of_nat (S n) - 1) with (d + Z.of_nat n) by lia.
  replace (src + Z.of_nat (S n) - 1) with (src + Z.of_nat n) by lia.
  edestruct IH as (s' & E & m' & -> & Hm').
  { eapply ram_range_sub; [exact Hd|lia|lia]. }
  { eapply ram_range_sub; [exact Hs|lia|lia]. }
  { done. }
  rewrite E. eexists. split; [done|]. exists m'. split; [done|]. intros x.
  rewrite Hm'. simpl. rewrite !mget_put. repeat case_decide; subst; try lia; try done.
  rewrite u8_small by apply mget_range. f_equal. lia.
Qed.

Lemma memmove_run dst src n s :
  0 <= n < 2 ^ 32 -> ram_range dst n -> ram_range src n ->
  exists s', memmove dst src n s = Ret dst s' /\ copied n dst src s s'.
Proof.
  intros Hn Hd Hs. unfold memmove. rewrite u32_small by done.
  destruct (n =? 0) eqn:E0; bool_to_prop.
  { exists s. split; [done|]. exists (k_mem s). split; [by destruct s|].
    intros x. rewrite decide_False by lia. done. }
  destruct (_ && _) eqn:E; unfold bind.
  - bool_to_prop. destruct (move_down_run (Z.to_nat n) dst src s) as (s' & Em & Hc);
      rewrite ?Z2Nat.id in * by lia; [done..|lia|]. rewrite Em. by exists s'.
  - destruct (move_up_run (Z.to_nat n) dst src s) as (s' & Em & Hc);
      rewrite ?Z2Nat.id in * by lia; [done..| |].
    + apply andb_false_iff in E as [E|E]; bool_to_prop; lia.
    + rewrite Em. by exists s'.
Qed.

(** memmove(dst, src, n) copies as if through a buffer: byte i of the
    destination is byte i of the source as it was before the call, also when
    the two regions overlap in either direction, and no other byte changes. *)
Theorem memmove_spec dst src n s :
  0 <= n < 2 ^ 32 -> ram_range dst n -> ram_range src n ->
  exists m', memmove dst src n s = Ret dst (s <| k_mem := m' |>) /\
    forall x, mget m' x = if decide (dst <= x < dst + n) then mget (k_mem s) (src + (x - dst))
                          else mget (k_mem s) x.
Proof.
  intros Hn Hd Hs. destruct (memmove_run dst src n s Hn Hd Hs) as (s' & E & m' & -> & Hm').
  by exists m'.
Qed.

Lemma memmove_spec_witness :
  exists m', memmove (KERNBASE + 2) KERNBASE 4 (kstate_zero 0) =
    Ret (KERNBASE + 2) ((kstate_zero 0) <| k_mem := m' |>).
Proof.
  destruct (memmove_spec (KERNBASE + 2) KERNBASE 4 (kstate_zero 0)) as (m' & E & _).
  - lia.
  - split; layout; lia.
  - split; layout; lia.
  - exists m'. exact E.
Defined.

(** Pages are never unfolded byte by byte. *)
#[global] Arguments fill : simpl never.
#[global] Arguments memset_loop : simpl never.
#[global] Arguments le_get : simpl never.
#[global] Arguments le_put : simpl never.
#[global] Arguments get64 : simpl never.
#[global] Arguments put64 : simpl never.
#[global] Opaque fill le_get le_put.
