(* ===== verification/Kalloc.v ===== *)
(** * The page allocator

    [src/kernel/kalloc.c]: a free list of pages threaded through the first word
    of each free page. *)

From S2P Require Import Prelude Params Machine Spinlock Mem.

(** ** kalloc.c *)

Definition kfree (pa : Z) : M unit :=
  end_ ← gets (fun s => sym_end (k_syms s));
  if negb (pa mod PGSIZE =? 0) || (pa <? end_) || (PHYSTOP <=? pa) then panic "kfree" else
  memset pa 1 PGSIZE;;
  let r := pa in
  acquire LkKmem;;
  fl ← gets k_freelist;
  store64 r fl;;
  modify (fun s => s <| k_freelist := r |>);;
  release LkKmem.

Definition kalloc : M Z :=
  acquire LkKmem;;
  r ← gets k_freelist;
  when (truthy r)
    (next ← load64 r;
     modify (fun s => s <| k_freelist := next |>));;
  release LkKmem;;
  when (truthy r) (memset r 5 PGSIZE;; ret tt);;
  ret r.

(** [for(; p + PGSIZE <= pa_end; p += PGSIZE) kfree(p);] *)
Fixpoint freerange_loop (fuel : nat) (p pa_end : Z) : M unit :=
  match fuel with
  | O => stop_ SFuel
  | S fuel =>
      if p + PGSIZE <=? pa_end
      then kfree p;; freerange_loop fuel (p + PGSIZE) pa_end
      else ret tt
  end.

Definition freerange (pa_start pa_end : Z) : M unit :=
  let p := PGROUNDUP pa_start in
  freerange_loop (Z.to_nat ((pa_end - p) / PGSIZE) + 1) p pa_end.

Definition kinit : M unit :=
  initlock LkKmem "kmem";;
  end_ ← gets (fun s => sym_end (k_syms s));
  freerange end_ PHYSTOP.

(** ** The abstract allocator

    The free list stands for a list of distinct pages of allocatable memory. *)

(** A page [kfree] accepts. *)
Definition page (s : symbols) (p : Z) : Prop := p mod PGSIZE = 0 /\ sym_end s <= p < PHYSTOP.

#[export] Instance page_dec s p : Decision (page s p).
Proof. unfold page. apply _. Defined.

Definition syms_ok (s : symbols) : Prop := KERNBASE <= sym_end s <= PHYSTOP.

(** The pages linked from [r]. *)
Fixpoint chain (m : mem) (r : Z) (l : list Z) : Prop :=
  match l with
  | [] => r = 0
  | p :: l => r = p /\ chain m (get64 m p) l
  end.

Record free_pages (s : kstate) (l : list Z) : Prop := FreePages {
  fp_syms : syms_ok (k_syms s);
  fp_chain : chain (k_mem s) (k_freelist s) l;
  fp_nodup : NoDup l;
  fp_page : Forall (page (k_syms s)) l;
}.

(** The bytes of page [p]. *)
Definition in_page (p a : Z) : Prop := p <= a < p + PGSIZE.

Lemma page_ram y p : syms_ok y -> page y p -> ram_range p PGSIZE.
Proof.
  intros [H1 H2] [Hm Hp]. unfold ram_range. layout.
  Z.div_mod_to_equations. lia.
Qed.

Lemma page_nonzero y p : syms_ok y -> page y p -> p <> 0.
Proof. intros [H1 _] [_ Hp]. layout. lia. Qed.

Lemma page_apart y p q : page y p -> page y q -> p <> q -> q + PGSIZE <= p \/ p + PGSIZE <= q.
Proof. intros [H1 _] [H2 _] Hne. layout. Z.div_mod_to_equations. lia. Qed.

(** The chain only reads the pages it links. *)
Lemma chain_ext m m' r l :
  (forall p, p ∈ l -> get64 m' p = get64 m p) -> chain m r l -> chain m' r l.
Proof.
  revert r. induction l as [|p l IH]; intros r Hext; [done|]. intros [-> Hc].
  split; [done|]. rewrite Hext by set_solver. apply IH; [set_solver|done].
Qed.

(** Memories that agree outside of one page. *)
Lemma get64_other_page y m m' p q :
  same_bytes (fun a => ~ in_page p a) m m' -> page y p -> page y q -> p <> q ->
  get64 m' q = get64 m q.
Proof.
  intros Hs Hp Hq Hne. apply get64_ext. intros x Hx. apply Hs. unfold in_page.
  pose proof (page_apart _ _ _ Hp Hq Hne). layout. lia.
Qed.

Lemma chain_outside y m m' p r l :
  same_bytes (fun a => ~ in_page p a) m m' -> page y p -> Forall (page y) l -> p ∉ l ->
  chain m r l -> chain m' r l.
Proof.
  intros Hs Hp Hl Hn. apply chain_ext. intros q Hq. rewrite Forall_forall in Hl.
  eapply get64_other_page; [done|done|by apply Hl|]. intros ->. done.
Qed.

(** The state after a call that changed the memory and the free list only. *)
Definition alloc_state (s : kstate) (m : mem) (fl : Z) : kstate :=
  s <| k_mem := m |> <| k_freelist := fl |> <| k_sync := settle (k_sync s) |>.

Lemma page_test s pa :
  negb (pa mod PGSIZE =? 0) || (pa <? sym_end (k_syms s)) || (PHYSTOP <=? pa) = false <->
  page (k_syms s) pa.
Proof.
  unfold page. rewrite !orb_false_iff, negb_false_iff, Z.eqb_eq, Z.ltb_ge, Z.leb_gt. tauto.
Qed.

Lemma kfree_run d s l pa :
  free_pages s l -> can_lock d LkKmem (k_sync s) -> page (k_syms s) pa -> pa ∉ l ->
  exists m, kfree pa s = Ret tt (alloc_state s m pa) /\
    same_bytes (fun a => ~ in_page pa a) (k_mem s) m /\
    (forall a, pa + 8 <= a < pa + PGSIZE -> mget m a = 1) /\
    free_pages (alloc_state s m pa) (pa :: l).
Proof.
  intros [Hsy Hch Hnd Hpg] Hlk Hpa Hn. pose proof (page_ram _ _ Hsy Hpa) as Hram.
  unfold kfree, gets, modify, bind at 1. simpl. rewrite (proj2 (page_test s pa) Hpa).
  unfold bind at 1. rewrite memset_run by (done || layout; lia). simpl.
  unfold bind at 1. erewrite can_lock_acquire by exact Hlk. simpl.
  unfold bind at 1. simpl. unfold bind at 1.
  rewrite store64_run by (eapply ram_range_sub; [exact Hram|lia|layout; lia]). simpl.
  unfold bind. simpl. erewrite can_lock_release by done. simpl.
  set (m := put64 _ _ _).
  assert (Hsame : same_bytes (fun a => ~ in_page pa a) (k_mem s) m).
  { intros a Ha. unfold in_page in Ha. unfold m. rewrite mget_put64_ne by (layout; lia).
    rewrite mget_fill, decide_False by (layout; lia). done. }
  exists m. split_and!; [done|done| |].
  { intros a Ha. unfold m. rewrite mget_put64_ne by lia.
    rewrite mget_fill, decide_True by (layout; lia). done. }
  split; simpl; [done| |by constructor|by constructor].
  split; [done|].
  assert (Hfl : 0 <= k_freelist s < 2 ^ 64).
  { destruct l as [|q l]; simpl in Hch; [subst; rewrite Hch; lia|].
    destruct Hch as [-> _]. inversion Hpg as [|?? [_ Hq] _]; subst. destruct Hsy. layout. lia. }
  replace (get64 m pa) with (k_freelist s); [by eapply chain_outside|].
  unfold m. by rewrite get64_put64_eq, u64_small.
Qed.

Lemma kfree_panic pa s :
  ~ page (k_syms s) pa -> kfree pa s = Stop (SPanic "kfree").
Proof.
  intros Hn. unfold kfree, bind, gets. simpl. destruct (_ || _) eqn:E; [done|].
  apply page_test in E. done.
Qed.

Lemma kalloc_run d s l :
  free_pages s l -> can_lock d LkKmem (k_sync s) ->
  match l with
  | [] => kalloc s = Ret 0 (ksync settle s)
  | p :: l' => exists m fl, kalloc s = Ret p (alloc_state s m fl) /\
      same_bytes (fun a => ~ in_page p a) (k_mem s) m /\
      (forall a, in_page p a -> mget m a = 5) /\ free_pages (alloc_state s m fl) l'
  end.
Proof.
  intros [Hsy Hch Hnd Hpg] Hlk. unfold kalloc, gets, modify. destruct l as [|p l'].
  - erewrite bind_Ret by by apply (can_lock_acquire d). simpl in Hch.
    unfold bind. simpl. rewrite Hch. simpl. by erewrite can_lock_release by done.
  - erewrite bind_Ret by by apply (can_lock_acquire d). erewrite bind_Ret by reflexivity.
    destruct Hch as [E Hch]. simpl. rewrite E. apply Forall_cons in Hpg as [Hp Hpg].
    apply NoDup_cons in Hnd as [Hn Hnd].
    pose proof (page_ram _ _ Hsy Hp) as Hram. pose proof (page_nonzero _ _ Hsy Hp) as Hnz.
    apply truthy_true in Hnz. rewrite Hnz. unfold when, bind at 1 2.
    rewrite load64_run by (eapply ram_range_sub; [exact Hram|lia|layout; lia]). simpl.
    unfold bind at 1. erewrite can_lock_release by done. simpl. unfold bind.
    rewrite memset_run by (done || layout; lia). simpl.
    eexists _, _. split; [done|]. split_and!.
    + intros a Ha. rewrite mget_fill, decide_False; [done|]. unfold in_page in Ha. layout. lia.
    + intros a Ha. unfold in_page in Ha. rewrite mget_fill, decide_True; [done|]. layout. lia.
    + split; simpl; [done| |done|done]. eapply chain_outside; [|exact Hp|done|done|done].
      intros a Ha. rewrite mget_fill, decide_False; [done|]. unfold in_page in Ha. layout. lia.
Qed.

Lemma alloc_state_can_lock d l s m fl :
  can_lock d l (k_sync s) -> can_lock d l (k_sync (alloc_state s m fl)).
Proof. apply can_lock_settle. Qed.

#[export] Hint Resolve alloc_state_can_lock : xv6.

(** ** Allocation and freeing *)

(** kalloc() takes one page off the free list, or returns 0 when there is
    none. The page is aligned, lies between the kernel's end and PHYSTOP, is no
    longer on the list, and holds the junk byte 5 throughout; no byte of any
    other page changes. *)
Theorem kalloc_spec d s l :
  free_pages s l -> can_lock d LkKmem (k_sync s) ->
  (l = [] /\ kalloc s = Ret 0 (ksync settle s)) \/
  (exists p l' m fl, l = p :: l' /\ kalloc s = Ret p (alloc_state s m fl) /\
     page (k_syms s) p /\ p ∉ l' /\ free_pages (alloc_state s m fl) l' /\
     (forall a, in_page p a -> mget m a = 5) /\
     (forall a, ~ in_page p a -> mget m a = mget (k_mem s) a)).
Proof.
  intros Hf Hlk. pose proof (kalloc_run d s l Hf Hlk) as H. destruct l as [|p l']; [by left|right].
  destruct H as (m & fl & E & Hsame & H5 & Hf'). exists p, l', m, fl.
  pose proof (fp_page _ _ Hf) as Hp. apply Forall_cons in Hp as [Hp _].
  pose proof (fp_nodup _ _ Hf) as Hn. apply NoDup_cons in Hn as [Hn _]. by split_and!.
Qed.

(** kfree(pa) accepts exactly the pages kalloc() can return: on any other
    address it panics; on a page that is not already free it puts the page at
    the head of the list, fills the rest of it with the byte 1, and changes no
    byte of any other page. *)
Theorem kfree_spec d s l pa :
  free_pages s l -> can_lock d LkKmem (k_sync s) -> pa ∉ l ->
  if decide (page (k_syms s) pa)
  then exists m, kfree pa s = Ret tt (alloc_state s m pa) /\
    free_pages (alloc_state s m pa) (pa :: l) /\
    (forall a, pa + 8 <= a < pa + PGSIZE -> mget m a = 1) /\
    (forall a, ~ in_page pa a -> mget m a = mget (k_mem s) a)
  else kfree pa s = Stop (SPanic "kfree").
Proof.
  intros Hf Hlk Hn. destruct (decide _) as [Hpa|Hno]; [|by apply kfree_panic].
  destruct (kfree_run d s l pa Hf Hlk Hpa Hn) as (m & E & Hsame & H1 & Hf').
  exists m. by split_and!.
Qed.

(** ** Initialisation *)

(** The pages [p], [p + PGSIZE], ... that end below [pa_end]. *)
Definition pages_from (n : nat) (p : Z) : list Z := (fun i => p + i * PGSIZE) <$> seqZ 0 (Z.of_nat n).

Lemma pages_from_S n p : pages_from (S n) p = p :: pages_from n (p + PGSIZE).
Proof.
  unfold pages_from. rewrite seqZ_cons by lia. simpl. f_equal; [lia|].
  replace (Z.pred (Z.of_nat (S n))) with (Z.of_nat n) by lia.
  rewrite <- (fmap_add_seqZ 1 0), <- list_fmap_compose.
  apply list_fmap_ext. intros i x _. simpl. lia.
Qed.

Lemma elem_of_pages_from n p q :
  p mod PGSIZE = 0 ->
  q ∈ pages_from n p <-> q mod PGSIZE = 0 /\ p <= q < p + Z.of_nat n * PGSIZE.
Proof.
  intros Hp. unfold pages_from. rewrite list_elem_of_fmap. setoid_rewrite elem_of_seqZ.
  layout. split.
  - intros (i & -> & Hi). Z.div_mod_to_equations. lia.
  - intros [Hq Hr]. exists ((q - p) / 4096). Z.div_mod_to_equations. lia.
Qed.

Lemma freerange_loop_run n fuel p pa_end d s l :
  free_pages s l -> can_lock d LkKmem (k_sync s) ->
  p mod PGSIZE = 0 -> sym_end (k_syms s) <= p -> pa_end <= PHYSTOP ->
  Z.of_nat n = (pa_end - p) / PGSIZE -> (n < fuel)%nat ->
  (forall q, q ∈ pages_from n p -> q ∉ l) ->
  exists s', freerange_loop fuel p pa_end s = Ret tt s' /\
    free_pages s' (rev (pages_from n p) ++ l) /\ k_syms s' = k_syms s.
Proof.
  revert fuel p s l. induction n as [|n IH]; intros [|fuel] p s l Hf Hlk Hp He Hend Hn Hfu Hno;
    [lia| |lia|]; simpl.
  - destruct (_ <=? _) eqn:E; bool_to_prop.
    { exfalso. layout. Z.div_mod_to_equations. lia. }
    by exists s.
  - destruct (_ <=? _) eqn:E; bool_to_prop.
    2: { exfalso. layout. Z.div_mod_to_equations. lia. }
    assert (Hpg : page (k_syms s) p) by (split; [done|layout; lia]).
    rewrite pages_from_S in Hno.
    destruct (kfree_run d s l p Hf Hlk Hpg) as (m & Ek & _ & _ & Hf'); [apply Hno; by left|].
    erewrite bind_Ret by exact Ek.
    destruct (IH fuel (p + PGSIZE) (alloc_state s m p) (p :: l)) as (s' & Es & Hfp & Hsy);
      [done|by auto with xv6| | |done| |lia| |].
    + layout. Z.div_mod_to_equations. lia.
    + simpl. layout. lia.
    + layout. Z.div_mod_to_equations. lia.
    + intros q Hq [->|Hl]%elem_of_cons.
      * apply elem_of_pages_from in Hq; [layout; lia|]. layout. Z.div_mod_to_equations. lia.
      * by apply (Hno q); [right|].
    + exists s'. split; [done|]. split; [|done]. rewrite pages_from_S. simpl.
      by rewrite <- app_assoc.
Qed.

Lemma initlock_free d l name s :
  sync_at d (k_sync s) -> 0 <= d < 1000 ->
  exists y, initlock l name s = Ret tt (s <| k_sync := y |>) /\ can_lock d l y /\
    (forall l' n, l' <> l -> s_locks (k_sync s) !! l' = Some n -> s_locks y !! l' = Some n).
Proof.
  intros Hs Hd. eexists. split; [done|]. split.
  - split; [|split; [done|]]; [done|]. eexists. simpl. by rewrite lookup_insert_eq.
  - intros l' n Hne Hl. simpl. by rewrite lookup_insert_ne.
Qed.

(** kinit() leaves on the free list every page between the end of the
    kernel and PHYSTOP, each once. *)
Theorem kinit_spec d s :
  syms_ok (k_syms s) -> sync_at d (k_sync s) -> 0 <= d < 1000 -> k_freelist s = 0 ->
  exists s' l, kinit s = Ret tt s' /\ free_pages s' l /\
    forall p, p ∈ l <-> page (k_syms s) p.
Proof.
  intros Hsy Hs Hd Hfl. unfold kinit.
  destruct (initlock_free d LkKmem "kmem" s Hs Hd) as (y & E & Hlk & _).
  erewrite bind_Ret by exact E. erewrite bind_Ret by reflexivity. simpl.
  destruct (PGROUNDUP_spec (sym_end (k_syms s))) as [Hal Hup].
  { destruct Hsy. layout. lia. }
  set (e := PGROUNDUP _) in *. set (n := Z.to_nat ((PHYSTOP - e) / PGSIZE)).
  assert (Hn : Z.of_nat n = (PHYSTOP - e) / PGSIZE).
  { unfold n. apply Z2Nat.id. destruct Hsy. layout. Z.div_mod_to_equations. lia. }
  edestruct (freerange_loop_run n (n + 1) e PHYSTOP d (s <| k_sync := y |>) [])
    as (s' & Es & Hf' & _).
  - split; [done|done|constructor|constructor].
  - done.
  - done.
  - simpl. lia.
  - lia.
  - done.
  - lia.
  - set_solver.
  - exists s', (rev (pages_from n e)). rewrite app_nil_r in Hf'. split_and!; [done|done|].
    intros p. rewrite list_elem_of_In, <- in_rev, <- list_elem_of_In, elem_of_pages_from by done. rewrite Hn.
    unfold page. destruct Hsy. layout. Z.div_mod_to_equations. lia.
Qed.

(** ** Sequences of calls *)

(** A caller that allocates, and frees the [i]-th page it owns. *)
Inductive aop : Type := AAlloc | AFree (i : nat).

Definition run_aop (o : aop) (owned : list Z) : M (list Z) :=
  match o with
  | AAlloc => p ← kalloc; ret (if truthy p then p :: owned else owned)
  | AFree i =>
      match owned !! i with
      | Some p => kfree p;; ret (delete i owned)
      | None => ret owned
      end
  end.

Fixpoint run_aops (ops : list aop) (owned : list Z) : M (list Z) :=
  match ops with
  | [] => ret owned
  | o :: ops => owned ← run_aop o owned; run_aops ops owned
  end.

Lemma run_aop_run d s l o owned :
  free_pages s l -> can_lock d LkKmem (k_sync s) ->
  NoDup (l ++ owned) -> Forall (page (k_syms s)) owned ->
  exists owned' s' l', run_aop o owned s = Ret owned' s' /\ free_pages s' l' /\
    can_lock d LkKmem (k_sync s') /\ l' ++ owned' ≡ₚ l ++ owned /\
    Forall (page (k_syms s')) owned'.
Proof.
  intros Hf Hlk Hnd Hpg. destruct o as [|i]; simpl.
  - pose proof (kalloc_run d s l Hf Hlk) as H. destruct l as [|p l'].
    + erewrite bind_Ret by exact H. exists owned, (ksync settle s), [].
      split_and!; [done| |by apply can_lock_settle|done|done]. by destruct Hf.
    + destruct H as (m & fl & E & _ & _ & Hf'). erewrite bind_Ret by exact E.
      pose proof (fp_page _ _ Hf) as Hp. apply Forall_cons in Hp as [Hp _].
      pose proof (page_nonzero _ _ (fp_syms _ _ Hf) Hp) as Hnz. apply truthy_true in Hnz.
      rewrite Hnz. exists (p :: owned), (alloc_state s m fl), l'.
      split_and!; [done|done|by auto with xv6| |by constructor]. simpl.
      by rewrite Permutation_middle.
  - destruct (owned !! i) as [p|] eqn:Ep.
    + pose proof (delete_Permutation _ _ _ Ep) as Hperm.
      assert (Hn : p ∉ l).
      { rewrite Hperm in Hnd. apply NoDup_app in Hnd as (_ & Hnd & _).
        intros Hin. apply (Hnd p Hin). by left. }
      assert (Hp : page (k_syms s) p) by (rewrite Forall_lookup in Hpg; by eapply Hpg).
      destruct (kfree_run d s l p Hf Hlk Hp Hn) as (m & E & _ & _ & Hf').
      erewrite bind_Ret by exact E.
      exists (delete i owned), (alloc_state s m p), (p :: l).
      split_and!; [done|done|by auto with xv6| |by apply Forall_delete].
      transitivity (l ++ p :: delete i owned); [|by rewrite <- Hperm].
      simpl. by rewrite Permutation_middle.
    + by exists owned, s, l.
Qed.

(** C37. The allocator never loses a page and never hands one out twice. Any
    sequence of kalloc() and of kfree() on pages the caller owns runs to the end
    without a panic, and the free pages together with the owned ones stay a
    permutation of what they were, so that no page is ever both, or owned
    twice. *)
Theorem kalloc_conserves_pages d ops s l owned :
  free_pages s l -> can_lock d LkKmem (k_sync s) ->
  NoDup (l ++ owned) -> Forall (page (k_syms s)) owned ->
  exists owned' s' l', run_aops ops owned s = Ret owned' s' /\ free_pages s' l' /\
    l' ++ owned' ≡ₚ l ++ owned /\ NoDup (l' ++ owned').
Proof.
  revert s l owned. induction ops as [|o ops IH]; intros s l owned Hf Hlk Hnd Hpg; simpl.
  { by exists owned, s, l. }
  destruct (run_aop_run d s l o owned Hf Hlk Hnd Hpg) as (ow & s1 & l1 & E & Hf1 & Hlk1 & Hp & Hpg1).
  erewrite bind_Ret by exact E.
  destruct (IH s1 l1 ow Hf1 Hlk1) as (ow' & s' & l' & E' & Hf' & Hp' & Hnd'); [by rewrite Hp|done|].
  exists ow', s', l'. split_and!; [done|done|by rewrite Hp'|done].
Qed.

(** ** Examples *)

(** Two free pages after a kernel of one megabyte. *)
Definition page_a : Z := 0x80100000.
Definition page_b : Z := 0x80101000.

Definition two_pages : kstate :=
  (kstate_zero 0) <| k_sync := SyncSt 0 (replicate 8 hart_zero)
                       (<[0%nat := cpu_zero <| c_proc := Some 0%nat |>]> (replicate 8 cpu_zero))
                       {[LkKmem := Spinlock 0 "kmem" None]} |>
    <| k_mem := put64 (put64 ∅ page_b 0) page_a page_b |> <| k_freelist := page_a |>.

Lemma two_pages_free : free_pages two_pages [page_a; page_b].
Proof.
  split.
  - split; layout; simpl; lia.
  - simpl. split_and!; [done|by vm_compute..].
  - by apply (bool_decide_unpack _); vm_compute.
  - repeat constructor; vm_compute; done.
Qed.

Lemma two_pages_lock : can_lock 0 LkKmem (k_sync two_pages).
Proof.
  split; [|split; [lia|]].
  - by exists hart_zero, (cpu_zero <| c_proc := Some 0%nat |>).
  - exists "kmem". reflexivity.
Qed.

Lemma kalloc_spec_witness : exists m fl, kalloc two_pages = Ret page_a (alloc_state two_pages m fl).
Proof.
  destruct (kalloc_spec 0 two_pages _ two_pages_free two_pages_lock)
    as [[H _]|(p & l' & m & fl & Hl & E & _)]; [discriminate H|].
  injection Hl as <- _. exists m, fl. exact E.
Defined.

Lemma kfree_spec_witness :
  exists m, kfree (page_b + PGSIZE) two_pages = Ret tt (alloc_state two_pages m (page_b + PGSIZE)).
Proof.
  pose proof (kfree_spec 0 two_pages _ (page_b + PGSIZE) two_pages_free two_pages_lock) as H.
  destruct (decide _) as [Hp|Hn].
  - destruct H as (m & E & _); [|exists m; exact E]. by apply (bool_decide_unpack _); vm_compute.
  - destruct Hn. split; [reflexivity|]. unfold page_b. layout. simpl. lia.
Defined.

Lemma kinit_spec_witness : exists s' l, kinit (kstate_zero 0) = Ret tt s' /\ free_pages s' l.
Proof.
  destruct (kinit_spec 0 (kstate_zero 0)) as (s' & l & E & Hf & _).
  - split; layout; simpl; lia.
  - by exists hart_zero, cpu_zero.
  - lia.
  - reflexivity.
  - exists s', l. split; [exact E|exact Hf].
Defined.

Lemma kalloc_conserves_pages_witness :
  exists owned' s', run_aops [AAlloc; AAlloc; AFree 1; AAlloc; AAlloc] [] two_pages = Ret owned' s'
    /\ NoDup owned'.
Proof.
  destruct (kalloc_conserves_pages 0 [AAlloc; AAlloc; AFree 1; AAlloc; AAlloc] two_pages
    [page_a; page_b] [] two_pages_free two_pages_lock)
    as (ow & s' & l' & E & _ & _ & Hnd).
  - by apply (bool_decide_unpack _); vm_compute.
  - constructor.
  - exists ow, s'. split; [exact E|]. apply NoDup_app in Hnd. apply Hnd.
Defined.
