(* ===== verification/Vm.v ===== *)
(** * Virtual memory

    [src/kernel/vm.c]: Sv39 page tables in physical memory, the kernel's page
    table, the memory of user processes, and the copies between user and kernel
    memory. A kernel buffer that is not in a page is the list of its bytes. *)

From S2P Require Import Prelude Params Machine Spinlock ProcCore Mem Kalloc.

(** ** walk and mappages *)

Fixpoint walk_loop (level : nat) (pagetable va alloc : Z) : M Z :=
  match level with
  | O => ret (pagetable + 8 * PX 0 va)
  | S level' =>
      let pte := pagetable + 8 * PX (Z.of_nat level) va in
      v ← load64 pte;
      if truthy (Z.land v PTE_V) then walk_loop level' (PTE2PA v) va alloc
      else if negb (truthy alloc) then ret 0
      else
        pg ← kalloc;
        if pg =? 0 then ret 0
        else
          memset pg 0 PGSIZE;;
          store64 pte (Z.lor (PA2PTE pg) PTE_V);;
          walk_loop level' pg va alloc
  end.

Definition walk (pagetable va alloc : Z) : M Z :=
  if MAXVA <=? va then panic "walk" else walk_loop 2 pagetable va alloc.

Definition walkaddr (pagetable va : Z) : M Z :=
  if MAXVA <=? va then ret 0 else
  pte ← walk pagetable va 0;
  if pte =? 0 then ret 0 else
  v ← load64 pte;
  if negb (truthy (Z.land v PTE_V)) then ret 0 else
  if negb (truthy (Z.land v PTE_U)) then ret 0 else
  ret (PTE2PA v).

Fixpoint mappages_loop (fuel : nat) (pagetable a last pa perm : Z) : M Z :=
  match fuel with
  | O => stop_ SFuel
  | S fuel =>
      pte ← walk pagetable a 1;
      if pte =? 0 then ret (-1) else
      v ← load64 pte;
      if truthy (Z.land v PTE_V) then panic "mappages: remap" else
      store64 pte (Z.lor (Z.lor (PA2PTE pa) perm) PTE_V);;
      if a =? last then ret 0
      else mappages_loop fuel pagetable (u64 (a + PGSIZE)) last (u64 (pa + PGSIZE)) perm
  end.

Definition mappages (pagetable va size pa perm : Z) : M Z :=
  if negb (va mod PGSIZE =? 0) then panic "mappages: va not aligned" else
  if negb (size mod PGSIZE =? 0) then panic "mappages: size not aligned" else
  if size =? 0 then panic "mappages: size" else
  let last := u64 (va + size - PGSIZE) in
  mappages_loop (Z.to_nat (size / PGSIZE)) pagetable va last pa perm.

(** ** User memory *)

Definition uvmcreate : M Z :=
  pagetable ← kalloc;
  if pagetable =? 0 then ret 0 else
  memset pagetable 0 PGSIZE;;
  ret pagetable.

Fixpoint uvmunmap_loop (fuel : nat) (pagetable a last do_free : Z) : M unit :=
  match fuel with
  | O => stop_ SFuel
  | S fuel =>
      if negb (a <? last) then ret tt
      else
        pte ← walk pagetable a 0;
        (if pte =? 0 then ret tt
         else
           v ← load64 pte;
           if negb (truthy (Z.land v PTE_V)) then ret tt
           else
             when (truthy do_free) (kfree (PTE2PA v));;
             store64 pte 0);;
        uvmunmap_loop fuel pagetable (u64 (a + PGSIZE)) last do_free
  end.

Definition uvmunmap (pagetable va npages do_free : Z) : M unit :=
  if negb (va mod PGSIZE =? 0) then panic "uvmunmap: not aligned" else
  uvmunmap_loop (S (Z.to_nat npages)) pagetable va (u64 (va + u64 (npages * PGSIZE))) do_free.

Definition uvmdealloc (pagetable oldsz newsz : Z) : M Z :=
  if oldsz <=? newsz then ret oldsz else
  when (PGROUNDUP newsz <? PGROUNDUP oldsz)
    (let npages := s32 (u64 (PGROUNDUP oldsz - PGROUNDUP newsz) / PGSIZE) in
     uvmunmap pagetable (PGROUNDUP newsz) (u64 npages) 1);;
  ret newsz.

Fixpoint uvmalloc_loop (fuel : nat) (pagetable a oldsz newsz xperm : Z) : M Z :=
  match fuel with
  | O => stop_ SFuel
  | S fuel =>
      if negb (a <? newsz) then ret newsz
      else
        mem ← kalloc;
        if mem =? 0 then uvmdealloc pagetable a oldsz;; ret 0
        else
          memset mem 0 PGSIZE;;
          r ← mappages pagetable a PGSIZE mem (Z.lor (Z.lor PTE_R PTE_U) xperm);
          if negb (r =? 0) then
            kfree mem;;
            uvmdealloc pagetable a oldsz;;
            ret 0
          else uvmalloc_loop fuel pagetable (u64 (a + PGSIZE)) oldsz newsz xperm
  end.

Definition uvmalloc (pagetable oldsz newsz xperm : Z) : M Z :=
  if newsz <? oldsz then ret oldsz else
  let oldsz := PGROUNDUP oldsz in
  uvmalloc_loop (S (Z.to_nat ((newsz - oldsz) / PGSIZE + 1))) pagetable oldsz oldsz newsz xperm.

(** Page tables are three levels deep: [freewalk] is called with [level] 3. *)
Fixpoint freewalk_at (level : nat) (pagetable : Z) : M unit :=
  match level with
  | O => stop_ SFuel
  | S level =>
      for_each (seqZ 0 512) (fun i =>
        pte ← load64 (pagetable + 8 * i);
        if truthy (Z.land pte PTE_V)
           && (Z.land pte (Z.lor (Z.lor PTE_R PTE_W) PTE_X) =? 0)
        then
          let child := PTE2PA pte in
          freewalk_at level child;;
          store64 (pagetable + 8 * i) 0
        else if truthy (Z.land pte PTE_V) then panic "freewalk: leaf"
        else ret tt);;
      kfree pagetable
  end.

Definition freewalk (pagetable : Z) : M unit := freewalk_at 3 pagetable.

Definition uvmfree (pagetable sz : Z) : M unit :=
  when (0 <? sz) (uvmunmap pagetable 0 (PGROUNDUP sz / PGSIZE) 1);;
  freewalk pagetable.

(** [Some i] is the [goto err] at address [i]. *)
Fixpoint uvmcopy_loop (fuel : nat) (old new i sz : Z) : M (option Z) :=
  match fuel with
  | O => stop_ SFuel
  | S fuel =>
      if negb (i <? sz) then ret None
      else
        pte ← walk old i 0;
        if pte =? 0 then uvmcopy_loop fuel old new (u64 (i + PGSIZE)) sz
        else
          v ← load64 pte;
          if negb (truthy (Z.land v PTE_V)) then uvmcopy_loop fuel old new (u64 (i + PGSIZE)) sz
          else
            let pa := PTE2PA v in
            let flags := PTE_FLAGS v in
            mem ← kalloc;
            if mem =? 0 then ret (Some i)
            else
              memmove mem pa PGSIZE;;
              r ← mappages new i PGSIZE mem flags;
              if negb (r =? 0) then kfree mem;; ret (Some i)
              else uvmcopy_loop fuel old new (u64 (i + PGSIZE)) sz
  end.

Definition uvmcopy (old new sz : Z) : M Z :=
  err ← uvmcopy_loop (S (Z.to_nat (sz / PGSIZE + 1))) old new 0 sz;
  match err with
  | None => ret 0
  | Some i => uvmunmap new 0 (i / PGSIZE) 1;; ret (-1)
  end.

Definition uvmclear (pagetable va : Z) : M unit :=
  pte ← walk pagetable va 0;
  if pte =? 0 then panic "uvmclear" else
  v ← load64 pte;
  store64 pte (Z.land v (Z.lnot PTE_U)).

Definition ismapped (pagetable va : Z) : M Z :=
  pte ← walk pagetable va 0;
  if pte =? 0 then ret 0 else
  v ← load64 pte;
  ret (if truthy (Z.land v PTE_V) then 1 else 0).

Definition vmfault (pagetable va read : Z) : M Z :=
  p ← myproc_deref;
  pr ← get_proc p;
  if p_sz pr <=? va then ret 0 else
  let va := PGROUNDDOWN va in
  mapped ← ismapped pagetable va;
  if truthy mapped then ret 0 else
  mem ← kalloc;
  if mem =? 0 then ret 0 else
  memset mem 0 PGSIZE;;
  pr ← get_proc p;
  r ← mappages (p_pagetable pr) va PGSIZE mem (Z.lor (Z.lor PTE_W PTE_U) PTE_R);
  if negb (r =? 0) then kfree mem;; ret 0
  else ret mem.

(** ** Copies between kernel and user memory

    [copyin] and [copyinstr] return what they stored in the kernel's buffer,
    also when they fail half-way. *)

Fixpoint store_bytes (a : Z) (l : list Z) : M unit :=
  match l with
  | [] => ret tt
  | b :: l => store8 a b;; store_bytes (a + 1) l
  end.

Fixpoint load_bytes (n : nat) (a : Z) : M (list Z) :=
  match n with
  | O => ret []
  | S n => b ← load8 a; l ← load_bytes n (a + 1); ret (b :: l)
  end.

Fixpoint copyout_loop (fuel : nat) (pagetable dstva : Z) (src : list Z) : M Z :=
  match fuel with
  | O => stop_ SFuel
  | S fuel =>
      let len := Z.of_nat (length src) in
      if negb (0 <? len) then ret 0
      else
        let va0 := PGROUNDDOWN dstva in
        if MAXVA <=? va0 then ret (-1)
        else
          pa0 ← walkaddr pagetable va0;
          pa0 ← (if pa0 =? 0 then vmfault pagetable va0 0 else ret pa0);
          if pa0 =? 0 then ret (-1)
          else
            pte ← walk pagetable va0 0;
            v ← load64 pte;
            if negb (truthy (Z.land v PTE_W)) then ret (-1)
            else
              let n := PGSIZE - (dstva - va0) in
              let n := if len <? n then len else n in
              store_bytes (pa0 + (dstva - va0)) (take (Z.to_nat n) src);;
              copyout_loop fuel pagetable (u64 (va0 + PGSIZE)) (drop (Z.to_nat n) src)
  end.

Definition copyout (pagetable dstva : Z) (src : list Z) : M Z :=
  copyout_loop (S (S (length src / Z.to_nat PGSIZE + 1))) pagetable dstva src.

Fixpoint copyin_loop (fuel : nat) (pagetable srcva len : Z) (dst : list Z) : M (Z * list Z) :=
  match fuel with
  | O => stop_ SFuel
  | S fuel =>
      if negb (0 <? len) then ret (0, dst)
      else
        let va0 := PGROUNDDOWN srcva in
        pa0 ← walkaddr pagetable va0;
        pa0 ← (if pa0 =? 0 then vmfault pagetable va0 0 else ret pa0);
        if pa0 =? 0 then ret (-1, dst)
        else
          let n := PGSIZE - (srcva - va0) in
          let n := if len <? n then len else n in
          l ← load_bytes (Z.to_nat n) (pa0 + (srcva - va0));
          copyin_loop fuel pagetable (u64 (va0 + PGSIZE)) (len - n) (dst ++ l)
  end.

Definition copyin (pagetable srcva len : Z) : M (Z * list Z) :=
  copyin_loop (S (S (Z.to_nat (len / PGSIZE + 1)))) pagetable srcva len [].

(** [while(n > 0){ ... }]: the bytes copied, and whether a NUL was found. *)
Fixpoint copystr_page (n : nat) (p : Z) (dst : list Z) : M (bool * list Z) :=
  match n with
  | O => ret (false, dst)
  | S n =>
      c ← load8 p;
      if c =? 0 then ret (true, dst ++ [0])
      else copystr_page n (p + 1) (dst ++ [c])
  end.

Fixpoint copyinstr_loop (fuel : nat) (pagetable srcva max : Z) (dst : list Z) : M (Z * list Z) :=
  match fuel with
  | O => stop_ SFuel
  | S fuel =>
      if negb (0 <? max) then ret (-1, dst)
      else
        let va0 := PGROUNDDOWN srcva in
        pa0 ← walkaddr pagetable va0;
        if pa0 =? 0 then ret (-1, dst)
        else
          let n := PGSIZE - (srcva - va0) in
          let n := if max <? n then max else n in
          ' (got_null, dst) ← copystr_page (Z.to_nat n) (pa0 + (srcva - va0)) dst;
          if got_null : bool then ret (0, dst)
          else copyinstr_loop fuel pagetable (u64 (va0 + PGSIZE)) (max - n) dst
  end.

Definition copyinstr (pagetable srcva max : Z) : M (Z * list Z) :=
  copyinstr_loop (S (S (Z.to_nat (max / PGSIZE + 1)))) pagetable srcva max [].

(** ** The kernel's page table *)

Definition kvmmap (kpgtbl va pa sz perm : Z) : M unit :=
  r ← mappages kpgtbl va sz pa perm;
  if negb (r =? 0) then panic "kvmmap" else ret tt.

(** [proc_mapstacks] of [src/kernel/proc.c]. *)
Definition proc_mapstacks (kpgtbl : Z) : M unit :=
  for_each proc_ids (fun p =>
    pa ← kalloc;
    if pa =? 0 then panic "kalloc" else
    let va := KSTACK (Z.of_nat p) in
    kvmmap kpgtbl va pa PGSIZE (Z.lor PTE_R PTE_W)).

Definition kvmmake : M Z :=
  kpgtbl ← kalloc;
  memset kpgtbl 0 PGSIZE;;
  etext ← gets (fun s => sym_etext (k_syms s));
  trampoline ← gets (fun s => sym_trampoline (k_syms s));
  kvmmap kpgtbl UART0 UART0 PGSIZE (Z.lor PTE_R PTE_W);;
  kvmmap kpgtbl VIRTIO0 VIRTIO0 PGSIZE (Z.lor PTE_R PTE_W);;
  kvmmap kpgtbl PLIC PLIC 0x4000000 (Z.lor PTE_R PTE_W);;
  kvmmap kpgtbl KERNBASE KERNBASE (etext - KERNBASE) (Z.lor PTE_R PTE_X);;
  kvmmap kpgtbl etext etext (PHYSTOP - etext) (Z.lor PTE_R PTE_W);;
  kvmmap kpgtbl TRAMPOLINE trampoline PGSIZE (Z.lor PTE_R PTE_X);;
  proc_mapstacks kpgtbl;;
  ret kpgtbl.

Definition kvminit : M unit :=
  pt ← kvmmake;
  modify (fun s => s <| k_kpgtbl := pt |>).

(** [sfence_vma] orders the page-table writes and has no state of its own here. *)
Definition kvminithart : M unit :=
  pt ← gets k_kpgtbl;
  upd_hart (fun h => h <| satp := MAKE_SATP pt |>).
