(* ===== verification/PageTable.v ===== *)
(** * What a page table means

    The page-table pages that [walk] and [mappages] ([Vm]) build in memory,
    described by the tree they form, and the function from virtual pages to
    page-table entries they represent. *)

From S2P Require Import Prelude Params Machine Spinlock ProcCore Mem Kalloc Vm.

(** ** The tree of tables *)

(** The table pages of one address space: the table of level [l] that serves
    the addresses with prefix [k] is at key [(l, k)]; the root is at [(2, 0)]. *)
Notation tabs := (gmap (nat * Z) Z).

(** The part of an address above the index of level [l]. *)
Definition prefix (l : nat) (va : Z) : Z := va / 2 ^ (21 + 9 * Z.of_nat l).

Lemma prefix_step l va : prefix l va = prefix (S l) va * 512 + PX (Z.of_nat (S l)) va.
Proof.
  unfold prefix. rewrite PX_div by lia.
  replace (12 + 9 * Z.of_nat (S l)) with (21 + 9 * Z.of_nat l) by lia.
  replace (21 + 9 * Z.of_nat (S l)) with (21 + 9 * Z.of_nat l + 9) by lia.
  assert (Hn : 0 <= 21 + 9 * Z.of_nat l) by lia. set (n := 21 + 9 * Z.of_nat l) in *.
  rewrite Z.pow_add_r, <- Z.div_div by lia. change (2 ^ 9) with 512.
  pose proof (Z.div_mod (va / 2 ^ n) 512). lia.
Qed.

Lemma prefix_parent l va : prefix l va / 512 = prefix (S l) va.
Proof.
  rewrite prefix_step. pose proof (PX_range (Z.of_nat (S l)) va).
  rewrite Z.add_comm, Z.div_add, Z.div_small by lia. lia.
Qed.

Lemma prefix_root va : 0 <= va < MAXVA -> prefix 2 va = 0.
Proof. layout. intros. unfold prefix. apply Z.div_small. lia. Qed.

(** The page number of an address from its leaf table and index. *)
Lemma page_number va : va / PGSIZE = prefix 0 va * 512 + PX 0 va.
Proof.
  unfold prefix. rewrite PX_div by lia. change (2 ^ (21 + 9 * Z.of_nat 0)) with (4096 * 512).
  change (2 ^ (12 + 9 * 0)) with 4096. rewrite <- Z.div_div by lia. layout.
  pose proof (Z.div_mod (va / 4096) 512). lia.
Qed.

Record pt_ok (y : symbols) (m : mem) (T : tabs) (free : list Z) : Prop := PtOk {
  pt_page : forall lk t, T !! lk = Some t -> page y t /\ t ∉ free;
  pt_inj : forall lk lk' t, T !! lk = Some t -> T !! lk' = Some t -> lk = lk';
  pt_parent : forall l k t, T !! (l, k) = Some t -> (l < 2)%nat -> is_Some (T !! (S l, k / 512));
  pt_entry : forall l k t i, T !! (S l, k) = Some t -> 0 <= i < 512 ->
    match T !! (l, k * 512 + i) with
    | Some t' => Z.land (get64 m (t + 8 * i)) PTE_V <> 0 /\ PTE2PA (get64 m (t + 8 * i)) = t'
    | None => Z.land (get64 m (t + 8 * i)) PTE_V = 0
    end;
}.

(** The address of the leaf entry of [va], and its value: 0 where no leaf table
    exists. *)
Definition pte_addr (T : tabs) (va : Z) : option Z :=
  (fun t => t + 8 * PX 0 va) <$> T !! (0%nat, prefix 0 va).

Definition pte_of (T : tabs) (m : mem) (va : Z) : Z :=
  match pte_addr T va with Some a => get64 m a | None => 0 end.

(** Without a table at some level there is none below. *)
Lemma pt_up y m T free va l t :
  pt_ok y m T free -> T !! (0%nat, prefix 0 va) = Some t -> (l <= 2)%nat ->
  is_Some (T !! (l, prefix l va)).
Proof.
  intros H Ht. revert l. assert (H1 : is_Some (T !! (1%nat, prefix 1 va))).
  { rewrite <- prefix_parent. eapply pt_parent; [done|done|lia]. }
  destruct H1 as [t1 H1]. assert (H2 : is_Some (T !! (2%nat, prefix 2 va))).
  { rewrite <- prefix_parent. eapply pt_parent; [done|done|lia]. }
  intros [|[|[|l]]] Hl; [by eexists|by eexists|done|lia].
Qed.

(** ** Words of a table *)

Lemma table_word y t i : syms_ok y -> page y t -> 0 <= i < 512 -> ram_range (t + 8 * i) 8.
Proof. intros Hy Ht Hi. eapply ram_range_sub; [by eapply page_ram|lia|layout; lia]. Qed.

(** Two different words of table pages do not overlap. *)
Lemma table_words_apart y t i t' i' :
  page y t -> page y t' -> 0 <= i < 512 -> 0 <= i' < 512 ->
  t + 8 * i <> t' + 8 * i' -> t + 8 * i + 8 <= t' + 8 * i' \/ t' + 8 * i' + 8 <= t + 8 * i.
Proof.
  intros [Ht _] [Ht' _] Hi Hi'. layout. Z.div_mod_to_equations. lia.
Qed.

Lemma table_word_inj y t i t' i' :
  page y t -> page y t' -> 0 <= i < 512 -> 0 <= i' < 512 ->
  t + 8 * i = t' + 8 * i' -> t = t' /\ i = i'.
Proof. intros [Ht _] [Ht' _] Hi Hi'. layout. Z.div_mod_to_equations. lia. Qed.

(** ** walk() without allocation *)

Lemma walk_loop_noalloc l t va s T free :
  pt_ok (k_syms s) (k_mem s) T free -> syms_ok (k_syms s) -> (l <= 2)%nat ->
  T !! (l, prefix l va) = Some t ->
  walk_loop l t va 0 s = Ret (default 0 (pte_addr T va)) s.
Proof.
  intros H Hy. revert t. induction l as [|l IH]; intros t Hl Ht.
  { unfold pte_addr. by rewrite Ht. }
  cbn [walk_loop]. pose proof (PX_range (Z.of_nat (S l)) va) as Hi.
  erewrite bind_Ret.
  2: { apply load64_run. eapply table_word; [done| |done]. by eapply pt_page. }
  pose proof (pt_entry _ _ _ _ H _ _ _ _ Ht Hi) as He. rewrite <- prefix_step in He.
  destruct (T !! (l, prefix l va)) as [t'|] eqn:Et.
  - destruct He as [Hv <-]. apply truthy_true in Hv. rewrite Hv. apply IH; [lia|done].
  - rewrite He. simpl. unfold pte_addr.
    destruct (T !! (0%nat, prefix 0 va)) as [t0|] eqn:E0; [|done].
    destruct (pt_up _ _ _ _ va l t0 H E0) as [? ?]; [lia|congruence].
Qed.

Lemma walk_noalloc root va s T free :
  pt_ok (k_syms s) (k_mem s) T free -> syms_ok (k_syms s) -> 0 <= va < MAXVA ->
  T !! (2%nat, 0) = Some root ->
  walk root va 0 s = Ret (default 0 (pte_addr T va)) s.
Proof.
  intros H Hy Hva Hr. unfold walk. destruct (MAXVA <=? va) eqn:E; bool_to_prop; [lia|].
  eapply walk_loop_noalloc; [done|done|lia|]. by rewrite prefix_root.
Qed.

(** ** A new table *)

Section new_table.
Context (y : symbols) (m m' : mem) (T : tabs) (free : list Z) (l : nat) (va t p : Z).
Hypothesis Hok : pt_ok y m T (p :: free).
Hypothesis Hfree : NoDup (p :: free).
Hypothesis Hl : (l < 2)%nat.
Hypothesis Ht : T !! (S l, prefix (S l) va) = Some t.
Hypothesis Hnone : T !! (l, prefix l va) = None.
Hypothesis Hp : page y p.
Hypothesis Hy : syms_ok y.
Hypothesis Hzero : forall i, 0 <= i < 512 -> get64 m' (p + 8 * i) = 0.
Hypothesis Hentry : get64 m' (t + 8 * PX (Z.of_nat (S l)) va) = Z.lor (PA2PTE p) PTE_V.
Hypothesis Hother : forall lk t' i, T !! lk = Some t' -> 0 <= i < 512 ->
  t' + 8 * i <> t + 8 * PX (Z.of_nat (S l)) va -> get64 m' (t' + 8 * i) = get64 m (t' + 8 * i).

Let T' : tabs := <[(l, prefix l va) := p]> T.

Lemma new_table_fresh lk t' : T !! lk = Some t' -> t' <> p.
Proof. intros E ->. apply (pt_page _ _ _ _ Hok) in E as [_ E]. set_solver. Qed.

(** The flags of a pointer to a table are PTE_V alone. *)
Lemma new_table_pte :
  Z.land (Z.lor (PA2PTE p) PTE_V) PTE_V <> 0 /\ PTE2PA (Z.lor (PA2PTE p) PTE_V) = p.
Proof.
  split.
  - rewrite Z.land_lor_distr_l. intros E. apply Z.lor_eq_0_iff in E as [_ E]. done.
  - apply PTE2PA_PA2PTE; [destruct Hp, Hy; layout; lia|apply Hp|done].
Qed.

Lemma new_table_ok : pt_ok y m' T' free.
Proof.
  pose proof new_table_fresh as Hfr. unfold T'. apply NoDup_cons in Hfree as [Hpf _].
  split.
  - intros lk t' [[<- <-]|[Hne E]]%lookup_insert_Some; [done|].
    apply (pt_page _ _ _ _ Hok) in E as [? ?]. split; [done|set_solver].
  - intros lk lk' t' [[<- <-]|[Hne E]]%lookup_insert_Some
      [[<- E2]|[Hne' E']]%lookup_insert_Some; [done| | |].
    + by destruct (Hfr _ _ E').
    + subst. by destruct (Hfr _ _ E).
    + by eapply pt_inj.
  - intros l' k t' [[E <-]|[Hne E]]%lookup_insert_Some Hl'.
    + injection E as <- <-. rewrite prefix_parent, lookup_insert_ne by congruence. by eexists.
    + destruct (pt_parent _ _ _ _ Hok _ _ _ E Hl') as [t2 E2].
      destruct (decide ((l, prefix l va) = (S l', k / 512))) as [->|];
        [rewrite lookup_insert_eq|rewrite lookup_insert_ne by done]; by eexists.
  - intros l' k t' i [[E <-]|[Hne E]]%lookup_insert_Some Hi.
    + injection E as El Ek. rewrite lookup_insert_ne by (intros [= ? ?]; lia).
      destruct (T !! (l', k * 512 + i)) as [t2|] eqn:E2; [|by rewrite Hzero].
      destruct (pt_parent _ _ _ _ Hok _ _ _ E2) as [t3 E3]; [lia|].
      rewrite Z.div_add_l, Z.div_small, Z.add_0_r in E3 by lia. congruence.
    + destruct (decide (t' + 8 * i = t + 8 * PX (Z.of_nat (S l)) va)) as [Ew|Ew].
      * pose proof (PX_range (Z.of_nat (S l)) va).
        destruct (table_word_inj y t' i t (PX (Z.of_nat (S l)) va)) as [-> ->];
          [by eapply pt_page|by eapply pt_page|done|done|done|].
        pose proof (pt_inj _ _ _ _ Hok _ _ _ E Ht) as [= -> ->].
        rewrite <- prefix_step, lookup_insert_eq, Hentry. apply new_table_pte.
      * rewrite (Hother _ _ _ E Hi Ew). rewrite lookup_insert_ne.
        { by apply (pt_entry _ _ _ _ Hok). }
        intros [= <- Ek]. apply Ew. rewrite prefix_step in Ek.
        pose proof (PX_range (Z.of_nat (S l)) va).
        assert (k = prefix (S l) va) as -> by lia. simplify_eq.
        assert (i = PX (Z.of_nat (S l)) va) as -> by lia. done.
Qed.

(** A new table maps nothing. *)
Lemma new_table_pte_of va' : pte_of T' m' va' = pte_of T m va'.
Proof.
  unfold pte_of, pte_addr, T'. pose proof (PX_range 0 va') as Hi.
  destruct (decide ((l, prefix l va) = (0%nat, prefix 0 va'))) as [E|Hne].
  - rewrite E, lookup_insert_eq. simpl. rewrite Hzero by done.
    rewrite <- E, Hnone. done.
  - rewrite lookup_insert_ne by done.
    destruct (T !! (0%nat, prefix 0 va')) as [t0|] eqn:E0; simpl; [|done].
    apply (Hother _ _ _ E0 Hi). intros Ew.
    destruct (table_word_inj y t0 (PX 0 va') t (PX (Z.of_nat (S l)) va)) as [-> _];
      [by eapply pt_page|by eapply pt_page|done|apply PX_range|done|].
    pose proof (pt_inj _ _ _ _ Hok _ _ _ E0 Ht). congruence.
Qed.
End new_table.

(** ** walk() with allocation *)

(** A call that changed nothing but memory and the free list, [settle] being
    what matched lock calls leave. *)
Definition mem_only (s s' : kstate) : Prop :=
  (k_sync s' = k_sync s \/ k_sync s' = settle (k_sync s)) /\
  s' = s <| k_sync := k_sync s' |> <| k_mem := k_mem s' |> <| k_freelist := k_freelist s' |>.

Lemma mem_only_refl s : mem_only s s.
Proof. split; [by left|]. by destruct s. Qed.

Lemma mem_only_trans s1 s2 s3 : mem_only s1 s2 -> mem_only s2 s3 -> mem_only s1 s3.
Proof.
  intros [H1 E1] [H2 E2]. split.
  - destruct H1 as [H1|H1], H2 as [H2|H2]; rewrite H2, H1; [by left|by right..|].
    right. apply settle_settle.
  - rewrite E2, E1. by destruct s1.
Qed.

Lemma mem_only_alloc s m fl : mem_only s (alloc_state s m fl).
Proof. split; [by right|]. done. Qed.

Lemma mem_only_mem s m : mem_only s (s <| k_mem := m |>).
Proof. split; [by left|]. done. Qed.

Lemma mem_only_can_lock d l s s' :
  mem_only s s' -> can_lock d l (k_sync s) -> can_lock d l (k_sync s').
Proof. intros [[->| ->] _] H; [done|by apply can_lock_settle]. Qed.

Lemma mem_only_fields s s' :
  mem_only s s' ->
  k_syms s' = k_syms s /\ k_procs s' = k_procs s /\ k_kpgtbl s' = k_kpgtbl s /\
  curproc (k_sync s') = curproc (k_sync s).
Proof.
  intros [Hy E]. split_and!; [by rewrite E..|].
  destruct Hy as [-> | ->]; [done|apply curproc_settle].
Qed.

#[export] Hint Resolve mem_only_refl mem_only_alloc mem_only_mem : xv6.

(** The allocator and one page table, as the functions of [vm.c] find them. *)
Record vm_state (d : Z) (s : kstate) (free : list Z) (T : tabs) : Prop := VmState {
  vm_free : free_pages s free;
  vm_lock : can_lock d LkKmem (k_sync s);
  vm_pt : pt_ok (k_syms s) (k_mem s) T free;
}.

(** The bytes of no table of [T]. *)
Definition outside (T : tabs) (a : Z) : Prop := forall lk t, T !! lk = Some t -> ~ in_page t a.

(** [m'] and [T'] extend [m] and [T] by tables that map nothing, built from pages
    of the free list, no other byte being changed. *)
Record extends (T : tabs) (m : mem) (free : list Z) (T' : tabs) (m' : mem) (free' : list Z) : Prop :=
  Extends {
    ext_sub : T ⊆ T';
    ext_pte : forall va, pte_of T' m' va = pte_of T m va;
    ext_frame : same_bytes (outside T') m m';
    ext_free : exists taken, free = taken ++ free' /\ (forall q, q ∈ taken -> exists lk, T' !! lk = Some q)
      /\ forall lk t, T' !! lk = Some t -> T !! lk = Some t \/ t ∈ taken;
  }.

Lemma extends_refl T m free : extends T m free T m free.
Proof. split; [done|done|done|]. exists []. split; [done|]. split; [set_solver|by left]. Qed.

(** The pages taken from the free list become tables, and no other page does. *)
Lemma taken_trans (T T1 T2 : tabs) (f f1 f2 : list Z) :
  T1 ⊆ T2 ->
  (exists taken, f = taken ++ f1 /\ (forall q, q ∈ taken -> exists lk, T1 !! lk = Some q)
     /\ forall lk t, T1 !! lk = Some t -> T !! lk = Some t \/ t ∈ taken) ->
  (exists taken, f1 = taken ++ f2 /\ (forall q, q ∈ taken -> exists lk, T2 !! lk = Some q)
     /\ forall lk t, T2 !! lk = Some t -> T1 !! lk = Some t \/ t ∈ taken) ->
  exists taken, f = taken ++ f2 /\ (forall q, q ∈ taken -> exists lk, T2 !! lk = Some q)
     /\ forall lk t, T2 !! lk = Some t -> T !! lk = Some t \/ t ∈ taken.
Proof.
  intros Hs (k1 & -> & K1 & N1) (k2 & -> & K2 & N2). exists (k1 ++ k2).
  split; [by rewrite app_assoc|]. split.
  - intros q [Hq|Hq]%elem_of_app; [|by apply K2].
    destruct (K1 q Hq) as [lk Hlk]. exists lk. by eapply lookup_weaken.
  - intros lk t Ht. rewrite elem_of_app. destruct (N2 lk t Ht) as [H1|]; [|tauto].
    destruct (N1 lk t H1); tauto.
Qed.

Lemma extends_trans T m f T1 m1 f1 T2 m2 f2 :
  extends T m f T1 m1 f1 -> extends T1 m1 f1 T2 m2 f2 -> extends T m f T2 m2 f2.
Proof.
  intros [S1 P1 F1 K1] [S2 P2 F2 K2]. split.
  - by transitivity T1.
  - intros va. by rewrite P2, P1.
  - intros a Ha. rewrite F2 by done. apply F1. intros lk t Ht.
    apply (Ha lk). by eapply lookup_weaken.
  - by eapply taken_trans.
Qed.

(** A zeroed page linked as a new table. *)
Definition add_table (m : mem) (p pte : Z) : mem :=
  put64 (fill (Z.to_nat PGSIZE) m p 0) pte (Z.lor (PA2PTE p) PTE_V).

Lemma pte_u64 y p flags :
  syms_ok y -> page y p -> 0 <= flags < 2 ^ 10 -> u64 (Z.lor (PA2PTE p) flags) = Z.lor (PA2PTE p) flags.
Proof.
  intros [Hy1 Hy2] [Hal Hp] Hf. apply u64_small, lor_range; [lia| |lia]. unfold PA2PTE. layout.
  rewrite Z.shiftl_mul_pow2, Z.shiftr_div_pow2 by lia. Z.div_mod_to_equations. lia.
Qed.

(** What the new table and its entry do to words and bytes: the new page is zero,
    the entry points to it, words of other pages than [p] and apart from the
    entry are kept, and so are bytes outside of the two pages. *)
Lemma add_table_words y m m1 p t w :
  same_bytes (fun a => ~ in_page p a) m m1 -> syms_ok y -> page y p -> page y t -> t <> p ->
  in_page t w /\ in_page t (w + 7) ->
  (forall i, 0 <= i < 512 -> get64 (add_table m1 p w) (p + 8 * i) = 0) /\
  get64 (add_table m1 p w) w = Z.lor (PA2PTE p) PTE_V /\
  (forall q x, q <> p -> page y q -> in_page q x -> in_page q (x + 7) -> x + 8 <= w \/ w + 8 <= x ->
     get64 (add_table m1 p w) x = get64 m x) /\
  (forall a, ~ in_page p a -> ~ in_page t a -> mget (add_table m1 p w) a = mget m a).
Proof.
  intros Hsame Hy Hp Ht Hne [Hw Hw7]. pose proof (page_apart _ _ _ Hp Ht) as Hap.
  unfold add_table, in_page in *. split_and!.
  - intros i Hi. rewrite get64_put64_ne by (layout; lia). apply get64_fill_zero; layout; lia.
  - rewrite get64_put64_eq. by eapply pte_u64.
  - intros q x Hq Hqp Hx Hx7 Hxw. rewrite get64_put64_ne by lia.
    pose proof (page_apart _ _ _ Hqp Hp Hq).
    rewrite get64_fill_ne by (layout; lia). apply get64_ext. intros z Hz.
    apply Hsame. layout. lia.
  - intros a Ha Ha'. rewrite mget_put64_ne by (layout; lia).
    rewrite mget_fill, decide_False by (layout; lia). apply Hsame. layout. lia.
Qed.

Lemma walk_alloc_step d s p free T l va t :
  vm_state d s (p :: free) T -> (l < 2)%nat ->
  T !! (S l, prefix (S l) va) = Some t -> T !! (l, prefix l va) = None ->
  exists s',
    (pg ← kalloc;
     if pg =? 0 then ret 0
     else
       memset pg 0 PGSIZE;;
       store64 (t + 8 * PX (Z.of_nat (S l)) va) (Z.lor (PA2PTE pg) PTE_V);;
       walk_loop l pg va 1) s = walk_loop l p va 1 s' /\
    mem_only s s' /\ vm_state d s' free (<[(l, prefix l va) := p]> T) /\
    extends T (k_mem s) (p :: free) (<[(l, prefix l va) := p]> T) (k_mem s') free.
Proof.
  intros [Hf Hlk Hpt] Hl Ht Hn.
  destruct (kalloc_run d s _ Hf Hlk) as (m1 & fl & E1 & Hsame & _ & Hf1).
  pose proof (fp_page _ _ Hf) as Hp. apply Forall_cons in Hp as [Hp Hpg].
  pose proof (fp_syms _ _ Hf) as Hy. pose proof (fp_nodup _ _ Hf) as Hnd.
  pose proof (page_nonzero _ _ Hy Hp) as Hnz. pose proof (PX_range (Z.of_nat (S l)) va) as Hi.
  destruct (pt_page _ _ _ _ Hpt _ _ Ht) as [Htp Htn].
  assert (Htne : t <> p) by (intros ->; apply Htn; by left).
  erewrite bind_Ret by exact E1. apply Z.eqb_neq in Hnz. rewrite Hnz.
  erewrite bind_Ret by (apply memset_run; [layout; lia|by eapply page_ram]).
  erewrite bind_Ret by (apply store64_run; by eapply table_word).
  set (w := t + 8 * PX (Z.of_nat (S l)) va). exists (alloc_state s (add_table m1 p w) fl).
  destruct (add_table_words (k_syms s) (k_mem s) m1 p t w Hsame Hy Hp Htp Htne)
    as (Hz & He & Ho & Hfr).
  { unfold in_page, w. layout. lia. }
  split; [unfold alloc_state, add_table; simpl; reflexivity|]. clear E1.
  generalize dependent (add_table m1 p w). intros m3 Hz He Ho Hfr.
  assert (Hother : forall lk t' i, T !! lk = Some t' -> 0 <= i < 512 -> t' + 8 * i <> w ->
    get64 m3 (t' + 8 * i) = get64 (k_mem s) (t' + 8 * i)).
  { intros lk t' i Et Hi' Hw. destruct (pt_page _ _ _ _ Hpt _ _ Et) as [Htp' Htn'].
    apply (Ho t'); [intros ->; apply Htn'; by left|done|unfold in_page; layout; lia..|].
    by apply (table_words_apart (k_syms s)). }
  split; [apply mem_only_alloc|]. split.
  - split; [|by apply alloc_state_can_lock|].
    + destruct Hf1 as [Hy1 Hch Hnd1 Hpg1]. split; [exact Hy1| |exact Hnd1|exact Hpg1]. simpl.
      eapply chain_ext; [|exact Hch]. intros q Hq. rewrite Forall_forall in Hpg.
      apply NoDup_cons in Hnd as [Hpn _]. assert (q <> p) as Hqp by (by intros ->).
      assert (t <> q) as Hqt by (intros ->; apply Htn; by right).
      rewrite (Ho q q), (get64_other_page _ _ _ _ _ Hsame Hp); [done|by apply Hpg|done..|by apply Hpg| | |].
      * unfold in_page. layout. lia.
      * unfold in_page. layout. lia.
      * pose proof (page_apart _ _ _ Htp (Hpg _ Hq)). unfold w. layout. lia.
    + by apply (new_table_ok (k_syms s) (k_mem s) _ T free l va t p).
  - split.
    + by apply insert_subseteq.
    + by apply (new_table_pte_of (k_syms s) (k_mem s) _ T free l va t p).
    + intros a Ha. apply Hfr.
      * apply (Ha (l, prefix l va)). by rewrite lookup_insert_eq.
      * apply (Ha (S l, prefix (S l) va)). by rewrite lookup_insert_ne by congruence.
    + exists [p]. split; [done|]. split.
      * intros q ->%list_elem_of_singleton. exists (l, prefix l va). by rewrite lookup_insert_eq.
      * intros lk t' [[_ <-]|[_ E]]%lookup_insert_Some; [right; left|by left].
Qed.

Lemma vm_state_settle d s free T : vm_state d s free T -> vm_state d (ksync settle s) free T.
Proof.
  intros [[Hy Hc Hn Hp] Hlk Hpt]. split; [by split|by apply can_lock_settle|done].
Qed.

Lemma mem_only_settle s : mem_only s (ksync settle s).
Proof. split; [by right|]. by destruct s. Qed.

Lemma walk_loop_alloc d l va s free T t :
  vm_state d s free T -> (l <= 2)%nat -> T !! (l, prefix l va) = Some t ->
  exists r s' free' T', walk_loop l t va 1 s = Ret r s' /\ mem_only s s' /\
    vm_state d s' free' T' /\ extends T (k_mem s) free T' (k_mem s') free' /\
    (r = 0 /\ free' = [] \/ r <> 0 /\ pte_addr T' va = Some r).
Proof.
  revert s free T t. induction l as [|l IH]; intros s free T t Hvm Hl Ht.
  { eexists _, s, free, T. split; [done|]. split; [apply mem_only_refl|]. split; [done|].
    split; [apply extends_refl|]. right. destruct Hvm as [Hf _ Hpt].
    destruct (pt_page _ _ _ _ Hpt _ _ Ht) as [[_ Hp] _]. destruct (fp_syms _ _ Hf).
    pose proof (PX_range 0 va). unfold pte_addr. rewrite Ht. split; [layout; lia|done]. }
  cbn [walk_loop]. destruct Hvm as [Hf Hlk Hpt]. pose proof (PX_range (Z.of_nat (S l)) va) as Hi.
  pose proof (fp_syms _ _ Hf) as Hy. destruct (pt_page _ _ _ _ Hpt _ _ Ht) as [Htp _].
  erewrite bind_Ret by (apply load64_run; by eapply table_word).
  pose proof (pt_entry _ _ _ _ Hpt _ _ _ _ Ht Hi) as He. rewrite <- prefix_step in He.
  destruct (T !! (l, prefix l va)) as [t'|] eqn:Et.
  - destruct He as [Hv Ha]. apply truthy_true in Hv. rewrite Hv, Ha.
    apply (IH s free T t'); [by split|lia|done].
  - rewrite He. change (truthy 0) with false. change (negb (truthy 1)) with false. cbv iota.
    destruct free as [|p free].
    + pose proof (kalloc_run d s [] Hf Hlk) as E. cbv iota in E.
      erewrite bind_Ret by exact E. exists 0, (ksync settle s), [], T.
      split; [done|]. split; [apply mem_only_settle|].
      split; [by apply vm_state_settle|]. split; [apply extends_refl|by left].
    + destruct (walk_alloc_step d s p free T l va t) as (s1 & E & Hm1 & Hvm1 & Hext1);
        [by split|lia|done|done|].
      rewrite E. destruct (IH s1 free (<[(l, prefix l va):=p]> T) p Hvm1)
        as (r & s2 & free2 & T2 & E2 & Hm2 & Hvm2 & Hext2 & Hr);
        [lia|by rewrite lookup_insert_eq|].
      exists r, s2, free2, T2. split; [done|]. split; [by eapply mem_only_trans|].
      split; [done|]. split; [by eapply extends_trans|done].
Qed.

Lemma walk_alloc d root va s free T :
  vm_state d s free T -> 0 <= va < MAXVA -> T !! (2%nat, 0) = Some root ->
  exists r s' free' T', walk root va 1 s = Ret r s' /\ mem_only s s' /\
    vm_state d s' free' T' /\ extends T (k_mem s) free T' (k_mem s') free' /\
    (r = 0 /\ free' = [] \/ r <> 0 /\ pte_addr T' va = Some r).
Proof.
  intros Hvm Hva Hr. unfold walk. destruct (MAXVA <=? va) eqn:E; bool_to_prop; [lia|].
  apply walk_loop_alloc; [done|lia|]. by rewrite prefix_root.
Qed.

(** ** Writing a leaf entry *)

Lemma pte_addr_range y m T free va a :
  pt_ok y m T free -> pte_addr T va = Some a ->
  exists lk t i, T !! lk = Some t /\ page y t /\ t ∉ free /\ 0 <= i < 512 /\ a = t + 8 * i /\
    lk = (0%nat, prefix 0 va) /\ i = PX 0 va.
Proof.
  intros H. unfold pte_addr. destruct (T !! (0%nat, prefix 0 va)) as [t|] eqn:E; [|done].
  intros [= <-]. exists (0%nat, prefix 0 va), t, (PX 0 va). pose proof (PX_range 0 va).
  destruct (pt_page _ _ _ _ H _ _ E). split_and!; (done || lia).
Qed.

Lemma pte_addr_ram d s free T va a :
  vm_state d s free T -> pte_addr T va = Some a -> ram_range a 8.
Proof.
  intros [Hf _ Hpt] Ha. destruct (pte_addr_range _ _ _ _ _ _ Hpt Ha)
    as (lk & t & i & Ht & Hp & _ & Hi & -> & _).
  eapply table_word; [by eapply fp_syms|done|done].
Qed.

(** Two addresses share their leaf entry exactly when they are in one page. *)
Lemma pte_addr_inj y m T free va va' a a' :
  pt_ok y m T free -> pte_addr T va = Some a -> pte_addr T va' = Some a' ->
  (a = a' <-> va / PGSIZE = va' / PGSIZE) /\ (a <> a' -> a + 8 <= a' \/ a' + 8 <= a).
Proof.
  intros H Ha Ha'.
  destruct (pte_addr_range _ _ _ _ _ _ H Ha) as (lk & t & i & Ht & Hp & _ & Hi & -> & -> & ->).
  destruct (pte_addr_range _ _ _ _ _ _ H Ha') as (lk & t' & i & Ht' & Hp' & _ & Hi' & -> & -> & ->).
  split; [|by apply (table_words_apart y)]. rewrite !page_number. split.
  - intros E. apply (table_word_inj y) in E as [-> ->]; [|done..].
    pose proof (pt_inj _ _ _ _ H _ _ _ Ht Ht'). congruence.
  - intros E. assert (prefix 0 va = prefix 0 va' /\ PX 0 va = PX 0 va') as [E1 E2] by lia.
    rewrite E1 in Ht. simplify_eq. by rewrite E2.
Qed.

Lemma pt_ok_ext y m m' T free :
  pt_ok y m T free ->
  (forall l k t i, T !! (S l, k) = Some t -> 0 <= i < 512 -> get64 m' (t + 8 * i) = get64 m (t + 8 * i)) ->
  pt_ok y m' T free.
Proof.
  intros [Hpg Hinj Hpar Hent] Hext. split; [done..|]. intros l k t i Ht Hi.
  rewrite (Hext _ _ _ _ Ht Hi). by apply Hent.
Qed.

Section set_pte.
Context (d : Z) (s : kstate) (free : list Z) (T : tabs) (va a v : Z).
Hypothesis Hvm : vm_state d s free T.
Hypothesis Ha : pte_addr T va = Some a.

Let s' : kstate := s <| k_mem := put64 (k_mem s) a v |>.

Lemma set_pte_vm : vm_state d s' free T.
Proof.
  destruct Hvm as [[Hy Hch Hnd Hpg] Hlk Hpt].
  destruct (pte_addr_range _ _ _ _ _ _ Hpt Ha) as (lk & t & i & Ht & Hp & Hn & Hi & -> & -> & ->).
  split; [|done|].
  - split; simpl; [done| |done|done]. eapply chain_ext; [|done]. intros q Hq.
    apply get64_put64_ne. rewrite Forall_forall in Hpg.
    assert (t <> q) as Hne by (by intros ->). pose proof (page_apart _ _ _ Hp (Hpg _ Hq) Hne).
    layout. lia.
  - simpl. eapply pt_ok_ext; [done|]. intros l k t' i' Ht' Hi'. apply get64_put64_ne.
    destruct (pt_page _ _ _ _ Hpt _ _ Ht') as [Hp' _].
    destruct (table_words_apart (k_syms s) t' i' t (PX 0 va)) as [?|?]; [done..| |lia|lia].
    intros E. apply (table_word_inj (k_syms s)) in E as [-> _]; [|done..].
    pose proof (pt_inj _ _ _ _ Hpt _ _ _ Ht Ht'). congruence.
Qed.

Lemma set_pte_of va' :
  pte_of T (k_mem s') va' =
  if decide (va' / PGSIZE = va / PGSIZE) then u64 v else pte_of T (k_mem s) va'.
Proof.
  destruct Hvm as [_ _ Hpt]. unfold pte_of. simpl.
  destruct (pte_addr T va') as [a'|] eqn:Ea'.
  - destruct (pte_addr_inj _ _ _ _ _ _ _ _ Hpt Ha Ea') as [Hiff Hap].
    destruct (decide (va' / PGSIZE = va / PGSIZE)) as [E|E].
    + assert (a = a') as <- by (apply Hiff; congruence). apply get64_put64_eq.
    + assert (Hne : a <> a') by (intros Ee; apply E; symmetry; by apply Hiff).
      apply get64_put64_ne. specialize (Hap Hne). lia.
  - rewrite decide_False; [done|]. intros E. rewrite !page_number in E.
    pose proof (PX_range 0 va). pose proof (PX_range 0 va').
    assert (prefix 0 va' = prefix 0 va) as E1 by lia.
    pose proof Ha as Ha'. unfold pte_addr in Ea', Ha'. rewrite E1 in Ea'.
    revert Ha' Ea'. by destruct (T !! (0%nat, prefix 0 va)).
Qed.

Lemma set_pte_frame : same_bytes (outside T) (k_mem s) (k_mem s').
Proof.
  destruct Hvm as [_ _ Hpt].
  destruct (pte_addr_range _ _ _ _ _ _ Hpt Ha) as (lk & t & i & Ht & Hp & Hn & Hi & -> & -> & ->).
  intros x Hx. simpl. apply mget_put64_ne. specialize (Hx _ _ Ht). unfold in_page in Hx.
  layout. lia.
Qed.
End set_pte.
