(* ===== verification/VmMap.v ===== *)
(** * Mapping and unmapping

    What [mappages], [walkaddr], [uvmunmap] and the copies of [src/kernel/vm.c]
    do to the address space a page table represents ([PageTable]). *)

From S2P Require Import Prelude Params Machine Spinlock ProcCore Mem Kalloc Vm PageTable.

(** ** mappages *)

(** The entry [mappages] writes for physical page [pa]. *)
Definition leaf_pte (pa perm : Z) : Z := Z.lor (Z.lor (PA2PTE pa) perm) PTE_V.

(** An address space with [n] pages mapped from [va] to [pa]. *)
Definition map_range (f : Z -> Z) (va n pa perm x : Z) : Z :=
  if decide (va <= x < va + n * PGSIZE) then leaf_pte (pa + (x / PGSIZE * PGSIZE - va)) perm
  else f x.

Lemma leaf_pte_u64 pa perm :
  0 <= pa < 2 ^ 56 -> 0 <= perm < 2 ^ 10 -> u64 (leaf_pte pa perm) = leaf_pte pa perm.
Proof.
  intros Hpa Hperm. apply u64_small. unfold leaf_pte. apply lor_range; [lia| |by vm_compute].
  apply lor_range; [lia| |lia]. unfold PA2PTE.
  rewrite Z.shiftl_mul_pow2, Z.shiftr_div_pow2 by lia. Z.div_mod_to_equations. lia.
Qed.

Lemma leaf_pte_V pa perm : truthy (Z.land (leaf_pte pa perm) PTE_V) = true.
Proof.
  apply truthy_true. unfold leaf_pte. rewrite Z.land_lor_distr_l. intros E.
  apply Z.lor_eq_0_iff in E as [_ E]. done.
Qed.

Lemma leaf_pte_flags pa perm :
  0 <= perm < 2 ^ 10 -> PTE_FLAGS (leaf_pte pa perm) = Z.lor perm PTE_V.
Proof.
  intros. unfold leaf_pte. rewrite <- Z.lor_assoc. apply PTE_FLAGS_PA2PTE.
  apply lor_range; [lia|done|by vm_compute].
Qed.

Lemma leaf_pte_pa pa perm :
  0 <= pa -> pa mod PGSIZE = 0 -> 0 <= perm < 2 ^ 10 -> PTE2PA (leaf_pte pa perm) = pa.
Proof.
  intros. unfold leaf_pte. rewrite <- Z.lor_assoc. apply PTE2PA_PA2PTE; [done|done|].
  apply lor_range; [lia|done|by vm_compute].
Qed.

Lemma map_range_0 f va pa perm x : map_range f va 0 pa perm x = f x.
Proof. unfold map_range. rewrite decide_False by lia. done. Qed.

Lemma map_range_S f va k pa perm x :
  0 <= k -> va mod PGSIZE = 0 ->
  map_range (map_range f va 1 pa perm) (va + PGSIZE) k (pa + PGSIZE) perm x =
  map_range f va (k + 1) pa perm x.
Proof.
  intros Hk Hal. unfold map_range. layout.
  repeat case_decide; try lia; try done.
  - f_equal. Z.div_mod_to_equations. lia.
Qed.

(** What building part of an address space leaves: [f] is its new meaning. *)
Record mapped (d : Z) (s : kstate) (free : list Z) (T : tabs)
    (s' : kstate) (free' : list Z) (T' : tabs) (f : Z -> Z) : Prop := Mapped {
  mp_only : mem_only s s';
  mp_vm : vm_state d s' free' T';
  mp_sub : T ⊆ T';
  mp_pte : forall x, pte_of T' (k_mem s') x = f x;
  mp_frame : same_bytes (outside T') (k_mem s) (k_mem s');
  mp_free : exists taken, free = taken ++ free' /\ (forall q, q ∈ taken -> exists lk, T' !! lk = Some q)
    /\ forall lk t, T' !! lk = Some t -> T !! lk = Some t \/ t ∈ taken;
}.

Lemma mapped_trans d s free T s1 free1 T1 f1 s2 free2 T2 f2 :
  mapped d s free T s1 free1 T1 f1 -> mapped d s1 free1 T1 s2 free2 T2 f2 ->
  mapped d s free T s2 free2 T2 f2.
Proof.
  intros [O1 V1 S1 P1 F1 K1] [O2 V2 S2 P2 F2 K2]. split.
  - by eapply mem_only_trans.
  - done.
  - by transitivity T1.
  - done.
  - intros a Ha. rewrite F2 by done. apply F1. intros lk t Ht.
    apply (Ha lk). by eapply lookup_weaken.
  - by eapply taken_trans.
Qed.

Lemma mapped_extends d s free T s' free' T' :
  mem_only s s' -> vm_state d s' free' T' ->
  extends T (k_mem s) free T' (k_mem s') free' ->
  mapped d s free T s' free' T' (pte_of T (k_mem s)).
Proof. intros Hm Hvm [Hs Hp Hf Hfr]. by split. Qed.

(** [walk] for an entry, then a store to it. *)
Lemma mapped_set d s free T s1 free1 T1 va a v f :
  mapped d s free T s1 free1 T1 f -> pte_addr T1 va = Some a ->
  mapped d s free T (s1 <| k_mem := put64 (k_mem s1) a v |>) free1 T1
    (fun x => if decide (x / PGSIZE = va / PGSIZE) then u64 v else f x).
Proof.
  intros [O1 V1 S1 P1 F1 K1] Ha. split; [|by eapply set_pte_vm|done| | |done].
  - eapply mem_only_trans; [done|]. apply mem_only_mem.
  - intros x. erewrite (set_pte_of d s1 free1 T1 va a v V1 Ha). by rewrite P1.
  - intros x Hx. erewrite (set_pte_frame d s1 free1 T1 va a v V1 Ha) by done. by apply F1.
Qed.

Lemma mapped_eq d s free T s' free' T' f g :
  mapped d s free T s' free' T' f -> (forall x, f x = g x) -> mapped d s free T s' free' T' g.
Proof. intros [O V S P F K] E. split; try done. intros x. by rewrite P. Qed.

(** One page: the body of the loop of [mappages]. *)
Lemma mappages_page d root a pa perm s free T (cont : M Z) :
  vm_state d s free T -> T !! (2%nat, 0) = Some root ->
  a mod PGSIZE = 0 -> 0 <= a < MAXVA -> 0 <= pa < 2 ^ 56 -> 0 <= perm < 2 ^ 10 ->
  Z.land (pte_of T (k_mem s) a) PTE_V = 0 ->
  let body :=
    pte ← walk root a 1;
    if pte =? 0 then ret (-1) else
    v ← load64 pte;
    if truthy (Z.land v PTE_V) then panic "mappages: remap" else
    store64 pte (leaf_pte pa perm);; cont in
  (exists s1 T1, body s = Ret (-1) s1 /\ mapped d s free T s1 [] T1 (pte_of T (k_mem s))) \/
  (exists s1 free1 T1, body s = cont s1 /\
     mapped d s free T s1 free1 T1 (map_range (pte_of T (k_mem s)) a 1 pa perm)).
Proof.
  intros Hvm Hr Hal Ha Hpa Hperm Hun body. unfold body. clear body.
  destruct (walk_alloc d root a s free T)
    as (pte & s1 & free1 & T1 & E & Hm1 & Hvm1 & Hext & Hres); [done|done|done|].
  erewrite bind_Ret by exact E.
  pose proof (mapped_extends _ _ _ _ _ _ _ Hm1 Hvm1 Hext) as Hmap.
  destruct Hres as [[-> ->]|[Hnz Hpte]]; [left; by exists s1, T1|right].
  apply Z.eqb_neq in Hnz. rewrite Hnz.
  pose proof (pte_addr_ram _ _ _ _ _ _ Hvm1 Hpte) as Hram.
  erewrite bind_Ret by by apply load64_run.
  assert (Hv : get64 (k_mem s1) pte = pte_of T (k_mem s) a).
  { rewrite <- (ext_pte _ _ _ _ _ _ Hext a). unfold pte_of. by rewrite Hpte. }
  rewrite Hv, Hun. change (truthy 0) with false. cbv iota.
  erewrite bind_Ret by by apply store64_run.
  eexists _, free1, T1. split; [done|].
  eapply mapped_eq; [by eapply mapped_set|]. intros x.
  rewrite leaf_pte_u64 by done. unfold map_range. layout.
  repeat case_decide; try done;
    ((f_equal; Z.div_mod_to_equations; lia) || (exfalso; Z.div_mod_to_equations; lia)).
Qed.

Lemma mappages_loop_S n root a last pa perm :
  mappages_loop (S n) root a last pa perm =
  (pte ← walk root a 1;
   if pte =? 0 then ret (-1) else
   v ← load64 pte;
   if truthy (Z.land v PTE_V) then panic "mappages: remap" else
   store64 pte (leaf_pte pa perm);;
   if a =? last then ret 0
   else mappages_loop n root (u64 (a + PGSIZE)) last (u64 (pa + PGSIZE)) perm).
Proof. done. Qed.

Lemma mappages_loop_run d root perm n a pa s free T :
  vm_state d s free T -> T !! (2%nat, 0) = Some root ->
  a mod PGSIZE = 0 -> 0 <= a -> a + Z.of_nat (S n) * PGSIZE <= MAXVA ->
  0 <= pa -> pa + Z.of_nat (S n) * PGSIZE <= 2 ^ 56 -> 0 <= perm < 2 ^ 10 ->
  (forall x, a <= x < a + Z.of_nat (S n) * PGSIZE -> Z.land (pte_of T (k_mem s) x) PTE_V = 0) ->
  exists r s' free' T' k,
    mappages_loop (S n) root a (a + Z.of_nat n * PGSIZE) pa perm s = Ret r s' /\
    mapped d s free T s' free' T' (map_range (pte_of T (k_mem s)) a k pa perm) /\
    (r = 0 /\ k = Z.of_nat (S n) \/ r = -1 /\ 0 <= k < Z.of_nat (S n) /\ free' = []).
Proof.
  revert a pa s free T. induction n as [|n IH];
    intros a pa s free T Hvm Hr Hal Ha Hmax Hpa Hpm Hperm Hun;
    rewrite mappages_loop_S;
    match goal with |- context [bind (store64 _ _) (fun _ => ?k)] =>
      destruct (mappages_page d root a pa perm s free T k)
        as [(s1 & T1 & E & Hmap)|(s1 & free1 & T1 & E & Hmap)];
      [done|done|done|layout; lia|layout; lia|done|apply Hun; layout; lia|..] end.
  1, 3: exists (-1), s1, [], T1, 0; split; [exact E|]; split;
    [eapply mapped_eq; [exact Hmap|]; intros x; by rewrite map_range_0|
     right; split_and!; (done || lia)].
  - assert (Eq : (a =? a + Z.of_nat 0 * PGSIZE) = true) by (apply Z.eqb_eq; lia).
    rewrite Eq in E |- *. eexists _, _, _, _, 1. split; [exact E|]. split; [exact Hmap|by left].
  - assert (Eq : (a =? a + Z.of_nat (S n) * PGSIZE) = false) by (apply Z.eqb_neq; layout; lia).
    assert (El : a + Z.of_nat (S n) * PGSIZE = a + PGSIZE + Z.of_nat n * PGSIZE) by lia.
    rewrite Eq, El, !u64_small in E by (layout; lia).
    rewrite Eq, El, !u64_small by (layout; lia).
    destruct (IH (a + PGSIZE) (pa + PGSIZE) s1 free1 T1)
      as (r & s2 & free2 & T2 & k & E2 & Hmap2 & Hres2).
    + apply Hmap.
    + eapply lookup_weaken; [done|apply Hmap].
    + layout. Z.div_mod_to_equations. lia.
    + layout. lia.
    + lia.
    + layout. lia.
    + lia.
    + done.
    + intros x Hx. rewrite (mp_pte _ _ _ _ _ _ _ _ Hmap). unfold map_range.
      rewrite decide_False by (layout; lia). apply Hun. layout. lia.
    + assert (0 <= k) by (destruct Hres2 as [[_ ->]|(_ & Hk & _)]; lia).
      exists r, s2, free2, T2, (k + 1). split; [by rewrite E, E2|]. split.
      * eapply mapped_eq; [by eapply mapped_trans|]. intros x.
        rewrite <- map_range_S by done. unfold map_range at 1 2.
        case_decide; [done|]. apply (mp_pte _ _ _ _ _ _ _ _ Hmap).
      * destruct Hres2 as [[-> ->]|(-> & Hk & ->)]; [left; lia|right; split_and!; (done || lia)].
Qed.

Lemma mappages_run d root va n pa perm s free T :
  vm_state d s free T -> T !! (2%nat, 0) = Some root -> 0 < n ->
  va mod PGSIZE = 0 -> 0 <= va -> va + n * PGSIZE <= MAXVA ->
  0 <= pa -> pa + n * PGSIZE <= 2 ^ 56 -> 0 <= perm < 2 ^ 10 ->
  (forall x, va <= x < va + n * PGSIZE -> Z.land (pte_of T (k_mem s) x) PTE_V = 0) ->
  exists r s' free' T' k,
    mappages root va (n * PGSIZE) pa perm s = Ret r s' /\
    mapped d s free T s' free' T' (map_range (pte_of T (k_mem s)) va k pa perm) /\
    (r = 0 /\ k = n \/ r = -1 /\ 0 <= k < n /\ free' = []).
Proof.
  intros Hvm Hr Hn Hal Hva Hmax Hpa Hpm Hperm Hun. unfold mappages.
  apply Z.eqb_eq in Hal as Hal'. rewrite Hal'. rewrite Z.mod_mul by (layout; lia). simpl.
  replace (n * PGSIZE =? 0) with false by (symmetry; apply Z.eqb_neq; layout; lia).
  rewrite Z.div_mul by (layout; lia).
  replace (Z.to_nat n) with (S (Z.to_nat (n - 1))) by lia.
  rewrite u64_small by (layout; lia).
  replace (va + n * PGSIZE - PGSIZE) with (va + Z.of_nat (Z.to_nat (n - 1)) * PGSIZE)
    by (layout; lia).
  assert (En : Z.of_nat (S (Z.to_nat (n - 1))) = n) by lia.
  destruct (mappages_loop_run d root perm (Z.to_nat (n - 1)) va pa s free T)
    as (r & s' & free' & T' & k & E & Hmap & Hres); rewrite ?En in *; try done.
  by exists r, s', free', T', k.
Qed.

(** C38. mappages() on an unmapped range of whole pages below MAXVA. It returns 0
    with exactly the entries of the range set to the physical pages and
    permissions asked for, or -1 once the allocator is exhausted, with a prefix
    of the range mapped. Every other entry of the address space keeps its
    value; the tables it adds come from the free list; no byte outside of the
    page-table pages is written, and no process or lock changes. *)
Theorem mappages_spec d root va n pa perm s free T :
  vm_state d s free T -> T !! (2%nat, 0) = Some root -> 0 < n ->
  va mod PGSIZE = 0 -> 0 <= va -> va + n * PGSIZE <= MAXVA ->
  0 <= pa -> pa + n * PGSIZE <= 2 ^ 56 -> 0 <= perm < 2 ^ 10 ->
  (forall x, va <= x < va + n * PGSIZE -> Z.land (pte_of T (k_mem s) x) PTE_V = 0) ->
  exists r s' free' T' k,
    mappages root va (n * PGSIZE) pa perm s = Ret r s' /\
    mapped d s free T s' free' T' (map_range (pte_of T (k_mem s)) va k pa perm) /\
    (r = 0 /\ k = n \/ r = -1 /\ 0 <= k < n /\ free' = []).
Proof. apply mappages_run. Qed.

(** A page table with its root alone, in a kernel with two more free pages. *)
Definition page_root : Z := 0x80102000.
Definition one_table : kstate :=
  two_pages <| k_mem := fill (Z.to_nat PGSIZE) (k_mem two_pages) page_root 0 |>.

Lemma one_table_vm : vm_state 0 one_table [page_a; page_b] {[(2%nat, 0) := page_root]}.
Proof.
  split; [|apply two_pages_lock|].
  - destruct two_pages_free as [Hy Hc Hn Hp]. split; [exact Hy| |exact Hn|exact Hp].
    eapply chain_ext; [|exact Hc]. intros q Hq. apply get64_fill_ne.
    unfold page_a, page_b, page_root in *. rewrite !elem_of_cons, elem_of_nil in Hq. lia.
  - split.
    + intros lk t [_ <-]%lookup_singleton_Some. split; [by vm_compute|].
      unfold page_a, page_b, page_root. rewrite !not_elem_of_cons. split_and!; [lia..|].
      apply not_elem_of_nil.
    + intros lk lk' t [<- _]%lookup_singleton_Some [<- _]%lookup_singleton_Some. done.
    + intros l k t [[= <- <-] _]%lookup_singleton_Some. lia.
    + intros l k t i [[= <- <-] <-]%lookup_singleton_Some Hi.
      rewrite lookup_singleton_ne by congruence. simpl.
      rewrite get64_fill_zero; [done|lia|layout; lia].
Qed.

Lemma mappages_spec_witness :
  exists r s', mappages page_root 0x5000 (1 * PGSIZE) page_a (Z.lor PTE_R PTE_U) one_table = Ret r s'.
Proof.
  destruct (mappages_spec 0 page_root 0x5000 1 page_a (Z.lor PTE_R PTE_U) one_table
    [page_a; page_b] {[(2%nat, 0) := page_root]} one_table_vm) as (r & s' & _ & _ & _ & E & _).
  - reflexivity.
  - lia.
  - reflexivity.
  - lia.
  - layout. lia.
  - unfold page_a. lia.
  - unfold page_a. layout. lia.
  - vm_compute. split; [discriminate|reflexivity].
  - intros x Hx. unfold pte_of, pte_addr. rewrite lookup_singleton_ne by congruence. reflexivity.
  - exists r, s'. exact E.
Defined.

(** ** walkaddr *)

(** What [walkaddr] makes of an entry. *)
Definition user_pa (e : Z) : Z :=
  if truthy (Z.land e PTE_V) && truthy (Z.land e PTE_U) then PTE2PA e else 0.

Lemma walkaddr_run d root va s free T :
  vm_state d s free T -> T !! (2%nat, 0) = Some root -> 0 <= va ->
  walkaddr root va s = Ret (if decide (va < MAXVA) then user_pa (pte_of T (k_mem s) va) else 0) s.
Proof.
  intros Hvm Hr Hva. unfold walkaddr. destruct (MAXVA <=? va) eqn:E; bool_to_prop.
  { by rewrite decide_False by lia. }
  rewrite decide_True by lia. pose proof Hvm as [Hf _ Hpt].
  erewrite bind_Ret by (apply (walk_noalloc root va s T free); [done|apply Hf|lia|done]).
  unfold pte_of. destruct (pte_addr T va) as [a|] eqn:Ea; simpl; [|done].
  pose proof (pte_addr_ram _ _ _ _ _ _ Hvm Ea) as Hram.
  replace (a =? 0) with false by (symmetry; apply Z.eqb_neq; destruct Hram; layout; lia).
  erewrite bind_Ret by by apply load64_run. unfold user_pa.
  by destruct (truthy (Z.land _ PTE_V)), (truthy (Z.land _ PTE_U)).
Qed.

Lemma leaf_pte_U pa perm :
  0 <= perm < 2 ^ 10 -> truthy (Z.land perm PTE_U) = true ->
  truthy (Z.land (leaf_pte pa perm) PTE_U) = true.
Proof.
  intros Hp HU. apply truthy_true in HU. apply truthy_true. unfold leaf_pte.
  rewrite !Z.land_lor_distr_l. intros E.
  apply Z.lor_eq_0_iff in E as [E _]. apply Z.lor_eq_0_iff in E as [_ E]. done.
Qed.

(** The round trip through a page table: after a successful mappages() of
    user pages, walkaddr() of any address of the range is the physical page
    that was asked for, and walkaddr() of any address outside of it is what it
    was before. *)
Theorem mappages_walkaddr d root va n pa perm s free T s' :
  vm_state d s free T -> T !! (2%nat, 0) = Some root -> 0 < n ->
  va mod PGSIZE = 0 -> 0 <= va -> va + n * PGSIZE <= MAXVA ->
  0 <= pa -> pa mod PGSIZE = 0 -> pa + n * PGSIZE <= 2 ^ 56 ->
  0 <= perm < 2 ^ 10 -> truthy (Z.land perm PTE_U) = true ->
  (forall x, va <= x < va + n * PGSIZE -> Z.land (pte_of T (k_mem s) x) PTE_V = 0) ->
  mappages root va (n * PGSIZE) pa perm s = Ret 0 s' ->
  forall x, 0 <= x ->
    if decide (va <= x < va + n * PGSIZE)
    then walkaddr root x s' = Ret (pa + (x / PGSIZE * PGSIZE - va)) s'
    else exists r, walkaddr root x s = Ret r s /\ walkaddr root x s' = Ret r s'.
Proof.
  intros Hvm Hr Hn Hal Hva Hmax Hpa Hpal Hpm Hperm HU Hun E x Hx.
  destruct (mappages_run d root va n pa perm s free T)
    as (r & s1 & free' & T' & k & E1 & Hmap & Hres); [done..|].
  rewrite E in E1. injection E1 as <- <-.
  destruct Hres as [[_ ->]|[Hbad _]]; [|discriminate Hbad].
  pose proof (lookup_weaken _ _ _ _ Hr (mp_sub _ _ _ _ _ _ _ _ Hmap)) as Hr'.
  pose proof (walkaddr_run d root x s' free' T' (mp_vm _ _ _ _ _ _ _ _ Hmap) Hr' Hx) as Hw.
  rewrite (mp_pte _ _ _ _ _ _ _ _ Hmap) in Hw. unfold map_range in Hw.
  destruct (decide (va <= x < va + n * PGSIZE)) as [Hin|Hout].
  - rewrite Hw, decide_True by lia. unfold user_pa. rewrite leaf_pte_V, leaf_pte_U by done. simpl.
    rewrite leaf_pte_pa; [done| | |done]; layout; Z.div_mod_to_equations; lia.
  - eexists. split; [by apply (walkaddr_run d root x s free T)|]. exact Hw.
Qed.

Lemma one_table_maps :
  exists s', mappages page_root 0x5000 (1 * PGSIZE) 0x80103000 (Z.lor PTE_R PTE_U) one_table = Ret 0 s'.
Proof.
  assert (H : match mappages page_root 0x5000 (1 * PGSIZE) 0x80103000 (Z.lor PTE_R PTE_U) one_table
              with Ret 0 _ => True | _ => False end) by (vm_compute; exact I).
  destruct (mappages _ _ _ _ _ _) as [[] s'| |]; try contradiction. by exists s'.
Qed.

Lemma mappages_walkaddr_witness :
  exists s', walkaddr page_root 0x5008 s' = Ret 0x80103000 s'.
Proof.
  destruct one_table_maps as [s' E]. exists s'.
  assert (H := mappages_walkaddr 0 page_root 0x5000 1 0x80103000 (Z.lor PTE_R PTE_U) one_table
    [page_a; page_b] {[(2%nat, 0) := page_root]} s' one_table_vm).
  specialize (H ltac:(reflexivity) ltac:(lia) ltac:(reflexivity) ltac:(lia) ltac:(layout; lia)
    ltac:(lia) ltac:(reflexivity) ltac:(layout; lia)
    ltac:(vm_compute; split; [discriminate|reflexivity]) ltac:(reflexivity)).
  specialize (H ltac:(intros x Hx; unfold pte_of, pte_addr;
    rewrite lookup_singleton_ne by congruence; reflexivity) E 0x5008 ltac:(lia)).
  destruct (decide _) as [_|Hn]; [exact H|]. destruct Hn. layout. lia.
Defined.
