(* ===== verification/VmCopy.v ===== *)
(** * Copying between the kernel and user space: [src/kernel/vm.c]

    [copyout()] and [copyin()] through the page table of a process: which physical
    bytes they write and read, and that what one writes the other reads. *)

From S2P Require Import Prelude Bytes Params Machine Spinlock ProcCore Mem Kalloc Vm PageTable VmMap.

(** ** Ranges of bytes *)

Fixpoint put_bytes (m : mem) (a : Z) (l : list Z) : mem :=
  match l with
  | [] => m
  | b :: l => put_bytes (mput m a b) (a + 1) l
  end.

Lemma mget_put_bytes l m a x :
  mget (put_bytes m a l) x =
  match (if decide (a <= x) then l !! Z.to_nat (x - a) else None) with
  | Some b => u8 b
  | None => mget m x
  end.
Proof.
  revert m a. induction l as [|b l IH]; intros m a; simpl; [by case_decide|].
  rewrite IH, mget_put. destruct (decide (x = a)) as [->|Hne].
  - rewrite decide_False, decide_True by lia. by rewrite Z.sub_diag.
  - destruct (decide (a <= x)) as [Hx|Hx].
    + rewrite decide_True by lia. replace (Z.to_nat (x - a)) with (S (Z.to_nat (x - (a + 1)))) by lia.
      done.
    + by rewrite decide_False by lia.
Qed.

Lemma store_bytes_run l a s :
  ram_range a (Z.of_nat (length l)) ->
  store_bytes a l s = Ret tt (s <| k_mem := put_bytes (k_mem s) a l |>).
Proof.
  revert a s. induction l as [|b l IH]; intros a s Hr; simpl in *; [by destruct s|].
  unfold bind at 1, store8. rewrite (ram_at _ _ a Hr) by lia. simpl. rewrite IH; [done|].
  destruct Hr. split; lia.
Qed.

Lemma load_bytes_run n a s :
  ram_range a (Z.of_nat n) -> load_bytes n a s = Ret (mget (k_mem s) <$> seqZ a (Z.of_nat n)) s.
Proof.
  revert a. induction n as [|n IH]; intros a Hr; [done|]. cbn [load_bytes].
  unfold bind at 1, load8. rewrite (ram_at _ _ a Hr) by lia. cbn [obind].
  erewrite bind_Ret by (apply IH; destruct Hr; split; lia).
  rewrite (seqZ_cons a) by lia. replace (Z.pred (Z.of_nat (S n))) with (Z.of_nat n) by lia.
  rewrite fmap_cons. by replace (Z.succ a) with (a + 1) by lia.
Qed.

(** ** User memory *)

(** The entry of an address is that of its page. *)
Lemma pte_of_page T m x y : x / PGSIZE = y / PGSIZE -> pte_of T m x = pte_of T m y.
Proof.
  intros E. rewrite !page_number in E. pose proof (PX_range 0 x). pose proof (PX_range 0 y).
  assert (prefix 0 x = prefix 0 y) as E1 by lia. assert (PX 0 x = PX 0 y) as E2 by lia.
  unfold pte_of, pte_addr. by rewrite E1, E2.
Qed.

(** The physical address behind the user address [va]. *)
Definition upa (T : tabs) (m : mem) (va : Z) : Z := user_pa (pte_of T m va) + va mod PGSIZE.

(** The byte a process sees at [va]. *)
Definition user_byte (T : tabs) (m : mem) (va : Z) : Z := mget m (upa T m va).

(** [va] is a user address: its page is a page of memory that is neither free nor
    part of the page table. *)
Record user_page (y : symbols) (T : tabs) (m : mem) (free : list Z) (va : Z) : Prop := {
  up_range : 0 <= va < MAXVA;
  up_page : page y (user_pa (pte_of T m va));
  up_free : user_pa (pte_of T m va) ∉ free;
  up_table lk t : T !! lk = Some t -> t <> user_pa (pte_of T m va);
}.

(** The [n] addresses from [va] on, no two pages of which share memory. *)
Record user_range (y : symbols) (T : tabs) (m : mem) (free : list Z) (va n : Z) : Prop := {
  ur_page x : va <= x < va + n -> user_page y T m free x;
  ur_inj x x' : va <= x < va + n -> va <= x' < va + n -> x / PGSIZE <> x' / PGSIZE ->
    user_pa (pte_of T m x) <> user_pa (pte_of T m x');
}.

Definition writable (T : tabs) (m : mem) (va : Z) : bool := truthy (Z.land (pte_of T m va) PTE_W).

(** A change of memory outside of the tables and of the free pages. *)
Lemma vm_frame d s free T m' :
  vm_state d s free T ->
  (forall a t, (t ∈ free \/ exists lk, T !! lk = Some t) -> in_page t a -> mget m' a = mget (k_mem s) a) ->
  vm_state d (s <| k_mem := m' |>) free T /\ forall va, pte_of T m' va = pte_of T (k_mem s) va.
Proof.
  intros [[Hy Hch Hnd Hpg] Hlk Hpt] Hsame.
  assert (Hw : forall t lk i, T !! lk = Some t -> 0 <= i < 512 -> get64 m' (t + 8 * i) = get64 (k_mem s) (t + 8 * i)).
  { intros t lk i Ht Hi. apply get64_ext. intros x Hx. apply (Hsame x t); [by right; exists lk|].
    unfold in_page. layout. lia. }
  split; [split; [split|done|]|].
  - done.
  - eapply chain_ext; [|done]. intros p Hp. apply get64_ext. intros x Hx.
    apply (Hsame x p); [by left|]. unfold in_page. layout. lia.
  - done.
  - done.
  - simpl. eapply pt_ok_ext; [done|]. intros l k t i Ht Hi. by eapply Hw.
  - intros va. unfold pte_of. destruct (pte_addr T va) as [a|] eqn:Ea; [|done].
    unfold pte_addr in Ea. destruct (T !! (0%nat, prefix 0 va)) as [t|] eqn:Et; [|done].
    injection Ea as <-. eapply Hw; [done|]. apply PX_range.
Qed.

Section copy.
Context (d root : Z) (free : list Z) (T : tabs) (Hroot : T !! (2%nat, 0) = Some root).

(** The page of a user address. *)
Lemma user_page_walk s va :
  vm_state d s free T -> user_page (k_syms s) T (k_mem s) free va ->
  walkaddr root (PGROUNDDOWN va) s = Ret (user_pa (pte_of T (k_mem s) va)) s
  /\ user_pa (pte_of T (k_mem s) va) <> 0
  /\ exists a, walk root (PGROUNDDOWN va) 0 s = Ret a s /\ load64 a s = Ret (pte_of T (k_mem s) va) s.
Proof.
  intros Hvm [Hr Hp _ _]. pose proof Hvm as [Hf _ Hpt].
  assert (Hd : PGROUNDDOWN va / PGSIZE = va / PGSIZE).
  { rewrite PGROUNDDOWN_spec. layout. Z.div_mod_to_equations. lia. }
  assert (H0 : 0 <= PGROUNDDOWN va < MAXVA).
  { rewrite PGROUNDDOWN_spec. layout. Z.div_mod_to_equations. lia. }
  assert (Hnz : user_pa (pte_of T (k_mem s) va) <> 0).
  { destruct Hp as [_ Hp], (fp_syms _ _ Hf). revert Hp. layout. lia. }
  split_and!; [|done|].
  - erewrite walkaddr_run by (done || lia). rewrite decide_True by lia. by rewrite (pte_of_page _ _ _ va Hd).
  - rewrite <- (pte_of_page T (k_mem s) _ va Hd) in Hnz |- *.
    unfold pte_of in *. destruct (pte_addr T (PGROUNDDOWN va)) as [a|] eqn:Ea; [|done].
    exists a. split.
    + erewrite walk_noalloc by (done || apply Hf || lia). by rewrite Ea.
    + apply load64_run. by eapply pte_addr_ram.
Qed.

(** How much of a transfer of [len] bytes fits in the page of [va]. *)
Definition chunk (va len : Z) : Z := Z.min len (PGSIZE - va mod PGSIZE).

Lemma chunk_code va len :
  (let n := PGSIZE - (va - PGROUNDDOWN va) in if len <? n then len else n) = chunk va len.
Proof.
  cbv zeta. rewrite PGROUNDDOWN_spec. unfold chunk.
  replace (va - (va - va mod PGSIZE)) with (va mod PGSIZE) by lia.
  destruct (Z.ltb_spec len (PGSIZE - va mod PGSIZE)); lia.
Qed.

Lemma chunk_ram s va n :
  vm_state d s free T -> user_page (k_syms s) T (k_mem s) free va ->
  0 <= n <= PGSIZE - va mod PGSIZE -> ram_range (upa T (k_mem s) va) n.
Proof.
  intros [Hf _ _] [Hr Hp _ _] Hn. pose proof (page_ram _ _ (fp_syms _ _ Hf) Hp) as [H1 H2].
  unfold upa. assert (0 <= va mod PGSIZE < PGSIZE) by (apply Z.mod_pos_bound; layout; lia).
  split; lia.
Qed.

Lemma next_page va :
  0 <= va < MAXVA -> u64 (PGROUNDDOWN va + PGSIZE) = va + (PGSIZE - va mod PGSIZE).
Proof.
  intros Hva. rewrite PGROUNDDOWN_spec. rewrite u64_small; [lia|].
  revert Hva. layout. Z.div_mod_to_equations. lia.
Qed.

Lemma copyout_step k va src s :
  vm_state d s free T -> user_page (k_syms s) T (k_mem s) free va -> writable T (k_mem s) va = true ->
  src <> [] ->
  let n := Z.to_nat (chunk va (Z.of_nat (length src))) in
  copyout_loop (S k) root va src s
  = copyout_loop k root (va + (PGSIZE - va mod PGSIZE)) (drop n src)
      (s <| k_mem := put_bytes (k_mem s) (upa T (k_mem s) va) (take n src) |>).
Proof.
  intros Hvm Hup Hw Hne n. destruct (user_page_walk s va Hvm Hup) as (Ew & Hnz & a & Ea & El).
  assert (Hpos : 0 < Z.of_nat (length src)) by (destruct src; [done|simpl; lia]).
  assert (Hmod : 0 <= va mod PGSIZE < PGSIZE) by (apply Z.mod_pos_bound; layout; lia).
  cbn [copyout_loop]. rewrite (proj2 (Z.ltb_lt _ _) Hpos). cbn [negb].
  rewrite (proj2 (Z.leb_gt _ _)) by (destruct Hup as [Hr _ _ _]; rewrite PGROUNDDOWN_spec; lia).
  erewrite bind_Ret by exact Ew. rewrite (proj2 (Z.eqb_neq _ _) Hnz).
  erewrite bind_Ret by reflexivity. rewrite (proj2 (Z.eqb_neq _ _) Hnz).
  erewrite bind_Ret by exact Ea. erewrite bind_Ret by exact El.
  unfold writable in Hw. rewrite Hw. cbn [negb]. rewrite chunk_code.
  replace (va - PGROUNDDOWN va) with (va mod PGSIZE) by (rewrite PGROUNDDOWN_spec; lia).
  fold n. fold (upa T (k_mem s) va).
  erewrite bind_Ret by (apply store_bytes_run; eapply chunk_ram; [done..|];
    rewrite length_take; unfold n, chunk; lia).
  by rewrite next_page by apply Hup.
Qed.

Lemma copyin_step k va len dst s :
  vm_state d s free T -> user_page (k_syms s) T (k_mem s) free va -> 0 < len ->
  copyin_loop (S k) root va len dst s
  = copyin_loop k root (va + (PGSIZE - va mod PGSIZE)) (len - chunk va len)
      (dst ++ (mget (k_mem s) <$> seqZ (upa T (k_mem s) va) (chunk va len))) s.
Proof.
  intros Hvm Hup Hpos. destruct (user_page_walk s va Hvm Hup) as (Ew & Hnz & _).
  assert (Hmod : 0 <= va mod PGSIZE < PGSIZE) by (apply Z.mod_pos_bound; layout; lia).
  assert (Hn : 0 <= chunk va len) by (unfold chunk; lia).
  cbn [copyin_loop]. rewrite (proj2 (Z.ltb_lt _ _) Hpos). cbn [negb].
  erewrite bind_Ret by exact Ew. rewrite (proj2 (Z.eqb_neq _ _) Hnz).
  erewrite bind_Ret by reflexivity. rewrite (proj2 (Z.eqb_neq _ _) Hnz). rewrite chunk_code.
  replace (va - PGROUNDDOWN va) with (va mod PGSIZE) by (rewrite PGROUNDDOWN_spec; lia).
  fold (upa T (k_mem s) va).
  erewrite bind_Ret by (apply load_bytes_run; eapply chunk_ram; [done..|];
    rewrite Z2Nat.id by done; unfold chunk; lia).
  rewrite Z2Nat.id by done. by rewrite next_page by apply Hup.
Qed.

Lemma upa_page m va x : x / PGSIZE = va / PGSIZE -> upa T m x = upa T m va + (x - va).
Proof.
  intros E. unfold upa. rewrite (pte_of_page T m x va E).
  revert E. layout. Z.div_mod_to_equations. lia.
Qed.

(** Addresses of different pages are at different places. *)
Lemma upa_apart y m va n x x' :
  user_range y T m free va n -> va <= x < va + n -> va <= x' < va + n ->
  x / PGSIZE <> x' / PGSIZE -> upa T m x <> upa T m x'.
Proof.
  intros [Hp Hi] Hx Hx' Hne. pose proof (Hi x x' Hx Hx' Hne) as Hpa.
  destruct (Hp x Hx) as [_ P1 _ _], (Hp x' Hx') as [_ P2 _ _].
  pose proof (page_apart _ _ _ P1 P2 Hpa) as Hap. unfold upa.
  assert (0 <= x mod PGSIZE < PGSIZE) by (apply Z.mod_pos_bound; layout; lia).
  assert (0 <= x' mod PGSIZE < PGSIZE) by (apply Z.mod_pos_bound; layout; lia). lia.
Qed.

Lemma user_range_ext y m m' va n :
  (forall x, pte_of T m' x = pte_of T m x) -> user_range y T m free va n -> user_range y T m' free va n.
Proof.
  intros He [Hp Hi]. split.
  - intros x Hx. destruct (Hp x Hx) as [? ? ? ?]. split; rewrite ?He; try done.
  - intros x x' Hx Hx'. rewrite !He. auto.
Qed.

Lemma user_range_sub y m va n va' n' :
  user_range y T m free va n -> va <= va' -> (0 < n' -> va' + n' <= va + n) ->
  user_range y T m free va' n'.
Proof. intros [Hp Hi] H1 H2. split; intros; [apply Hp|apply Hi]; (done || lia). Qed.

Lemma upa_ext m m' x : pte_of T m' x = pte_of T m x -> upa T m' x = upa T m x.
Proof. unfold upa. by intros ->. Qed.

(** Bytes written to a user page leave the tables and the free pages alone. *)
Lemma put_user_frame s va l :
  vm_state d s free T -> user_page (k_syms s) T (k_mem s) free va ->
  Z.of_nat (length l) <= PGSIZE - va mod PGSIZE ->
  let m' := put_bytes (k_mem s) (upa T (k_mem s) va) l in
  vm_state d (s <| k_mem := m' |>) free T /\ forall x, pte_of T m' x = pte_of T (k_mem s) x.
Proof.
  intros Hvm Hup Hl m'. apply (vm_frame d s free T m' Hvm). intros a t Ht Ha.
  pose proof Hvm as [Hf _ Hpt]. destruct Hup as [_ Hp Hfr Htab].
  assert (Hpt' : page (k_syms s) t /\ t <> user_pa (pte_of T (k_mem s) va)).
  { destruct Ht as [Ht|[lk Ht]].
    - pose proof (fp_page _ _ Hf) as Hpg. rewrite Forall_forall in Hpg. split; [auto|]. by intros ->.
    - split; [by eapply (pt_page _ _ _ _ Hpt)|by eapply Htab]. }
  destruct Hpt' as [Hpt1 Hne]. pose proof (page_apart _ _ _ Hpt1 Hp Hne) as Hap.
  assert (0 <= va mod PGSIZE < PGSIZE) by (apply Z.mod_pos_bound; layout; lia).
  unfold m'. rewrite mget_put_bytes. unfold in_page in Ha. unfold upa. case_decide as Hx; [|done].
  destruct (l !! _) as [b|] eqn:E; [|done]. apply lookup_lt_Some in E. lia.
Qed.

(** What a copy of [src] to [va] does to memory. *)
Definition written (m m' : mem) (va : Z) (src : list Z) : Prop :=
  (forall i b, src !! i = Some b -> mget m' (upa T m (va + Z.of_nat i)) = u8 b)
  /\ (forall a, (forall i, (i < length src)%nat -> a <> upa T m (va + Z.of_nat i)) -> mget m' a = mget m a).

Lemma written_app y m m1 m' va n src :
  user_range y T m free va (Z.of_nat (length src)) -> (n <= length src)%nat ->
  (forall i j, (i < n <= j)%nat -> (j < length src)%nat ->
    (va + Z.of_nat i) / PGSIZE <> (va + Z.of_nat j) / PGSIZE) ->
  (forall x, pte_of T m1 x = pte_of T m x) ->
  written m m1 va (take n src) -> written m1 m' (va + Z.of_nat n) (drop n src) -> written m m' va src.
Proof.
  intros Hur Hn Hpages He [W1 F1] [W2 F2].
  assert (Hu : forall x, upa T m1 x = upa T m x) by (intros; by apply upa_ext).
  split.
  - intros i b Hi. assert (Hlt := Hi). apply lookup_lt_Some in Hlt.
    destruct (decide (i < n)%nat) as [Hin|Hin].
    + rewrite F2; [apply W1; by rewrite lookup_take_lt|]. intros j Hj. rewrite length_drop in Hj.
      rewrite Hu. eapply upa_apart; [done|lia|lia|].
      replace (va + Z.of_nat n + Z.of_nat j) with (va + Z.of_nat (n + j)) by lia. apply Hpages; lia.
    + replace (va + Z.of_nat i) with (va + Z.of_nat n + Z.of_nat (i - n)) by lia. rewrite <- Hu.
      apply W2. rewrite lookup_drop. by replace (n + (i - n))%nat with i by lia.
  - intros a Ha. rewrite F2, F1; [done| |].
    + intros i Hi. rewrite length_take in Hi. apply Ha. lia.
    + intros i Hi. rewrite length_drop in Hi. rewrite Hu.
      replace (va + Z.of_nat n + Z.of_nat i) with (va + Z.of_nat (n + i)) by lia. apply Ha. lia.
Qed.

Lemma written_chunk m va l :
  Z.of_nat (length l) <= PGSIZE - va mod PGSIZE -> written m (put_bytes m (upa T m va) l) va l.
Proof.
  intros Hl. assert (Hu : forall i, (i < length l)%nat -> upa T m (va + Z.of_nat i) = upa T m va + Z.of_nat i).
  { intros i Hi. rewrite (upa_page m va); [lia|]. revert Hl. layout. Z.div_mod_to_equations. lia. }
  split.
  - intros i b Hi. rewrite Hu by (by eapply lookup_lt_Some). rewrite mget_put_bytes, decide_True by lia.
    replace (Z.to_nat (upa T m va + Z.of_nat i - upa T m va)) with i by lia. by rewrite Hi.
  - intros a Ha. rewrite mget_put_bytes. case_decide as Hx; [|done].
    destruct (l !! _) as [b|] eqn:E; [|done]. apply lookup_lt_Some in E. destruct (Ha _ E).
    rewrite Hu by done. lia.
Qed.

Lemma copyout_loop_run k va src s :
  vm_state d s free T -> user_range (k_syms s) T (k_mem s) free va (Z.of_nat (length src)) ->
  (forall x, va <= x < va + Z.of_nat (length src) -> writable T (k_mem s) x = true) ->
  va mod PGSIZE + Z.of_nat (length src) <= Z.of_nat k * PGSIZE ->
  exists m', copyout_loop (S k) root va src s = Ret 0 (s <| k_mem := m' |>)
    /\ written (k_mem s) m' va src
    /\ vm_state d (s <| k_mem := m' |>) free T /\ forall x, pte_of T m' x = pte_of T (k_mem s) x.
Proof.
  revert va src s. induction k as [|k IH]; intros va src s Hvm Hur Hw Hk.
  { assert (0 <= va mod PGSIZE) by (apply Z.mod_pos_bound; layout; lia). layout.
    destruct src as [|b src]; [|simpl in *; lia]. exists (k_mem s). simpl.
    split; [by destruct s|]. split; [by split|]. split; [by destruct s|done]. }
  destruct (decide (src = [])) as [->|Hne].
  { exists (k_mem s). simpl. split; [by destruct s|]. split; [by split|]. split; [by destruct s|done]. }
  assert (Hlen : (0 < length src)%nat) by (destruct src; [done|simpl; lia]).
  assert (Hmod : 0 <= va mod PGSIZE < PGSIZE) by (apply Z.mod_pos_bound; layout; lia).
  rewrite Nat2Z.inj_succ, Z.mul_succ_l in Hk. assert (0 <= Z.of_nat k * PGSIZE) by (layout; lia).
  assert (Hup : user_page (k_syms s) T (k_mem s) free va) by (apply Hur; lia).
  rewrite copyout_step by (done || apply Hw; lia).
  set (n := Z.to_nat (chunk va (Z.of_nat (length src)))).
  assert (Hn : Z.of_nat n = Z.min (Z.of_nat (length src)) (PGSIZE - va mod PGSIZE))
    by (unfold n, chunk; lia).
  assert (Hlt : length (take n src) = n) by (rewrite length_take; lia).
  destruct (put_user_frame s va (take n src) Hvm Hup) as [Hvm1 He1]; [lia|].
  set (m1 := put_bytes (k_mem s) (upa T (k_mem s) va) (take n src)) in *.
  assert (Hrest : (0 < length (drop n src))%nat ->
    Z.of_nat n = PGSIZE - va mod PGSIZE) by (rewrite length_drop; lia).
  set (va1 := va + (PGSIZE - va mod PGSIZE)).
  assert (Hva1 : va1 mod PGSIZE = 0).
  { unfold va1. layout. Z.div_mod_to_equations. lia. }
  destruct (IH va1 (drop n src) (s <| k_mem := m1 |>) Hvm1) as (m2 & E2 & W2 & Hvm2 & He2).
  - eapply user_range_ext; [exact He1|]. eapply user_range_sub; [exact Hur|unfold va1; lia|].
    rewrite length_drop. unfold va1. lia.
  - intros x Hx. rewrite length_drop in Hx. unfold writable. simpl. rewrite He1. apply Hw. unfold va1 in Hx. lia.
  - rewrite Hva1, length_drop. lia.
  - exists m2. rewrite E2. split; [done|]. split; [|split; [exact Hvm2|intros x; by rewrite He2, He1]].
    destruct (decide (length (drop n src) = 0%nat)) as [Hz|Hz].
    + apply nil_length_inv in Hz. rewrite Hz in W2. destruct W2 as [_ F2].
      assert (Hall : take n src = src) by (rewrite <- (take_drop n src) at 2; by rewrite Hz, app_nil_r).
      destruct (written_chunk (k_mem s) va (take n src)) as [W1 F1]; [lia|]. rewrite Hall in W1, F1.
      fold m1 in W1, F1. unfold m1 in *. rewrite Hall in *.
      split; [intros i b Hi; rewrite F2; [by apply W1|simpl; lia]|].
      intros a Ha. rewrite F2; [by apply F1|simpl; lia].
    + eapply (written_app _ _ m1 m2 va n src Hur); [lia| |exact He1|apply written_chunk; lia|].
      * intros i j Hij Hj. rewrite Hrest in Hn by lia. layout. Z.div_mod_to_equations. lia.
      * replace (va + Z.of_nat n) with va1; [exact W2|]. unfold va1. rewrite Hrest by lia. done.
Qed.

Lemma copyin_loop_run k va len dst s :
  vm_state d s free T -> user_range (k_syms s) T (k_mem s) free va len -> 0 <= len ->
  va mod PGSIZE + len <= Z.of_nat k * PGSIZE ->
  copyin_loop (S k) root va len dst s
  = Ret (0, dst ++ (user_byte T (k_mem s) <$> seqZ va len)) s.
Proof.
  intros Hvm. revert va len dst. induction k as [|k IH]; intros va len dst Hur Hl Hk.
  { assert (0 <= va mod PGSIZE) by (apply Z.mod_pos_bound; layout; lia). layout.
    assert (len = 0) as -> by lia. simpl. by rewrite app_nil_r. }
  assert (Hmod : 0 <= va mod PGSIZE < PGSIZE) by (apply Z.mod_pos_bound; layout; lia).
  destruct (decide (len = 0)) as [->|Hne]; [simpl; by rewrite app_nil_r|].
  rewrite Nat2Z.inj_succ, Z.mul_succ_l in Hk. assert (0 <= Z.of_nat k * PGSIZE) by (layout; lia).
  rewrite copyin_step by (done || lia || apply Hur; lia).
  assert (Hn : chunk va len = Z.min len (PGSIZE - va mod PGSIZE)) by done.
  set (n := chunk va len) in *. set (va1 := va + (PGSIZE - va mod PGSIZE)).
  assert (Hva1 : va1 mod PGSIZE = 0).
  { unfold va1. layout. Z.div_mod_to_equations. lia. }
  rewrite IH.
  - f_equal. f_equal. rewrite <- app_assoc. f_equal.
    assert (E1 : mget (k_mem s) <$> seqZ (upa T (k_mem s) va) n = user_byte T (k_mem s) <$> seqZ va n).
    { apply list_eq. intros i. rewrite !list_lookup_fmap. destruct (decide (Z.of_nat i < n)) as [Hi|Hi].
      - rewrite !lookup_seqZ_lt by lia. simpl. unfold user_byte. do 2 f_equal.
        rewrite (upa_page _ va (va + Z.of_nat i)); [lia|]. layout. Z.div_mod_to_equations. lia.
      - by rewrite !lookup_seqZ_ge by lia. }
    rewrite E1, <- fmap_app. f_equal. destruct (decide (len <= PGSIZE - va mod PGSIZE)) as [Hle|Hgt].
    + replace (len - n) with 0 by lia. replace n with len by lia. by rewrite app_nil_r.
    + replace va1 with (va + n) by (unfold va1; lia).
      rewrite <- seqZ_app by lia. f_equal. lia.
  - eapply user_range_sub; [exact Hur|unfold va1; lia|unfold va1; lia].
  - lia.
  - rewrite Hva1. lia.
Qed.
End copy.

Lemma copyout_fuel va n :
  va mod PGSIZE + Z.of_nat n <= Z.of_nat (S (n / Z.to_nat PGSIZE + 1)) * PGSIZE.
Proof.
  assert (va mod PGSIZE < PGSIZE) by (apply Z.mod_pos_bound; layout; lia).
  pose proof (Nat.div_mod_eq n (Z.to_nat PGSIZE)) as E.
  pose proof (Nat.mod_upper_bound n (Z.to_nat PGSIZE)) as B.
  assert (Z.to_nat PGSIZE <> 0%nat) by (layout; lia). layout. lia.
Qed.

Lemma copyout_run d root free T va src s :
  T !! (2%nat, 0) = Some root -> vm_state d s free T ->
  user_range (k_syms s) T (k_mem s) free va (Z.of_nat (length src)) ->
  (forall x, va <= x < va + Z.of_nat (length src) -> writable T (k_mem s) x = true) ->
  exists m', copyout root va src s = Ret 0 (s <| k_mem := m' |>)
    /\ written T (k_mem s) m' va src
    /\ vm_state d (s <| k_mem := m' |>) free T /\ forall x, pte_of T m' x = pte_of T (k_mem s) x.
Proof.
  intros Hr Hvm Hur Hw. unfold copyout. eapply copyout_loop_run; try done. apply copyout_fuel.
Qed.

Lemma copyin_run d root free T va len s :
  T !! (2%nat, 0) = Some root -> vm_state d s free T -> 0 <= len ->
  user_range (k_syms s) T (k_mem s) free va len ->
  copyin root va len s = Ret (0, user_byte T (k_mem s) <$> seqZ va len) s.
Proof.
  intros Hr Hvm Hl Hur. unfold copyin. rewrite (copyin_loop_run d root free T Hr); [done..|].
  assert (va mod PGSIZE < PGSIZE) by (apply Z.mod_pos_bound; layout; lia).
  layout. Z.div_mod_to_equations. lia.
Qed.

(** C26. [copyout()] to mapped, writable user memory: it returns 0, the process sees
    exactly the given bytes at the [n] addresses from [va] on, in every page they
    reach, and no other byte of memory changes; neither do the page table, the free
    list, or anything else of the kernel. *)
Theorem copyout_spec d root free T va src s :
  T !! (2%nat, 0) = Some root -> vm_state d s free T -> Forall byte src ->
  user_range (k_syms s) T (k_mem s) free va (Z.of_nat (length src)) ->
  (forall x, va <= x < va + Z.of_nat (length src) -> writable T (k_mem s) x = true) ->
  exists m', copyout root va src s = Ret 0 (s <| k_mem := m' |>)
    /\ (user_byte T m' <$> seqZ va (Z.of_nat (length src))) = src
    /\ (forall a, (forall x, va <= x < va + Z.of_nat (length src) -> a <> upa T (k_mem s) x) ->
          mget m' a = mget (k_mem s) a)
    /\ vm_state d (s <| k_mem := m' |>) free T /\ (forall x, pte_of T m' x = pte_of T (k_mem s) x).
Proof.
  intros Hr Hvm Hb Hur Hw. destruct (copyout_run d root free T va src s Hr Hvm Hur Hw)
    as (m' & E & [W F] & Hvm' & He). exists m'. split_and!; [done| | |done|done].
  - apply list_eq. intros i. rewrite list_lookup_fmap. destruct (src !! i) as [b|] eqn:Ei.
    + pose proof (lookup_lt_Some _ _ _ Ei). rewrite lookup_seqZ_lt by lia. simpl. f_equal.
      unfold user_byte. rewrite (upa_ext T (k_mem s)) by apply He. rewrite (W i b Ei).
      rewrite Forall_lookup in Hb. apply u8_small. by eapply Hb.
    + apply lookup_ge_None in Ei. by rewrite lookup_seqZ_ge by lia.
  - intros a Ha. apply F. intros i Hi. apply Ha. lia.
Qed.

(** C9. What [copyout()] writes to a process, [copyin()] reads back, for any number
    of bytes across any number of pages. *)
Theorem copyout_copyin d root free T va src s :
  T !! (2%nat, 0) = Some root -> vm_state d s free T -> Forall byte src ->
  user_range (k_syms s) T (k_mem s) free va (Z.of_nat (length src)) ->
  (forall x, va <= x < va + Z.of_nat (length src) -> writable T (k_mem s) x = true) ->
  exists s', copyout root va src s = Ret 0 s' /\ copyin root va (Z.of_nat (length src)) s' = Ret (0, src) s'.
Proof.
  intros Hr Hvm Hb Hur Hw. destruct (copyout_run d root free T va src s Hr Hvm Hur Hw)
    as (m' & E & [W F] & Hvm' & He). eexists. split; [exact E|].
  rewrite (copyin_run d root free T) by
    (done || lia || exact (user_range_ext free T _ _ _ _ _ He Hur)). do 2 f_equal.
  apply list_eq. intros i. rewrite list_lookup_fmap. destruct (src !! i) as [b|] eqn:Ei.
  - pose proof (lookup_lt_Some _ _ _ Ei). rewrite lookup_seqZ_lt by lia. simpl. f_equal.
    unfold user_byte. rewrite (upa_ext T (k_mem s)) by apply He. rewrite (W i b Ei).
    rewrite Forall_lookup in Hb. apply u8_small. by eapply Hb.
  - apply lookup_ge_None in Ei. by rewrite lookup_seqZ_ge by lia.
Qed.

(** ** What [copyout()] refuses *)

(** Whether [copyout()] may write at [va] for a process of size [sz]: the page is valid
    and has the permissions [PTE_U] and [PTE_W], or it is a page below [sz] that was not
    allocated yet, which [vmfault()] allocates. *)
Definition may_write (T : tabs) (m : mem) (sz va : Z) : bool :=
  let e := pte_of T m va in
  (va <? MAXVA) &&
  (if truthy (Z.land e PTE_V) then truthy (Z.land e PTE_U) && truthy (Z.land e PTE_W)
   else PGROUNDDOWN va <? sz).

Lemma PGROUNDDOWN_page va :
  0 <= va < MAXVA -> 0 <= PGROUNDDOWN va < MAXVA /\ PGROUNDDOWN va / PGSIZE = va / PGSIZE.
Proof. rewrite PGROUNDDOWN_spec. layout. Z.div_mod_to_equations. lia. Qed.

Section refuse.
Context (d root : Z) (free : list Z) (T : tabs) (s : kstate) (va : Z).
Context (Hroot : T !! (2%nat, 0) = Some root) (Hvm : vm_state d s free T) (Hva : 0 <= va < MAXVA).

Let e : Z := pte_of T (k_mem s) va.

(** [walk()] finds the entry of the page, or there is none. *)
Lemma page_entry :
  exists a, walk root (PGROUNDDOWN va) 0 s = Ret a s /\ (a = 0 /\ e = 0 \/ a <> 0 /\ load64 a s = Ret e s).
Proof using Hroot Hvm Hva.
  destruct (PGROUNDDOWN_page va Hva) as [H0 Hp]. pose proof Hvm as [Hf _ Hpt]. unfold e.
  rewrite <- (pte_of_page T (k_mem s) _ va Hp). unfold pte_of.
  exists (default 0 (pte_addr T (PGROUNDDOWN va))). split.
  - by erewrite walk_noalloc by (done || apply Hf || lia).
  - destruct (pte_addr T (PGROUNDDOWN va)) as [a|] eqn:Ea; [right|by left].
    pose proof (pte_addr_ram _ _ _ _ _ _ Hvm Ea) as Hram. split; [destruct Hram; revert H; layout; simpl; lia|].
    by apply load64_run.
Qed.

Lemma ismapped_run :
  ismapped root (PGROUNDDOWN va) s = Ret (if truthy (Z.land e PTE_V) then 1 else 0) s.
Proof using Hroot Hvm Hva.
  unfold ismapped. destruct page_entry as (a & E & Ha). erewrite bind_Ret by exact E.
  destruct Ha as [[-> ->]|[Hnz El]]; [done|]. rewrite (proj2 (Z.eqb_neq _ _) Hnz).
  by erewrite bind_Ret by exact El.
Qed.
End refuse.

(** [vmfault()] gives no page for an address beyond the size of the process, nor for
    one whose page is mapped. *)
Lemma vmfault_refuses d root free T s va p pr :
  T !! (2%nat, 0) = Some root -> vm_state d s free T -> 0 <= va < MAXVA ->
  curproc (k_sync s) = Some p -> k_procs s !! p = Some pr ->
  p_sz pr <= PGROUNDDOWN va \/ truthy (Z.land (pte_of T (k_mem s) va) PTE_V) = true ->
  vmfault root (PGROUNDDOWN va) 0 s = Ret 0 (ksync settle s).
Proof.
  intros Hr Hvm Hva Hp Hpr Hno. pose proof (vm_lock _ _ _ _ Hvm) as (Hs & Hd & _). unfold vmfault, myproc_deref.
  erewrite bind_Ret by (erewrite bind_Ret by (apply (myproc_run d); [done|lia]); rewrite Hp; reflexivity).
  erewrite bind_Ret by by apply get_proc_run.
  destruct (p_sz pr <=? PGROUNDDOWN va) eqn:E; [done|]. bool_to_prop. destruct Hno as [?|Hv]; [lia|].
  replace (PGROUNDDOWN (PGROUNDDOWN va)) with (PGROUNDDOWN va).
  2:{ rewrite !PGROUNDDOWN_spec. layout. Z.div_mod_to_equations. lia. }
  erewrite bind_Ret by (apply (ismapped_run d root free T); [done|by apply vm_state_settle|done]).
  change (k_mem (ksync settle s)) with (k_mem s). by rewrite Hv.
Qed.

(** C27. [copyout()] protects what the process must not write: when the address is
    beyond user space, or its page is mapped without [PTE_U] (as the guard page of the
    stack, the trapframe and the trampoline are) or without [PTE_W] (as the text is), or
    is not mapped and not below the size of the process, it returns -1 and nothing is
    written. The kernel's state is unchanged, up to the note of the processor on
    whether interrupts were on ([settle]) that the look at the running process leaves. *)
Theorem copyout_protects d root free T va src s p pr :
  T !! (2%nat, 0) = Some root -> vm_state d s free T -> src <> [] -> 0 <= va ->
  curproc (k_sync s) = Some p -> k_procs s !! p = Some pr ->
  may_write T (k_mem s) (p_sz pr) va = false ->
  copyout root va src s = Ret (-1) s \/ copyout root va src s = Ret (-1) (ksync settle s).
Proof.
  intros Hr Hvm Hne H0 Hp Hpr Hbad. unfold copyout. cbn [copyout_loop].
  assert (Hpos : 0 < Z.of_nat (length src)) by (destruct src; [done|simpl; lia]).
  rewrite (proj2 (Z.ltb_lt _ _) Hpos). cbn [negb].
  destruct (decide (va < MAXVA)) as [Hva|Hva].
  2:{ left. rewrite (proj2 (Z.leb_le _ _)); [done|]. rewrite PGROUNDDOWN_spec. revert Hva. layout.
      Z.div_mod_to_equations. lia. }
  unfold may_write in Hbad. rewrite (proj2 (Z.ltb_lt _ _) Hva) in Hbad. simpl andb in Hbad.
  destruct (PGROUNDDOWN_page va) as [Hd0 Hpg]; [done|]. rewrite (proj2 (Z.leb_gt _ _)) by lia.
  assert (Ew : walkaddr root (PGROUNDDOWN va) s = Ret (user_pa (pte_of T (k_mem s) va)) s).
  { erewrite walkaddr_run by (done || lia). rewrite decide_True by lia. by rewrite (pte_of_page _ _ _ va Hpg). }
  erewrite bind_Ret by exact Ew. destruct (user_pa (pte_of T (k_mem s) va) =? 0) eqn:Epa.
  - assert (Ef : vmfault root (PGROUNDDOWN va) 0 s = Ret 0 (ksync settle s)).
    { apply (vmfault_refuses d root free T s va p pr); try done.
      destruct (truthy (Z.land (pte_of T (k_mem s) va) PTE_V)); [by right|left]. bool_to_prop. lia. }
    right. by erewrite bind_Ret by exact Ef.
  - left. erewrite bind_Ret by reflexivity. rewrite Epa. unfold user_pa in Epa.
    destruct (truthy (Z.land (pte_of T (k_mem s) va) PTE_V)); [|done].
    destruct (truthy (Z.land (pte_of T (k_mem s) va) PTE_U)); [|done]. simpl andb in Hbad.
    destruct (page_entry d root free T s va Hr Hvm) as (a & E & [[_ He]|[_ El]]); [done| |].
    + rewrite He in Epa. done.
    + erewrite bind_Ret by exact E. erewrite bind_Ret by exact El. by rewrite Hbad.
Qed.

(** ** An example: a page table that maps the user page 0x5000 *)

(** The page is mapped with the permissions [perm]. *)
Lemma example_space perm :
  0 <= perm < 2 ^ 10 -> truthy (Z.land perm PTE_U) = true ->
  match mappages page_root 0x5000 (1 * PGSIZE) 0x80103000 perm one_table with
  | Ret 0 _ => True | _ => False end ->
  exists s free T, T !! (2%nat, 0) = Some page_root /\ vm_state 0 s free T
    /\ (forall x, 0x5000 <= x < 0x6000 -> pte_of T (k_mem s) x = leaf_pte 0x80103000 perm)
    /\ user_range (k_syms s) T (k_mem s) free 0x5000 PGSIZE.
Proof.
  intros Hperm HU.
  destruct (mappages_run 0 page_root 0x5000 1 0x80103000 perm one_table [page_a; page_b]
    {[(2%nat, 0) := page_root]} one_table_vm) as (r & s & free & T & k & E & Hmap & Hr).
  { reflexivity. } { lia. } { reflexivity. } { lia. } { layout. lia. } { lia. } { layout. lia. }
  { exact Hperm. }
  { intros x Hx. unfold pte_of, pte_addr. rewrite lookup_singleton_ne by congruence. reflexivity. }
  rewrite E. intros Hrun. destruct Hr as [[-> ->]|(-> & _)]; [clear E Hrun|contradiction].
  destruct Hmap as [Honly Hvm Hsub Hpte _ (taken & Ht & _ & Hnew)].
  exists s, free, T. split; [|split; [done|]].
  { eapply lookup_weaken; [|exact Hsub]. reflexivity. }
  assert (Hp : forall x, 0x5000 <= x < 0x6000 -> pte_of T (k_mem s) x = leaf_pte 0x80103000 perm).
  { intros x Hx. rewrite Hpte. unfold map_range. rewrite decide_True by (layout; lia). f_equal.
    layout. Z.div_mod_to_equations. lia. }
  split; [done|].
  assert (Hpa : forall x, 0x5000 <= x < 0x6000 -> user_pa (pte_of T (k_mem s) x) = 0x80103000).
  { intros x Hx. rewrite Hp by done. unfold user_pa. rewrite leaf_pte_V, leaf_pte_U by done.
    simpl. apply leaf_pte_pa; [lia|reflexivity|done]. }
  assert (Hmine : 0x80103000 ∉ [page_a; page_b]).
  { rewrite !not_elem_of_cons. unfold page_a, page_b. split_and!; [lia..|apply not_elem_of_nil]. }
  rewrite Ht, not_elem_of_app in Hmine.
  split.
  - intros x Hx. change (0x5000 + PGSIZE) with 0x6000 in Hx. split; rewrite ?Hpa by done.
    + layout. lia.
    + destruct (mem_only_fields _ _ Honly) as (-> & _). by vm_compute.
    + tauto.
    + intros lk t Hlk. intros ->.
      destruct (Hnew _ _ Hlk) as [[_ Hl]%lookup_singleton_Some|Hl]; [|tauto].
      unfold page_root in Hl. lia.
  - intros x x' Hx Hx' Hne. destruct Hne. revert Hx Hx'. layout. intros.
    Z.div_mod_to_equations. lia.
Qed.

Definition perm_rwu : Z := Z.lor (Z.lor PTE_R PTE_W) PTE_U.

Lemma example_writable :
  exists s free T, T !! (2%nat, 0) = Some page_root /\ vm_state 0 s free T
    /\ user_range (k_syms s) T (k_mem s) free 0x5ffe 2
    /\ forall x, 0x5ffe <= x < 0x6000 -> writable T (k_mem s) x = true.
Proof.
  destruct (example_space perm_rwu) as (s & free & T & Hr & Hvm & Hp & Hur).
  { by vm_compute. } { reflexivity. } { vm_compute. exact I. }
  exists s, free, T. split_and!; [done|done| |].
  - eapply user_range_sub; [exact Hur|lia|layout; lia].
  - intros x Hx. unfold writable. rewrite Hp by lia. reflexivity.
Qed.

Lemma copyout_spec_witness :
  exists s m', copyout page_root 0x5ffe [65; 66] s = Ret 0 (s <| k_mem := m' |>).
Proof.
  destruct example_writable as (s & free & T & Hr & Hvm & Hur & Hw).
  destruct (copyout_spec 0 page_root free T 0x5ffe [65; 66] s Hr Hvm) as (m' & E & _).
  - repeat constructor; unfold byte; lia.
  - exact Hur.
  - exact Hw.
  - exists s, m'. exact E.
Defined.

Lemma copyout_copyin_witness :
  exists s s', copyout page_root 0x5ffe [65; 66] s = Ret 0 s'
    /\ copyin page_root 0x5ffe 2 s' = Ret (0, [65; 66]) s'.
Proof.
  destruct example_writable as (s & free & T & Hr & Hvm & Hur & Hw). exists s.
  apply (copyout_copyin 0 page_root free T 0x5ffe [65; 66] s Hr Hvm).
  - repeat constructor; unfold byte; lia.
  - exact Hur.
  - exact Hw.
Defined.

(** The page 0x5000 mapped for the kernel only, as the guard page of a stack is. *)
Lemma example_guard :
  exists s free T, T !! (2%nat, 0) = Some page_root /\ vm_state 0 s free T
    /\ curproc (k_sync s) = Some 0%nat /\ k_procs s !! 0%nat = Some proc_zero
    /\ pte_of T (k_mem s) 0x5000 = leaf_pte 0x80103000 (Z.lor PTE_R PTE_W).
Proof.
  destruct (mappages_run 0 page_root 0x5000 1 0x80103000 (Z.lor PTE_R PTE_W) one_table [page_a; page_b]
    {[(2%nat, 0) := page_root]} one_table_vm) as (r & s & free & T & k & E & Hmap & Hr).
  { reflexivity. } { lia. } { reflexivity. } { lia. } { layout. lia. } { lia. } { layout. lia. }
  { by vm_compute. }
  { intros x Hx. unfold pte_of, pte_addr. rewrite lookup_singleton_ne by congruence. reflexivity. }
  assert (r = 0) as ->.
  { assert (Hrun : match mappages page_root 0x5000 (1 * PGSIZE) 0x80103000 (Z.lor PTE_R PTE_W) one_table with
      | Ret 0 _ => True | _ => False end) by (vm_compute; exact I).
    rewrite E in Hrun. destruct r; [reflexivity|destruct Hrun|destruct Hrun]. }
  destruct Hr as [[_ ->]|(Hr & _)]; [|discriminate Hr].
  destruct Hmap as [Honly Hvm Hsub Hpte _ _]. exists s, free, T.
  destruct (mem_only_fields _ _ Honly) as (_ & Hpr & _ & Hcur). split_and!.
  - eapply lookup_weaken; [|exact Hsub]. reflexivity.
  - exact Hvm.
  - rewrite Hcur. reflexivity.
  - rewrite Hpr. reflexivity.
  - rewrite Hpte. unfold map_range. rewrite decide_True by (layout; lia). reflexivity.
Qed.

Lemma copyout_protects_witness :
  exists s, copyout page_root 0x5000 [65] s = Ret (-1) s
    \/ copyout page_root 0x5000 [65] s = Ret (-1) (ksync settle s).
Proof.
  destruct example_guard as (s & free & T & Hr & Hvm & Hc & Hp & He). exists s.
  apply (copyout_protects 0 page_root free T 0x5000 [65] s 0 proc_zero Hr Hvm).
  - discriminate.
  - lia.
  - exact Hc.
  - exact Hp.
  - unfold may_write. rewrite He. reflexivity.
Defined.
