(* ===== verification/Kstring.v ===== *)
(** * C strings

    The string functions of [src/kernel/string.c] on character arrays, an array
    being the list of its bytes from the pointer on. [None] is an access past
    the end of an array. *)

From S2P Require Import Prelude Params.

(** ** string.c *)

Fixpoint strncmp (n : nat) (p q : list Z) : option Z :=
  match n with
  | O => Some 0
  | S n =>
      match p, q with
      | a :: p, b :: q =>
          if truthy a && (a =? b) then strncmp n p q else Some (u8 a - u8 b)
      | _, _ => None
      end
  end.

(** [while(n-- > 0) *s++ = 0;] *)
Fixpoint pad (n : nat) (s : list Z) : option (list Z) :=
  match n with
  | O => Some s
  | S n => match s with _ :: s => cons 0 <$> pad n s | [] => None end
  end.

Fixpoint strncpy_loop (n : nat) (s t : list Z) : option (list Z) :=
  match n with
  | O => Some s
  | S n =>
      match s, t with
      | _ :: s, c :: t => cons c <$> (if c =? 0 then pad n s else strncpy_loop n s t)
      | _, _ => None
      end
  end.

Definition strncpy (s t : list Z) (n : Z) : option (list Z) := strncpy_loop (Z.to_nat n) s t.

(** [*s = 0;] *)
Definition set0 (s : list Z) : option (list Z) :=
  match s with _ :: s => Some (0 :: s) | [] => None end.

(** The copying loop of [safestrcpy] with [n] already decremented, and the store
    of the NUL after it. *)
Fixpoint safestrcpy_loop (n : nat) (s t : list Z) : option (list Z) :=
  match n with
  | O => set0 s
  | S n =>
      match s, t with
      | _ :: s, c :: t => cons c <$> (if c =? 0 then set0 s else safestrcpy_loop n s t)
      | _, _ => None
      end
  end.

Definition safestrcpy (s t : list Z) (n : Z) : option (list Z) :=
  if n <=? 0 then Some s else safestrcpy_loop (Z.to_nat (n - 1)) s t.

Fixpoint strlen_from (n : Z) (s : list Z) : option Z :=
  match s with
  | [] => None
  | c :: s => if truthy c then strlen_from (n + 1) s else Some n
  end.

Definition strlen (s : list Z) : option Z := strlen_from 0 s.

(** ** The string an array holds *)

(** The characters before the first NUL. *)
Fixpoint cstr (s : list Z) : list Z :=
  match s with
  | [] => []
  | c :: s => if c =? 0 then [] else c :: cstr s
  end.

(** The array has a NUL. *)
Definition terminated (s : list Z) : Prop := 0 ∈ s.

Lemma cstr_cons c s : c <> 0 -> cstr (c :: s) = c :: cstr s.
Proof. intros H. simpl. apply Z.eqb_neq in H. by rewrite H. Qed.

Lemma strlen_from_spec n s :
  terminated s -> strlen_from n s = Some (n + Z.of_nat (length (cstr s))).
Proof.
  unfold terminated. revert n. induction s as [|c s IH]; intros n H; [by apply elem_of_nil in H|].
  cbn [strlen_from]. destruct (truthy c) eqn:E; bool_to_prop.
  - rewrite cstr_cons by done. rewrite IH by set_solver. simpl. f_equal. lia.
  - subst. simpl. f_equal. lia.
Qed.

Lemma safestrcpy_loop_spec n s t :
  (n < length s)%nat -> terminated t ->
  exists s', safestrcpy_loop n s t = Some s' /\ cstr s' = take n (cstr t) /\
    terminated (take (S n) s') /\ length s' = length s /\ drop (S n) s' = drop (S n) s.
Proof.
  unfold terminated. revert s t. induction n as [|n IH]; intros [|x s] [|c t] Hn Ht; simpl in *;
    try lia; try (by apply elem_of_nil in Ht).
  - eexists. split_and!; [done|done| |done|done]. set_solver.
  - destruct (c =? 0) eqn:E; bool_to_prop.
    + subst. destruct s as [|y s]; simpl in *; [lia|]. eexists. split; [done|].
      split_and!; [done|set_solver|done|]. by destruct n.
    + apply Z.eqb_neq in E as E'. destruct (IH s t) as (s' & -> & Hc & Hz & Hl & Hd);
        [lia|set_solver|]. simpl. eexists. split; [done|]. simpl. rewrite E'. simpl.
      split_and!; [by rewrite Hc|set_solver|lia|done].
Qed.

(** safestrcpy(s, t, n) leaves in the buffer the longest prefix of the string
    t that fits with its NUL in n bytes, always terminated, and changes nothing
    past the first n bytes of the buffer. *)
Theorem safestrcpy_spec s t n :
  0 < n <= Z.of_nat (length s) -> terminated t ->
  exists s', safestrcpy s t n = Some s' /\ cstr s' = take (Z.to_nat (n - 1)) (cstr t) /\
    terminated (take (Z.to_nat n) s') /\ length s' = length s /\
    drop (Z.to_nat n) s' = drop (Z.to_nat n) s.
Proof.
  intros Hn Ht. unfold safestrcpy. destruct (n <=? 0) eqn:E; bool_to_prop; [lia|].
  destruct (safestrcpy_loop_spec (Z.to_nat (n - 1)) s t) as (s' & ? & ? & Hz & ? & Hd); [lia|done|].
  replace (S (Z.to_nat (n - 1))) with (Z.to_nat n) in * by lia. exists s'. by split_and!.
Qed.

Lemma safestrcpy_spec_witness :
  exists s', safestrcpy [9; 9; 9; 9; 9] [65; 66; 0] 4 = Some s' /\ cstr s' = [65; 66].
Proof.
  destruct (safestrcpy_spec [9; 9; 9; 9; 9] [65; 66; 0] 4) as (s' & E & Hc & _).
  - simpl. lia.
  - unfold terminated. do 2 right. left.
  - exists s'. split; [exact E|exact Hc].
Defined.

Lemma strncmp_zero n p q :
  terminated p -> terminated q -> Forall (fun c => 0 <= c < 256) p -> Forall (fun c => 0 <= c < 256) q ->
  exists r, strncmp n p q = Some r /\ (r = 0 <-> take n (cstr p) = take n (cstr q)).
Proof.
  unfold terminated. revert p q.
  induction n as [|n IH]; intros [|a p] [|b q] Hp Hq Fp Fq; simpl; try (by exists 0);
    try (by apply elem_of_nil in Hp); try (by apply elem_of_nil in Hq).
  apply Forall_cons in Fp as [Fa Fp]. apply Forall_cons in Fq as [Fb Fq].
  destruct (truthy a && (a =? b)) eqn:E.
  - bool_to_prop. subst b. destruct (IH p q) as (r & -> & Hr); [set_solver|set_solver|done|done|].
    exists r. split; [done|]. apply Z.eqb_neq in H as ->. rewrite Hr. simpl.
    split; [intros Hx; by rewrite Hx|by intros [=]].
  - exists (u8 a - u8 b). split; [done|]. unfold u8. rewrite !Z.mod_small by lia.
    apply andb_false_iff in E. destruct (a =? 0) eqn:Ea, (b =? 0) eqn:Eb; bool_to_prop;
      subst; try (split; [lia|done]); try (split; [lia|intros [=]; lia]).
    + done.
    + destruct E; bool_to_prop; [lia|]. split; [lia|]. by intros [=].
Qed.
