(* ===== verification/Pres.v ===== *)
(** * Invariants of the process table

    A small program logic for kernel functions that may switch to other threads:
    [keeps I m Q] says that [m], run from a state with [I], stops in a state
    with [I] at every context switch and at its return, provided that each time
    the thread is resumed [I] holds again, and that its result satisfies [Q]. *)

From S2P Require Import Prelude Params Machine Spinlock ProcCore Mem Kalloc.

Fixpoint okay {A} (I : kstate -> Prop) (Q : A -> Prop) (o : outcome A) : Prop :=
  match o with
  | Ret a s => I s /\ Q a
  | Stop _ => True
  | Swtch _ s k => I s /\ forall s', I s' -> okay I Q (k s')
  end.

Definition keeps {A} (I : kstate -> Prop) (m : M A) (Q : A -> Prop) : Prop :=
  forall s, I s -> okay I Q (m s).

(** [m] keeps [I], whatever it returns. *)
Notation pres I m := (keeps I m (fun _ => True)).

Create HintDb pres discriminated.
#[global] Hint Constants Opaque : pres.

Lemma okay_bind {A B} I (Q : A -> Prop) (R : B -> Prop) (o : outcome A) (f : A -> M B) :
  okay I Q o -> (forall a, Q a -> keeps I (f a) R) -> okay I R (obind o f).
Proof.
  intros Ho Hf. induction o as [a s|w|t s k IH]; simpl in *.
  - destruct Ho. by apply Hf.
  - done.
  - destruct Ho as [Hs Hk]. split; [done|]. intros s' Hs'. by apply IH, Hk.
Qed.

Lemma keeps_bind {A B} I (Q : A -> Prop) (R : B -> Prop) (m : M A) (f : A -> M B) :
  keeps I m Q -> (forall a, Q a -> keeps I (f a) R) -> keeps I (bind m f) R.
Proof. intros Hm Hf s Hs. eapply okay_bind; [by apply Hm|done]. Qed.

Lemma okay_weaken {A} I (Q R : A -> Prop) (o : outcome A) :
  okay I Q o -> (forall a, Q a -> R a) -> okay I R o.
Proof.
  intros Ho Hf. induction o as [a s|w|t s k IH]; simpl in *; [|done|].
  - destruct Ho. auto.
  - destruct Ho as [Hs Hk]. split; [done|]. intros s' Hs'. auto.
Qed.

Lemma keeps_weaken {A} I (Q R : A -> Prop) (m : M A) :
  keeps I m Q -> (forall a, Q a -> R a) -> keeps I m R.
Proof. intros H HQ s Hs. eapply okay_weaken; [by apply H|done]. Qed.

Lemma pres_weaken {A} I (Q : A -> Prop) (m : M A) : keeps I m Q -> pres I m.
Proof. intros H. eapply keeps_weaken; [exact H|done]. Qed.

Section rules.
Context (I : kstate -> Prop).

Lemma keeps_ret {A} (a : A) (Q : A -> Prop) : Q a -> keeps I (ret a) Q.
Proof. by intros H s Hs. Qed.

Lemma keeps_stop {A} w (Q : A -> Prop) : keeps I (stop_ w) Q.
Proof. done. Qed.

Lemma pres_bind {A B} (m : M A) (f : A -> M B) (Q : B -> Prop) :
  pres I m -> (forall a, keeps I (f a) Q) -> keeps I (bind m f) Q.
Proof. intros Hm Hf. eapply keeps_bind; [exact Hm|]. auto. Qed.

Lemma pres_get : pres I get.
Proof. by intros s Hs. Qed.

Lemma pres_gets {A} (f : kstate -> A) : pres I (gets f).
Proof. by intros s Hs. Qed.

Lemma pres_modify f : (forall s, I s -> I (f s)) -> pres I (modify f).
Proof. intros H s Hs. split; [by apply H|done]. Qed.

Lemma pres_swtch t : pres I (swtch t).
Proof. intros s Hs. split; [done|]. by intros s' Hs'. Qed.

Lemma pres_when b m : pres I m -> pres I (when b m).
Proof. destruct b; [done|]. intros _. by apply keeps_ret. Qed.

Lemma keeps_if {A} (b : bool) (m1 m2 : M A) (Q : A -> Prop) :
  keeps I m1 Q -> keeps I m2 Q -> keeps I (if b then m1 else m2) Q.
Proof. by destruct b. Qed.

Lemma pres_for_each {A} (l : list A) f : (forall x, pres I (f x)) -> pres I (for_each l f).
Proof.
  intros Hf. induction l as [|x l IH]; simpl; [by apply keeps_ret|].
  apply pres_bind; auto.
Qed.

Lemma pres_for_find {A B} (l : list A) (f : A -> M (option B)) :
  (forall x, pres I (f x)) -> pres I (for_find l f).
Proof.
  intros Hf. induction l as [|x l IH]; simpl; [by apply keeps_ret|].
  apply pres_bind; [done|]. intros [b|]; [by apply keeps_ret|done].
Qed.

Lemma keeps_option {A B} (o : option A) (m1 : A -> M B) (m2 : M B) (Q : B -> Prop) :
  (forall a, keeps I (m1 a) Q) -> keeps I m2 Q ->
  keeps I (match o with Some a => m1 a | None => m2 end) Q.
Proof. by destruct o. Qed.

Lemma pres_deref p : pres I (deref p).
Proof. destruct p; [by apply keeps_ret|done]. Qed.
End rules.

#[export] Hint Resolve keeps_ret keeps_stop pres_get pres_gets pres_swtch pres_deref
  pres_for_each pres_for_find : pres.

(** ** The MLFQ levels *)

(** A slot whose level exists and is its priority. *)
Definition mlfq_ok (r : proc) : Prop := 0 <= queue_level r < NQUEUES /\ priority r = queue_level r.

Definition mlfq_inv (s : kstate) : Prop := Forall mlfq_ok (k_procs s).

Lemma keeps_get_proc i : keeps mlfq_inv (get_proc i) mlfq_ok.
Proof.
  intros s Hs. unfold get_proc. destruct (k_procs s !! i) as [r|] eqn:E; [|done].
  split; [done|]. unfold mlfq_inv in Hs. rewrite Forall_lookup in Hs. by eapply Hs.
Qed.

Lemma pres_upd_proc i f : (forall r, mlfq_ok r -> mlfq_ok (f r)) -> pres mlfq_inv (upd_proc i f).
Proof.
  intros Hf. eapply keeps_bind; [apply keeps_get_proc|]. intros r Hr. apply pres_modify.
  intros s Hs. by apply Forall_insert; [|apply Hf].
Qed.

(** Functions on other parts of the state. *)
Lemma pres_modify_other f :
  (forall s, k_procs (f s) = k_procs s) -> pres mlfq_inv (modify f).
Proof. intros H. apply pres_modify. intros s. unfold mlfq_inv. by rewrite H. Qed.

Lemma pres_reader {A} (f : kstate -> option A) :
  pres mlfq_inv (fun s => match f s with Some a => Ret a s | None => Stop SFault end).
Proof. intros s Hs. by destruct (f s). Qed.

Lemma pres_get_hart : pres mlfq_inv get_hart.
Proof. apply (pres_reader (fun s => s_harts (k_sync s) !! s_hart (k_sync s))). Qed.

Lemma pres_get_cpu c : pres mlfq_inv (get_cpu c).
Proof. apply (pres_reader (fun s => s_cpus (k_sync s) !! c)). Qed.

Lemma pres_get_lock l : pres mlfq_inv (get_lock l).
Proof. apply (pres_reader (fun s => s_locks (k_sync s) !! l)). Qed.

Lemma pres_load8 a : pres mlfq_inv (load8 a).
Proof. intros s Hs. unfold load8. by destruct (ram a). Qed.

Lemma pres_store8 a v : pres mlfq_inv (store8 a v).
Proof. intros s Hs. unfold store8. by destruct (ram a). Qed.

Lemma pres_load64 a : pres mlfq_inv (load64 a).
Proof. intros s Hs. unfold load64. by destruct (ram a && ram (a + 7)). Qed.

Lemma pres_store64 a v : pres mlfq_inv (store64 a v).
Proof. intros s Hs. unfold store64. by destruct (ram a && ram (a + 7)). Qed.

#[export] Hint Resolve pres_get_hart pres_get_cpu pres_get_lock pres_load8 pres_store8
  pres_load64 pres_store64 : pres.

(** One step of a proof of [keeps mlfq_inv m Q]: follow the control flow, and
    close the calls with the lemmas of the database. *)
Ltac pres_step :=
  lazymatch goal with
  | |- keeps _ (bind (get_proc _) _) _ => eapply keeps_bind; [apply keeps_get_proc|intros ? ?]
  | |- keeps _ (bind _ _) _ => apply pres_bind; [|intros ?]
  | |- keeps _ (if ?b then _ else _) _ => first [apply keeps_if | destruct b]
  | |- keeps _ (match ?o with Some _ => _ | None => _ end) _ => apply keeps_option; [intros ?|]
  | |- keeps _ (let '(_, _) := ?x in _) _ => destruct x
  | |- keeps _ (when _ _) _ => apply pres_when
  | |- keeps _ (for_each _ _) _ => apply pres_for_each; intros ?
  | |- keeps _ (for_find _ _) _ => apply pres_for_find; intros ?
  | |- keeps _ (upd_proc _ _) _ => apply pres_upd_proc; intros ? ?; try assumption
  | |- keeps _ (modify _) _ => apply pres_modify_other; intros ?; reflexivity
  | |- keeps _ (stop_ _) _ => apply keeps_stop
  | |- keeps _ (panic _) _ => apply keeps_stop
  | |- keeps _ fault _ => apply keeps_stop
  | |- keeps _ (ret _) _ => apply keeps_ret; try exact Logic.I
  | |- keeps _ (match ?o with _ => _ end) _ => destruct o
  | |- keeps _ _ _ => solve [eauto with pres]
  end.

Ltac pres := repeat pres_step.

(** ** Locks and processes *)

Lemma pres_upd_hart f : pres mlfq_inv (upd_hart f).
Proof. unfold upd_hart. pres. Qed.
Lemma pres_upd_cpu c f : pres mlfq_inv (upd_cpu c f).
Proof. unfold upd_cpu. pres. Qed.
Lemma pres_upd_lock l f : pres mlfq_inv (upd_lock l f).
Proof. unfold upd_lock. pres. Qed.
#[export] Hint Resolve pres_upd_hart pres_upd_cpu pres_upd_lock : pres.

Lemma pres_printf msg : pres mlfq_inv (printf msg).
Proof. unfold printf. pres. Qed.
Lemma pres_initlock l n : pres mlfq_inv (initlock l n).
Proof. unfold initlock. pres. Qed.
Lemma pres_holding l : pres mlfq_inv (holding l).
Proof. unfold holding, mycpu, cpuid, r_tp. pres. Qed.
Lemma pres_intr_get : pres mlfq_inv intr_get.
Proof. unfold intr_get. pres. Qed.
Lemma pres_intr_on : pres mlfq_inv intr_on.
Proof. unfold intr_on. pres. Qed.
Lemma pres_intr_off : pres mlfq_inv intr_off.
Proof. unfold intr_off. pres. Qed.
#[export] Hint Resolve pres_printf pres_initlock pres_holding pres_intr_get pres_intr_on pres_intr_off : pres.

Lemma pres_push_off : pres mlfq_inv push_off.
Proof. unfold push_off, mycpu, cpuid, r_tp. pres. Qed.
Lemma pres_pop_off : pres mlfq_inv pop_off.
Proof. unfold pop_off, mycpu, cpuid, r_tp. pres. Qed.
#[export] Hint Resolve pres_push_off pres_pop_off : pres.

Lemma pres_acquire l : pres mlfq_inv (acquire l).
Proof. unfold acquire, test_and_set, mycpu, cpuid, r_tp. pres. Qed.
Lemma pres_release l : pres mlfq_inv (release l).
Proof. unfold release. pres. Qed.
#[export] Hint Resolve pres_acquire pres_release : pres.

Lemma pres_myproc : pres mlfq_inv myproc.
Proof. unfold myproc, mycpu, cpuid, r_tp. pres. Qed.
#[export] Hint Resolve pres_myproc : pres.
Lemma pres_myproc_deref : pres mlfq_inv myproc_deref.
Proof. unfold myproc_deref. pres. Qed.
#[export] Hint Resolve pres_myproc_deref : pres.

Lemma pres_allocpid : pres mlfq_inv allocpid.
Proof. unfold allocpid. pres. Qed.
Lemma pres_sched : pres mlfq_inv sched.
Proof. unfold sched, mycpu, cpuid, r_tp. pres. Qed.
#[export] Hint Resolve pres_allocpid pres_sched : pres.

Lemma pres_yield : pres mlfq_inv yield.
Proof. unfold yield. pres. Qed.
Lemma pres_sleep chan lk : pres mlfq_inv (sleep chan lk).
Proof. unfold sleep. pres. Qed.
Lemma pres_wakeup chan : pres mlfq_inv (wakeup chan).
Proof. unfold wakeup. pres. Qed.
Lemma pres_kkill pid : pres mlfq_inv (kkill pid).
Proof. unfold kkill, kkill_slot. pres. Qed.
Lemma pres_setkilled p : pres mlfq_inv (setkilled p).
Proof. unfold setkilled. pres. Qed.
Lemma pres_killed p : pres mlfq_inv (killed p).
Proof. unfold killed. pres. Qed.
#[export] Hint Resolve pres_yield pres_sleep pres_wakeup pres_kkill pres_setkilled pres_killed : pres.
