(* ===== verification/PresVm.v ===== *)
(** * The memory functions keep the MLFQ levels

    [string.c], [kalloc.c] and [vm.c] change no process. *)

From S2P Require Import Prelude Params Machine Spinlock ProcCore Mem Kalloc Vm Pres.

Lemma pres_memset a c n : pres mlfq_inv (memset a c n).
Proof.
  unfold memset. pres. generalize (Z.to_nat (u32 n)) as k. intros k. revert a.
  induction k as [|k IH]; intros a; unfold memset_loop; fold memset_loop; pres.
Qed.

Lemma pres_move_up n d s : pres mlfq_inv (move_up n d s).
Proof. revert d s. induction n as [|n IH]; intros d s; cbn [move_up]; pres. Qed.

Lemma pres_move_down n d s : pres mlfq_inv (move_down n d s).
Proof. revert d s. induction n as [|n IH]; intros d s; cbn [move_down]; pres. Qed.
#[export] Hint Resolve pres_memset pres_move_up pres_move_down : pres.

Lemma pres_memmove d s n : pres mlfq_inv (memmove d s n).
Proof. unfold memmove. pres. Qed.
#[export] Hint Resolve pres_memmove : pres.

Lemma pres_kfree pa : pres mlfq_inv (kfree pa).
Proof. unfold kfree. pres. Qed.
Lemma pres_kalloc : pres mlfq_inv kalloc.
Proof. unfold kalloc. pres. Qed.
#[export] Hint Resolve pres_kfree pres_kalloc : pres.

Lemma pres_walk pt va alloc : pres mlfq_inv (walk pt va alloc).
Proof.
  unfold walk. pres. generalize 2%nat as l. intros l. revert pt.
  induction l as [|l IH]; intros pt; cbn [walk_loop]; pres.
Qed.
#[export] Hint Resolve pres_walk : pres.

Lemma pres_walkaddr pt va : pres mlfq_inv (walkaddr pt va).
Proof. unfold walkaddr. pres. Qed.

Lemma pres_mappages_loop n pt a last pa perm : pres mlfq_inv (mappages_loop n pt a last pa perm).
Proof. revert a pa. induction n as [|n IH]; intros a pa; cbn [mappages_loop]; pres. Qed.
#[export] Hint Resolve pres_walkaddr pres_mappages_loop : pres.

Lemma pres_mappages pt va sz pa perm : pres mlfq_inv (mappages pt va sz pa perm).
Proof. unfold mappages. pres. Qed.

Lemma pres_uvmunmap_loop n pt a last f : pres mlfq_inv (uvmunmap_loop n pt a last f).
Proof. revert a. induction n as [|n IH]; intros a; cbn [uvmunmap_loop]; pres. Qed.
#[export] Hint Resolve pres_mappages pres_uvmunmap_loop : pres.

Lemma pres_uvmunmap pt va n f : pres mlfq_inv (uvmunmap pt va n f).
Proof. unfold uvmunmap. pres. Qed.
#[export] Hint Resolve pres_uvmunmap : pres.

Lemma pres_uvmcreate : pres mlfq_inv uvmcreate.
Proof. unfold uvmcreate. pres. Qed.
Lemma pres_uvmdealloc pt o n : pres mlfq_inv (uvmdealloc pt o n).
Proof. unfold uvmdealloc. pres. Qed.
#[export] Hint Resolve pres_uvmcreate pres_uvmdealloc : pres.

Lemma pres_uvmalloc_loop k pt a o n x : pres mlfq_inv (uvmalloc_loop k pt a o n x).
Proof. revert a. induction k as [|k IH]; intros a; cbn [uvmalloc_loop]; pres. Qed.
#[export] Hint Resolve pres_uvmalloc_loop : pres.

Lemma pres_uvmalloc pt o n x : pres mlfq_inv (uvmalloc pt o n x).
Proof. unfold uvmalloc. pres. Qed.

Lemma pres_freewalk_at l pt : pres mlfq_inv (freewalk_at l pt).
Proof. revert pt. induction l as [|l IH]; intros pt; cbn [freewalk_at]; pres. Qed.
#[export] Hint Resolve pres_uvmalloc pres_freewalk_at : pres.

Lemma pres_uvmfree pt sz : pres mlfq_inv (uvmfree pt sz).
Proof. unfold uvmfree, freewalk. pres. Qed.

Lemma pres_uvmcopy_loop k o n i sz : pres mlfq_inv (uvmcopy_loop k o n i sz).
Proof. revert i. induction k as [|k IH]; intros i; cbn [uvmcopy_loop]; pres. Qed.
#[export] Hint Resolve pres_uvmfree pres_uvmcopy_loop : pres.

Lemma pres_uvmcopy o n sz : pres mlfq_inv (uvmcopy o n sz).
Proof. unfold uvmcopy. pres. Qed.
Lemma pres_uvmclear pt va : pres mlfq_inv (uvmclear pt va).
Proof. unfold uvmclear. pres. Qed.
Lemma pres_ismapped pt va : pres mlfq_inv (ismapped pt va).
Proof. unfold ismapped. pres. Qed.
#[export] Hint Resolve pres_uvmcopy pres_uvmclear pres_ismapped : pres.

Lemma pres_vmfault pt va r : pres mlfq_inv (vmfault pt va r).
Proof. unfold vmfault. pres. Qed.

Lemma pres_store_bytes a l : pres mlfq_inv (store_bytes a l).
Proof. revert a. induction l as [|b l IH]; intros a; cbn [store_bytes]; pres. Qed.

Lemma pres_load_bytes n a : pres mlfq_inv (load_bytes n a).
Proof. revert a. induction n as [|n IH]; intros a; cbn [load_bytes]; pres. Qed.
#[export] Hint Resolve pres_vmfault pres_store_bytes pres_load_bytes : pres.

Lemma pres_copyout pt va l : pres mlfq_inv (copyout pt va l).
Proof.
  unfold copyout. generalize (S (S (length l / Z.to_nat PGSIZE + 1))) as k. intros k.
  revert va l. induction k as [|k IH]; intros va l; cbn [copyout_loop]; pres.
Qed.

Lemma pres_copyin pt va n : pres mlfq_inv (copyin pt va n).
Proof.
  unfold copyin. generalize (S (S (Z.to_nat (n / PGSIZE + 1)))) as k. intros k.
  generalize (@nil Z) as acc. revert va n.
  induction k as [|k IH]; intros va n acc; cbn [copyin_loop]; pres.
Qed.

Lemma pres_copystr_page n p l : pres mlfq_inv (copystr_page n p l).
Proof. revert p l. induction n as [|n IH]; intros p l; cbn [copystr_page]; pres. Qed.
#[export] Hint Resolve pres_copyout pres_copyin pres_copystr_page : pres.

Lemma pres_copyinstr pt va n : pres mlfq_inv (copyinstr pt va n).
Proof.
  unfold copyinstr. generalize (S (S (Z.to_nat (n / PGSIZE + 1)))) as k. intros k.
  generalize (@nil Z) as acc. revert va n.
  induction k as [|k IH]; intros va n acc; cbn [copyinstr_loop]; pres.
Qed.
#[export] Hint Resolve pres_copyinstr : pres.
