(* ===== verification/Services.v ===== *)
(** * What the process and trap code asks of the rest of the kernel

    [proc.c], [trap.c] and [syscall.c] call the file system, the devices and the
    handlers of the file system calls through these interfaces. Files and inodes
    are indices into their tables. *)

From S2P Require Import Prelude Params Machine Spinlock ProcCore Mem Kalloc Vm Pres.

(** [file.c], [fs.c], [log.c] and [exec.c]. *)
Class FsOps : Type := {
  op_filedup : nat -> M nat;
  op_fileclose : nat -> M unit;
  op_idup : nat -> M nat;
  op_iput : nat -> M unit;
  op_begin_op : M unit;
  op_end_op : M unit;
  op_namei : list Z -> M (option nat);
  op_fsinit : Z -> M unit;
  op_kexec : list Z -> list (list Z) -> M Z;
}.

(** [plic.c], [uart.c] and [virtio_disk.c]. *)
Class DevOps : Type := {
  op_plic_claim : M Z;
  op_plic_complete : Z -> M unit;
  op_uartintr : M unit;
  op_virtio_disk_intr : M unit;
}.

(** [sysfile.c]. *)
Class FileCalls : Type := {
  op_sys_dup : M Z;
  op_sys_read : M Z;
  op_sys_write : M Z;
  op_sys_close : M Z;
  op_sys_fstat : M Z;
  op_sys_link : M Z;
  op_sys_unlink : M Z;
  op_sys_open : M Z;
  op_sys_mkdir : M Z;
  op_sys_mknod : M Z;
  op_sys_chdir : M Z;
  op_sys_exec : M Z;
  op_sys_pipe : M Z;
}.

(** None of them touches a process beyond its sleeping and waking: the MLFQ levels
    stay as they are. *)
Class FsLaws `{FsOps} : Prop := {
  pres_filedup f : pres mlfq_inv (op_filedup f);
  pres_fileclose f : pres mlfq_inv (op_fileclose f);
  pres_idup ip : pres mlfq_inv (op_idup ip);
  pres_iput ip : pres mlfq_inv (op_iput ip);
  pres_begin_op : pres mlfq_inv op_begin_op;
  pres_end_op : pres mlfq_inv op_end_op;
  pres_namei path : pres mlfq_inv (op_namei path);
  pres_fsinit dev : pres mlfq_inv (op_fsinit dev);
  pres_kexec path argv : pres mlfq_inv (op_kexec path argv);
}.

Class DevLaws `{DevOps} : Prop := {
  pres_plic_claim : pres mlfq_inv op_plic_claim;
  pres_plic_complete irq : pres mlfq_inv (op_plic_complete irq);
  pres_uartintr : pres mlfq_inv op_uartintr;
  pres_virtio_disk_intr : pres mlfq_inv op_virtio_disk_intr;
}.

Class FileCallLaws `{FileCalls} : Prop := {
  pres_sys_dup : pres mlfq_inv op_sys_dup;
  pres_sys_read : pres mlfq_inv op_sys_read;
  pres_sys_write : pres mlfq_inv op_sys_write;
  pres_sys_close : pres mlfq_inv op_sys_close;
  pres_sys_fstat : pres mlfq_inv op_sys_fstat;
  pres_sys_link : pres mlfq_inv op_sys_link;
  pres_sys_unlink : pres mlfq_inv op_sys_unlink;
  pres_sys_open : pres mlfq_inv op_sys_open;
  pres_sys_mkdir : pres mlfq_inv op_sys_mkdir;
  pres_sys_mknod : pres mlfq_inv op_sys_mknod;
  pres_sys_chdir : pres mlfq_inv op_sys_chdir;
  pres_sys_exec : pres mlfq_inv op_sys_exec;
  pres_sys_pipe : pres mlfq_inv op_sys_pipe;
}.

#[export] Hint Resolve pres_filedup pres_fileclose pres_idup pres_iput pres_begin_op pres_end_op
  pres_namei pres_fsinit pres_kexec pres_plic_claim pres_plic_complete pres_uartintr
  pres_virtio_disk_intr pres_sys_dup pres_sys_read pres_sys_write pres_sys_close pres_sys_fstat
  pres_sys_link pres_sys_unlink pres_sys_open pres_sys_mkdir pres_sys_mknod pres_sys_chdir
  pres_sys_exec pres_sys_pipe : pres.
