(* ===== verification/Proc.v ===== *)
(** * Processes

    The rest of [src/kernel/proc.c]: allocation and freeing of processes, their
    page tables, [kfork], [kexit], [kwait] and their helpers. *)

From stdpp Require Import pretty.
From S2P Require Import Prelude Params Machine Spinlock ProcCore Sched Mem Kalloc Vm Kstring.
From S2P Require Import Pres PresVm Services.

(** ** Trap frames *)

(** [struct trapframe]: the words of a trap frame in the order of the source. *)
Inductive tfreg : Type :=
| Tkernel_satp | Tkernel_sp | Tkernel_trap | Tepc | Tkernel_hartid
| Tra | Tsp | Tgp | Ttp | Tt0 | Tt1 | Tt2 | Ts0 | Ts1
| Ta0 | Ta1 | Ta2 | Ta3 | Ta4 | Ta5 | Ta6 | Ta7
| Ts2 | Ts3 | Ts4 | Ts5 | Ts6 | Ts7 | Ts8 | Ts9 | Ts10 | Ts11
| Tt3 | Tt4 | Tt5 | Tt6.

(** The offset the comments of the source give each word. *)
Definition tf_offset (r : tfreg) : Z :=
  match r with
  | Tkernel_satp => 0 | Tkernel_sp => 8 | Tkernel_trap => 16 | Tepc => 24 | Tkernel_hartid => 32
  | Tra => 40 | Tsp => 48 | Tgp => 56 | Ttp => 64 | Tt0 => 72 | Tt1 => 80 | Tt2 => 88
  | Ts0 => 96 | Ts1 => 104
  | Ta0 => 112 | Ta1 => 120 | Ta2 => 128 | Ta3 => 136 | Ta4 => 144 | Ta5 => 152
  | Ta6 => 160 | Ta7 => 168
  | Ts2 => 176 | Ts3 => 184 | Ts4 => 192 | Ts5 => 200 | Ts6 => 208 | Ts7 => 216
  | Ts8 => 224 | Ts9 => 232 | Ts10 => 240 | Ts11 => 248
  | Tt3 => 256 | Tt4 => 264 | Tt5 => 272 | Tt6 => 280
  end.

Definition sizeof_trapframe : Z := 288.

(** [p->trapframe->r], as a value and as the target of an assignment. *)
Definition tf_get (p : nat) (r : tfreg) : M Z :=
  pr ← get_proc p; load64 (p_trapframe pr + tf_offset r).

Definition tf_set (p : nat) (r : tfreg) (v : Z) : M unit :=
  pr ← get_proc p; store64 (p_trapframe pr + tf_offset r) v.

(** ** Page tables of processes *)

Definition proc_pagetable (p : nat) : M Z :=
  pagetable ← uvmcreate;
  if pagetable =? 0 then ret 0 else
  trampoline ← gets (fun s => sym_trampoline (k_syms s));
  r ← mappages pagetable TRAMPOLINE PGSIZE trampoline (Z.lor PTE_R PTE_X);
  if r <? 0 then
    uvmfree pagetable 0;;
    ret 0
  else
    pr ← get_proc p;
    r ← mappages pagetable TRAPFRAME PGSIZE (p_trapframe pr) (Z.lor PTE_R PTE_W);
    if r <? 0 then
      uvmunmap pagetable TRAMPOLINE 1 0;;
      uvmfree pagetable 0;;
      ret 0
    else ret pagetable.

Definition proc_freepagetable (pagetable sz : Z) : M unit :=
  uvmunmap pagetable TRAMPOLINE 1 0;;
  uvmunmap pagetable TRAPFRAME 1 0;;
  uvmfree pagetable sz.

(** ** Allocation *)

(** The fields [freeproc] resets after the pages are gone. *)
Definition reset_proc (r : proc) : proc :=
  r <| p_pagetable := 0 |> <| p_sz := 0 |> <| p_pid := 0 |> <| p_parent := None |>
    <| p_name := <[0%nat := 0]> (p_name r) |> <| p_chan := None |> <| p_killed := 0 |>
    <| p_xstate := 0 |> <| p_state := UNUSED |>
    <| priority := 0 |> <| timer_ticks_used := 0 |> <| wait_timer_ticks := 0 |>
    <| queue_level := 0 |> <| voluntarily_yielded := 0 |>.

Definition freeproc (p : nat) : M unit :=
  pr ← get_proc p;
  when (truthy (p_trapframe pr)) (kfree (p_trapframe pr));;
  upd_proc p (fun r => r <| p_trapframe := 0 |>);;
  when (truthy (p_pagetable pr)) (proc_freepagetable (p_pagetable pr) (p_sz pr));;
  upd_proc p reset_proc.

(** The first UNUSED slot, with its lock held. *)
Definition find_unused : M (option nat) :=
  for_find proc_ids (fun p =>
    acquire (LkProc p);;
    r ← get_proc p;
    if bool_decide (p_state r = UNUSED) then ret (Some p)
    else release (LkProc p);; ret None).

(** The fields [allocproc] sets on the slot it found. *)
Definition init_proc (pid : Z) (r : proc) : proc :=
  r <| p_pid := pid |> <| p_state := USED |>
    <| priority := 0 |> <| timer_ticks_used := 0 |> <| wait_timer_ticks := 0 |>
    <| queue_level := 0 |> <| p_parent := None |> <| max_time_slice := TIME_SLICE_0 |>
    <| voluntarily_yielded := 0 |>.

Definition allocproc : M (option nat) :=
  found ← find_unused;
  match found with
  | None => ret None
  | Some p =>
      pid ← allocpid;
      upd_proc p (init_proc pid);;
      tf ← kalloc;
      upd_proc p (fun r => r <| p_trapframe := tf |>);;
      if tf =? 0 then
        freeproc p;;
        release (LkProc p);;
        ret None
      else
        pt ← proc_pagetable p;
        upd_proc p (fun r => r <| p_pagetable := pt |>);;
        if pt =? 0 then
          freeproc p;;
          release (LkProc p);;
          ret None
        else
          forkret ← gets (fun s => sym_forkret (k_syms s));
          upd_proc p (fun r => r <| p_context :=
            Context forkret (p_kstack r + PGSIZE) (cs context_zero) |>);;
          ret (Some p)
  end.

(** ** Memory of the current process *)

Definition growproc (n : Z) : M Z :=
  p ← myproc_deref;
  pr ← get_proc p;
  let sz := p_sz pr in
  if 0 <? n then
    if TRAPFRAME <? u64 (sz + n) then ret (-1)
    else
      sz ← uvmalloc (p_pagetable pr) sz (u64 (sz + n)) PTE_W;
      if sz =? 0 then ret (-1)
      else upd_proc p (fun r => r <| p_sz := sz |>);; ret 0
  else if n <? 0 then
    sz ← uvmdealloc (p_pagetable pr) sz (u64 (sz + n));
    upd_proc p (fun r => r <| p_sz := sz |>);;
    ret 0
  else upd_proc p (fun r => r <| p_sz := sz |>);; ret 0.

(** The other side of [either_copyout] and [either_copyin]: a user address of the
    current process, or a buffer of the kernel, which gets the copied bytes as the
    result of the call and gives them as a list. *)
Inductive cpdst : Type := UserDst (va : Z) | KernDst.
Inductive cpsrc : Type := UserSrc (va : Z) | KernSrc (bytes : list Z).

Definition either_copyout (dst : cpdst) (src : list Z) : M (Z * list Z) :=
  p ← myproc;
  match dst with
  | UserDst va =>
      p ← deref p;
      pr ← get_proc p;
      r ← copyout (p_pagetable pr) va src;
      ret (r, [])
  | KernDst => ret (0, src)
  end.

Definition either_copyin (src : cpsrc) (len : Z) : M (Z * list Z) :=
  p ← myproc;
  match src with
  | UserSrc va =>
      p ← deref p;
      pr ← get_proc p;
      copyin (p_pagetable pr) va len
  | KernSrc l =>
      if Z.of_nat (length l) <? len then fault else ret (0, take (Z.to_nat len) l)
  end.

(** ** Life cycle *)

Section lifecycle.
Context `{FsOps}.

(** ["/"] *)
Definition root_path : list Z := [47; 0].

Definition userinit : M unit :=
  p ← allocproc;
  modify (fun s => s <| k_initproc := p |>);;
  p ← deref p;
  ip ← op_namei root_path;
  upd_proc p (fun r => r <| p_cwd := ip |>);;
  upd_proc p (fun r => r <| p_state := RUNNABLE |>);;
  release (LkProc p).

(** The MLFQ fields of the child, from those of the parent [pr]. *)
Definition inherit (pr np : proc) : proc :=
  np <| p_sz := p_sz pr |>
     <| priority := priority pr |> <| queue_level := queue_level pr |>
     <| timer_ticks_used := 0 |> <| wait_timer_ticks := 0 |>
     <| max_time_slice := get_time_slice (queue_level pr) |> <| voluntarily_yielded := 0 |>.

(** [safestrcpy(np->name, p->name, sizeof(p->name))]; an array of the process
    table always has its 16 bytes. *)
Definition copy_name (dst src : list Z) : M (list Z) :=
  match safestrcpy dst src 16 with Some l => ret l | None => fault end.

Definition kfork : M Z :=
  p ← myproc_deref;
  np ← allocproc;
  match np with
  | None => ret (-1)
  | Some np =>
      pr ← get_proc p;
      nr ← get_proc np;
      r ← uvmcopy (p_pagetable pr) (p_pagetable nr) (p_sz pr);
      if r <? 0 then
        freeproc np;;
        release (LkProc np);;
        ret (-1)
      else
        pr ← get_proc p;
        upd_proc np (inherit pr);;
        memmove (p_trapframe nr) (p_trapframe pr) sizeof_trapframe;;
        tf_set np Ta0 0;;
        for_each (seq 0 (Z.to_nat NOFILE)) (fun i =>
          pr ← get_proc p;
          match p_ofile pr !! i with
          | Some (Some f) =>
              f' ← op_filedup f;
              upd_proc np (fun r => r <| p_ofile := <[i := Some f']> (p_ofile r) |>)
          | Some None => ret tt
          | None => fault
          end);;
        pr ← get_proc p;
        cwd ← deref (p_cwd pr);
        ip ← op_idup cwd;
        upd_proc np (fun r => r <| p_cwd := Some ip |>);;
        pr ← get_proc p;
        nr ← get_proc np;
        name ← copy_name (p_name nr) (p_name pr);
        upd_proc np (fun r => r <| p_name := name |>);;
        let pid := p_pid nr in
        release (LkProc np);;
        acquire LkWait;;
        upd_proc np (fun r => r <| p_parent := Some p |>);;
        release LkWait;;
        acquire (LkProc np);;
        upd_proc np (fun r => r <| p_state := RUNNABLE |>);;
        release (LkProc np);;
        ret pid
  end.

(** [wakeup(p)] on a [struct proc *]. *)
Definition proc_chan (p : option nat) : option chanid := ChProc <$> p.

Definition reparent (p : nat) : M unit :=
  for_each proc_ids (fun pp =>
    r ← get_proc pp;
    when (bool_decide (p_parent r = Some p))
      (initproc ← gets k_initproc;
       upd_proc pp (fun r => r <| p_parent := initproc |>);;
       wakeup (proc_chan initproc))).

(** [kexit] does not return: after [sched] it panics. *)
Definition kexit (status : Z) : M unit :=
  p ← myproc_deref;
  initproc ← gets k_initproc;
  if bool_decide (Some p = initproc) then panic "init exiting" else
  for_each (seq 0 (Z.to_nat NOFILE)) (fun fd =>
    pr ← get_proc p;
    match p_ofile pr !! fd with
    | Some (Some f) =>
        op_fileclose f;;
        upd_proc p (fun r => r <| p_ofile := <[fd := None]> (p_ofile r) |>)
    | Some None => ret tt
    | None => fault
    end);;
  op_begin_op;;
  pr ← get_proc p;
  cwd ← deref (p_cwd pr);
  op_iput cwd;;
  op_end_op;;
  upd_proc p (fun r => r <| p_cwd := None |>);;
  acquire LkWait;;
  reparent p;;
  pr ← get_proc p;
  wakeup (proc_chan (p_parent pr));;
  acquire (LkProc p);;
  upd_proc p (fun r => r <| p_xstate := status |>);;
  upd_proc p (fun r => r <| p_state := ZOMBIE |>);;
  release LkWait;;
  sched;;
  panic "zombie exit".
End lifecycle.

(** One scan of the table by [kwait]: [inr r] is its [return r], [inl havekids] the
    end of the scan. *)
Fixpoint kwait_scan (l : list nat) (p : nat) (addr : Z) (havekids : bool) : M (bool + Z) :=
  match l with
  | [] => ret (inl havekids)
  | pp :: l =>
      r ← get_proc pp;
      if bool_decide (p_parent r = Some p) then
        acquire (LkProc pp);;
        r ← get_proc pp;
        if bool_decide (p_state r = ZOMBIE) then
          let pid := p_pid r in
          pr ← get_proc p;
          c ← (if addr =? 0 then ret 0
               else copyout (p_pagetable pr) addr (le_bytes 4 (p_xstate r)));
          if c <? 0 then
            release (LkProc pp);;
            release LkWait;;
            ret (inr (-1))
          else
            freeproc pp;;
            release (LkProc pp);;
            release LkWait;;
            ret (inr pid)
        else
          release (LkProc pp);;
          kwait_scan l p addr true
      else kwait_scan l p addr havekids
  end.

(** [kwait] for at most [n] scans of the table. *)
Fixpoint kwait_loop (n : nat) (p : nat) (addr : Z) : M Z :=
  match n with
  | O => stop_ SFuel
  | S n =>
      res ← kwait_scan proc_ids p addr false;
      match res with
      | inr r => ret r
      | inl havekids =>
          k ← (if negb havekids then ret 1 else killed p);
          if truthy k then
            release LkWait;;
            ret (-1)
          else
            sleep (Some (ChProc p)) LkWait;;
            kwait_loop n p addr
      end
  end.

Definition kwait (n : nat) (addr : Z) : M Z :=
  p ← myproc_deref;
  acquire LkWait;;
  kwait_loop n p addr.

(** ** procdump *)

(** The characters of a C string. *)
Fixpoint string_of (l : list Z) : string :=
  match l with
  | [] => EmptyString
  | c :: l => String (Ascii.ascii_of_N (Z.to_N c)) (string_of l)
  end.

Definition state_name (st : procstate) : string :=
  match st with
  | UNUSED => "unused" | USED => "used" | SLEEPING => "sleep " | RUNNABLE => "runble"
  | RUNNING => "run   " | ZOMBIE => "zombie"
  end.

Definition newline : string := String (Ascii.ascii_of_nat 10) EmptyString.

Definition procdump : M unit :=
  printf newline;;
  for_each proc_ids (fun p =>
    r ← get_proc p;
    when (negb (bool_decide (p_state r = UNUSED)))
      (printf (pretty (p_pid r) +:+ " " +:+ state_name (p_state r) +:+ " "
                 +:+ string_of (cstr (p_name r)));;
       printf newline)).

(** ** The MLFQ levels are kept *)

Lemma mlfq_ok_reset r : mlfq_ok (reset_proc r).
Proof. split; simpl; params; lia. Qed.

Lemma mlfq_ok_init pid r : mlfq_ok (init_proc pid r).
Proof. split; simpl; params; lia. Qed.

Lemma mlfq_ok_inherit `{FsOps} pr r : mlfq_ok pr -> mlfq_ok (inherit pr r).
Proof. intros [? ?]. by split. Qed.
#[export] Hint Resolve mlfq_ok_reset mlfq_ok_init mlfq_ok_inherit : pres.

Lemma pres_tf_get p r : pres mlfq_inv (tf_get p r).
Proof. unfold tf_get. pres. Qed.
Lemma pres_tf_set p r v : pres mlfq_inv (tf_set p r v).
Proof. unfold tf_set. pres. Qed.
Lemma pres_proc_pagetable p : pres mlfq_inv (proc_pagetable p).
Proof. unfold proc_pagetable. pres. Qed.
Lemma pres_proc_freepagetable pt sz : pres mlfq_inv (proc_freepagetable pt sz).
Proof. unfold proc_freepagetable. pres. Qed.
#[export] Hint Resolve pres_tf_get pres_tf_set pres_proc_pagetable pres_proc_freepagetable : pres.

Lemma pres_freeproc p : pres mlfq_inv (freeproc p).
Proof. unfold freeproc. pres. apply mlfq_ok_reset. Qed.
Lemma pres_find_unused : pres mlfq_inv find_unused.
Proof. unfold find_unused. pres. Qed.
#[export] Hint Resolve pres_freeproc pres_find_unused : pres.

Lemma pres_allocproc : pres mlfq_inv allocproc.
Proof. unfold allocproc. pres. apply mlfq_ok_init. Qed.
Lemma pres_growproc n : pres mlfq_inv (growproc n).
Proof. unfold growproc. pres. Qed.
Lemma pres_either_copyout d l : pres mlfq_inv (either_copyout d l).
Proof. unfold either_copyout. pres. Qed.
Lemma pres_either_copyin a n : pres mlfq_inv (either_copyin a n).
Proof. unfold either_copyin. pres. Qed.
#[export] Hint Resolve pres_allocproc pres_growproc pres_either_copyout pres_either_copyin : pres.

Lemma pres_copy_name d s : pres mlfq_inv (copy_name d s).
Proof. unfold copy_name. pres. Qed.
Lemma pres_reparent p : pres mlfq_inv (reparent p).
Proof. unfold reparent. pres. Qed.
#[export] Hint Resolve pres_copy_name pres_reparent : pres.

Lemma pres_kwait_scan l p addr h : pres mlfq_inv (kwait_scan l p addr h).
Proof. revert h. induction l as [|pp l IH]; intros h; cbn [kwait_scan]; pres. Qed.
#[export] Hint Resolve pres_kwait_scan : pres.

Lemma pres_kwait n addr : pres mlfq_inv (kwait n addr).
Proof. unfold kwait. pres. induction n as [|n IH]; cbn [kwait_loop]; pres. Qed.

Section lifecycle_laws.
Context `{FsLaws}.

Lemma pres_userinit : pres mlfq_inv userinit.
Proof. unfold userinit. pres. Qed.

Lemma pres_kfork : pres mlfq_inv kfork.
Proof.
  unfold kfork. pres.
Qed.

Lemma pres_kexit status : pres mlfq_inv (kexit status).
Proof. unfold kexit. pres. Qed.
End lifecycle_laws.

#[export] Hint Resolve pres_kwait pres_userinit pres_kfork pres_kexit : pres.
