(* ===== verification/Syscall.v ===== *)
(** * System calls

    [src/kernel/syscall.c], [src/kernel/sysproc.c], [src/kernel/syscall.h],
    [src/kernel/vm.h] and [src/kernel/pstat.h]: the arguments of a system call,
    the process-related calls with [sys_getpinfo], and their dispatch. *)

From stdpp Require Import pretty.
From S2P Require Import Prelude Bytes Params FsTypes Machine Spinlock ProcCore Mem Kalloc Vm Kstring.
From S2P Require Import Pres PresVm Services Proc.

(** ** syscall.h and vm.h *)

(** The system call numbers. *)
Inductive sysno : Type :=
  | SYS_fork | SYS_exit | SYS_wait | SYS_pipe | SYS_read | SYS_kill
  | SYS_exec | SYS_fstat | SYS_chdir | SYS_dup | SYS_getpid | SYS_sbrk
  | SYS_pause | SYS_uptime | SYS_open | SYS_write | SYS_mknod | SYS_unlink
  | SYS_link | SYS_mkdir | SYS_close | SYS_getpinfo.

Definition sysno_of (num : Z) : option sysno :=
  match num with
  | 1 => Some SYS_fork | 2 => Some SYS_exit | 3 => Some SYS_wait
  | 4 => Some SYS_pipe | 5 => Some SYS_read | 6 => Some SYS_kill
  | 7 => Some SYS_exec | 8 => Some SYS_fstat | 9 => Some SYS_chdir
  | 10 => Some SYS_dup | 11 => Some SYS_getpid | 12 => Some SYS_sbrk
  | 13 => Some SYS_pause | 14 => Some SYS_uptime | 15 => Some SYS_open
  | 16 => Some SYS_write | 17 => Some SYS_mknod | 18 => Some SYS_unlink
  | 19 => Some SYS_link | 20 => Some SYS_mkdir | 21 => Some SYS_close
  | 22 => Some SYS_getpinfo
  | _ => None
  end.

(** ** Arguments *)

Definition argraw (n : Z) : M Z :=
  p ← myproc_deref;
  match n with
  | 0 => tf_get p Ta0
  | 1 => tf_get p Ta1
  | 2 => tf_get p Ta2
  | 3 => tf_get p Ta3
  | 4 => tf_get p Ta4
  | 5 => tf_get p Ta5
  | _ => panic "argraw"
  end.

(** [argint(n, &x)] and [argaddr(n, &x)] as functions of [n]. *)
Definition argint (n : Z) : M Z := v ← argraw n; ret (s32 v).
Definition argaddr (n : Z) : M Z := argraw n.

(** [fetchaddr]: the status and the word read. *)
Definition fetchaddr (addr : Z) : M (Z * Z) :=
  p ← myproc_deref;
  pr ← get_proc p;
  if (p_sz pr <=? addr) || (p_sz pr <? u64 (addr + 8)) then ret (-1, 0) else
  ' (r, l) ← copyin (p_pagetable pr) addr 8;
  if negb (r =? 0) then ret (-1, 0) else ret (0, le_of_bytes l).

(** [fetchstr]: the length or -1, and what was stored in the buffer. *)
Definition fetchstr (addr max : Z) : M (Z * list Z) :=
  p ← myproc_deref;
  pr ← get_proc p;
  ' (r, buf) ← copyinstr (p_pagetable pr) addr max;
  if r <? 0 then ret (-1, buf) else
  match strlen buf with
  | Some n => ret (n, buf)
  | None => fault
  end.

Definition argstr (n max : Z) : M (Z * list Z) :=
  addr ← argaddr n;
  fetchstr addr max.

(** ** sys_getpinfo *)

(** An [int] array in memory, and the structure as copied to the user. *)
Definition ints (l : list Z) : list Z := mjoin (le_bytes 4 <$> l).

Definition pstat_bytes (ps : pstat) : list Z :=
  ints (isused ps) ++ ints (ps_pid ps) ++ ints (ps_ppid ps) ++ mjoin (pname ps)
    ++ ints (ps_priority ps) ++ ints (pstate ps) ++ ints (memsize ps).

(** The entry of a process in use; [ppid] is the pid of its parent or 0, [name] the
    name array after [safestrcpy]. *)
Definition pstat_used (i : nat) (r : proc) (ppid : Z) (name : list Z) (ps : pstat) : pstat :=
  ps <| isused := <[i := 1]> (isused ps) |>
     <| ps_pid := <[i := p_pid r]> (ps_pid ps) |>
     <| ps_ppid := <[i := ppid]> (ps_ppid ps) |>
     <| pname := <[i := name]> (pname ps) |>
     <| ps_priority := <[i := priority r]> (ps_priority ps) |>
     <| pstate := <[i := procstate_code (p_state r)]> (pstate ps) |>
     <| memsize := <[i := s32 (p_sz r)]> (memsize ps) |>.

(** The entry of an unused slot: of the name, only the first character is set. *)
Definition pstat_unused (i : nat) (ps : pstat) : pstat :=
  ps <| isused := <[i := 0]> (isused ps) |>
     <| ps_pid := <[i := 0]> (ps_pid ps) |>
     <| ps_ppid := <[i := 0]> (ps_ppid ps) |>
     <| pname := alter (fun n => <[0%nat := 0]> n) i (pname ps) |>
     <| ps_priority := <[i := 0]> (ps_priority ps) |>
     <| pstate := <[i := 0]> (pstate ps) |>
     <| memsize := <[i := 0]> (memsize ps) |>.

(** ** sysproc.c *)

(** One round of the loop of [sys_getpinfo]. *)
Definition getpinfo_slot (i : nat) (ps : pstat) : M pstat :=
  acquire (LkProc i);;
  r ← get_proc i;
  ps ← (if negb (bool_decide (p_state r = UNUSED)) then
          ppid ← match p_parent r with
                 | Some q => qr ← get_proc q; ret (p_pid qr)
                 | None => ret 0
                 end;
          name ← match pname ps !! i with
                 | Some buf => copy_name buf (p_name r)
                 | None => fault
                 end;
          ret (pstat_used i r ppid name ps)
        else ret (pstat_unused i ps));
  release (LkProc i);;
  ret ps.

Fixpoint getpinfo_loop (l : list nat) (ps : pstat) : M pstat :=
  match l with
  | [] => ret ps
  | i :: l => ps ← getpinfo_slot i ps; getpinfo_loop l ps
  end.

(** [sys_getpinfo], [ps] being what the kernel stack holds when it starts. *)
Definition sys_getpinfo (ps : pstat) : M Z :=
  addr ← argaddr 0;
  let ps := ps <| isused := replicate (Z.to_nat NPROC) 0 |> in
  ps ← getpinfo_loop proc_ids ps;
  me ← myproc_deref;
  mr ← get_proc me;
  r ← copyout (p_pagetable mr) addr (pstat_bytes ps);
  if r <? 0 then ret (-1) else ret 0.

Definition sys_getpid : M Z :=
  p ← myproc_deref;
  pr ← get_proc p;
  ret (p_pid pr).

Definition sys_wait (n : nat) : M Z :=
  p ← argaddr 0;
  kwait n p.

Definition sys_sbrk : M Z :=
  n ← argint 0;
  t ← argint 1;
  p ← myproc_deref;
  pr ← get_proc p;
  let addr := p_sz pr in
  if (t =? SBRK_EAGER) || (n <? 0) then
    r ← growproc n;
    if r <? 0 then ret (-1) else ret addr
  else if u64 (addr + n) <? addr then ret (-1)
  else if TRAPFRAME <? u64 (addr + n) then ret (-1)
  else
    p ← myproc_deref;
    upd_proc p (fun r => r <| p_sz := u64 (p_sz r + n) |>);;
    ret addr.

(** [while(ticks - ticks0 < n)] for at most [fuel] wakeups. *)
Fixpoint pause_loop (fuel : nat) (ticks0 n : Z) : M Z :=
  match fuel with
  | O => stop_ SFuel
  | S fuel =>
      t ← gets k_ticks;
      if u32 (t - ticks0) <? u32 n then
        me ← myproc_deref;
        k ← killed me;
        if truthy k then
          release LkTicks;;
          ret (-1)
        else
          sleep (Some ChTicks) LkTicks;;
          pause_loop fuel ticks0 n
      else
        release LkTicks;;
        ret 0
  end.

Definition sys_pause (fuel : nat) : M Z :=
  n ← argint 0;
  let n := if n <? 0 then 0 else n in
  acquire LkTicks;;
  ticks0 ← gets k_ticks;
  pause_loop fuel ticks0 n.

Definition sys_kill : M Z :=
  pid ← argint 0;
  kkill pid.

Definition sys_uptime : M Z :=
  acquire LkTicks;;
  xticks ← gets k_ticks;
  release LkTicks;;
  ret xticks.

(** ** Dispatch *)

Section dispatch.
Context `{FsOps, FileCalls}.

(** The bound on the wakeups of a blocking call, and the kernel stack on which
    [sys_getpinfo] builds its answer. *)
Context (fuel : nat) (stack : pstat).

Definition sys_exit : M Z :=
  n ← argint 0;
  kexit n;;
  ret 0.

Definition sys_fork : M Z := kfork.

(** The array [syscalls]: no entry is null. *)
Definition syscalls (c : sysno) : M Z :=
  match c with
  | SYS_fork => sys_fork
  | SYS_exit => sys_exit
  | SYS_wait => sys_wait fuel
  | SYS_pipe => op_sys_pipe
  | SYS_read => op_sys_read
  | SYS_kill => sys_kill
  | SYS_exec => op_sys_exec
  | SYS_fstat => op_sys_fstat
  | SYS_chdir => op_sys_chdir
  | SYS_dup => op_sys_dup
  | SYS_getpid => sys_getpid
  | SYS_sbrk => sys_sbrk
  | SYS_pause => sys_pause fuel
  | SYS_uptime => sys_uptime
  | SYS_open => op_sys_open
  | SYS_write => op_sys_write
  | SYS_mknod => op_sys_mknod
  | SYS_unlink => op_sys_unlink
  | SYS_link => op_sys_link
  | SYS_mkdir => op_sys_mkdir
  | SYS_close => op_sys_close
  | SYS_getpinfo => sys_getpinfo stack
  end.

(** The message of an unknown call. *)
Definition unknown_call (pr : proc) (num : Z) : string :=
  pretty (p_pid pr) +:+ " " +:+ string_of (cstr (p_name pr)) +:+ ": unknown sys call "
    +:+ pretty num +:+ newline.

Definition syscall : M unit :=
  p ← myproc_deref;
  num ← tf_get p Ta7;
  let num := s32 num in
  match (if (0 <? num) && (num <? 23) then sysno_of num else None) with
  | Some c =>
      v ← syscalls c;
      tf_set p Ta0 v
  | None =>
      pr ← get_proc p;
      printf (unknown_call pr num);;
      tf_set p Ta0 (-1)
  end.
End dispatch.

(** ** The MLFQ levels are kept *)

Lemma pres_argraw n : pres mlfq_inv (argraw n).
Proof. unfold argraw. pres. Qed.
#[export] Hint Resolve pres_argraw : pres.

Lemma pres_argint n : pres mlfq_inv (argint n).
Proof. unfold argint. pres. Qed.
Lemma pres_argaddr n : pres mlfq_inv (argaddr n).
Proof. unfold argaddr. pres. Qed.
Lemma pres_fetchaddr a : pres mlfq_inv (fetchaddr a).
Proof. unfold fetchaddr. pres. Qed.
Lemma pres_fetchstr a m : pres mlfq_inv (fetchstr a m).
Proof. unfold fetchstr. pres. Qed.
#[export] Hint Resolve pres_argint pres_argaddr pres_fetchaddr pres_fetchstr : pres.

Lemma pres_argstr n m : pres mlfq_inv (argstr n m).
Proof. unfold argstr. pres. Qed.

Lemma pres_getpinfo_slot i ps : pres mlfq_inv (getpinfo_slot i ps).
Proof. unfold getpinfo_slot. pres. Qed.
#[export] Hint Resolve pres_argstr pres_getpinfo_slot : pres.

Lemma pres_getpinfo_loop l ps : pres mlfq_inv (getpinfo_loop l ps).
Proof. revert ps. induction l as [|i l IH]; intros ps; cbn [getpinfo_loop]; pres. Qed.
#[export] Hint Resolve pres_getpinfo_loop : pres.

Lemma pres_sys_getpinfo ps : pres mlfq_inv (sys_getpinfo ps).
Proof. unfold sys_getpinfo. pres. Qed.
Lemma pres_sys_getpid : pres mlfq_inv sys_getpid.
Proof. unfold sys_getpid. pres. Qed.
Lemma pres_sys_wait n : pres mlfq_inv (sys_wait n).
Proof. unfold sys_wait. pres. Qed.
Lemma pres_sys_sbrk : pres mlfq_inv sys_sbrk.
Proof. unfold sys_sbrk. pres. Qed.
Lemma pres_sys_kill : pres mlfq_inv sys_kill.
Proof. unfold sys_kill. pres. Qed.
Lemma pres_sys_uptime : pres mlfq_inv sys_uptime.
Proof. unfold sys_uptime. pres. Qed.
Lemma pres_pause_loop f t n : pres mlfq_inv (pause_loop f t n).
Proof. induction f as [|f IH]; cbn [pause_loop]; pres. Qed.
#[export] Hint Resolve pres_sys_getpinfo pres_sys_getpid pres_sys_wait pres_sys_sbrk pres_sys_kill
  pres_sys_uptime pres_pause_loop : pres.

Lemma pres_sys_pause f : pres mlfq_inv (sys_pause f).
Proof. unfold sys_pause. pres. Qed.
#[export] Hint Resolve pres_sys_pause : pres.

Section dispatch_laws.
Context `{FsLaws, FileCallLaws}.

Lemma pres_sys_exit : pres mlfq_inv sys_exit.
Proof. unfold sys_exit. pres. Qed.
Hint Resolve pres_sys_exit : pres.

Lemma pres_syscalls fuel stack c : pres mlfq_inv (syscalls fuel stack c).
Proof. unfold syscalls, sys_fork. pres. Qed.
Hint Resolve pres_syscalls : pres.

Lemma pres_syscall fuel stack : pres mlfq_inv (syscall fuel stack).
Proof. unfold syscall. pres. Qed.
End dispatch_laws.

#[export] Hint Resolve pres_syscall : pres.
