(* ===== verification/Trap.v ===== *)
(** * Traps and interrupts

    [src/kernel/trap.c] and [forkret] of [src/kernel/proc.c]. The hart enters
    [usertrap] or [kerneltrap] with the trap registers set by the hardware; the
    return to user space is the [satp] handed to the trampoline. *)

From stdpp Require Import pretty.
From S2P Require Import Prelude Params FsTypes Machine Spinlock ProcCore Sched Mem Kalloc Vm Kstring.
From S2P Require Import Pres PresVm Services Proc Syscall.

(** ** Registers *)

Definition r_scause : M Z := h ← get_hart; ret (scause h).
Definition r_sepc : M Z := h ← get_hart; ret (sepc h).
Definition r_stval : M Z := h ← get_hart; ret (stval h).
Definition r_satp : M Z := h ← get_hart; ret (satp h).
Definition r_time : M Z := h ← get_hart; ret (time h).
Definition w_stvec (x : Z) : M unit := upd_hart (fun h => h <| stvec := x |>).
Definition w_sepc (x : Z) : M unit := upd_hart (fun h => h <| sepc := x |>).
Definition w_stimecmp (x : Z) : M unit := upd_hart (fun h => h <| stimecmp := u64 x |>).

(** The bits SIE, SPIE and SPP of [sstatus]. *)
Definition r_sstatus : M (bool * bool * bool) := h ← get_hart; ret (sie h, spie h, spp h).
Definition w_sstatus (x : bool * bool * bool) : M unit :=
  upd_hart (fun h => h <| sie := x.1.1 |> <| spie := x.1.2 |> <| spp := x.2 |>).

(** [%lx] *)
Definition hex_digit (z : Z) : string :=
  String (Ascii.ascii_of_N (Z.to_N (if z <? 10 then 48 + z else 87 + z))) EmptyString.

Fixpoint hex_loop (n : nat) (z : Z) : string :=
  match n with
  | O => EmptyString
  | S n => if z <? 16 then hex_digit z else hex_loop n (z / 16) +:+ hex_digit (z mod 16)
  end.

Definition hex (z : Z) : string := hex_loop 16 z.

(** ** Initialisation *)

Definition trapinit : M unit := initlock LkTicks "time".

Definition trapinithart : M unit :=
  kernelvec ← gets (fun s => sym_kernelvec (k_syms s));
  w_stvec kernelvec.

(** ** Interrupts *)

Definition clockintr : M unit :=
  c ← cpuid;
  when (bool_decide (c = 0%nat))
    (acquire LkTicks;;
     modify (fun s => s <| k_ticks := u32 (k_ticks s + 1) |>);;
     wakeup (Some ChTicks);;
     release LkTicks);;
  t ← r_time;
  w_stimecmp (t + 1000000).

(** Causes of traps: an external and a timer interrupt of the supervisor, a system
    call, and load and store page faults. *)
Definition SCAUSE_EXT : Z := 0x8000000000000009.
Definition SCAUSE_TIMER : Z := 0x8000000000000005.

Definition devintr `{DevOps} : M Z :=
  scause ← r_scause;
  if scause =? SCAUSE_EXT then
    irq ← op_plic_claim;
    (if irq =? UART0_IRQ then op_uartintr
     else if irq =? VIRTIO0_IRQ then op_virtio_disk_intr
     else when (truthy irq) (printf ("unexpected interrupt irq=" +:+ pretty irq +:+ newline)));;
    when (truthy irq) (op_plic_complete irq);;
    ret 1
  else if scause =? SCAUSE_TIMER then
    clockintr;;
    ret 2
  else ret 0.

(** The part of [kerneltrap] that counts a timer tick on the running process. *)
Definition count_tick : M unit :=
  c ← mycpu;
  x ← get_cpu c;
  match c_proc x with
  | Some p =>
      r ← get_proc p;
      when (bool_decide (p_state r = RUNNING))
        (acquire (LkProc p);;
         upd_proc p (fun r => r <| timer_ticks_used := s32 (timer_ticks_used r + 1) |>);;
         release (LkProc p))
  | None => ret tt
  end.

Definition kerneltrap `{DevOps} : M unit :=
  sepc ← r_sepc;
  sstatus ← r_sstatus;
  scause ← r_scause;
  if negb sstatus.2 then panic "kerneltrap: not from supervisor mode" else
  i ← intr_get;
  if i : bool then panic "kerneltrap: interrupts enabled" else
  which_dev ← devintr;
  if which_dev =? 0 then
    sepc1 ← r_sepc;
    stval1 ← r_stval;
    printf ("scause=0x" +:+ hex scause +:+ " sepc=0x" +:+ hex sepc1 +:+ " stval=0x"
              +:+ hex stval1 +:+ newline);;
    panic "kerneltrap"
  else
    when (which_dev =? 2) count_tick;;
    w_sepc sepc;;
    w_sstatus sstatus.

(** ** User space *)

Definition prepare_return : M unit :=
  p ← myproc_deref;
  intr_off;;
  y ← gets k_syms;
  w_stvec (TRAMPOLINE + (sym_uservec y - sym_trampoline y));;
  satp ← r_satp;
  tf_set p Tkernel_satp satp;;
  pr ← get_proc p;
  tf_set p Tkernel_sp (p_kstack pr + PGSIZE);;
  tf_set p Tkernel_trap (sym_usertrap y);;
  tp ← r_tp;
  tf_set p Tkernel_hartid (Z.of_nat tp);;
  x ← r_sstatus;
  w_sstatus (x.1.1, true, false);;
  epc ← tf_get p Tepc;
  w_sepc epc.

Section usertrap.
Context `{FsOps, DevOps, FileCalls}.
Context (fuel : nat) (stack : pstat).

(** The last [else if] of [usertrap]: whether a page fault was handled. *)
Definition lazy_fault (p : nat) : M bool :=
  c ← r_scause;
  if (c =? 15) || (c =? 13) then
    pr ← get_proc p;
    va ← r_stval;
    r ← vmfault (p_pagetable pr) va (if c =? 13 then 1 else 0);
    ret (truthy r)
  else ret false.

(** The cause of the trap: the device number of an interrupt, 0 otherwise. *)
Definition usertrap_cause (p : nat) : M Z :=
  c ← r_scause;
  if c =? 8 then
    k ← killed p;
    when (truthy k) (kexit (-1));;
    epc ← tf_get p Tepc;
    tf_set p Tepc (epc + 4);;
    intr_on;;
    syscall fuel stack;;
    ret 0
  else
    which_dev ← devintr;
    if negb (which_dev =? 0) then ret which_dev
    else
      ok ← lazy_fault p;
      if ok : bool then ret 0
      else
        c ← r_scause;
        pr ← get_proc p;
        printf ("usertrap(): unexpected scause 0x" +:+ hex c +:+ " pid=" +:+ pretty (p_pid pr)
                  +:+ newline);;
        e ← r_sepc;
        v ← r_stval;
        printf ("            sepc=0x" +:+ hex e +:+ " stval=0x" +:+ hex v +:+ newline);;
        setkilled p;;
        ret 0.

Definition usertrap : M Z :=
  st ← r_sstatus;
  if st.2 : bool then panic "usertrap: not from user mode" else
  kernelvec ← gets (fun s => sym_kernelvec (k_syms s));
  w_stvec kernelvec;;
  p ← myproc_deref;
  e ← r_sepc;
  tf_set p Tepc e;;
  which_dev ← usertrap_cause p;
  k ← killed p;
  when (truthy k) (kexit (-1));;
  when (which_dev =? 2) yield;;
  prepare_return;;
  pr ← get_proc p;
  ret (MAKE_SATP (p_pagetable pr)).

(** ["/init"] *)
Definition init_path : list Z := [47; 105; 110; 105; 116; 0].

(** [forkret]; its result is the [satp] passed to [userret]. *)
Definition forkret : M Z :=
  p ← myproc_deref;
  release (LkProc p);;
  first ← gets k_first;
  when (truthy first)
    (op_fsinit ROOTDEV;;
     modify (fun s => s <| k_first := 0 |>);;
     argc ← op_kexec init_path [init_path];
     tf_set p Ta0 argc;;
     a0 ← tf_get p Ta0;
     when (a0 =? u64 (-1)) (panic "exec"));;
  prepare_return;;
  pr ← get_proc p;
  ret (MAKE_SATP (p_pagetable pr)).
End usertrap.

(** ** The MLFQ levels are kept *)

Lemma pres_r_scause : pres mlfq_inv r_scause.
Proof. unfold r_scause. pres. Qed.
Lemma pres_r_sepc : pres mlfq_inv r_sepc.
Proof. unfold r_sepc. pres. Qed.
Lemma pres_r_stval : pres mlfq_inv r_stval.
Proof. unfold r_stval. pres. Qed.
Lemma pres_r_satp : pres mlfq_inv r_satp.
Proof. unfold r_satp. pres. Qed.
Lemma pres_r_time : pres mlfq_inv r_time.
Proof. unfold r_time. pres. Qed.
Lemma pres_r_sstatus : pres mlfq_inv r_sstatus.
Proof. unfold r_sstatus. pres. Qed.
Lemma pres_w_stvec x : pres mlfq_inv (w_stvec x).
Proof. unfold w_stvec. pres. Qed.
Lemma pres_w_sepc x : pres mlfq_inv (w_sepc x).
Proof. unfold w_sepc. pres. Qed.
Lemma pres_w_stimecmp x : pres mlfq_inv (w_stimecmp x).
Proof. unfold w_stimecmp. pres. Qed.
Lemma pres_w_sstatus x : pres mlfq_inv (w_sstatus x).
Proof. unfold w_sstatus. pres. Qed.
#[export] Hint Resolve pres_r_scause pres_r_sepc pres_r_stval pres_r_satp pres_r_time
  pres_r_sstatus pres_w_stvec pres_w_sepc pres_w_stimecmp pres_w_sstatus : pres.

Lemma pres_trapinit : pres mlfq_inv trapinit.
Proof. unfold trapinit. pres. Qed.
Lemma pres_trapinithart : pres mlfq_inv trapinithart.
Proof. unfold trapinithart. pres. Qed.
Lemma pres_clockintr : pres mlfq_inv clockintr.
Proof. unfold clockintr, cpuid, r_tp. pres. Qed.
Lemma pres_count_tick : pres mlfq_inv count_tick.
Proof. unfold count_tick, mycpu, cpuid, r_tp. pres. Qed.
Lemma pres_prepare_return : pres mlfq_inv prepare_return.
Proof. unfold prepare_return, r_tp. pres. Qed.
Lemma pres_lazy_fault p : pres mlfq_inv (lazy_fault p).
Proof. unfold lazy_fault. pres. Qed.
#[export] Hint Resolve pres_trapinit pres_trapinithart pres_clockintr pres_count_tick
  pres_prepare_return pres_lazy_fault : pres.

Section trap_laws.
Context `{DevLaws}.

Lemma pres_devintr : pres mlfq_inv devintr.
Proof. unfold devintr. pres. Qed.
#[local] Hint Resolve pres_devintr : pres.
Lemma pres_kerneltrap : pres mlfq_inv kerneltrap.
Proof. unfold kerneltrap. pres. Qed.

Context `{FsLaws} `{FileCallLaws}.

Lemma pres_usertrap_cause fuel stack p : pres mlfq_inv (usertrap_cause fuel stack p).
Proof. unfold usertrap_cause. pres. Qed.
#[local] Hint Resolve pres_usertrap_cause : pres.
Lemma pres_usertrap fuel stack : pres mlfq_inv (usertrap fuel stack).
Proof. unfold usertrap. pres. Qed.
Lemma pres_forkret : pres mlfq_inv forkret.
Proof. unfold forkret. pres. Qed.
End trap_laws.

#[export] Hint Resolve pres_kerneltrap pres_usertrap pres_forkret : pres.
