(* ===== verification/FsCore.v ===== *)
(** * Access to the tables of the file system and of the devices

    Reading and writing one object of [fsst] and [devst] from kernel code; a read
    or write through a bad pointer faults. Loops that may wait for other threads
    run for at most [fuel] rounds. *)

From S2P Require Import Prelude Bytes Params FsTypes Machine Spinlock ProcCore Mem Pres.

Definition upd_fs (f : fsst -> fsst) : M unit := modify (fun s => s <| k_fs := f (k_fs s) |>).
Definition upd_dev (f : devst -> devst) : M unit := modify (fun s => s <| k_dev := f (k_dev s) |>).

(** Read an object that exists. *)
Definition fetch {A} (f : kstate -> option A) : M A :=
  fun s => match f s with Some a => Ret a s | None => Stop SFault end.

Definition get_slp (a : Z) : M sleeplock := fetch (fun s => fs_sleep (k_fs s) !! a).
Definition set_slp (a : Z) (x : sleeplock) : M unit :=
  upd_fs (fun f => f <| fs_sleep := <[a := x]> (fs_sleep f) |>).
Definition upd_slp (a : Z) (g : sleeplock -> sleeplock) : M unit :=
  x ← get_slp a; set_slp a (g x).

Definition get_buf (b : nat) : M buf := fetch (fun s => fs_bufs (k_fs s) !! b).
Definition put_buf (b : nat) (x : buf) (s : kstate) : kstate :=
  s <| k_fs := (k_fs s) <| fs_bufs := <[b := x]> (fs_bufs (k_fs s)) |> |>.
Definition upd_buf (b : nat) (g : buf -> buf) : M unit :=
  x ← get_buf b; modify (put_buf b (g x)).

Definition get_inode (i : nat) : M inode := fetch (fun s => fs_inodes (k_fs s) !! i).
Definition put_inode (i : nat) (x : inode) (s : kstate) : kstate :=
  s <| k_fs := (k_fs s) <| fs_inodes := <[i := x]> (fs_inodes (k_fs s)) |> |>.
Definition upd_inode (i : nat) (g : inode -> inode) : M unit :=
  x ← get_inode i; modify (put_inode i (g x)).

Definition get_file (i : nat) : M file := fetch (fun s => fs_files (k_fs s) !! i).
Definition put_file (i : nat) (x : file) (s : kstate) : kstate :=
  s <| k_fs := (k_fs s) <| fs_files := <[i := x]> (fs_files (k_fs s)) |> |>.
Definition upd_file (i : nat) (g : file -> file) : M unit :=
  x ← get_file i; modify (put_file i (g x)).

Definition get_pipe (pi : Z) : M pipe := fetch (fun s => fs_pipes (k_fs s) !! pi).
Definition put_pipe (pi : Z) (x : pipe) (s : kstate) : kstate :=
  s <| k_fs := (k_fs s) <| fs_pipes := <[pi := x]> (fs_pipes (k_fs s)) |> |>.
Definition upd_pipe (pi : Z) (g : pipe -> pipe) : M unit :=
  x ← get_pipe pi; modify (put_pipe pi (g x)).

Definition get_log : M log := gets (fun s => fs_log (k_fs s)).
Definition upd_log (g : log -> log) : M unit :=
  upd_fs (fun f => f <| fs_log := g (fs_log f) |>).
Definition upd_lh (g : logheader -> logheader) : M unit :=
  upd_log (fun l => l <| log_lh := g (log_lh l) |>).

Definition get_sb : M superblock := gets (fun s => fs_sb (k_fs s)).

(** An array access that must be in range. *)
Definition index {A} (l : list A) (i : Z) : M A :=
  if i <? 0 then fault else
  match l !! Z.to_nat i with Some x => ret x | None => fault end.

(** [a[i] = x], in range. *)
Definition store_at {A} (l : list A) (i : Z) (x : A) : M (list A) :=
  if (i <? 0) || (Z.of_nat (length l) <=? i) then fault else ret (<[Z.to_nat i := x]> l).

(** A function of [string.c] on arrays that stay in their bounds. *)
Definition in_bounds {A} (o : option A) : M A :=
  match o with Some a => ret a | None => fault end.

(** A range [a, a + n) of loop indices. *)
Definition range (a n : Z) : list Z := seqZ a n.

(** ** None of this touches the process table *)

Lemma pres_upd_fs f : pres mlfq_inv (upd_fs f).
Proof. unfold upd_fs. pres. Qed.
Lemma pres_upd_dev f : pres mlfq_inv (upd_dev f).
Proof. unfold upd_dev. pres. Qed.
Lemma pres_fetch {A} (f : kstate -> option A) : pres mlfq_inv (fetch f).
Proof. apply pres_reader. Qed.
#[export] Hint Resolve pres_upd_fs pres_upd_dev pres_fetch : pres.

Lemma pres_get_slp a : pres mlfq_inv (get_slp a).
Proof. unfold get_slp. pres. Qed.
Lemma pres_set_slp a x : pres mlfq_inv (set_slp a x).
Proof. unfold set_slp. pres. Qed.
#[export] Hint Resolve pres_get_slp pres_set_slp : pres.
Lemma pres_upd_slp a g : pres mlfq_inv (upd_slp a g).
Proof. unfold upd_slp. pres. Qed.
Lemma pres_get_buf b : pres mlfq_inv (get_buf b).
Proof. unfold get_buf. pres. Qed.
#[export] Hint Resolve pres_upd_slp pres_get_buf : pres.
Lemma pres_upd_buf b g : pres mlfq_inv (upd_buf b g).
Proof. unfold upd_buf. pres. Qed.
Lemma pres_get_inode i : pres mlfq_inv (get_inode i).
Proof. unfold get_inode. pres. Qed.
#[export] Hint Resolve pres_upd_buf pres_get_inode : pres.
Lemma pres_upd_inode i g : pres mlfq_inv (upd_inode i g).
Proof. unfold upd_inode. pres. Qed.
Lemma pres_get_file i : pres mlfq_inv (get_file i).
Proof. unfold get_file. pres. Qed.
#[export] Hint Resolve pres_upd_inode pres_get_file : pres.
Lemma pres_upd_file i g : pres mlfq_inv (upd_file i g).
Proof. unfold upd_file. pres. Qed.
Lemma pres_get_pipe i : pres mlfq_inv (get_pipe i).
Proof. unfold get_pipe. pres. Qed.
#[export] Hint Resolve pres_upd_file pres_get_pipe : pres.
Lemma pres_upd_pipe i g : pres mlfq_inv (upd_pipe i g).
Proof. unfold upd_pipe. pres. Qed.
Lemma pres_get_log : pres mlfq_inv get_log.
Proof. unfold get_log. pres. Qed.
Lemma pres_upd_log g : pres mlfq_inv (upd_log g).
Proof. unfold upd_log. pres. Qed.
#[export] Hint Resolve pres_upd_pipe pres_get_log pres_upd_log : pres.
Lemma pres_upd_lh g : pres mlfq_inv (upd_lh g).
Proof. unfold upd_lh. pres. Qed.
Lemma pres_get_sb : pres mlfq_inv get_sb.
Proof. unfold get_sb. pres. Qed.
Lemma pres_index {A} (l : list A) i : pres mlfq_inv (index l i).
Proof. unfold index. pres. Qed.
Lemma pres_store_at {A} (l : list A) i x : pres mlfq_inv (store_at l i x).
Proof. unfold store_at. pres. Qed.
Lemma pres_in_bounds {A} (o : option A) : pres mlfq_inv (in_bounds o).
Proof. unfold in_bounds. pres. Qed.
#[export] Hint Resolve pres_upd_lh pres_get_sb pres_index pres_store_at pres_in_bounds : pres.
