(* ===== verification/Sleeplock.v ===== *)
(** * Sleep locks: [src/kernel/sleeplock.c]

    A sleep lock is held across waits; its fields are protected by its spin lock
    [LkSleep a]. Buffer [i] has the sleep lock [slp_buf i] and inode [i] the sleep
    lock [slp_inode i]. *)

From S2P Require Import Prelude Params FsTypes Machine Spinlock ProcCore Mem Pres FsCore.

Definition slp_buf (i : nat) : Z := Z.of_nat i.
Definition slp_inode (i : nat) : Z := 1000 + Z.of_nat i.

Section sleeplock.
Context `{Fuel}.

Definition initsleeplock (lk : Z) (name : string) : M unit :=
  initlock (LkSleep lk) "sleep lock";;
  set_slp lk (Sleeplock 0 name 0).

(** [while (lk->locked) sleep(lk, &lk->lk);] *)
Fixpoint wait_unlocked (n : nat) (lk : Z) : M unit :=
  match n with
  | O => stop_ SFuel
  | S n =>
      x ← get_slp lk;
      if truthy (sl_locked x)
      then sleep (Some (ChSleep lk)) (LkSleep lk);; wait_unlocked n lk
      else ret tt
  end.

Definition acquiresleep (lk : Z) : M unit :=
  acquire (LkSleep lk);;
  wait_unlocked fuel lk;;
  upd_slp lk (fun x => x <| sl_locked := 1 |>);;
  p ← myproc_deref;
  pr ← get_proc p;
  upd_slp lk (fun x => x <| sl_pid := p_pid pr |>);;
  release (LkSleep lk).

Definition releasesleep (lk : Z) : M unit :=
  acquire (LkSleep lk);;
  upd_slp lk (fun x => x <| sl_locked := 0 |>);;
  upd_slp lk (fun x => x <| sl_pid := 0 |>);;
  wakeup (Some (ChSleep lk));;
  release (LkSleep lk).

(** [r = lk->locked && (lk->pid == myproc()->pid)], with its short circuit. *)
Definition holdingsleep (lk : Z) : M bool :=
  acquire (LkSleep lk);;
  x ← get_slp lk;
  r ← (if truthy (sl_locked x) then
         p ← myproc_deref;
         pr ← get_proc p;
         ret (sl_pid x =? p_pid pr)
       else ret false);
  release (LkSleep lk);;
  ret r.

Lemma pres_initsleeplock lk name : pres mlfq_inv (initsleeplock lk name).
Proof. unfold initsleeplock. pres. Qed.
Lemma pres_wait_unlocked n lk : pres mlfq_inv (wait_unlocked n lk).
Proof. induction n; simpl; pres. Qed.
#[local] Hint Resolve pres_wait_unlocked : pres.
Lemma pres_acquiresleep lk : pres mlfq_inv (acquiresleep lk).
Proof. unfold acquiresleep. pres. Qed.
Lemma pres_releasesleep lk : pres mlfq_inv (releasesleep lk).
Proof. unfold releasesleep. pres. Qed.
Lemma pres_holdingsleep lk : pres mlfq_inv (holdingsleep lk).
Proof. unfold holdingsleep. pres. Qed.
End sleeplock.

#[export] Hint Resolve pres_initsleeplock pres_acquiresleep pres_releasesleep
  pres_holdingsleep : pres.
