(* ===== verification/Calm.v ===== *)
(** * File system code without contention

    The state in which one process runs file system code while no other process
    waits and the locks of the file system are free. A function of the file system
    is then a function on [fsst]: the rest of the state is as before when it
    returns. *)

From S2P Require Import Prelude Params FsTypes Machine Spinlock ProcCore Mem Pres FsCore Sleeplock.

(** The kernel state with the file system state [f]. *)
Definition on_fs (s : kstate) (f : fsst) : kstate := s <| k_fs := f |>.
Notation "s ⊕ f" := (on_fs s f) (at level 50, left associativity) : kernel_scope.

(** The spin locks of the file system. *)
Definition fs_lock (l : lockid) : Prop :=
  match l with
  | LkBcache | LkLog | LkItable | LkFtable => True
  | LkSleep a => 0 <= a < NBUF \/ 1000 <= a < 1000 + NINODE
  | _ => False
  end.

(** The running process has pid [pid], the hart is at depth [d], nobody sleeps. *)
Record quiet (d pid : Z) (s : kstate) : Prop := Quiet {
  quiet_kok : kok d s;
  quiet_settled : settle (k_sync s) = k_sync s;
  quiet_proc : exists p r, curproc (k_sync s) = Some p /\ k_procs s !! p = Some r /\ p_pid r = pid;
  quiet_awake : Forall (fun r => p_state r <> SLEEPING) (k_procs s);
}.

Record calm (pid : Z) (s : kstate) : Prop := Calm {
  calm_quiet : quiet 0 pid s;
  calm_locks : forall l, fs_lock l -> lock_free l (k_sync s);
}.

Lemma on_fs_on_fs s f g : (s ⊕ f) ⊕ g = s ⊕ g.
Proof. done. Qed.

Lemma ksync_on_fs h s f : ksync h (s ⊕ f) = ksync h s ⊕ f.
Proof. done. Qed.

Lemma kok_on_fs d s f : kok d (s ⊕ f) <-> kok d s.
Proof. split; intros [? ? ? ?]; by split. Qed.

Lemma quiet_on_fs d pid s f : quiet d pid s -> quiet d pid (s ⊕ f).
Proof. intros [? ? ? ?]. by split; [apply kok_on_fs|..]. Qed.

Lemma calm_on_fs pid s f : calm pid s -> calm pid (s ⊕ f).
Proof. intros [? ?]. by split; [apply quiet_on_fs|]. Qed.
#[export] Hint Resolve quiet_on_fs calm_on_fs calm_quiet quiet_kok : xv6.

Lemma calm_can_lock pid s l : calm pid s -> fs_lock l -> can_lock 0 l (k_sync s).
Proof. intros [[[? ? ? ?] _ _ _] Hl] Hf. split; [done|]. split; [lia|auto]. Qed.

(** Inside a critical section. *)
Lemma quiet_acquired pid s l :
  calm pid s -> fs_lock l -> quiet 1 pid (ksync (acquired l) s).
Proof.
  intros Hc Hl. destruct (calm_can_lock _ _ _ Hc Hl) as (Hs & Hd & Hfree).
  destruct Hc as [[[_ _ Hlk Hp] Hset Hpr Haw] _].
  assert (Hs1 : sync_at 1 (acquired l (k_sync s))) by (apply (acquired_sync_at 0); [done|lia]).
  split.
  - split; [done|lia| |done]. intros p Hpl. destruct (Hlk p Hpl) as [nm Hn]. exists nm.
    simpl. rewrite acquired_other; [done|]. intros ->. done.
  - by apply (settle_deep 1); [|lia].
  - simpl. by rewrite curproc_acquired.
  - done.
Qed.

Section quiet.
Context {d pid : Z} {s : kstate} (Hq : quiet d pid s).

Lemma wakeup_quiet chan : wakeup chan s = Ret tt s.
Proof.
  destruct Hq as [Hk Hset _ Haw]. rewrite (wakeup_run d) by done. f_equal.
  assert (E : imap (fun p r => if bool_decide (curproc (k_sync s) = Some p) then r else wake chan r)
    (k_procs s) = k_procs s).
  { apply list_eq. intros i. rewrite list_lookup_imap.
    destruct (k_procs s !! i) as [r|] eqn:E; [|done]. simpl. f_equal. case_if; [done|].
    unfold wake. rewrite Forall_lookup in Haw. apply Haw in E.
    by rewrite bool_decide_false. }
  rewrite E. unfold ksync. destruct s. simpl in *. by rewrite Hset.
Qed.

(** [myproc()->pid]. *)
Lemma my_pid :
  exists p r, myproc_deref s = Ret p s /\ get_proc p s = Ret r s /\ p_pid r = pid.
Proof.
  destruct Hq as [Hk Hset (p & r & Hp & Hr & Hpid) _]. exists p, r.
  assert (Hself : ksync settle s = s) by (unfold ksync; destruct s; simpl in *; by rewrite Hset).
  split; [|split; [|done]].
  - unfold myproc_deref, bind. rewrite (kok_myproc d) by done. rewrite Hself. simpl. by rewrite Hp.
  - unfold get_proc. by rewrite Hr.
Qed.
End quiet.

(** Entering and leaving a critical section on the file system state. *)
Lemma acquire_fs pid s l f :
  calm pid s -> fs_lock l -> acquire l (s ⊕ f) = Ret tt (ksync (acquired l) s ⊕ f).
Proof.
  intros Hc Hl. rewrite (can_lock_acquire 0); [done|]. exact (calm_can_lock _ _ _ Hc Hl).
Qed.

Lemma release_fs pid s l f :
  calm pid s -> fs_lock l -> release l (ksync (acquired l) s ⊕ f) = Ret tt (s ⊕ f).
Proof.
  intros Hc Hl. rewrite (can_lock_release 0 l (k_sync s)); [|by eapply calm_can_lock|done].
  rewrite (quiet_settled _ _ _ (calm_quiet _ _ Hc)). by destruct s.
Qed.

(** A critical section on the file system state. *)
Lemma crit_fs {A B} pid s l (m : M A) (k : A -> M B) f a f' :
  calm pid s -> fs_lock l ->
  m (ksync (acquired l) s ⊕ f) = Ret a (ksync (acquired l) s ⊕ f') ->
  (acquire l;; x ← m; release l;; k x) (s ⊕ f) = k a (s ⊕ f').
Proof.
  intros Hc Hl Hm. erewrite bind_Ret by by eapply acquire_fs.
  erewrite bind_Ret by exact Hm. by erewrite bind_Ret by by eapply release_fs.
Qed.

(** ** Reading and writing one object *)

Lemma get_slp_run s f a x : fs_sleep f !! a = Some x -> get_slp a (s ⊕ f) = Ret x (s ⊕ f).
Proof. intros H. unfold get_slp, fetch. simpl. by rewrite H. Qed.

Lemma upd_slp_run s f a g x :
  fs_sleep f !! a = Some x ->
  upd_slp a g (s ⊕ f) = Ret tt (s ⊕ f <| fs_sleep := <[a := g x]> (fs_sleep f) |>).
Proof. intros H. unfold upd_slp, bind. by rewrite (get_slp_run _ _ _ _ H). Qed.

Lemma get_buf_run s f b x : fs_bufs f !! b = Some x -> get_buf b (s ⊕ f) = Ret x (s ⊕ f).
Proof. intros H. unfold get_buf, fetch. simpl. by rewrite H. Qed.

Lemma upd_buf_run s f b g x :
  fs_bufs f !! b = Some x ->
  upd_buf b g (s ⊕ f) = Ret tt (s ⊕ f <| fs_bufs := <[b := g x]> (fs_bufs f) |>).
Proof. intros H. unfold upd_buf, bind. by rewrite (get_buf_run _ _ _ _ H). Qed.

(** ** Sleep locks *)

Section sleeplock.
Context `{Fuel} (pid : Z) (s : kstate) (Hcalm : calm pid s).

Lemma wait_unlocked_run n a s1 f nm q :
  (0 < n)%nat -> fs_sleep f !! a = Some (Sleeplock 0 nm q) ->
  wait_unlocked n a (s1 ⊕ f) = Ret tt (s1 ⊕ f).
Proof.
  intros Hn Ha. destruct n; [lia|]. cbn [wait_unlocked].
  by erewrite bind_Ret by by apply get_slp_run.
Qed.

Lemma acquiresleep_run a f nm q :
  (0 < fuel)%nat -> fs_lock (LkSleep a) -> fs_sleep f !! a = Some (Sleeplock 0 nm q) ->
  acquiresleep a (s ⊕ f)
  = Ret tt (s ⊕ f <| fs_sleep := <[a := Sleeplock 1 nm pid]> (fs_sleep f) |>).
Proof.
  intros Hn Hl Ha. pose proof (quiet_acquired pid s (LkSleep a) Hcalm Hl) as Hq.
  pose proof (calm_can_lock _ _ _ Hcalm Hl) as Hcl.
  unfold acquiresleep. erewrite bind_Ret by by apply (can_lock_acquire 0).
  rewrite ksync_on_fs. erewrite bind_Ret by by eapply wait_unlocked_run.
  erewrite bind_Ret by by apply upd_slp_run.
  destruct (my_pid (quiet_on_fs _ _ _ (f <| fs_sleep := <[a := Sleeplock 1 nm q]> (fs_sleep f) |>) Hq))
    as (p & r & Ep & Er & Hr).
  erewrite bind_Ret by exact Ep. erewrite bind_Ret by exact Er.
  erewrite bind_Ret by (apply upd_slp_run; simpl; apply lookup_insert_eq).
  rewrite (can_lock_release 0 (LkSleep a) (k_sync s)) by done.
  rewrite (quiet_settled _ _ _ (calm_quiet _ _ Hcalm)). simpl. rewrite insert_insert_eq, Hr.
  by destruct s, f.
Qed.

Lemma releasesleep_run a f nm q :
  fs_lock (LkSleep a) -> fs_sleep f !! a = Some (Sleeplock 1 nm q) ->
  releasesleep a (s ⊕ f) = Ret tt (s ⊕ f <| fs_sleep := <[a := Sleeplock 0 nm 0]> (fs_sleep f) |>).
Proof.
  intros Hl Ha. pose proof (quiet_acquired pid s (LkSleep a) Hcalm Hl) as Hq.
  pose proof (calm_can_lock _ _ _ Hcalm Hl) as Hcl.
  unfold releasesleep, bind. rewrite (can_lock_acquire 0) by done. cbn [obind].
  rewrite ksync_on_fs, (upd_slp_run _ _ _ _ _ Ha). cbn [obind].
  erewrite upd_slp_run by (simpl; apply lookup_insert_eq). cbn [obind].
  rewrite (wakeup_quiet (quiet_on_fs _ _ _ _ Hq)). cbn [obind].
  rewrite (can_lock_release 0 (LkSleep a) (k_sync s)) by done.
  rewrite (quiet_settled _ _ _ (calm_quiet _ _ Hcalm)). simpl. rewrite insert_insert_eq.
  by destruct s, f.
Qed.

Lemma holdingsleep_run a f nm :
  fs_lock (LkSleep a) -> fs_sleep f !! a = Some (Sleeplock 1 nm pid) ->
  holdingsleep a (s ⊕ f) = Ret true (s ⊕ f).
Proof.
  intros Hl Ha. pose proof (quiet_acquired pid s (LkSleep a) Hcalm Hl) as Hq.
  pose proof (calm_can_lock _ _ _ Hcalm Hl) as Hcl.
  unfold holdingsleep. erewrite bind_Ret by by apply (can_lock_acquire 0).
  rewrite ksync_on_fs. erewrite bind_Ret by by apply get_slp_run. cbn [sl_locked sl_pid].
  destruct (my_pid (quiet_on_fs _ _ _ f Hq)) as (p & r & Ep & Er & Hr).
  erewrite bind_Ret.
  2: { change (truthy 1) with true. cbv iota. erewrite bind_Ret by exact Ep.
       erewrite bind_Ret by exact Er. by rewrite Hr, Z.eqb_refl. }
  erewrite bind_Ret by by apply (can_lock_release 0 (LkSleep a) (k_sync s)).
  rewrite (quiet_settled _ _ _ (calm_quiet _ _ Hcalm)). by destruct s.
Qed.
End sleeplock.

(** A critical section inside a critical section. *)
Lemma nested_fs pid s l l' f :
  calm pid s -> fs_lock l -> fs_lock l' -> l <> l' ->
  let s1 := ksync (acquired l) s in
  acquire l' (s1 ⊕ f) = Ret tt (ksync (acquired l') s1 ⊕ f)
  /\ forall g, release l' (ksync (acquired l') s1 ⊕ g) = Ret tt (s1 ⊕ g).
Proof.
  intros Hc Hl Hl' Hne s1. pose proof (quiet_acquired pid s l Hc Hl) as Hq.
  assert (Hcl : can_lock 1 l' (k_sync s1)).
  { split; [apply Hq|]. split; [lia|]. destruct (calm_locks _ _ Hc _ Hl') as [nm E]. exists nm.
    unfold s1. simpl. by rewrite acquired_other. }
  split.
  - by rewrite (can_lock_acquire 1).
  - intros g. rewrite (can_lock_release 1 l' (k_sync s1)) by done.
    pose proof (quiet_settled _ _ _ Hq) as Hs. fold s1 in Hs. rewrite Hs. by destruct s.
Qed.

(** ** A calm state: the first process runs in the kernel and no lock is held *)

Definition all_locks : list lockid :=
  [LkBcache; LkLog; LkItable; LkFtable; LkTicks; LkWait; LkPid] ++ (LkSleep <$> seqZ 0 NBUF)
    ++ (LkSleep <$> seqZ 1000 NINODE) ++ (LkProc <$> seq 0 (Z.to_nat NPROC)).

Definition calm_sync : syncst :=
  SyncSt 0 (replicate (Z.to_nat NCPU) hart_zero)
    (<[0%nat := cpu_zero <| c_proc := Some 0%nat |>]> (replicate (Z.to_nat NCPU) cpu_zero))
    (list_to_map ((fun l => (l, Spinlock 0 "lock" None)) <$> all_locks)).

Definition calm_state : kstate :=
  (kstate_zero 0)
    <| k_sync := calm_sync |>
    <| k_procs := <[0%nat := proc_zero <| p_pid := 1 |> <| p_state := RUNNING |>]>
         (replicate (Z.to_nat NPROC) proc_zero) |>.

Lemma calm_state_free l : l ∈ all_locks -> lock_free l calm_sync.
Proof.
  intros Hl. exists "lock". unfold calm_sync. cbn [s_locks]. apply elem_of_list_to_map_1'.
  - intros y Hy. apply list_elem_of_fmap in Hy as (l' & [= -> ->] & _). done.
  - apply list_elem_of_fmap. by exists l.
Qed.

Lemma calm_state_calm : calm 1 calm_state.
Proof.
  split; [split; [split|..]|].
  - exists hart_zero, (cpu_zero <| c_proc := Some 0%nat |>). by vm_compute.
  - lia.
  - intros p Hp. apply calm_state_free. unfold all_locks. rewrite !elem_of_app. do 3 right.
    apply list_elem_of_fmap. exists p. split; [done|]. apply elem_of_seq. lia.
  - by vm_compute.
  - reflexivity.
  - eexists 0%nat, _. split; [by vm_compute|]. split; [by vm_compute|done].
  - apply Forall_insert; [|done]. apply Forall_replicate. done.
  - intros l Hl. apply calm_state_free. unfold all_locks. rewrite !elem_of_app.
    destruct l; try done; try (left; set_solver). destruct Hl as [Hl|Hl]; right; [left|right; left];
      apply list_elem_of_fmap; exists a; (split; [done|]); apply elem_of_seqZ; lia.
Qed.
