(* ===== verification/Bio.v ===== *)
(** * The buffer cache: [src/kernel/bio.c]

    Cached copies of disk blocks, linked in order of use. The disk driver is an
    interface here: [virtio_disk_rw(b, write)] transfers a buffer. *)

From S2P Require Import Prelude Params FsTypes Machine Spinlock ProcCore Mem Pres FsCore Sleeplock.

(** [virtio_disk.c], for its clients. *)
Class DiskOps : Type := { op_virtio_disk_rw : nat -> bool -> M unit }.

Class DiskLaws `{DiskOps} : Prop := {
  pres_virtio_disk_rw b write : pres mlfq_inv (op_virtio_disk_rw b write);
}.

#[export] Hint Resolve pres_virtio_disk_rw : pres.

Section bio.
Context `{Fuel} `{DiskOps}.

(** The body of the loop of [binit]: link buffer [b] behind the head. *)
Definition link_first (b : nat) : M unit :=
  hd ← get_buf bhead;
  upd_buf b (fun x => x <| b_next := b_next hd |>);;
  upd_buf b (fun x => x <| b_prev := bhead |>).

Definition hook_first (b : nat) : M unit :=
  hd ← get_buf bhead;
  upd_buf (b_next hd) (fun x => x <| b_prev := b |>);;
  upd_buf bhead (fun x => x <| b_next := b |>).

Definition binit : M unit :=
  initlock LkBcache "bcache";;
  upd_buf bhead (fun x => x <| b_prev := bhead |>);;
  upd_buf bhead (fun x => x <| b_next := bhead |>);;
  for_each (seq 0 (Z.to_nat NBUF)) (fun b =>
    link_first b;;
    initsleeplock (slp_buf b) "buffer";;
    hook_first b).

(** [for(b = bcache.head.next; b != &bcache.head; b = b->next)] up to the buffer
    of the block, and [for(b = bcache.head.prev; ...; b = b->prev)] up to an
    unused buffer. *)
Fixpoint find_cached (n : nat) (b : nat) (dev blockno : Z) : M (option nat) :=
  match n with
  | O => stop_ SFuel
  | S n =>
      if decide (b = bhead) then ret None else
      x ← get_buf b;
      if (b_dev x =? dev) && (b_blockno x =? blockno) then ret (Some b)
      else find_cached n (b_next x) dev blockno
  end.

Fixpoint find_unused_buf (n : nat) (b : nat) : M (option nat) :=
  match n with
  | O => stop_ SFuel
  | S n =>
      if decide (b = bhead) then ret None else
      x ← get_buf b;
      if b_refcnt x =? 0 then ret (Some b) else find_unused_buf n (b_prev x)
  end.

Definition bget (dev blockno : Z) : M nat :=
  acquire LkBcache;;
  hd ← get_buf bhead;
  cached ← find_cached (S bhead) (b_next hd) dev blockno;
  match cached with
  | Some b =>
      upd_buf b (fun x => x <| b_refcnt := u32 (b_refcnt x + 1) |>);;
      release LkBcache;;
      acquiresleep (slp_buf b);;
      ret b
  | None =>
      unused ← find_unused_buf (S bhead) (b_prev hd);
      match unused with
      | Some b =>
          upd_buf b (fun x => x <| b_dev := dev |> <| b_blockno := blockno |>
                                <| b_valid := 0 |> <| b_refcnt := 1 |>);;
          release LkBcache;;
          acquiresleep (slp_buf b);;
          ret b
      | None => panic "bget: no buffers"
      end
  end.

Definition bread (dev blockno : Z) : M nat :=
  b ← bget dev blockno;
  x ← get_buf b;
  when (negb (truthy (b_valid x)))
    (op_virtio_disk_rw b false;;
     upd_buf b (fun x => x <| b_valid := 1 |>));;
  ret b.

Definition bwrite (b : nat) : M unit :=
  h ← holdingsleep (slp_buf b);
  if negb h then panic "bwrite" else
  op_virtio_disk_rw b true.

(** Unlink [b] and link it behind the head. *)
Definition move_first (b : nat) : M unit :=
  x ← get_buf b;
  upd_buf (b_next x) (fun y => y <| b_prev := b_prev x |>);;
  x ← get_buf b;
  upd_buf (b_prev x) (fun y => y <| b_next := b_next x |>);;
  link_first b;;
  hook_first b.

Definition brelse (b : nat) : M unit :=
  h ← holdingsleep (slp_buf b);
  if negb h then panic "brelse" else
  releasesleep (slp_buf b);;
  acquire LkBcache;;
  upd_buf b (fun x => x <| b_refcnt := u32 (b_refcnt x - 1) |>);;
  x ← get_buf b;
  when (b_refcnt x =? 0) (move_first b);;
  release LkBcache.

Definition bpin (b : nat) : M unit :=
  acquire LkBcache;;
  upd_buf b (fun x => x <| b_refcnt := u32 (b_refcnt x + 1) |>);;
  release LkBcache.

Definition bunpin (b : nat) : M unit :=
  acquire LkBcache;;
  upd_buf b (fun x => x <| b_refcnt := u32 (b_refcnt x - 1) |>);;
  release LkBcache.

(** [bp->data], and a change of it. *)
Definition get_data (b : nat) : M (list Z) := x ← get_buf b; ret (b_data x).
Definition set_data (b : nat) (l : list Z) : M unit := upd_buf b (fun x => x <| b_data := l |>).

Lemma pres_link_first b : pres mlfq_inv (link_first b).
Proof. unfold link_first. pres. Qed.
Lemma pres_hook_first b : pres mlfq_inv (hook_first b).
Proof. unfold hook_first. pres. Qed.
#[local] Hint Resolve pres_link_first pres_hook_first : pres.
Lemma pres_binit : pres mlfq_inv binit.
Proof. unfold binit. pres. Qed.
Lemma pres_find_cached n b dev bn : pres mlfq_inv (find_cached n b dev bn).
Proof. revert b. induction n; intros b; simpl; pres. Qed.
Lemma pres_find_unused_buf n b : pres mlfq_inv (find_unused_buf n b).
Proof. revert b. induction n; intros b; simpl; pres. Qed.
#[local] Hint Resolve pres_find_cached pres_find_unused_buf : pres.
Lemma pres_bget dev bn : pres mlfq_inv (bget dev bn).
Proof. unfold bget. pres. Qed.
Lemma pres_brelse b : pres mlfq_inv (brelse b).
Proof. unfold brelse, move_first. pres. Qed.
Lemma pres_bpin b : pres mlfq_inv (bpin b).
Proof. unfold bpin. pres. Qed.
Lemma pres_bunpin b : pres mlfq_inv (bunpin b).
Proof. unfold bunpin. pres. Qed.
Lemma pres_get_data b : pres mlfq_inv (get_data b).
Proof. unfold get_data. pres. Qed.
Lemma pres_set_data b l : pres mlfq_inv (set_data b l).
Proof. unfold set_data. pres. Qed.
#[local] Hint Resolve pres_bget : pres.
Lemma pres_bread `{!DiskLaws} dev bn : pres mlfq_inv (bread dev bn).
Proof. unfold bread. pres. Qed.
Lemma pres_bwrite `{!DiskLaws} b : pres mlfq_inv (bwrite b).
Proof. unfold bwrite. pres. Qed.
End bio.

#[export] Hint Resolve pres_binit pres_bread pres_bwrite pres_brelse pres_bpin pres_bunpin
  pres_get_data pres_set_data : pres.
