(* ===== verification/Lru.v ===== *)
(** * The list of the buffer cache

    [prev] and [next] link the buffers in a ring through [bcache.head], in the
    order of their last use. [ring bs l] says that the buffers [bs] are linked in
    the order [l], most recently used first. *)

From S2P Require Import Prelude Params FsTypes Machine Spinlock ProcCore Mem Pres FsCore Sleeplock.
From S2P Require Import Calm Bio.

Definition nx (bs : list buf) (a : nat) : option nat := b_next <$> bs !! a.
Definition pv (bs : list buf) (a : nat) : option nat := b_prev <$> bs !! a.

(** [b] follows [a]. *)
Definition nxt (bs : list buf) (a b : nat) : Prop := nx bs a = Some b /\ pv bs b = Some a.

(** From [a] through [l] to [z]. *)
Fixpoint path (bs : list buf) (a : nat) (l : list nat) (z : nat) : Prop :=
  match l with
  | [] => nxt bs a z
  | x :: l => nxt bs a x /\ path bs x l z
  end.

Definition bufids : list nat := seq 0 bhead.

Record ring (bs : list buf) (l : list nat) : Prop := Ring {
  ring_path : path bs bhead l bhead;
  ring_all : l ≡ₚ bufids;
  ring_len : length bs = S bhead;
}.

#[global] Arguments bufids : simpl never.
#[global] Arguments bhead : simpl never.

Lemma elem_of_bufids i : i ∈ bufids <-> (i < bhead)%nat.
Proof. unfold bufids. rewrite elem_of_seq. lia. Qed.

Lemma ring_elem bs l i : ring bs l -> i ∈ l <-> (i < bhead)%nat.
Proof. intros [_ H _]. by rewrite H, elem_of_bufids. Qed.

Lemma ring_NoDup bs l : ring bs l -> NoDup (bhead :: l).
Proof.
  intros H. constructor.
  - rewrite (ring_elem _ _ _ H). lia.
  - destruct H as [_ -> _]. apply NoDup_seq.
Qed.

Lemma ring_lookup bs l i : ring bs l -> (i <= bhead)%nat -> exists x, bs !! i = Some x.
Proof. intros [_ _ H] Hi. apply lookup_lt_is_Some. lia. Qed.

Lemma ring_length bs l : ring bs l -> length l = bhead.
Proof. intros [_ H _]. rewrite H. unfold bufids. apply length_seq. Qed.

(** ** Paths *)

Lemma path_app bs a l1 b l2 z :
  path bs a (l1 ++ b :: l2) z <-> path bs a l1 b /\ path bs b l2 z.
Proof.
  revert a. induction l1 as [|x l1 IH]; intros a; simpl; [done|]. rewrite IH. tauto.
Qed.

Lemma path_ext bs bs' a l z :
  (forall c, c ∈ a :: l -> nx bs' c = nx bs c) -> (forall c, c ∈ l ++ [z] -> pv bs' c = pv bs c) ->
  path bs a l z -> path bs' a l z.
Proof.
  revert a. induction l as [|x l IH]; intros a Hn Hp H; simpl in *.
  - destruct H as [H1 H2]. split; [rewrite Hn|rewrite Hp]; (done || set_solver).
  - destruct H as [[H1 H2] H]. split.
    + split; [rewrite Hn|rewrite Hp]; (done || set_solver).
    + apply IH; [..|done]; intros c Hc; [apply Hn|apply Hp]; set_solver.
Qed.

(** Two neighbours of a node are unlinked from it. *)
Lemma path_unlink bs bs' b l1 l2 p n :
  NoDup (bhead :: l1 ++ b :: l2) -> path bs bhead (l1 ++ b :: l2) bhead ->
  pv bs b = Some p -> nx bs b = Some n ->
  (forall c, nx bs' c = if decide (c = p) then Some n else nx bs c) ->
  (forall c, pv bs' c = if decide (c = n) then Some p else pv bs c) ->
  path bs' bhead (l1 ++ l2) bhead.
Proof.
  intros Hnd Hp Hpv Hnx Hn' Hp'. apply path_app in Hp as [Hp1 Hp2].
  assert (Hpn : nxt bs' p n) by (split; [rewrite Hn'|rewrite Hp']; by rewrite decide_True).
  destruct l2 as [|n' l2].
  { (* the node is the last one *)
    rewrite app_nil_r. assert (n = bhead) by (destruct Hp2; congruence). subst n.
    destruct l1 as [|p' l1 _] using rev_ind; simpl in *.
    - assert (p = bhead) by (destruct Hp1; congruence). by subst p.
    - apply path_app in Hp1 as [Hp1 [_ Hb]]. assert (p = p') by congruence. subst p'.
      apply path_app. split; [|done]. revert Hp1. apply path_ext; intros c Hc.
      + rewrite Hn', decide_False; [done|]. intros ->. revert Hc Hnd. clear. rewrite <- app_assoc.
        rewrite elem_of_cons. intros [->|Hc]; rewrite !NoDup_cons, !NoDup_app; set_solver.
      + rewrite Hp', decide_False; [done|]. intros ->. revert Hc Hnd. clear.
        rewrite NoDup_cons. set_solver. }
  destruct Hp2 as [[Hbn _] Hp2]. assert (n = n') by congruence. subst n'.
  assert (Hr : path bs' n l2 bhead).
  { revert Hp2. apply path_ext; intros c Hc.
    - rewrite Hn', decide_False; [done|]. intros ->.
      destruct l1 as [|p' l1 _] using rev_ind.
      + assert (p = bhead) by (destruct Hp1; congruence). subst p. revert Hc Hnd. clear.
        rewrite NoDup_cons. set_solver.
      + apply path_app in Hp1 as [_ [_ Hb]]. assert (p = p') by congruence. subst p'.
        revert Hc Hnd. clear. rewrite NoDup_cons, NoDup_app. set_solver.
    - rewrite Hp', decide_False; [done|]. intros ->. revert Hc Hnd. clear.
      rewrite NoDup_cons, NoDup_app, !NoDup_cons. set_solver. }
  destruct l1 as [|p' l1 _] using rev_ind; simpl.
  - assert (p = bhead) by (destruct Hp1; congruence). subst p. by split.
  - apply path_app in Hp1 as [Hp1 [_ Hb]]. assert (p = p') by congruence. subst p'.
    rewrite <- app_assoc. apply path_app. split; [|by split]. revert Hp1. apply path_ext; intros c Hc.
    + rewrite Hn', decide_False; [done|]. intros ->. revert Hc Hnd. clear. rewrite <- app_assoc.
      rewrite elem_of_cons. intros [->|Hc]; rewrite !NoDup_cons, !NoDup_app; set_solver.
    + rewrite Hp', decide_False; [done|]. intros ->. revert Hc Hnd. clear. rewrite <- app_assoc.
      rewrite NoDup_cons, !NoDup_app, !NoDup_cons. set_solver.
Qed.

(** A node is linked behind the head. *)
Lemma path_link bs bs' b l x :
  NoDup (bhead :: b :: l) -> path bs bhead l bhead -> nx bs bhead = Some x ->
  (forall c, nx bs' c = if decide (c = bhead) then Some b else if decide (c = b) then Some x
                        else nx bs c) ->
  (forall c, pv bs' c = if decide (c = x) then Some b else if decide (c = b) then Some bhead
                        else pv bs c) ->
  path bs' bhead (b :: l) bhead.
Proof.
  intros Hnd Hp Hx Hn' Hp'. rewrite !NoDup_cons in Hnd. destruct Hnd as (Hh & Hb & Hnd).
  assert (bhead <> b) by set_solver.
  assert (Hxb : x <> b).
  { destruct l as [|y l]; simpl in Hp.
    - destruct Hp. congruence.
    - destruct Hp as [[Hy _] _]. assert (x = y) by congruence. set_solver. }
  split; [split|].
  - by rewrite Hn', decide_True.
  - by rewrite Hp', decide_False, decide_True by congruence.
  - destruct l as [|x' l]; simpl in *.
    + assert (x = bhead) by (destruct Hp; congruence). subst x. split.
      * by rewrite Hn', decide_False, decide_True by congruence.
      * by rewrite Hp', decide_True.
    + destruct Hp as [[Hx1 _] Hp]. assert (x' = x) by congruence. subst x'. split; [split|].
      * by rewrite Hn', decide_False, decide_True by congruence.
      * by rewrite Hp', decide_True.
      * revert Hp. apply path_ext; intros c Hc.
        -- rewrite Hn', !decide_False; [done|set_solver..].
        -- rewrite NoDup_cons in Hnd. rewrite Hp', !decide_False; [done|set_solver..].
Qed.

(** ** The links through the updates of the code *)

Lemma nx_insert bs c y a :
  (c < length bs)%nat -> nx (<[c := y]> bs) a = if decide (a = c) then Some (b_next y) else nx bs a.
Proof.
  intros Hc. unfold nx. rewrite list_lookup_insert_if by done.
  by repeat case_decide; subst.
Qed.

Lemma pv_insert bs c y a :
  (c < length bs)%nat -> pv (<[c := y]> bs) a = if decide (a = c) then Some (b_prev y) else pv bs a.
Proof.
  intros Hc. unfold pv. rewrite list_lookup_insert_if by done.
  by repeat case_decide; subst.
Qed.

(** A buffer without its links. *)
Definition strip (x : buf) : buf := x <| b_prev := 0%nat |> <| b_next := 0%nat |>.

(** The same buffers, up to their links. *)
Definition relinked (bs bs' : list buf) : Prop := strip <$> bs = strip <$> bs'.

#[export] Instance relinked_equiv : Equivalence relinked.
Proof. split; unfold relinked; congruence. Qed.

Lemma relinked_insert bs c x y :
  bs !! c = Some x -> strip x = strip y -> relinked bs (<[c := y]> bs).
Proof.
  intros Hx Hs. unfold relinked. rewrite list_fmap_insert, <- Hs.
  symmetry. apply list_insert_id. by rewrite list_lookup_fmap, Hx.
Qed.

Lemma relinked_length bs bs' : relinked bs bs' -> length bs = length bs'.
Proof. intros H. apply (f_equal length) in H. by rewrite !length_fmap in H. Qed.

Lemma relinked_lookup bs bs' i x :
  relinked bs bs' -> bs !! i = Some x -> exists y, bs' !! i = Some y /\ strip x = strip y.
Proof.
  intros H Hx. apply (f_equal (fun l => l !! i)) in H. rewrite !list_lookup_fmap, Hx in H.
  destruct (bs' !! i) as [y|]; [|done]. exists y. split; [done|]. by apply (inj Some) in H.
Qed.

(** One update of a link. *)
Definition set_next (c v : nat) (bs : list buf) : list buf := alter (fun x => x <| b_next := v |>) c bs.
Definition set_prev (c v : nat) (bs : list buf) : list buf := alter (fun x => x <| b_prev := v |>) c bs.

Lemma set_next_run s f c v :
  (c < length (fs_bufs f))%nat ->
  upd_buf c (fun x => x <| b_next := v |>) (s ⊕ f)
  = Ret tt (s ⊕ f <| fs_bufs := set_next c v (fs_bufs f) |>).
Proof.
  intros Hc. destruct (lookup_lt_is_Some_2 _ _ Hc) as [x Hx]. unfold set_next.
  erewrite upd_buf_run by done. by erewrite list_alter_as_insert by done.
Qed.

Lemma set_prev_run s f c v :
  (c < length (fs_bufs f))%nat ->
  upd_buf c (fun x => x <| b_prev := v |>) (s ⊕ f)
  = Ret tt (s ⊕ f <| fs_bufs := set_prev c v (fs_bufs f) |>).
Proof.
  intros Hc. destruct (lookup_lt_is_Some_2 _ _ Hc) as [x Hx]. unfold set_prev.
  erewrite upd_buf_run by done. by erewrite list_alter_as_insert by done.
Qed.

Section set_link.
Context (bs : list buf) (c v : nat) (Hc : (c < length bs)%nat).

Lemma length_set_next : length (set_next c v bs) = length bs.
Proof. apply length_alter. Qed.
Lemma length_set_prev : length (set_prev c v bs) = length bs.
Proof. apply length_alter. Qed.

Lemma nx_set_next a : nx (set_next c v bs) a = if decide (a = c) then Some v else nx bs a.
Proof.
  unfold nx, set_next. case_decide; subst.
  - rewrite list_lookup_alter_eq. by destruct (lookup_lt_is_Some_2 _ _ Hc) as [x ->].
  - by rewrite list_lookup_alter_ne.
Qed.
Lemma pv_set_next a : pv (set_next c v bs) a = pv bs a.
Proof.
  unfold pv, set_next. destruct (decide (a = c)); subst.
  - rewrite list_lookup_alter_eq. by destruct (bs !! c).
  - by rewrite list_lookup_alter_ne.
Qed.
Lemma pv_set_prev a : pv (set_prev c v bs) a = if decide (a = c) then Some v else pv bs a.
Proof.
  unfold pv, set_prev. case_decide; subst.
  - rewrite list_lookup_alter_eq. by destruct (lookup_lt_is_Some_2 _ _ Hc) as [x ->].
  - by rewrite list_lookup_alter_ne.
Qed.
Lemma nx_set_prev a : nx (set_prev c v bs) a = nx bs a.
Proof.
  unfold nx, set_prev. destruct (decide (a = c)); subst.
  - rewrite list_lookup_alter_eq. by destruct (bs !! c).
  - by rewrite list_lookup_alter_ne.
Qed.
Lemma relinked_alter (g : buf -> buf) :
  (forall x, strip (g x) = strip x) -> relinked bs (alter g c bs).
Proof.
  intros Hg. unfold relinked. apply list_eq. intros i. rewrite !list_lookup_fmap.
  destruct (decide (i = c)); subst.
  - rewrite list_lookup_alter_eq. destruct (bs !! c); [|done]. simpl. by rewrite Hg.
  - by rewrite list_lookup_alter_ne.
Qed.
Lemma relinked_set_next : relinked bs (set_next c v bs).
Proof. by apply relinked_alter. Qed.
Lemma relinked_set_prev : relinked bs (set_prev c v bs).
Proof. by apply relinked_alter. Qed.
End set_link.

#[global] Arguments set_next : simpl never.
#[global] Arguments set_prev : simpl never.

Lemma get_nx s f b n : nx (fs_bufs f) b = Some n ->
  exists x, get_buf b (s ⊕ f) = Ret x (s ⊕ f) /\ b_next x = n.
Proof.
  unfold nx. destruct (fs_bufs f !! b) as [x|] eqn:E; [|done]. intros [= <-].
  exists x. by rewrite (get_buf_run _ _ _ _ E).
Qed.

(** [link_first] and [hook_first] put a node that is on no list behind the head,
    before node [x]. *)
Definition linked (b x : nat) (bs : list buf) : list buf := set_prev b bhead (set_next b x bs).
Definition hooked (b x : nat) (bs : list buf) : list buf := set_next bhead b (set_prev x b bs).

Lemma link_first_run s f b x :
  length (fs_bufs f) = S bhead -> (b < bhead)%nat -> nx (fs_bufs f) bhead = Some x ->
  link_first b (s ⊕ f) = Ret tt (s ⊕ f <| fs_bufs := linked b x (fs_bufs f) |>).
Proof.
  intros Hlen Hb Hx. unfold link_first. destruct (get_nx s f bhead x Hx) as (hd & Ehd & Hhd).
  erewrite bind_Ret by exact Ehd. rewrite Hhd.
  erewrite bind_Ret by (apply set_next_run; lia).
  rewrite set_prev_run; [done|]. simpl. rewrite length_set_next. lia.
Qed.

Lemma hook_first_run s f b x :
  length (fs_bufs f) = S bhead -> (x <= bhead)%nat -> nx (fs_bufs f) bhead = Some x ->
  hook_first b (s ⊕ f) = Ret tt (s ⊕ f <| fs_bufs := hooked b x (fs_bufs f) |>).
Proof.
  intros Hlen Hb Hx. unfold hook_first. destruct (get_nx s f bhead x Hx) as (hd & Ehd & Hhd).
  erewrite bind_Ret by exact Ehd. rewrite Hhd.
  erewrite bind_Ret by (apply set_prev_run; lia).
  rewrite set_next_run; [done|]. simpl. rewrite length_set_prev. lia.
Qed.

Lemma linked_head b x bs :
  (b < bhead)%nat -> (b < length bs)%nat -> nx (linked b x bs) bhead = nx bs bhead.
Proof. intros. unfold linked. rewrite nx_set_prev, nx_set_next by done. by rewrite decide_False by lia. Qed.

Lemma length_linked b x bs : length (linked b x bs) = length bs.
Proof. unfold linked. by rewrite length_set_prev, length_set_next. Qed.

Lemma relinked_first b x bs : relinked bs (hooked b x (linked b x bs)).
Proof.
  unfold hooked, linked. rewrite <- relinked_set_next, <- relinked_set_prev, <- relinked_set_prev.
  apply relinked_set_next.
Qed.

Lemma path_first bs b l x :
  length bs = S bhead -> NoDup (bhead :: b :: l) -> (b < bhead)%nat -> (x <= bhead)%nat ->
  path bs bhead l bhead -> nx bs bhead = Some x ->
  path (hooked b x (linked b x bs)) bhead (b :: l) bhead.
Proof.
  intros Hlen Hnd Hb Hxl Hp Hx. apply (path_link bs _ b l x); [done..| |]; intros c;
    unfold hooked, linked.
  - rewrite nx_set_next by (rewrite !length_set_prev, length_set_next; lia).
    by rewrite !nx_set_prev, nx_set_next by lia.
  - rewrite pv_set_next, pv_set_prev by (rewrite length_set_prev, length_set_next; lia).
    by rewrite pv_set_prev, pv_set_next by (rewrite length_set_next; lia).
Qed.

(** ** Moving a buffer to the front *)

Definition to_front (b : nat) (l : list nat) : list nat := b :: filter (fun x => x <> b) l.

Lemma to_front_split b l1 l2 :
  NoDup (l1 ++ b :: l2) -> to_front b (l1 ++ b :: l2) = b :: l1 ++ l2.
Proof.
  intros Hnd. unfold to_front. f_equal. rewrite filter_app, filter_cons, decide_False by auto.
  apply NoDup_app in Hnd as (_ & H1 & H2). apply NoDup_cons in H2 as [H2 _].
  rewrite !filter_all; [done|..]; set_solver.
Qed.

(** The links after [move_first]. *)
Definition moved (b p n x : nat) (bs : list buf) : list buf :=
  hooked b x (linked b x (set_next p n (set_prev n p bs))).

Lemma path_ends bs l b :
  path bs bhead l bhead -> b ∈ l -> Forall (fun i => (i < bhead)%nat) l ->
  exists p n, pv bs b = Some p /\ nx bs b = Some n /\ (p <= bhead)%nat /\ (n <= bhead)%nat.
Proof.
  intros Hp Hb Hl. apply list_elem_of_split in Hb as (l1 & l2 & ->).
  rewrite Forall_app, Forall_cons in Hl. destruct Hl as (H1 & Hb & H2).
  apply path_app in Hp as [Hp1 Hp2].
  assert (Hpv : exists p, pv bs b = Some p /\ (p <= bhead)%nat).
  { destruct l1 as [|p l1 _] using rev_ind; simpl in Hp1.
    - destruct Hp1. eauto.
    - apply path_app in Hp1 as [_ [_ Hq]]. exists p. split; [done|].
      rewrite Forall_app, Forall_cons in H1. lia. }
  assert (Hnx : exists n, nx bs b = Some n /\ (n <= bhead)%nat).
  { destruct l2 as [|n l2]; simpl in Hp2.
    - destruct Hp2. eauto.
    - destruct Hp2 as [[Hq _] _]. exists n. split; [done|].
      rewrite Forall_cons in H2. lia. }
  destruct Hpv as (p & ? & ?), Hnx as (n & ? & ?). by exists p, n.
Qed.

(** [move_first] makes [b] the first of the list and changes nothing but links. *)
Lemma move_first_run s f b l :
  ring (fs_bufs f) l -> (b < bhead)%nat ->
  exists bs', move_first b (s ⊕ f) = Ret tt (s ⊕ f <| fs_bufs := bs' |>)
    /\ ring bs' (to_front b l) /\ relinked (fs_bufs f) bs'.
Proof.
  intros Hr Hb. pose proof (ring_NoDup _ _ Hr) as Hnd. pose proof (ring_elem _ _ b Hr) as Hbl.
  pose proof (ring_len _ _ Hr) as Hlen. pose proof (ring_path _ _ Hr) as Hpath.
  assert (Hall : Forall (fun i => (i < bhead)%nat) l).
  { rewrite Forall_forall. intros i. by rewrite (ring_elem _ _ _ Hr). }
  destruct (path_ends _ _ b Hpath) as (p & n & Hp & Hn & Hpl & Hnl); [tauto|done|].
  set (bs2 := set_next p n (set_prev n p (fs_bufs f))).
  assert (Hl2 : length bs2 = S bhead) by (unfold bs2; by rewrite length_set_next, length_set_prev).
  assert (Hin : b ∈ l) by tauto. apply list_elem_of_split in Hin as (l1 & l2 & ->).
  assert (Hp2 : path bs2 bhead (l1 ++ l2) bhead).
  { apply (path_unlink (fs_bufs f) bs2 b l1 l2 p n); [done..| |]; intros c; unfold bs2.
    - by rewrite nx_set_next, nx_set_prev by (rewrite length_set_prev; lia).
    - by rewrite pv_set_next, pv_set_prev by lia. }
  apply NoDup_cons in Hnd as [Hnb Hnd].
  rewrite Forall_app, Forall_cons in Hall. destruct Hall as (Hl1 & _ & Hl2').
  assert (Hx : exists x, nx bs2 bhead = Some x /\ (x <= bhead)%nat).
  { destruct (l1 ++ l2) as [|x l'] eqn:E; simpl in Hp2.
    - destruct Hp2. eauto.
    - destruct Hp2 as [[Hx _] _]. exists x. split; [done|].
      assert (Hxl : x ∈ l1 ++ l2) by (rewrite E; set_solver).
      rewrite Forall_forall in Hl1, Hl2'. apply elem_of_app in Hxl as [Hxl|Hxl]; [apply Hl1 in Hxl|apply Hl2' in Hxl]; lia. }
  destruct Hx as (x & Hx & Hxl). exists (hooked b x (linked b x bs2)). split_and!.
  - unfold move_first, bind at 1. unfold nx in Hn. unfold pv in Hp.
    destruct (fs_bufs f !! b) as [y|] eqn:Hy; [|done]. simpl in Hn, Hp. simplify_eq.
    rewrite (get_buf_run _ _ _ _ Hy). cbn [obind].
    erewrite bind_Ret by (apply set_prev_run; lia).
    set (f1 := f <| fs_bufs := set_prev (b_next y) (b_prev y) (fs_bufs f) |>).
    destruct (get_nx s f1 b (b_next y)) as (y1 & E1 & Hy1).
    { simpl. rewrite nx_set_prev. unfold nx. by rewrite Hy. }
    erewrite bind_Ret by exact E1.
    assert (Hpy : b_prev y1 = b_prev y).
    { unfold get_buf, fetch in E1. simpl in E1.
      destruct (set_prev (b_next y) (b_prev y) (fs_bufs f) !! b) as [y2|] eqn:Hy2; [|done].
      injection E1 as ->. assert (Hpv : pv (set_prev (b_next y) (b_prev y) (fs_bufs f)) b = Some (b_prev y1))
        by (unfold pv; by rewrite Hy2).
      rewrite pv_set_prev in Hpv by lia. case_decide; [congruence|]. unfold pv in Hpv. rewrite Hy in Hpv.
      by injection Hpv. }
    rewrite Hy1, Hpy. erewrite bind_Ret by (apply set_next_run; simpl; rewrite length_set_prev; lia).
    erewrite bind_Ret by (by apply link_first_run).
    change (set_next (b_prev y) (b_next y) (fs_bufs f1)) with bs2. simpl.
    erewrite hook_first_run; [done| |exact Hxl|].
    + simpl. by rewrite length_linked.
    + simpl. by rewrite linked_head by lia.
  - rewrite to_front_split by done. split.
    + apply path_first; [done| |done..]. constructor; [set_solver|].
      apply NoDup_app in Hnd as (? & Hd & [? ?]%NoDup_cons). constructor; [set_solver|].
      apply NoDup_app. split_and!; [done| |done]. set_solver.
    + destruct Hr as [_ Hperm _]. rewrite <- Hperm. apply Permutation_middle.
    + unfold hooked. by rewrite length_set_next, length_set_prev, length_linked.
  - rewrite <- relinked_first. unfold bs2. rewrite <- relinked_set_next. apply relinked_set_prev.
Qed.
