(* ===== verification/BioSpec.v ===== *)
(** * What the buffer cache does

    First the search for a buffer and its recycling on the list of [Lru]; then the
    cache as seen by its clients: the disk, and the blocks that are in use with
    their reference counts and contents. *)

From S2P Require Import Prelude Bytes Params FsTypes Machine Spinlock ProcCore Mem Pres FsCore.
From S2P Require Import Sleeplock Calm Bio Lru.

(** ** The searches of bget() *)

Definition hits (bs : list buf) (dev bn : Z) (i : nat) : bool :=
  match bs !! i with Some x => (b_dev x =? dev) && (b_blockno x =? bn) | None => false end.

Definition unused (bs : list buf) (i : nat) : bool :=
  match bs !! i with Some x => b_refcnt x =? 0 | None => false end.

Lemma find_cached_run s f dev bn n a b l :
  length (fs_bufs f) = S bhead -> path (fs_bufs f) a l bhead ->
  Forall (fun i => (i < bhead)%nat) l -> (length l < n)%nat -> nx (fs_bufs f) a = Some b ->
  find_cached n b dev bn (s ⊕ f) = Ret (List.find (hits (fs_bufs f) dev bn) l) (s ⊕ f).
Proof.
  intros Hlen. revert n a b. induction l as [|x l IH]; intros n a b Hp Hl Hn Hb;
    (destruct n as [|n]; [simpl in Hn; lia|]); cbn [find_cached].
  - destruct Hp as [Hp _]. assert (b = bhead) by congruence. subst b. by rewrite decide_True.
  - destruct Hp as [[Hp _] Hq]. assert (b = x) by congruence. subst b.
    apply Forall_cons in Hl as [Hx Hl]. rewrite decide_False by lia.
    destruct (lookup_lt_is_Some_2 (fs_bufs f) x) as [y Hy]; [lia|].
    erewrite bind_Ret by by apply get_buf_run. cbn [List.find]. unfold hits at 1. rewrite Hy.
    case_if; [done|]. eapply IH; [done..|simpl in Hn; lia|]. unfold nx. by rewrite Hy.
Qed.

Lemma find_unused_buf_run s f n z b l :
  length (fs_bufs f) = S bhead -> path (fs_bufs f) bhead l z ->
  Forall (fun i => (i < bhead)%nat) l -> (length l < n)%nat -> pv (fs_bufs f) z = Some b ->
  find_unused_buf n b (s ⊕ f) = Ret (List.find (unused (fs_bufs f)) (reverse l)) (s ⊕ f).
Proof.
  intros Hlen. revert n z b. induction l as [|x l IH] using rev_ind; intros n z b Hp Hl Hn Hb;
    (destruct n as [|n]; [simpl in Hn; lia|]); cbn [find_unused_buf].
  - destruct Hp as [_ Hp]. assert (b = bhead) by congruence. subst b. by rewrite decide_True.
  - apply path_app in Hp as [Hp [_ Hq]]. assert (b = x) by congruence. subst b.
    apply Forall_app in Hl as [Hl [Hx _]%Forall_cons]. rewrite decide_False by lia.
    destruct (lookup_lt_is_Some_2 (fs_bufs f) x) as [y Hy]; [lia|].
    erewrite bind_Ret by by apply get_buf_run. rewrite reverse_snoc. cbn [List.find].
    unfold unused at 1. rewrite Hy. case_if; [done|].
    rewrite length_app in Hn. simpl in Hn.
    eapply IH; [exact Hp|done|lia|]. unfold pv. by rewrite Hy.
Qed.

(** What [bget] does to a buffer, and to its sleep lock. *)
Definition grabbed (x : buf) : buf := x <| b_refcnt := u32 (b_refcnt x + 1) |>.
Definition recycled (dev bn : Z) (x : buf) : buf :=
  x <| b_dev := dev |> <| b_blockno := bn |> <| b_valid := 0 |> <| b_refcnt := 1 |>.

Definition set_buf (b : nat) (x : buf) (f : fsst) : fsst := f <| fs_bufs := <[b := x]> (fs_bufs f) |>.
Definition set_sleep (a : Z) (x : sleeplock) (f : fsst) : fsst :=
  f <| fs_sleep := <[a := x]> (fs_sleep f) |>.

Lemma fs_lock_buf b : (b < bhead)%nat -> fs_lock (LkSleep (slp_buf b)).
Proof. intros H. left. unfold slp_buf, bhead in *. params. lia. Qed.

Section bget.
Context `{Fuel} (pid : Z) (s : kstate) (Hcalm : calm pid s) (Hfuel : (0 < fuel)%nat).
Context (f : fsst) (l : list nat) (Hring : ring (fs_bufs f) l).

Lemma ring_small : Forall (fun i => (i < bhead)%nat) l.
Proof. rewrite Forall_forall. intros i. by rewrite (ring_elem _ _ _ Hring). Qed.

Lemma ring_ends :
  exists hd, fs_bufs f !! bhead = Some hd /\ nx (fs_bufs f) bhead = Some (b_next hd)
    /\ pv (fs_bufs f) bhead = Some (b_prev hd).
Proof.
  destruct (ring_lookup _ _ bhead Hring) as [hd Hhd]; [lia|]. exists hd.
  unfold nx, pv. by rewrite Hhd.
Qed.

(** The part of [bget] up to the search. *)
Lemma bget_search dev bn :
  exists hd, bget dev bn (s ⊕ f) =
    (match List.find (hits (fs_bufs f) dev bn) l with
     | Some b =>
         upd_buf b (fun x => x <| b_refcnt := u32 (b_refcnt x + 1) |>);;
         release LkBcache;; acquiresleep (slp_buf b);; ret b
     | None =>
         unused ← find_unused_buf (S bhead) (b_prev hd);
         match unused with
         | Some b =>
             upd_buf b (recycled dev bn);;
             release LkBcache;; acquiresleep (slp_buf b);; ret b
         | None => panic "bget: no buffers"
         end
     end) (ksync (acquired LkBcache) s ⊕ f)
    /\ pv (fs_bufs f) bhead = Some (b_prev hd).
Proof.
  destruct ring_ends as (hd & Hhd & Hn & Hp). exists hd. split; [|done].
  unfold bget. erewrite bind_Ret by by eapply acquire_fs.
  erewrite bind_Ret by by apply get_buf_run.
  erewrite bind_Ret; [reflexivity|].
  apply (find_cached_run _ _ _ _ _ bhead); [apply Hring|apply Hring|apply ring_small| |done].
  rewrite (ring_length _ _ Hring). lia.
Qed.

Lemma bget_cached dev bn b x nm q :
  List.find (hits (fs_bufs f) dev bn) l = Some b -> fs_bufs f !! b = Some x -> (b < bhead)%nat ->
  fs_sleep f !! slp_buf b = Some (Sleeplock 0 nm q) ->
  bget dev bn (s ⊕ f)
  = Ret b (s ⊕ set_sleep (slp_buf b) (Sleeplock 1 nm pid) (set_buf b (grabbed x) f)).
Proof.
  intros Hf Hx Hb Hsl. destruct (bget_search dev bn) as (hd & -> & _). rewrite Hf.
  erewrite bind_Ret by by apply upd_buf_run.
  erewrite bind_Ret by by eapply release_fs.
  erewrite bind_Ret; [reflexivity|]. by eapply acquiresleep_run; [..|apply fs_lock_buf|].
Qed.

Lemma bget_recycled dev bn b x nm q :
  List.find (hits (fs_bufs f) dev bn) l = None ->
  List.find (unused (fs_bufs f)) (reverse l) = Some b -> fs_bufs f !! b = Some x -> (b < bhead)%nat ->
  fs_sleep f !! slp_buf b = Some (Sleeplock 0 nm q) ->
  bget dev bn (s ⊕ f)
  = Ret b (s ⊕ set_sleep (slp_buf b) (Sleeplock 1 nm pid) (set_buf b (recycled dev bn x) f)).
Proof.
  intros Hf Hu Hx Hb Hsl. destruct (bget_search dev bn) as (hd & -> & Hp). rewrite Hf.
  erewrite bind_Ret; [|apply (find_unused_buf_run _ _ _ bhead);
    [apply Hring|apply Hring|apply ring_small|rewrite (ring_length _ _ Hring); lia|done]].
  rewrite Hu. erewrite bind_Ret by by apply upd_buf_run.
  erewrite bind_Ret by by eapply release_fs.
  erewrite bind_Ret; [reflexivity|]. by eapply acquiresleep_run; [..|apply fs_lock_buf|].
Qed.

Lemma bget_full dev bn :
  List.find (hits (fs_bufs f) dev bn) l = None ->
  List.find (unused (fs_bufs f)) (reverse l) = None ->
  bget dev bn (s ⊕ f) = Stop (SPanic "bget: no buffers").
Proof.
  intros Hf Hu. destruct (bget_search dev bn) as (hd & -> & Hp). rewrite Hf.
  erewrite bind_Ret; [|apply (find_unused_buf_run _ _ _ bhead);
    [apply Hring|apply Hring|apply ring_small|rewrite (ring_length _ _ Hring); lia|done]].
  by rewrite Hu.
Qed.
End bget.

(** ** The disk, seen from the cache

    The contract of the driver: when [virtio_disk_rw()] returns, the block is on
    the disk, or in the buffer. *)
Definition disk_rw (b : nat) (write : bool) : M unit :=
  x ← get_buf b;
  if write then
    upd_fs (fun f => f <| fs_blocks := <[b_blockno x := b_data x]> (fs_blocks f) |>
                       <| fs_writes := (b_blockno x, b_data x) :: fs_writes f |>)
  else
    d ← fetch (fun s => fs_blocks (k_fs s) !! b_blockno x);
    upd_buf b (fun x => x <| b_data := d |>).

#[export] Instance sync_disk : DiskOps := {| op_virtio_disk_rw := disk_rw |}.

(** ** The cache, seen from its clients

    [A] gives the blocks in use with their reference counts and contents; every
    other block has the contents of the disk. [held] gives the locked buffers with
    the blocks they hold. *)

Notation blocks_in_use := (gmap Z (Z * list Z)).

Record cache (pid : Z) (f : fsst) (l : list nat) (A : blocks_in_use) (held : gmap nat Z) : Prop := {
  c_ring : ring (fs_bufs f) l;
  c_sleep b : (b < bhead)%nat ->
    fs_sleep f !! slp_buf b =
    Some (match held !! b with Some _ => Sleeplock 1 "buffer" pid | None => Sleeplock 0 "buffer" 0 end);
  c_used b x : (b < bhead)%nat -> fs_bufs f !! b = Some x -> b_refcnt x <> 0 ->
    b_dev x = ROOTDEV /\ b_valid x <> 0 /\ 0 < b_refcnt x
    /\ A !! b_blockno x = Some (b_refcnt x, b_data x);
  c_in_use bn rc d : A !! bn = Some (rc, d) ->
    exists b x, (b < bhead)%nat /\ fs_bufs f !! b = Some x /\ b_dev x = ROOTDEV
      /\ b_blockno x = bn /\ b_refcnt x = rc /\ rc <> 0;
  c_uniq b1 b2 x1 x2 : (b1 < bhead)%nat -> (b2 < bhead)%nat ->
    fs_bufs f !! b1 = Some x1 -> fs_bufs f !! b2 = Some x2 ->
    b_dev x1 = ROOTDEV -> b_dev x2 = ROOTDEV -> b_blockno x1 = b_blockno x2 -> b1 = b2;
  c_clean b x : (b < bhead)%nat -> fs_bufs f !! b = Some x -> b_refcnt x = 0 ->
    b_dev x = ROOTDEV -> b_valid x <> 0 -> fs_blocks f !! b_blockno x = Some (b_data x);
  c_held b bn : held !! b = Some bn ->
    (b < bhead)%nat /\ exists x, fs_bufs f !! b = Some x /\ b_blockno x = bn /\ b_refcnt x <> 0;
}.

Section cache.
Context {pid : Z} {f : fsst} {l : list nat} {A : blocks_in_use} {held : gmap nat Z}.
Context (Hc : cache pid f l A held).

Lemma cache_lookup b : (b < bhead)%nat -> exists x, fs_bufs f !! b = Some x.
Proof. intros Hb. apply (ring_lookup _ l); [apply Hc|lia]. Qed.

Lemma cache_pos bn rc d : A !! bn = Some (rc, d) -> 0 < rc.
Proof.
  intros HA. destruct (c_in_use _ _ _ _ _ Hc _ _ _ HA) as (b & x & Hb & Hx & _ & _ & Hrc & Hz).
  destruct (c_used _ _ _ _ _ Hc b x Hb Hx) as (_ & _ & ? & _); lia.
Qed.

(** The buffer of a locked block. *)
Lemma cache_held b bn :
  held !! b = Some bn ->
  exists x, (b < bhead)%nat /\ fs_bufs f !! b = Some x /\ b_blockno x = bn /\ b_dev x = ROOTDEV
    /\ b_valid x <> 0 /\ 0 < b_refcnt x /\ A !! bn = Some (b_refcnt x, b_data x).
Proof.
  intros Hh. destruct (c_held _ _ _ _ _ Hc _ _ Hh) as (Hb & x & Hx & <- & Hrc).
  destruct (c_used _ _ _ _ _ Hc _ _ Hb Hx Hrc) as (? & ? & ? & ?). by exists x.
Qed.

(** At most one search result. *)
Lemma hits_find bn b x :
  (b < bhead)%nat -> fs_bufs f !! b = Some x -> b_dev x = ROOTDEV -> b_blockno x = bn ->
  List.find (hits (fs_bufs f) ROOTDEV bn) l = Some b.
Proof.
  intros Hb Hx Hd Hbn. destruct (List.find _ l) as [b'|] eqn:E.
  - apply find_some in E as [Hin Hh]. apply list_elem_of_In in Hin.
    rewrite (ring_elem _ _ _ (c_ring _ _ _ _ _ Hc)) in Hin. unfold hits in Hh.
    destruct (fs_bufs f !! b') as [x'|] eqn:Hx'; [|done]. bool_to_prop. f_equal.
    eapply (c_uniq _ _ _ _ _ Hc); eauto; congruence.
  - apply (find_none _ _) with (x := b) in E.
    + unfold hits in E. rewrite Hx, Hd, Hbn, !Z.eqb_refl in E. done.
    + apply list_elem_of_In. by apply (ring_elem _ _ _ (c_ring _ _ _ _ _ Hc)).
Qed.

Lemma hits_some bn b :
  List.find (hits (fs_bufs f) ROOTDEV bn) l = Some b ->
  exists x, (b < bhead)%nat /\ fs_bufs f !! b = Some x /\ b_dev x = ROOTDEV /\ b_blockno x = bn.
Proof.
  intros E. apply find_some in E as [Hin Hh]. apply list_elem_of_In in Hin.
  rewrite (ring_elem _ _ _ (c_ring _ _ _ _ _ Hc)) in Hin. unfold hits in Hh.
  destruct (fs_bufs f !! b) as [x|] eqn:Hx; [|done]. bool_to_prop. by exists x.
Qed.

Lemma hits_none bn b x :
  List.find (hits (fs_bufs f) ROOTDEV bn) l = None -> (b < bhead)%nat ->
  fs_bufs f !! b = Some x -> b_dev x = ROOTDEV -> b_blockno x <> bn.
Proof. intros E Hb Hx Hd Hbn. by rewrite (hits_find bn b x) in E. Qed.

(** With [NBUF] blocks in use there is none. *)
Lemma no_unused :
  (bhead <= size A)%nat -> List.find (unused (fs_bufs f)) (reverse l) = None.
Proof.
  intros Hsz. destruct (List.find _ (reverse l)) as [b|] eqn:E; [|done]. exfalso.
  apply find_some in E as [Hin Hu]. apply list_elem_of_In in Hin. rewrite elem_of_reverse in Hin.
  rewrite (ring_elem _ _ _ (c_ring _ _ _ _ _ Hc)) in Hin.
  set (g b := match fs_bufs f !! b with Some x => b_blockno x | None => 0 end).
  set (used := filter (fun b => unused (fs_bufs f) b = false) bufids).
  assert (Hsub : elements (dom A) ⊆+ g <$> used).
  { apply NoDup_submseteq; [apply NoDup_elements|].
    intros bn Hbn. apply elem_of_elements, elem_of_dom in Hbn as [[rc d] HA].
    destruct (c_in_use _ _ _ _ _ Hc _ _ _ HA) as (b' & x & Hb' & Hx & _ & Hbn & Hrc & Hz).
    apply list_elem_of_fmap. exists b'. unfold g, used, unused. rewrite Hx. split; [done|].
    rewrite list_elem_of_filter, Hx, elem_of_bufids. split; [apply Z.eqb_neq; congruence|done]. }
  apply submseteq_length in Hsub. rewrite length_fmap in Hsub.
  change (length (elements (dom A))) with (size (dom A)) in Hsub. rewrite size_dom in Hsub.
  assert (length used < length bufids)%nat.
  { apply (length_filter_lt _ _ b); [by apply elem_of_bufids|]. by rewrite Hu. }
  unfold bufids in *. rewrite length_seq in *. lia.
Qed.

(** With fewer than [NBUF] blocks in use there is an unused buffer. *)
Lemma unused_find :
  (size A < bhead)%nat ->
  exists b x, List.find (unused (fs_bufs f)) (reverse l) = Some b /\ (b < bhead)%nat
    /\ fs_bufs f !! b = Some x /\ b_refcnt x = 0.
Proof.
  intros Hsz. destruct (List.find _ (reverse l)) as [b|] eqn:E.
  - apply find_some in E as [Hin Hu]. apply list_elem_of_In in Hin. rewrite elem_of_reverse in Hin.
    rewrite (ring_elem _ _ _ (c_ring _ _ _ _ _ Hc)) in Hin. unfold unused in Hu.
    destruct (fs_bufs f !! b) as [x|] eqn:Hx; [|done]. bool_to_prop. by exists b, x.
  - exfalso. set (g b := match fs_bufs f !! b with Some x => b_blockno x | None => 0 end).
    assert (Hall : forall b, (b < bhead)%nat -> exists x, fs_bufs f !! b = Some x /\ b_dev x = ROOTDEV
      /\ A !! b_blockno x = Some (b_refcnt x, b_data x)).
    { intros b Hb. destruct (cache_lookup b Hb) as [x Hx]. exists x.
      destruct (Z.eq_dec (b_refcnt x) 0) as [Hz|Hz].
      - apply (find_none _ _) with (x := b) in E.
        + unfold unused in E. by rewrite Hx, Hz in E.
        + apply list_elem_of_In. rewrite elem_of_reverse. by apply (ring_elem _ _ _ (c_ring _ _ _ _ _ Hc)).
      - destruct (c_used _ _ _ _ _ Hc _ _ Hb Hx Hz) as (? & ? & ? & ?). done. }
    assert (Hnd : NoDup (g <$> bufids)).
    { apply NoDup_fmap_2_strong; [|apply NoDup_seq]. intros b1 b2 Hb1 Hb2.
      rewrite elem_of_bufids in Hb1, Hb2.
      destruct (Hall b1 Hb1) as (x1 & Hx1 & ? & _), (Hall b2 Hb2) as (x2 & Hx2 & ? & _).
      unfold g. rewrite Hx1, Hx2. intros. by eapply (c_uniq _ _ _ _ _ Hc). }
    assert (Hsub : list_to_set (g <$> bufids) ⊆@{gset Z} dom A).
    { intros bn. rewrite elem_of_list_to_set, list_elem_of_fmap. intros (b & -> & Hb).
      apply elem_of_bufids in Hb. destruct (Hall b Hb) as (x & Hx & _ & HA).
      unfold g. rewrite Hx. by apply elem_of_dom_2 in HA. }
    apply subseteq_size in Hsub. rewrite size_list_to_set, size_dom, length_fmap in Hsub by done.
    unfold bufids in Hsub. rewrite length_seq in Hsub. lia.
Qed.
End cache.

(** ** The operations on the abstract cache *)

Lemma ring_insert bs l b x y :
  ring bs l -> bs !! b = Some x -> b_next y = b_next x -> b_prev y = b_prev x ->
  ring (<[b := y]> bs) l.
Proof.
  intros [Hp Ha Hl] Hx Hn Hv. assert (b < length bs)%nat by by eapply lookup_lt_Some.
  split; [|done|by rewrite length_insert]. revert Hp. apply path_ext; intros c _.
  - rewrite nx_insert by done. case_decide; [|done]. subst. unfold nx. by rewrite Hx, Hn.
  - rewrite pv_insert by done. case_decide; [|done]. subst. unfold pv. by rewrite Hx, Hv.
Qed.

(** A buffer [b] takes the contents [y], which is in use. *)
Lemma cache_put pid f l A held b x y :
  cache pid f l A held -> (b < bhead)%nat -> fs_bufs f !! b = Some x ->
  b_next y = b_next x -> b_prev y = b_prev x -> b_dev y = ROOTDEV -> b_valid y <> 0 ->
  0 < b_refcnt y -> (b_refcnt x <> 0 -> b_blockno x = b_blockno y) ->
  (forall b' x', (b' < bhead)%nat -> b' <> b -> fs_bufs f !! b' = Some x' -> b_dev x' = ROOTDEV ->
    b_blockno x' <> b_blockno y) ->
  cache pid (set_buf b y f) l (<[b_blockno y := (b_refcnt y, b_data y)]> A) held.
Proof.
  intros [Hr Hs Hu Hi Hq Hcl Hh] Hb Hx Hn Hp Hd Hv Hrc Hsame Huniq.
  assert (Hlt : (b < length (fs_bufs f))%nat) by by eapply lookup_lt_Some.
  assert (Hget : forall b' x', fs_bufs (set_buf b y f) !! b' = Some x' ->
    (b' = b /\ x' = y) \/ (b' <> b /\ fs_bufs f !! b' = Some x')).
  { intros b' x'. simpl. rewrite list_lookup_insert_if by done. case_decide; [|by right].
    intros [= <-]. by left. }
  split; simpl.
  - by eapply ring_insert.
  - done.
  - intros b' x' Hb' Hx' Hrc'. destruct (Hget _ _ Hx') as [[-> ->]|[Hne Hx2]].
    + by rewrite lookup_insert_eq.
    + destruct (Hu _ _ Hb' Hx2 Hrc') as (? & ? & ? & ?).
      rewrite lookup_insert_ne by (intros E; by apply (Huniq _ _ Hb' Hne Hx2)). done.
  - intros bn rc d. rewrite lookup_insert_Some. intros [[<- [= <- <-]]|[Hne HA]].
    + exists b, y. rewrite list_lookup_insert_eq by done. split_and!; (done || lia).
    + destruct (Hi _ _ _ HA) as (b' & x' & Hb' & Hx' & ? & ? & ? & ?). exists b', x'.
      split_and!; try done. rewrite list_lookup_insert_ne; [done|]. intros ->.
      assert (x' = x) by congruence. subst x'. apply Hne. rewrite <- Hsame by lia. done.
  - intros b1 b2 x1 x2 Hb1 Hb2 Hx1 Hx2 Hd1 Hd2 Hbn.
    destruct (Hget _ _ Hx1) as [[-> ->]|[Hn1 Hy1]], (Hget _ _ Hx2) as [[-> ->]|[Hn2 Hy2]].
    + done.
    + exfalso. by apply (Huniq _ _ Hb2 Hn2 Hy2).
    + exfalso. by apply (Huniq _ _ Hb1 Hn1 Hy1).
    + by eapply Hq.
  - intros b' x' Hb' Hx' Hz Hd' Hv'. destruct (Hget _ _ Hx') as [[-> ->]|[Hne Hx2]]; [lia|].
    by eapply Hcl.
  - intros b' bn Hb'. destruct (Hh _ _ Hb') as (? & x' & Hx' & Hbn & Hz). split; [done|].
    destruct (decide (b' = b)) as [->|Hne].
    + assert (x' = x) by congruence. subst x'. exists y. rewrite list_lookup_insert_eq by done.
      split_and!; [done| |lia]. rewrite <- Hsame by done. done.
    + exists x'. by rewrite list_lookup_insert_ne.
Qed.

(** Locking and unlocking a buffer. *)
Lemma cache_lock pid f l A held b x :
  cache pid f l A held -> (b < bhead)%nat -> fs_bufs f !! b = Some x -> b_refcnt x <> 0 ->
  cache pid (set_sleep (slp_buf b) (Sleeplock 1 "buffer" pid) f) l A
    (<[b := b_blockno x]> held).
Proof.
  intros [Hr Hs Hu Hi Hq Hcl Hh] Hb Hx Hz. split; simpl; try done.
  - intros b' Hb'. destruct (decide (b' = b)) as [->|Hne].
    + by rewrite !lookup_insert_eq.
    + rewrite !lookup_insert_ne; [by apply Hs|done|]. unfold slp_buf. lia.
  - intros b' bn. rewrite lookup_insert_Some. intros [[<- <-]|[_ H']]; [|by apply Hh].
    split; [done|]. by exists x.
Qed.

Lemma cache_unlock pid f l A held b :
  cache pid f l A held -> (b < bhead)%nat ->
  cache pid (set_sleep (slp_buf b) (Sleeplock 0 "buffer" 0) f) l A (delete b held).
Proof.
  intros [Hr Hs Hu Hi Hq Hcl Hh] Hb. split; simpl; try done.
  - intros b' Hb'. destruct (decide (b' = b)) as [->|Hne].
    + by rewrite lookup_insert_eq, lookup_delete_eq.
    + rewrite lookup_insert_ne, lookup_delete_ne; [by apply Hs|done|]. unfold slp_buf. lia.
  - intros b' bn. rewrite lookup_delete_Some. intros [_ H']. by apply Hh.
Qed.

(** The same, for a buffer in use that keeps its block. *)
Lemma cache_change pid f l A held b x y rc d :
  cache pid f l A held -> (b < bhead)%nat -> fs_bufs f !! b = Some x -> b_refcnt x <> 0 ->
  b_next y = b_next x -> b_prev y = b_prev x -> b_dev y = b_dev x -> b_valid y = b_valid x ->
  b_blockno y = b_blockno x -> b_refcnt y = rc -> b_data y = d -> 0 < rc ->
  cache pid (set_buf b y f) l (<[b_blockno x := (rc, d)]> A) held.
Proof.
  intros Hc Hb Hx Hz Hn Hp Hd Hv Hbn Hrc Hdat Hpos.
  destruct (c_used _ _ _ _ _ Hc _ _ Hb Hx Hz) as (Hdev & Hval & _).
  rewrite <- Hbn, <- Hrc, <- Hdat.
  apply cache_put with x; try (done || congruence || lia).
  intros b' x' Hb' Hne Hx' Hd' E. apply Hne.
  apply (c_uniq _ _ _ _ _ Hc b' b x' x); (done || congruence).
Qed.

(** The last reference to a clean block is dropped. *)
Lemma cache_drop pid f l A held b x y :
  cache pid f l A held -> (b < bhead)%nat -> fs_bufs f !! b = Some x -> b_refcnt x <> 0 ->
  held !! b = None -> y = x <| b_refcnt := 0 |> -> fs_blocks f !! b_blockno x = Some (b_data x) ->
  cache pid (set_buf b y f) l (delete (b_blockno x) A) held.
Proof.
  intros Hc Hb Hx Hz Hnb -> Hclean.
  destruct (c_used _ _ _ _ _ Hc _ _ Hb Hx Hz) as (Hdev & Hv & Hpos & HA).
  assert (Hlt : (b < length (fs_bufs f))%nat) by by eapply lookup_lt_Some.
  assert (Hget : forall b' x', fs_bufs (set_buf b (x <| b_refcnt := 0 |>) f) !! b' = Some x' ->
    (b' = b /\ x' = x <| b_refcnt := 0 |>) \/ (b' <> b /\ fs_bufs f !! b' = Some x')).
  { intros b' x'. simpl. rewrite list_lookup_insert_if by done. case_decide; [|by right].
    intros [= <-]. by left. }
  destruct Hc as [Hr Hs Hu Hi Hq Hcl Hh]. split; simpl.
  - by eapply ring_insert.
  - done.
  - intros b' x' Hb' Hx' Hrc'. destruct (Hget _ _ Hx') as [[-> ->]|[Hne Hx2]]; [done|].
    destruct (Hu _ _ Hb' Hx2 Hrc') as (? & ? & ? & ?). rewrite lookup_delete_ne; [done|].
    intros E. apply Hne. by eapply Hq.
  - intros bn rc d. rewrite lookup_delete_Some. intros [Hne HAb].
    destruct (Hi _ _ _ HAb) as (b' & x' & Hb' & Hx' & ? & ? & ? & ?). exists b', x'.
    split_and!; try done. rewrite list_lookup_insert_ne; [done|]. congruence.
  - intros b1 b2 x1 x2 Hb1 Hb2 Hx1 Hx2 Hd1 Hd2 Hbn.
    destruct (Hget _ _ Hx1) as [[-> ->]|[Hn1 Hy1]], (Hget _ _ Hx2) as [[-> ->]|[Hn2 Hy2]];
      by eapply Hq.
  - intros b' x' Hb' Hx' Hz' Hd' Hv'. destruct (Hget _ _ Hx') as [[-> ->]|[Hne Hx2]]; [done|].
    by eapply Hcl.
  - intros b' bn Hb'. destruct (Hh _ _ Hb') as (? & x' & Hx' & Hbn & Hz'). split; [done|].
    exists x'. rewrite list_lookup_insert_ne; [done|]. congruence.
Qed.

(** The cache does not depend on the order of the buffers. *)
Lemma cache_relinked pid f l A held bs' l' :
  cache pid f l A held -> relinked (fs_bufs f) bs' -> ring bs' l' ->
  cache pid (f <| fs_bufs := bs' |>) l' A held.
Proof.
  intros [Hr Hs Hu Hi Hq Hcl Hh] Hl Hr'.
  assert (Hback : forall b x', bs' !! b = Some x' -> exists x, fs_bufs f !! b = Some x
    /\ b_valid x = b_valid x' /\ b_dev x = b_dev x' /\ b_blockno x = b_blockno x'
    /\ b_refcnt x = b_refcnt x' /\ b_data x = b_data x').
  { intros b x' Hx'. symmetry in Hl. destruct (relinked_lookup _ _ _ _ Hl Hx') as (x & Hx & E).
    exists x. destruct x, x'. unfold strip in E. simpl in *. by injection E as -> -> -> -> -> ->. }
  assert (Hforth : forall b x, fs_bufs f !! b = Some x -> exists x', bs' !! b = Some x'
    /\ b_dev x = b_dev x' /\ b_blockno x = b_blockno x' /\ b_refcnt x = b_refcnt x').
  { intros b x Hx. destruct (relinked_lookup _ _ _ _ Hl Hx) as (x' & Hx' & E).
    exists x'. destruct x, x'. unfold strip in E. simpl in *. by injection E as -> -> -> -> -> ->. }
  split; simpl; try done.
  - intros b x' Hb Hx' Hz. destruct (Hback _ _ Hx') as (x & Hx & <- & <- & <- & Hrc & <-).
    rewrite <- Hrc in *. by apply Hu with b.
  - intros bn rc d HA. destruct (Hi _ _ _ HA) as (b & x & Hb & Hx & Hd & Hbn & Hrc & Hz).
    destruct (Hforth _ _ Hx) as (x' & Hx' & E1 & E2 & E3). exists b, x'. split_and!; congruence.
  - intros b1 b2 x1 x2 Hb1 Hb2 Hx1 Hx2 Hd1 Hd2 Hbn.
    destruct (Hback _ _ Hx1) as (y1 & ? & _ & ? & ? & _), (Hback _ _ Hx2) as (y2 & ? & _ & ? & ? & _).
    eapply (Hq b1 b2 y1 y2); congruence.
  - intros b x' Hb Hx' Hz Hd Hv. destruct (Hback _ _ Hx') as (x & Hx & E1 & E2 & E3 & E4 & E5).
    rewrite <- E3, <- E5. eapply Hcl; try done; congruence.
  - intros b bn Hb. destruct (Hh _ _ Hb) as (? & x & Hx & Hbn & Hz). split; [done|].
    destruct (Hforth _ _ Hx) as (x' & Hx' & E1 & E2 & E3). exists x'. split_and!; congruence.
Qed.

(** A block in use is written to the disk. *)
Lemma cache_flush pid f l A held bn rc d :
  cache pid f l A held -> A !! bn = Some (rc, d) ->
  cache pid (f <| fs_blocks := <[bn := d]> (fs_blocks f) |>
               <| fs_writes := (bn, d) :: fs_writes f |>) l A held.
Proof.
  intros [Hr Hs Hu Hi Hq Hcl Hh] HA. split; simpl; try done.
  intros b x Hb Hx Hz Hdev Hv. rewrite lookup_insert_ne; [by eapply Hcl|].
  intros E. destruct (Hi _ _ _ HA) as (b' & x' & Hb' & Hx' & Hd' & Hbn' & Hrc' & Hz').
  assert (b' = b) by (eapply Hq; eauto; congruence). subst b'. congruence.
Qed.

(** [f] with other buffers and locks of buffers: all that the cache changes. *)
Definition same_disk (f f' : fsst) : Prop :=
  f' = f <| fs_bufs := fs_bufs f' |> <| fs_sleep := fs_sleep f' |>
  /\ forall a, NBUF <= a -> fs_sleep f' !! a = fs_sleep f !! a.

Lemma same_disk_trans f g h : same_disk f g -> same_disk g h -> same_disk f h.
Proof.
  intros [E1 S1] [E2 S2]. split; [by rewrite E2, E1|]. intros a Ha. by rewrite S2, S1.
Qed.

Lemma same_blocks f f' : same_disk f f' -> fs_blocks f' = fs_blocks f.
Proof. by intros [-> _]. Qed.

Lemma same_log f f' : same_disk f f' -> fs_log f' = fs_log f.
Proof. by intros [-> _]. Qed.

(** A buffer and its lock change. *)
Lemma same_disk_buf b y f : same_disk f (set_buf b y f).
Proof. done. Qed.

Lemma same_disk_sleep b x f : (b < bhead)%nat -> same_disk f (set_sleep (slp_buf b) x f).
Proof.
  intros Hb. split; [done|]. intros a Ha. simpl. apply lookup_insert_ne. unfold slp_buf, bhead in *. lia.
Qed.

(** The reference count and the contents of a block once it is read. *)
Definition one_more (A : blocks_in_use) (bn : Z) (d : list Z) : Z * list Z :=
  match A !! bn with Some (rc, d') => (rc + 1, d') | None => (1, d) end.

(** [virtio_disk_rw(b, 0); b->valid = 1;], when the buffer is not valid. *)
Definition filled (d : list Z) (x : buf) : buf :=
  if b_valid x =? 0 then x <| b_data := d |> <| b_valid := 1 |> else x.

(** The buffer [b], now [x], can become [y], which holds the block [bn]. *)
Record takes (f : fsst) (A : blocks_in_use) (held : gmap nat Z) (bn : Z) (d : list Z)
    (b : nat) (x y : buf) : Prop := {
  t_bound : (b < bhead)%nat;
  t_old : fs_bufs f !! b = Some x;
  t_free : held !! b = None;
  t_links : b_next y = b_next x /\ b_prev y = b_prev x;
  t_block : b_dev y = ROOTDEV /\ b_blockno y = bn;
  t_refs : b_refcnt y = fst (one_more A bn d);
  t_data : b_data (filled d y) = snd (one_more A bn d);
  t_same : b_refcnt x <> 0 -> b_blockno x = bn;
  t_alone b' x' : (b' < bhead)%nat -> b' <> b -> fs_bufs f !! b' = Some x' ->
    b_dev x' = ROOTDEV -> b_blockno x' <> bn;
}.

Section get.
Context {pid : Z} {f : fsst} {l : list nat} {A : blocks_in_use} {held : gmap nat Z}.
Context (Hc : cache pid f l A held) (bn : Z) (d : list Z).
Context (Hd : fs_blocks f !! bn = Some d) (Hfree : forall b, held !! b <> Some bn).

Lemma takes_cached b x :
  (forall rc d', A !! bn = Some (rc, d') -> rc < 1000) ->
  List.find (hits (fs_bufs f) ROOTDEV bn) l = Some b -> fs_bufs f !! b = Some x ->
  takes f A held bn d b x (grabbed x).
Proof.
  intros Hrc Ef Hx. destruct (hits_some Hc bn b Ef) as (x0 & Hb & Hx0 & Hdev & Hbn).
  assert (x0 = x) by congruence. subst x0.
  assert (Hold : b_refcnt x <> 0 ->
    A !! bn = Some (b_refcnt x, b_data x) /\ b_valid x <> 0 /\ 0 < b_refcnt x).
  { intros Hz. destruct (c_used _ _ _ _ _ Hc _ _ Hb Hx Hz) as (_ & ? & ? & HA).
    rewrite Hbn in HA. done. }
  assert (Hnew : b_refcnt x = 0 -> A !! bn = None).
  { intros Hz. destruct (A !! bn) as [[rc d']|] eqn:EA; [|done].
    destruct (c_in_use _ _ _ _ _ Hc _ _ _ EA) as (b' & x' & ? & ? & ? & ? & ? & ?).
    assert (b' = b) by (eapply (c_uniq _ _ _ _ _ Hc); eauto; congruence). subst b'.
    assert (x' = x) by congruence. subst x'. lia. }
  split; try done.
  - destruct (held !! b) as [bn'|] eqn:E; [|done].
    destruct (c_held _ _ _ _ _ Hc _ _ E) as (_ & x' & ? & ? & _). simplify_eq.
    exfalso. by eapply Hfree.
  - unfold one_more, grabbed. simpl. destruct (Z.eq_dec (b_refcnt x) 0) as [Hz|Hz].
    + by rewrite (Hnew Hz), Hz.
    + destruct (Hold Hz) as (HA & _ & ?). rewrite HA. apply Hrc in HA. apply u32_small. simpl in *. lia.
  - unfold one_more, filled. destruct (Z.eq_dec (b_refcnt x) 0) as [Hz|Hz].
    + rewrite (Hnew Hz). simpl. case_if; [done|]. bool_to_prop. simpl.
      pose proof (c_clean _ _ _ _ _ Hc _ _ Hb Hx Hz Hdev Hif). congruence.
    + destruct (Hold Hz) as (-> & Hv & _). simpl. by rewrite (proj2 (Z.eqb_neq _ _) Hv).
  - intros b' x' Hb' Hne Hx' Hd' E. apply Hne. eapply (c_uniq _ _ _ _ _ Hc); eauto. congruence.
Qed.

Lemma takes_recycled :
  (size A < bhead)%nat \/ bn ∈ dom A -> List.find (hits (fs_bufs f) ROOTDEV bn) l = None ->
  exists b x, List.find (unused (fs_bufs f)) (reverse l) = Some b
    /\ takes f A held bn d b x (recycled ROOTDEV bn x).
Proof.
  intros Hroom Ef. assert (HAn : A !! bn = None).
  { destruct (A !! bn) as [[rc d']|] eqn:EA; [|done].
    destruct (c_in_use _ _ _ _ _ Hc _ _ _ EA) as (b' & x' & ? & ? & ? & ? & ? & ?).
    exfalso. by eapply (hits_none Hc bn b' x'). }
  destruct (unused_find Hc) as (b & x & Eu & Hb & Hx & Hz).
  { destruct Hroom as [|Hin]; [done|]. apply elem_of_dom in Hin as [? ?]. congruence. }
  exists b, x. split; [done|]. split; try (done || congruence).
  - destruct (held !! b) as [bn'|] eqn:E; [|done].
    destruct (c_held _ _ _ _ _ Hc _ _ E) as (_ & x' & ? & ? & ?). congruence.
  - unfold one_more. by rewrite HAn.
  - unfold one_more. by rewrite HAn.
  - intros b' x' Hb' Hne Hx' Hd'. by eapply (hits_none Hc bn b' x').
Qed.

(** Once filled and locked, the buffer is part of the cache. *)
Lemma takes_cache b x y :
  takes f A held bn d b x y -> 0 < b_refcnt y ->
  cache pid (set_sleep (slp_buf b) (Sleeplock 1 "buffer" pid) (set_buf b (filled d y) f)) l
    (<[bn := one_more A bn d]> A) (<[b := bn]> held).
Proof.
  intros [Hb Hx Hnb [Hn Hp] [Hdev Hbn] Hr Hdata Hsame Halone] Hpos.
  assert (Hf : b_next (filled d y) = b_next x /\ b_prev (filled d y) = b_prev x
    /\ b_dev (filled d y) = ROOTDEV /\ b_blockno (filled d y) = bn
    /\ b_refcnt (filled d y) = b_refcnt y /\ b_valid (filled d y) <> 0).
  { unfold filled. case_if; bool_to_prop; simpl; split_and!; (done || congruence). }
  destruct Hf as (Hfn & Hfp & Hfd & Hfb & Hfr & Hfv).
  assert (E : one_more A bn d = (b_refcnt (filled d y), b_data (filled d y))).
  { rewrite Hfr, Hr, Hdata. apply surjective_pairing. }
  rewrite E. rewrite <- Hfb at 2.
  apply cache_lock; [|done|simpl; apply list_lookup_insert_eq; by eapply lookup_lt_Some|lia].
  rewrite <- Hfb at 1.
  eapply cache_put; try done; [lia|intros Hz; by rewrite Hsame|]. rewrite Hfb. done.
Qed.
End get.

Section operations.
Context `{Fuel} (pid : Z) (s : kstate) (Hcalm : calm pid s) (Hfuel : (0 < fuel)%nat).

Lemma fill_run f b x d :
  fs_bufs f !! b = Some x -> fs_blocks f !! b_blockno x = Some d ->
  (x ← get_buf b;
   when (negb (truthy (b_valid x)))
     (op_virtio_disk_rw b false;; upd_buf b (fun x => x <| b_valid := 1 |>));;
   ret b) (s ⊕ f) = Ret b (s ⊕ set_buf b (filled d x) f).
Proof.
  intros Hx Hd. erewrite bind_Ret by by apply get_buf_run.
  assert (Hlt : (b < length (fs_bufs f))%nat) by by eapply lookup_lt_Some.
  erewrite bind_Ret; [reflexivity|]. unfold filled, truthy. destruct (b_valid x =? 0); simpl.
  - erewrite bind_Ret; [|unfold disk_rw; erewrite bind_Ret by (by apply get_buf_run);
      erewrite bind_Ret by (unfold fetch; simpl; by rewrite Hd); by apply upd_buf_run].
    erewrite upd_buf_run by by apply list_lookup_insert_eq. simpl.
    by rewrite list_insert_insert_eq.
  - unfold set_buf. rewrite list_insert_id by done. by destruct f.
Qed.

(** [bread] returns a locked buffer with the contents of the block: the cached
    contents, if the block is in use, and those of the disk otherwise. *)
Lemma bread_run f l A held bn d :
  cache pid f l A held -> fs_blocks f !! bn = Some d -> (forall b, held !! b <> Some bn) ->
  (size A < bhead)%nat \/ bn ∈ dom A ->
  (forall rc d', A !! bn = Some (rc, d') -> rc < 1000) ->
  exists b f', bread ROOTDEV bn (s ⊕ f) = Ret b (s ⊕ f') /\ same_disk f f' /\ held !! b = None
    /\ cache pid f' l (<[bn := one_more A bn d]> A) (<[b := bn]> held).
Proof.
  intros Hc Hd Hfree Hroom Hrc.
  assert (Hget : exists b x y, takes f A held bn d b x y
    /\ bget ROOTDEV bn (s ⊕ f)
       = Ret b (s ⊕ set_sleep (slp_buf b) (Sleeplock 1 "buffer" pid) (set_buf b y f))).
  { destruct (List.find (hits (fs_bufs f) ROOTDEV bn) l) as [b|] eqn:Ef.
    - destruct (hits_some Hc bn b Ef) as (x & Hb & Hx & _).
      pose proof (takes_cached Hc bn d Hd Hfree b x Hrc Ef Hx) as Ht. exists b, x, (grabbed x).
      split; [done|]. eapply bget_cached; try done; [apply Hc|].
      rewrite (c_sleep _ _ _ _ _ Hc b Hb), (t_free _ _ _ _ _ _ _ _ Ht). done.
    - destruct (takes_recycled Hc bn d Hroom Ef) as (b & x & Eu & Ht).
      exists b, x, (recycled ROOTDEV bn x). split; [done|].
      pose proof (t_bound _ _ _ _ _ _ _ _ Ht) as Hb.
      eapply bget_recycled; try done; [apply Hc|apply Ht|].
      rewrite (c_sleep _ _ _ _ _ Hc b Hb), (t_free _ _ _ _ _ _ _ _ Ht). done. }
  destruct Hget as (b & x & y & Ht & E).
  assert (Hlt : (b < length (fs_bufs f))%nat) by (eapply lookup_lt_Some; apply Ht).
  eexists b, _. split_and!; [..|apply (takes_cache Hc bn d b x y Ht)].
  - unfold bread. rewrite (bind_Ret _ _ _ _ _ E). erewrite fill_run.
    + unfold set_buf, set_sleep. simpl. by rewrite list_insert_insert_eq.
    + by apply list_lookup_insert_eq.
    + simpl. by rewrite (proj2 (t_block _ _ _ _ _ _ _ _ Ht)).
  - eapply same_disk_trans; [apply same_disk_buf|]. apply same_disk_sleep, (t_bound _ _ _ _ _ _ _ _ Ht).
  - apply Ht.
  - rewrite (t_refs _ _ _ _ _ _ _ _ Ht). unfold one_more.
    destruct (A !! bn) as [[rc d']|] eqn:EA; [|done]. simpl.
    pose proof (cache_pos Hc _ _ _ EA). lia.
Qed.

(** With every buffer in use, a block that is not cached cannot be read. *)
Lemma bread_full f l A held bn :
  cache pid f l A held -> (bhead <= size A)%nat -> A !! bn = None ->
  bread ROOTDEV bn (s ⊕ f) = Stop (SPanic "bget: no buffers").
Proof.
  intros Hc Hsz HA. unfold bread, bind at 1.
  rewrite (bget_full pid s Hcalm Hfuel f l (c_ring _ _ _ _ _ Hc)); [done| |by apply (no_unused Hc)].
  destruct (List.find _ l) as [b|] eqn:Ef; [|done]. exfalso.
  destruct (hits_some Hc bn b Ef) as (x & Hb & Hx & Hdev & Hbn).
  assert (Hz : b_refcnt x <> 0).
  { pose proof (no_unused Hc Hsz) as Hn. apply (find_none _ _) with (x := b) in Hn.
    - unfold unused in Hn. rewrite Hx in Hn. by bool_to_prop.
    - apply list_elem_of_In. rewrite elem_of_reverse. by apply (ring_elem _ _ _ (c_ring _ _ _ _ _ Hc)). }
  destruct (c_used _ _ _ _ _ Hc _ _ Hb Hx Hz) as (_ & _ & _ & HA'). congruence.
Qed.

(** The operations on a locked buffer. *)
Section held.
Context {f : fsst} {l : list nat} {A : blocks_in_use} {held : gmap nat Z}.
Context (Hc : cache pid f l A held) {b : nat} {bn rc : Z} {d : list Z}.
Context (Hb : held !! b = Some bn) (HA : A !! bn = Some (rc, d)).

Lemma held_buf :
  exists x, (b < bhead)%nat /\ fs_bufs f !! b = Some x /\ b_blockno x = bn /\ b_dev x = ROOTDEV
    /\ b_valid x <> 0 /\ b_refcnt x = rc /\ b_data x = d /\ 0 < rc.
Proof.
  destruct (c_held _ _ _ _ _ Hc _ _ Hb) as (Hlt & x & Hx & Hbn & Hz).
  destruct (c_used _ _ _ _ _ Hc _ _ Hlt Hx Hz) as (? & ? & ? & HA').
  rewrite Hbn, HA in HA'. injection HA' as -> ->. by exists x.
Qed.

Lemma get_data_run : get_data b (s ⊕ f) = Ret d (s ⊕ f).
Proof.
  destruct held_buf as (x & _ & Hx & _ & _ & _ & _ & <- & _). unfold get_data.
  by erewrite bind_Ret by by apply get_buf_run.
Qed.

Lemma set_data_run d' :
  exists f', set_data b d' (s ⊕ f) = Ret tt (s ⊕ f') /\ same_disk f f'
    /\ cache pid f' l (<[bn := (rc, d')]> A) held.
Proof.
  destruct held_buf as (x & Hlt & Hx & Hbn & Hdev & Hv & Hrc & Hd & Hpos).
  exists (set_buf b (x <| b_data := d' |>) f). split_and!; [|done|].
  - by apply upd_buf_run.
  - rewrite <- Hbn. by eapply (cache_change _ _ _ _ _ _ x); try lia.
Qed.

Lemma held_sleep : fs_sleep f !! slp_buf b = Some (Sleeplock 1 "buffer" pid).
Proof.
  destruct held_buf as (x & Hlt & _). by rewrite (c_sleep _ _ _ _ _ Hc b Hlt), Hb.
Qed.

Lemma bwrite_run :
  bwrite b (s ⊕ f)
  = Ret tt (s ⊕ f <| fs_blocks := <[bn := d]> (fs_blocks f) |>
                  <| fs_writes := (bn, d) :: fs_writes f |>).
Proof.
  pose proof held_sleep as Hsl. destruct held_buf as (x & Hlt & Hx & <- & _ & _ & _ & <- & _).
  unfold bwrite. erewrite bind_Ret by (eapply holdingsleep_run; [done|by apply fs_lock_buf|done]).
  simpl. unfold disk_rw. by erewrite bind_Ret by by apply get_buf_run.
Qed.

Lemma brelse_run :
  rc < 1000 -> (rc = 1 -> fs_blocks f !! bn = Some d) ->
  exists f' l', brelse b (s ⊕ f) = Ret tt (s ⊕ f') /\ same_disk f f'
    /\ l' = (if rc =? 1 then to_front b l else l)
    /\ cache pid f' l' (if rc =? 1 then delete bn A else <[bn := (rc - 1, d)]> A) (delete b held).
Proof.
  intros Hsmall Hdisk. destruct held_buf as (x & Hlt & Hx & Hbn & Hdev & Hv & Hrc & Hd & Hpos).
  assert (Hl : (b < length (fs_bufs f))%nat) by by eapply lookup_lt_Some.
  set (f1 := set_sleep (slp_buf b) (Sleeplock 0 "buffer" 0) f).
  assert (Hc1 : cache pid f1 l A (delete b held)) by by apply cache_unlock.
  assert (Hs1 : same_disk f f1) by by apply same_disk_sleep.
  unfold brelse.
  erewrite bind_Ret by (eapply holdingsleep_run; [done|by apply fs_lock_buf|by apply held_sleep]).
  simpl. erewrite bind_Ret
    by (eapply releasesleep_run; [done|by apply fs_lock_buf|by apply held_sleep]).
  erewrite bind_Ret by by eapply acquire_fs.
  erewrite bind_Ret by by apply (upd_buf_run _ f1).
  erewrite bind_Ret by (apply get_buf_run; by apply list_lookup_insert_eq). simpl.
  assert (E : u32 (b_refcnt x - 1) = rc - 1) by (rewrite Hrc; apply u32_small; lia).
  rewrite E. destruct (Z.eqb_spec rc 1) as [H1|H1].
  - replace (rc - 1) with 0 by lia. simpl.
    assert (Hc2 : cache pid (set_buf b (x <| b_refcnt := 0 |>) f1) l (delete bn A) (delete b held)).
    { rewrite <- Hbn. eapply cache_drop; try done; [lia|apply lookup_delete_eq|].
      simpl. rewrite Hbn, Hd. auto. }
    edestruct (move_first_run (ksync (acquired LkBcache) s) _ b l (c_ring _ _ _ _ _ Hc2))
      as (bs' & Hm & Hr & Hrl); [done|].
    eexists _, _. split_and!; [|..|exact (cache_relinked _ _ _ _ _ _ _ Hc2 Hrl Hr)];
      [|split; [done|apply Hs1]|done].
    erewrite bind_Ret by exact Hm. by eapply release_fs.
  - replace (rc - 1 =? 0) with false by lia. simpl.
    eexists (set_buf b (x <| b_refcnt := rc - 1 |>) f1), l. split_and!; [|split; [done|apply Hs1]|done|].
    + erewrite bind_Ret by done. by eapply release_fs.
    + rewrite <- Hbn. by eapply (cache_change _ _ _ _ _ _ x); try lia.
Qed.

(** [bpin] and [bunpin] change the reference count. *)
Lemma recount_run s' rc' :
  0 < rc' ->
  exists x, fs_bufs f !! b = Some x /\ b_refcnt x = rc
    /\ same_disk f (set_buf b (x <| b_refcnt := rc' |>) f)
    /\ upd_buf b (fun x => x <| b_refcnt := rc' |>) (s' ⊕ f)
       = Ret tt (s' ⊕ set_buf b (x <| b_refcnt := rc' |>) f)
    /\ cache pid (set_buf b (x <| b_refcnt := rc' |>) f) l (<[bn := (rc', d)]> A) held.
Proof.
  intros Hpos'. destruct held_buf as (x & Hlt & Hx & Hbn & Hdev & Hv & Hrc & Hd & Hpos).
  exists x. split_and!; try done; [by erewrite upd_buf_run|]. rewrite <- Hbn.
  by eapply (cache_change _ _ _ _ _ _ x); try lia.
Qed.

Lemma bpin_run :
  rc < 1000 ->
  exists f', bpin b (s ⊕ f) = Ret tt (s ⊕ f') /\ same_disk f f'
    /\ cache pid f' l (<[bn := (rc + 1, d)]> A) held.
Proof.
  intros Hsmall. destruct held_buf as (y & _ & Hy & _ & _ & _ & Hrc & _ & Hpos).
  destruct (recount_run (ksync (acquired LkBcache) s) (rc + 1)) as (x & Hx & _ & Hs & E & Hc');
    [lia|].
  eexists. split_and!; [|exact Hs|exact Hc']. unfold bpin.
  erewrite bind_Ret by by eapply acquire_fs. erewrite bind_Ret; [by eapply release_fs|].
  rewrite <- E. erewrite !upd_buf_run by done. simpl. do 4 f_equal.
  assert (x = y) by congruence. subst x. rewrite Hrc, u32_small by lia. done.
Qed.

Lemma bunpin_run :
  1 < rc < 1000 ->
  exists f', bunpin b (s ⊕ f) = Ret tt (s ⊕ f') /\ same_disk f f'
    /\ cache pid f' l (<[bn := (rc - 1, d)]> A) held.
Proof.
  intros Hsmall. destruct held_buf as (y & _ & Hy & _ & _ & _ & Hrc & _ & Hpos).
  destruct (recount_run (ksync (acquired LkBcache) s) (rc - 1)) as (x & Hx & _ & Hs & E & Hc');
    [lia|].
  eexists. split_and!; [|exact Hs|exact Hc']. unfold bunpin.
  erewrite bind_Ret by by eapply acquire_fs. erewrite bind_Ret; [by eapply release_fs|].
  rewrite <- E. erewrite !upd_buf_run by done. simpl. do 4 f_equal.
  assert (x = y) by congruence. subst x. rewrite Hrc, u32_small by lia. done.
Qed.
End held.
End operations.

(** ** The initial cache *)

(** A loop with an invariant over the number of elements visited. *)
Lemma for_each_index {B} (xs : list B) (body : B -> M unit) (I : nat -> kstate -> Prop) s :
  I 0%nat s ->
  (forall i x s, xs !! i = Some x -> I i s -> exists s', body x s = Ret tt s' /\ I (S i) s') ->
  exists s', for_each xs body s = Ret tt s' /\ I (length xs) s'.
Proof.
  revert I s. induction xs as [|x xs IH]; intros I s H0 Hstep; [by exists s|]. simpl.
  destruct (Hstep 0%nat x s) as (s1 & E & H1); [done..|]. rewrite (bind_Ret _ _ _ _ _ E).
  apply (IH (fun i => I (S i))); [done|]. intros i y s2 Hy. by apply (Hstep (S i)).
Qed.

(** [initlock] makes the lock free, and the other locks stay as they are. *)
Lemma initlock_run l name s f :
  exists y, initlock l name (s ⊕ f) = Ret tt (ksync (fun _ => y) s ⊕ f)
    /\ lock_free l y /\ forall l', lock_free l' (k_sync s) -> lock_free l' y.
Proof.
  eexists. split; [unfold initlock; reflexivity|]. unfold lock_free. simpl. split.
  - exists name. apply lookup_insert_eq.
  - intros l' [nm E]. destruct (decide (l = l')) as [->|]; [|exists nm; by rewrite lookup_insert_ne].
    exists name. apply lookup_insert_eq.
Qed.

(** The state of [binit] after [i] buffers. *)
Record building (s : kstate) (f : fsst) (i : nat) (y : syncst) (f' : fsst) : Prop := {
  bd_same : same_disk f f';
  bd_relinked : relinked (fs_bufs f) (fs_bufs f');
  bd_path : path (fs_bufs f') bhead (reverse (seq 0 i)) bhead;
  bd_sleep b : (b < i)%nat -> fs_sleep f' !! slp_buf b = Some (Sleeplock 0 "buffer" 0);
  bd_locks : lock_free LkBcache y /\ forall b, (b < i)%nat -> lock_free (LkSleep (slp_buf b)) y;
}.

Section binit.
Context (s : kstate) (f : fsst) (Hlen : length (fs_bufs f) = S bhead).

Lemma set_slp_run s1 f1 a x :
  set_slp a x (s1 ⊕ f1) = Ret tt (s1 ⊕ f1 <| fs_sleep := <[a := x]> (fs_sleep f1) |>).
Proof. done. Qed.

Lemma path_head_next bs l : path bs bhead l bhead -> exists x, nx bs bhead = Some x /\ (x = bhead \/ x ∈ l).
Proof.
  destruct l as [|x l]; simpl; [intros [? _]; by exists bhead; auto|].
  intros [[? _] _]. exists x. split; [done|]. right. left.
Qed.

Lemma binit_step i y f1 :
  (i < bhead)%nat -> building s f i y f1 ->
  exists y' f2, (link_first i;; initsleeplock (slp_buf i) "buffer";; hook_first i)
      (ksync (fun _ => y) s ⊕ f1) = Ret tt (ksync (fun _ => y') s ⊕ f2)
    /\ building s f (S i) y' f2.
Proof.
  intros Hi [Hs Hr Hp Hsl [Hlk Hlks]].
  assert (Hl1 : length (fs_bufs f1) = S bhead) by by rewrite <- (relinked_length _ _ Hr).
  destruct (path_head_next _ _ Hp) as (x & Hx & Hin).
  assert (Hxl : (x <= bhead)%nat).
  { destruct Hin as [->|Hin]; [lia|]. rewrite elem_of_reverse, elem_of_seq in Hin. lia. }
  erewrite bind_Ret by by apply link_first_run.
  unfold initsleeplock. edestruct (initlock_run (LkSleep (slp_buf i)) "sleep lock") as (y' & E & Hy & Hyo).
  erewrite bind_Ret by (erewrite bind_Ret by exact E; apply set_slp_run).
  eexists y', _. split.
  - rewrite (hook_first_run _ _ i x); [reflexivity|..]; cbn.
    + unfold linked. by rewrite length_set_prev, length_set_next.
    + done.
    + rewrite linked_head by lia. done.
  - split.
    + destruct Hs as [Hs Hso]. split; [by rewrite Hs|]. intros a Ha. cbn.
      rewrite lookup_insert_ne by (unfold slp_buf, bhead in *; lia). by apply Hso.
    + cbn. etransitivity; [exact Hr|]. unfold hooked, linked.
      etransitivity; [apply (relinked_set_next _ i x)|]. etransitivity; [apply (relinked_set_prev _ i bhead)|].
      etransitivity; [apply (relinked_set_prev _ x i)|]. apply relinked_set_next.
    + rewrite seq_S, reverse_app. apply (path_first (fs_bufs f1) i); try done.
      rewrite !NoDup_cons, not_elem_of_cons, !elem_of_reverse, !elem_of_seq.
      split_and!; try lia. rewrite reverse_Permutation. apply NoDup_seq.
    + intros b Hb. cbn. destruct (decide (b = i)) as [->|]; [apply lookup_insert_eq|].
      rewrite lookup_insert_ne by (unfold slp_buf; lia). apply Hsl. lia.
    + split; [by apply Hyo|]. intros b Hb. destruct (decide (b = i)) as [->|]; [done|].
      apply Hyo, Hlks. lia.
Qed.

(** No buffer holds a block: the cache of an empty list of blocks in use. *)
Lemma cache_initial pid y f' :
  (forall b x, fs_bufs f !! b = Some x -> b_refcnt x = 0 /\ b_dev x <> ROOTDEV) ->
  building s f bhead y f' -> cache pid f' (reverse bufids) ∅ ∅.
Proof.
  intros Hz Hb. assert (Hz' : forall b x, fs_bufs f' !! b = Some x -> b_refcnt x = 0 /\ b_dev x <> ROOTDEV).
  { intros b x' Hx'. destruct (relinked_lookup _ _ b x' (symmetry (bd_relinked _ _ _ _ _ Hb)) Hx')
      as (x & Hx & E). destruct (Hz _ _ Hx). destruct x, x'. unfold strip in E. simpl in *.
    by injection E as -> -> -> -> -> ->. }
  split; try done.
  - split; [apply Hb|by rewrite reverse_Permutation|].
    rewrite <- (relinked_length _ _ (bd_relinked _ _ _ _ _ Hb)). done.
  - intros b Hlt. by apply Hb.
  - intros b x _ Hx. by destruct (Hz' _ _ Hx).
  - intros b1 b2 x1 x2 _ _ Hx1 _ Hd. by destruct (Hz' _ _ Hx1).
  - intros b x _ Hx _. by destruct (Hz' _ _ Hx).
Qed.

Lemma binit_run :
  (forall b x, fs_bufs f !! b = Some x -> b_refcnt x = 0 /\ b_dev x <> ROOTDEV) ->
  exists y f', binit (s ⊕ f) = Ret tt (ksync (fun _ => y) s ⊕ f') /\ same_disk f f'
    /\ (forall pid, cache pid f' (reverse bufids) ∅ ∅)
    /\ lock_free LkBcache y /\ (forall b, (b < bhead)%nat -> lock_free (LkSleep (slp_buf b)) y).
Proof.
  intros Hz. unfold binit. destruct (initlock_run LkBcache "bcache" s f) as (y0 & E0 & Hy0 & _).
  rewrite (bind_Ret _ _ _ _ _ E0).
  erewrite bind_Ret by (apply set_prev_run; lia).
  erewrite bind_Ret by (apply set_next_run; simpl; rewrite length_set_prev; lia).
  match goal with |- context [for_each ?xs ?body ?st] =>
    destruct (for_each_index xs body (fun i s' => exists y f', s' = ksync (fun _ => y) s ⊕ f'
      /\ building s f i y f') st) as (s' & E & y & f' & -> & Hb)
  end.
  - eexists y0, _. split; [reflexivity|]. split; try done; simpl.
    + etransitivity; [apply (relinked_set_prev _ bhead bhead)|apply relinked_set_next].
    + unfold nxt. rewrite nx_set_next, pv_set_next, pv_set_prev by (rewrite ?length_set_prev; lia).
      by rewrite !decide_True.
    + lia.
    + split; [done|lia].
  - intros i x s1 Hx (y & f1 & -> & Hb). apply lookup_seq in Hx as [-> Hi].
    destruct (binit_step i y f1) as (y' & f2 & E & Hb'); [done..|].
    eexists. split; [exact E|]. by exists y', f2.
  - rewrite length_seq in Hb. exists y, f'. split_and!; [exact E|apply Hb| |apply Hb..].
    intros pid. by eapply cache_initial.
Qed.
End binit.

(** [binit()] run on the zeroed buffer array of a booting kernel links all NBUF
    buffers into one circular list, frees the lock of the cache and the sleep lock
    of every buffer, touches nothing else of the file system, and establishes the
    invariant of the buffer cache with no block in use. *)
Theorem binit_spec s f :
  length (fs_bufs f) = S bhead ->
  (forall b x, fs_bufs f !! b = Some x -> b_refcnt x = 0 /\ b_dev x <> ROOTDEV) ->
  exists y f', binit (s ⊕ f) = Ret tt (ksync (fun _ => y) s ⊕ f') /\ same_disk f f'
    /\ (forall pid, cache pid f' (reverse bufids) ∅ ∅)
    /\ lock_free LkBcache y /\ (forall b, (b < bhead)%nat -> lock_free (LkSleep (slp_buf b)) y).
Proof. intros Hlen. by apply binit_run. Qed.

Lemma binit_spec_witness :
  exists y f', binit (kstate_zero 0 ⊕ fsst_zero) = Ret tt (ksync (fun _ => y) (kstate_zero 0) ⊕ f')
    /\ cache 1 f' (reverse bufids) ∅ ∅.
Proof.
  destruct (binit_spec (kstate_zero 0) fsst_zero) as (y & f' & E & _ & Hc & _).
  - reflexivity.
  - intros b x Hx. apply lookup_replicate in Hx as [-> _]. split; [reflexivity|discriminate].
  - exists y, f'. split; [exact E|apply Hc].
Defined.

(** ** The operations as the file system uses them *)

(** C21. [bread(ROOTDEV, bn)] on every branch: with a buffer to spare, or with the
    block in use, it returns a locked buffer that no one else holds, with one more
    reference and the current contents of the block (those in the cache if the
    block is in use, those of the disk otherwise), and leaves the disk alone; with
    all NBUF buffers in use it panics. *)
Theorem bread_spec `{Fuel} pid s f l A held bn d :
  (0 < fuel)%nat -> calm pid s -> cache pid f l A held -> fs_blocks f !! bn = Some d ->
  (forall b, held !! b <> Some bn) -> (forall rc d', A !! bn = Some (rc, d') -> rc < 1000) ->
  if decide ((size A < bhead)%nat \/ bn ∈ dom A)
  then exists b f', bread ROOTDEV bn (s ⊕ f) = Ret b (s ⊕ f') /\ same_disk f f' /\ held !! b = None
    /\ cache pid f' l (<[bn := one_more A bn d]> A) (<[b := bn]> held)
  else bread ROOTDEV bn (s ⊕ f) = Stop (SPanic "bget: no buffers").
Proof.
  intros Hfuel Hcalm Hc Hd Hfree Hrc. case_decide as Hroom.
  - by apply bread_run.
  - eapply bread_full; [done..|lia|]. apply not_elem_of_dom. tauto.
Qed.

(** [brelse(b)] gives up the lock and one reference; when it was the last one,
    and the block is as on the disk, the block is no longer in use and its buffer
    becomes the most recently used one of the list, the order of the others being
    kept. *)
Theorem brelse_spec `{Fuel} pid s f l A held b bn rc d :
  (0 < fuel)%nat -> calm pid s -> cache pid f l A held -> held !! b = Some bn ->
  A !! bn = Some (rc, d) -> rc < 1000 -> (rc = 1 -> fs_blocks f !! bn = Some d) ->
  exists f' l', brelse b (s ⊕ f) = Ret tt (s ⊕ f') /\ same_disk f f'
    /\ l' = (if rc =? 1 then b :: filter (fun c => c <> b) l else l)
    /\ cache pid f' l' (if rc =? 1 then delete bn A else <[bn := (rc - 1, d)]> A) (delete b held).
Proof. intros. by eapply brelse_run. Qed.

(** [bget(dev, blockno)] takes the buffer that caches the block, if there is one;
    otherwise it recycles the least recently used of the buffers without a
    reference; and when there is none it panics. *)
Theorem bget_spec `{Fuel} pid s f l dev bn :
  (0 < fuel)%nat -> calm pid s -> ring (fs_bufs f) l ->
  (forall b, (b < bhead)%nat -> fs_sleep f !! slp_buf b = Some (Sleeplock 0 "buffer" 0)) ->
  match List.find (hits (fs_bufs f) dev bn) l, List.find (unused (fs_bufs f)) (reverse l) with
  | Some b, _ => exists x, fs_bufs f !! b = Some x /\ bget dev bn (s ⊕ f)
      = Ret b (s ⊕ set_sleep (slp_buf b) (Sleeplock 1 "buffer" pid) (set_buf b (grabbed x) f))
  | None, Some b => exists x, fs_bufs f !! b = Some x /\ bget dev bn (s ⊕ f)
      = Ret b (s ⊕ set_sleep (slp_buf b) (Sleeplock 1 "buffer" pid) (set_buf b (recycled dev bn x) f))
  | None, None => bget dev bn (s ⊕ f) = Stop (SPanic "bget: no buffers")
  end.
Proof.
  intros Hfuel Hcalm Hr Hsl.
  assert (Hlk : forall P b, List.find P l = Some b \/ List.find P (reverse l) = Some b ->
    (b < bhead)%nat /\ exists x, fs_bufs f !! b = Some x).
  { intros P b Hf. assert (Hb : (b < bhead)%nat).
    { apply (ring_elem _ _ _ Hr). destruct Hf as [Hf|Hf]; apply find_some in Hf as [Hin _];
        apply list_elem_of_In in Hin; [done|]. by rewrite elem_of_reverse in Hin. }
    split; [done|]. apply (ring_lookup _ _ b Hr). lia. }
  destruct (List.find (hits _ _ _) l) as [b|] eqn:E1; [|destruct (List.find (unused _) _) as [b|] eqn:E2].
  - destruct (Hlk _ b (or_introl E1)) as (Hb & x & Hx). exists x. split; [done|].
    eapply bget_cached; eauto.
  - destruct (Hlk _ b (or_intror E2)) as (Hb & x & Hx). exists x. split; [done|].
    eapply bget_recycled; eauto.
  - by eapply bget_full.
Qed.

Section witnesses.
#[local] Instance cache_fuel : Fuel := 1%nat.

Definition cache_disk : gmap Z (list Z) := {[7 := zero_block]}.

Lemma empty_cache :
  exists f, cache 1 f (reverse bufids) ∅ ∅ /\ fs_blocks f = cache_disk.
Proof.
  destruct (binit_run calm_state (fsst_zero <| fs_blocks := cache_disk |>))
    as (y & f & _ & Hs & Hc & _).
  - reflexivity.
  - intros b x Hx. apply lookup_replicate in Hx as [-> _]. split; [reflexivity|discriminate].
  - exists f. split; [apply Hc|]. by rewrite (proj1 Hs).
Qed.

Lemma bread_spec_witness :
  exists b f f', bread ROOTDEV 7 (calm_state ⊕ f) = Ret b (calm_state ⊕ f')
    /\ cache 1 f' (reverse bufids) {[7 := (1, zero_block)]} {[b := 7]}.
Proof.
  destruct empty_cache as (f & C & B).
  pose proof (bread_spec 1 calm_state f _ _ _ 7 zero_block (le_n 1) calm_state_calm C) as H.
  rewrite decide_True in H by (left; rewrite map_size_empty; vm_compute; lia).
  destruct H as (b & f' & E & _ & _ & C').
  - rewrite B. apply lookup_insert_eq.
  - intros b Hb. by rewrite lookup_empty in Hb.
  - intros rc d' E. by rewrite lookup_empty in E.
  - exists b, f, f'. split; [exact E|exact C'].
Defined.

Lemma brelse_spec_witness :
  exists b f f' l', brelse b (calm_state ⊕ f) = Ret tt (calm_state ⊕ f') /\ cache 1 f' l' ∅ ∅.
Proof.
  destruct empty_cache as (f0 & C0 & B0).
  destruct (bread_run 1 calm_state calm_state_calm (le_n 1) f0 _ _ _ 7 zero_block C0)
    as (b & f & _ & S1 & _ & C1).
  { rewrite B0. apply lookup_insert_eq. } { intros b Hb. by rewrite lookup_empty in Hb. }
  { left. rewrite map_size_empty. vm_compute. lia. } { intros ?? E. by rewrite lookup_empty in E. }
  change (one_more ∅ 7 zero_block) with (1, zero_block) in C1.
  destruct (brelse_spec 1 calm_state f _ _ _ b 7 1 zero_block (le_n 1) calm_state_calm C1)
    as (f' & l' & E & _ & _ & C').
  - apply lookup_insert_eq.
  - apply lookup_insert_eq.
  - lia.
  - intros _. rewrite (same_blocks _ _ S1), B0. apply lookup_insert_eq.
  - exists b, f, f', l'. split; [exact E|].
    change (1 =? 1) with true in C'. cbn match in C'.
    rewrite !delete_insert_id in C' by apply lookup_empty. exact C'.
Defined.

Lemma bget_spec_witness :
  exists b f f', bget ROOTDEV 7 (calm_state ⊕ f) = Ret b (calm_state ⊕ f').
Proof.
  destruct empty_cache as (f & C & B).
  pose proof (bget_spec 1 calm_state f _ ROOTDEV 7 (le_n 1) calm_state_calm (c_ring _ _ _ _ _ C)) as H.
  destruct (unused_find C) as (b & x & Eu & _); [rewrite map_size_empty; vm_compute; lia|].
  rewrite Eu in H. destruct (List.find (hits _ _ _) _) as [b'|].
  - destruct H as (x' & _ & E); [|exists b', f; by eexists].
    intros b0 Hb. by rewrite (c_sleep _ _ _ _ _ C b0 Hb), lookup_empty.
  - destruct H as (x' & _ & E); [|exists b, f; by eexists].
    intros b0 Hb. by rewrite (c_sleep _ _ _ _ _ C b0 Hb), lookup_empty.
Defined.
End witnesses.
