(* ===== verification/Log.v ===== *)
(** * The log: [src/kernel/log.c]

    A file system call groups its writes between [begin_op()] and [end_op()];
    [commit()] writes them to the log, then its header, then to their home
    blocks. *)

From stdpp Require Import pretty.
From S2P Require Import Prelude Bytes Params FsTypes Machine Spinlock ProcCore Mem Pres FsCore.
From S2P Require Import Sleeplock Bio.

Section log.
Context `{Fuel} `{DiskOps}.

(** [struct logheader] in a block: [n] at offset 0, [block[i]] at [4 + 4 * i]. *)
Definition lh_of_block (l : list Z) : logheader :=
  Logheader (s32 (le_at 4 0 l)) (s32 <$> uints_at 4 (Z.to_nat LOGBLOCKS) l).

(** [for (i = 0; i < log.lh.n; i++) log.lh.block[i] = lh->block[i];] *)
Definition read_head : M unit :=
  lg ← get_log;
  buf ← bread (log_dev lg) (u32 (log_start lg));
  data ← get_data buf;
  let lh := lh_of_block data in
  upd_lh (fun x => x <| lh_n := lh_n lh |>);;
  for_each (seqZ 0 (lh_n lh)) (fun i =>
    v ← index (lh_block lh) i;
    lg ← get_log;
    blocks ← store_at (lh_block (log_lh lg)) i v;
    upd_lh (fun x => x <| lh_block := blocks |>));;
  brelse buf.

(** [hb->n = log.lh.n; for (i = 0; ...) hb->block[i] = log.lh.block[i];] *)
Definition write_head : M unit :=
  lg ← get_log;
  buf ← bread (log_dev lg) (u32 (log_start lg));
  data ← get_data buf;
  set_data buf (put_le 4 0 (lh_n (log_lh lg)) data);;
  for_each (seqZ 0 (lh_n (log_lh lg))) (fun i =>
    v ← index (lh_block (log_lh lg)) i;
    data ← get_data buf;
    set_data buf (put_le 4 (4 + 4 * i) v data));;
  bwrite buf;;
  brelse buf.

Definition recovering_msg (tail dst : Z) : string :=
  "recovering tail " +:+ pretty tail +:+ " dst " +:+ pretty dst.

Definition install_trans (recovering : bool) : M unit :=
  lg ← get_log;
  for_each (seqZ 0 (lh_n (log_lh lg))) (fun tail =>
    lg ← get_log;
    dst ← index (lh_block (log_lh lg)) tail;
    when recovering (printf (recovering_msg tail dst));;
    lbuf ← bread (log_dev lg) (u32 (log_start lg + tail + 1));
    dbuf ← bread (log_dev lg) (u32 dst);
    data ← get_data lbuf;
    set_data dbuf data;;
    bwrite dbuf;;
    when (negb recovering) (bunpin dbuf);;
    brelse lbuf;;
    brelse dbuf).

Definition recover_from_log : M unit :=
  read_head;;
  install_trans true;;
  upd_lh (fun x => x <| lh_n := 0 |>);;
  write_head.

(** [sizeof(struct logheader)]. *)
Definition sizeof_logheader : Z := 4 + 4 * LOGBLOCKS.

Definition initlog (dev : Z) (sb : superblock) : M unit :=
  if BSIZE <=? sizeof_logheader then panic "initlog: too big logheader" else
  initlock LkLog "log";;
  upd_log (fun l => l <| log_start := s32 (logstart sb) |> <| log_dev := dev |>);;
  recover_from_log.

Fixpoint begin_op_loop (n : nat) : M unit :=
  match n with
  | O => stop_ SFuel
  | S n =>
      lg ← get_log;
      if truthy (log_committing lg) then
        sleep (Some ChLog) LkLog;; begin_op_loop n
      else if LOGBLOCKS <? lh_n (log_lh lg) + (log_outstanding lg + 1) * MAXOPBLOCKS then
        sleep (Some ChLog) LkLog;; begin_op_loop n
      else
        upd_log (fun l => l <| log_outstanding := s32 (log_outstanding l + 1) |>);;
        release LkLog
  end.

Definition begin_op : M unit :=
  acquire LkLog;;
  begin_op_loop fuel.

Definition write_log : M unit :=
  lg ← get_log;
  for_each (seqZ 0 (lh_n (log_lh lg))) (fun tail =>
    lg ← get_log;
    blk ← index (lh_block (log_lh lg)) tail;
    to ← bread (log_dev lg) (u32 (log_start lg + tail + 1));
    from ← bread (log_dev lg) (u32 blk);
    data ← get_data from;
    set_data to data;;
    bwrite to;;
    brelse from;;
    brelse to).

Definition commit : M unit :=
  lg ← get_log;
  when (0 <? lh_n (log_lh lg))
    (write_log;;
     write_head;;
     install_trans false;;
     upd_lh (fun x => x <| lh_n := 0 |>);;
     write_head).

Definition end_op : M unit :=
  acquire LkLog;;
  upd_log (fun l => l <| log_outstanding := s32 (log_outstanding l - 1) |>);;
  lg ← get_log;
  if truthy (log_committing lg) then panic "log.committing" else
  let do_commit := log_outstanding lg =? 0 in
  (if do_commit
   then upd_log (fun l => l <| log_committing := 1 |>)
   else wakeup (Some ChLog));;
  release LkLog;;
  when do_commit
    (commit;;
     acquire LkLog;;
     upd_log (fun l => l <| log_committing := 0 |>);;
     wakeup (Some ChLog);;
     release LkLog).

(** [for (i = 0; i < log.lh.n; i++) if (log.lh.block[i] == b->blockno) break;]: the
    value of [i] after the loop. *)
Fixpoint absorb (i : Z) (n : nat) (blocks : list Z) (blockno : Z) : option Z :=
  match n with
  | O => Some i
  | S n =>
      match blocks with
      | v :: blocks => if u32 v =? blockno then Some i else absorb (i + 1) n blocks blockno
      | [] => None
      end
  end.

Definition log_write (b : nat) : M unit :=
  acquire LkLog;;
  lg ← get_log;
  if LOGBLOCKS <=? lh_n (log_lh lg) then panic "too big a transaction" else
  if log_outstanding lg <? 1 then panic "log_write outside of trans" else
  x ← get_buf b;
  i ← in_bounds (absorb 0 (Z.to_nat (lh_n (log_lh lg))) (lh_block (log_lh lg)) (b_blockno x));
  blocks ← store_at (lh_block (log_lh lg)) i (s32 (b_blockno x));
  upd_lh (fun h => h <| lh_block := blocks |>);;
  when (i =? lh_n (log_lh lg))
    (bpin b;;
     upd_lh (fun h => h <| lh_n := s32 (lh_n h + 1) |>));;
  release LkLog.

Context `{!DiskLaws}.

Lemma pres_read_head : pres mlfq_inv read_head.
Proof. unfold read_head. pres. Qed.
Lemma pres_write_head : pres mlfq_inv write_head.
Proof. unfold write_head. pres. Qed.
Lemma pres_install_trans r : pres mlfq_inv (install_trans r).
Proof. unfold install_trans. pres. Qed.
#[local] Hint Resolve pres_read_head pres_write_head pres_install_trans : pres.
Lemma pres_recover_from_log : pres mlfq_inv recover_from_log.
Proof. unfold recover_from_log. pres. Qed.
#[local] Hint Resolve pres_recover_from_log : pres.
Lemma pres_initlog dev sb : pres mlfq_inv (initlog dev sb).
Proof. unfold initlog. pres. Qed.
Lemma pres_begin_op_loop n : pres mlfq_inv (begin_op_loop n).
Proof. induction n; simpl; pres. Qed.
#[local] Hint Resolve pres_begin_op_loop : pres.
Lemma pres_begin_op_ : pres mlfq_inv begin_op.
Proof. unfold begin_op. pres. Qed.
Lemma pres_write_log : pres mlfq_inv write_log.
Proof. unfold write_log. pres. Qed.
#[local] Hint Resolve pres_write_log : pres.
Lemma pres_commit : pres mlfq_inv commit.
Proof. unfold commit. pres. Qed.
#[local] Hint Resolve pres_commit : pres.
Lemma pres_end_op_ : pres mlfq_inv end_op.
Proof. unfold end_op. pres. Qed.
Lemma pres_log_write b : pres mlfq_inv (log_write b).
Proof. unfold log_write. pres. Qed.
End log.

#[export] Hint Resolve pres_initlog pres_begin_op_ pres_end_op_ pres_log_write : pres.
