(* ===== verification/LogSpec.v ===== *)
(** * What the log guarantees

    [commit()] and [recover_from_log()] over the abstract cache of [BioSpec]: the
    sequence of the disk writes of a commit, and what recovery makes of the disk
    when the machine stops after any of them. *)

From stdpp Require Import pretty.
From S2P Require Import Prelude Bytes Params FsTypes Machine Spinlock ProcCore Mem Pres FsCore.
From S2P Require Import Sleeplock Calm Bio Lru BioSpec Log.

Notation image := (gmap Z (list Z)).

(** ** The disk *)

(** The disk after a sequence of writes, the oldest first. *)
Definition dwrites (ws : list (Z * list Z)) (D : image) : image :=
  foldl (fun D w => <[w.1 := w.2]> D) D ws.

(** The block numbers of the log: the header and LOGBLOCKS blocks behind it. *)
Definition in_log (ls bn : Z) : Prop := ls <= bn <= ls + LOGBLOCKS.

(** The same disk outside the log. *)
Definition home_eq (ls : Z) (D1 D2 : image) : Prop :=
  forall bn, ~ in_log ls bn -> D1 !! bn = D2 !! bn.

#[export] Instance home_eq_equiv ls : Equivalence (home_eq ls).
Proof.
  split; unfold home_eq; intros ?; [done|by symmetry; auto|].
  intros y z H1 H2 bn Hbn. rewrite H1 by done. auto.
Qed.

(** The home blocks named by the header on the disk. *)
Definition header (ls : Z) (D : image) : list Z :=
  let lh := lh_of_block (D !!! ls) in take (Z.to_nat (lh_n lh)) (lh_block lh).

(** The blocks of a committed transaction, with their new contents. *)
Definition pending (ls : Z) (D : image) : list (Z * list Z) :=
  imap (fun i h => (h, D !!! (ls + Z.of_nat i + 1))) (header ls D).

(** What recovery is to make of a disk. *)
Definition recovered (ls : Z) (D : image) : image := dwrites (pending ls D) D.

Definition home (ls h : Z) : Prop := 0 <= h < 2 ^ 31 /\ ~ in_log ls h.

(** A disk the log can be used on. *)
Record log_ok (ls : Z) (D : image) : Prop := {
  lo_start : 0 <= ls /\ ls + LOGBLOCKS < 2 ^ 31;
  lo_log bn : in_log ls bn -> is_Some (D !! bn);
  lo_header : Z.of_nat (length (D !!! ls)) = BSIZE;
  lo_n : 0 <= lh_n (lh_of_block (D !!! ls)) <= LOGBLOCKS;
  lo_home h : h ∈ header ls D -> home ls h /\ is_Some (D !! h);
}.

Lemma dwrites_app ws1 ws2 D : dwrites (ws1 ++ ws2) D = dwrites ws2 (dwrites ws1 D).
Proof. apply foldl_app. Qed.

Lemma dwrites_other ws D bn : bn ∉ ws.*1 -> dwrites ws D !! bn = D !! bn.
Proof.
  revert D. induction ws as [|w ws IH]; intros D Hbn; [done|]. cbn in *.
  rewrite not_elem_of_cons in Hbn. destruct Hbn. unfold dwrites in IH. rewrite IH by done.
  by rewrite lookup_insert_ne.
Qed.

Lemma dwrites_in ws D bn : bn ∈ ws.*1 -> exists d, (bn, d) ∈ ws /\ dwrites ws D !! bn = Some d.
Proof.
  revert D. induction ws as [|[a d] ws IH]; intros D Hbn; [by apply not_elem_of_nil in Hbn|].
  cbn. destruct (decide (bn ∈ ws.*1)) as [Hin|Hout].
  - destruct (IH (<[a := d]> D) Hin) as (d' & ? & E). exists d'. split; [by right|done].
  - cbn in Hbn. rewrite elem_of_cons in Hbn. destruct Hbn as [->|]; [|done].
    exists d. split; [by left|]. pose proof (dwrites_other ws (<[a := d]> D) a Hout) as E.
    unfold dwrites in E. by rewrite E, lookup_insert_eq.
Qed.

(** A block that is written has the last contents written to it. *)
Lemma dwrites_in_eq ws D1 D2 bn :
  bn ∈ ws.*1 -> dwrites ws D1 !! bn = dwrites ws D2 !! bn.
Proof.
  revert D1 D2. induction ws as [|[a d] ws IH]; intros D1 D2 Hin; [by apply not_elem_of_nil in Hin|].
  destruct (decide (bn ∈ ws.*1)) as [Hin'|Hout]; [by apply (IH (<[a := d]> D1) (<[a := d]> D2))|].
  cbn in Hin. rewrite elem_of_cons in Hin. destruct Hin as [->|]; [|done].
  pose proof (dwrites_other ws (<[a := d]> D1) a Hout) as E1.
  pose proof (dwrites_other ws (<[a := d]> D2) a Hout) as E2.
  unfold dwrites in *. cbn. rewrite E1, E2. by rewrite !lookup_insert_eq.
Qed.

(** Writing again what was written changes nothing. *)
Lemma dwrites_again ws1 ws D : ws1 `prefix_of` ws -> dwrites ws (dwrites ws1 D) = dwrites ws D.
Proof.
  intros [ws2 ->]. apply map_eq. intros bn. destruct (decide (bn ∈ (ws1 ++ ws2).*1)) as [Hin|Hout].
  - by apply dwrites_in_eq.
  - rewrite !(dwrites_other (ws1 ++ ws2)) by done. apply dwrites_other.
    intros Hin. apply Hout. rewrite fmap_app. apply elem_of_app. by left.
Qed.

(** A disk with an empty header is what it seems. *)
Lemma recovered_empty ls D : header ls D = [] -> recovered ls D = D.
Proof. unfold recovered, pending. intros ->. done. Qed.

Lemma in_log_start ls : in_log ls ls.
Proof. unfold in_log, LOGBLOCKS, MAXOPBLOCKS. lia. Qed.

Lemma lookup_total_eq (D1 D2 : image) bn : D1 !! bn = D2 !! bn -> D1 !!! bn = D2 !!! bn.
Proof. intros E. by rewrite !lookup_total_alt, E. Qed.

(** ** The header block *)

(** The block that [write_head] makes of [d]. *)
Definition head_block (hs d : list Z) : list Z := put_uints 4 hs (put_le 4 0 (Z.of_nat (length hs)) d).

Lemma put_uints_snoc off vs v l :
  put_uints off (vs ++ [v]) l = put_le 4 (off + 4 * Z.of_nat (length vs)) v (put_uints off vs l).
Proof.
  revert off l. induction vs as [|x vs IH]; intros off l; simpl; [by rewrite Z.add_0_r|].
  rewrite IH. f_equal. lia.
Qed.

Lemma uints_at_take off n m l : (n <= m)%nat -> take n (uints_at off m l) = uints_at off n l.
Proof.
  intros. unfold uints_at. rewrite <- fmap_take. f_equal. rewrite take_seq. f_equal. lia.
Qed.

Section head_block.
Context (hs d : list Z) (Hd : Z.of_nat (length d) = BSIZE).
Context (Hn : Z.of_nat (length hs) <= LOGBLOCKS) (Hr : Forall (fun h => 0 <= h < 2 ^ 31) hs).

#[local] Lemma head_room : 4 + 4 * Z.of_nat (length hs) <= Z.of_nat (length d).
Proof. rewrite Hd. unfold BSIZE, LOGBLOCKS, MAXOPBLOCKS in *. lia. Qed.

Lemma length_head_block : Z.of_nat (length (head_block hs d)) = BSIZE.
Proof.
  pose proof head_room. unfold head_block.
  assert (Hp : length (put_le 4 0 (Z.of_nat (length hs)) d) = length d) by (apply length_put_le; lia).
  by rewrite length_put_uints, Hp by lia.
Qed.

Lemma head_block_n : lh_n (lh_of_block (head_block hs d)) = Z.of_nat (length hs).
Proof.
  pose proof head_room. unfold lh_of_block, head_block. simpl.
  assert (Hp : length (put_le 4 0 (Z.of_nat (length hs)) d) = length d) by (apply length_put_le; lia).
  rewrite le_at_put_uints_ne, le_at_put_le_eq by lia.
  rewrite Z.mod_small; [apply s32_small|]; unfold LOGBLOCKS, MAXOPBLOCKS in *; lia.
Qed.

Lemma head_block_blocks :
  take (length hs) (lh_block (lh_of_block (head_block hs d))) = hs.
Proof.
  pose proof head_room. unfold lh_of_block, head_block. cbn [lh_block].
  assert (Hp : length (put_le 4 0 (Z.of_nat (length hs)) d) = length d) by (apply length_put_le; lia).
  rewrite <- fmap_take, uints_at_take, uints_at_put_uints by lia.
  rewrite <- list_fmap_compose. rewrite <- (list_fmap_id hs) at 2. apply list_fmap_ext.
  intros i h Hh. rewrite Forall_lookup in Hr. apply Hr in Hh. unfold compose, id.
  rewrite u32_small by lia. apply s32_small. lia.
Qed.

Lemma header_head_block ls D : D !! ls = Some (head_block hs d) -> header ls D = hs.
Proof.
  intros E. unfold header. rewrite (lookup_total_correct _ _ _ E), head_block_n, Nat2Z.id.
  apply head_block_blocks.
Qed.
End head_block.

(** ** Runs that write to the disk *)

(** The writes [ws] lead from [f] to [f']; the log in memory is the same. *)
Record wrote (ws : list (Z * list Z)) (f f' : fsst) : Prop := {
  wr_blocks : fs_blocks f' = dwrites ws (fs_blocks f);
  wr_writes : fs_writes f' = reverse ws ++ fs_writes f;
  wr_log : fs_log f' = fs_log f;
}.

Lemma same_disk_wrote f f' : same_disk f f' -> wrote [] f f'.
Proof. intros [-> _]. by split. Qed.

Lemma wrote_nil f : wrote [] f f.
Proof. by split. Qed.

Lemma wrote_app ws1 ws2 f g h : wrote ws1 f g -> wrote ws2 g h -> wrote (ws1 ++ ws2) f h.
Proof.
  intros [Hb1 Hw1 Hl1] [Hb2 Hw2 Hl2]. split.
  - by rewrite dwrites_app, <- Hb1.
  - by rewrite Hw2, Hw1, reverse_app, app_assoc.
  - by rewrite Hl2.
Qed.

Lemma wrote_trans ws1 ws2 ws f g h :
  wrote ws1 f g -> wrote ws2 g h -> ws = ws1 ++ ws2 -> wrote ws f h.
Proof. intros ? ? ->. by eapply wrote_app. Qed.

Lemma wrote_step_l ws f g h : same_disk f g -> wrote ws g h -> wrote ws f h.
Proof. intros Hs Hw. by apply (wrote_trans [] ws ws f g h); [apply same_disk_wrote|..]. Qed.

(** A loop over the indices [0 <= i < n]. *)
Lemma for_each_seqZ n (body : Z -> M unit) (I : nat -> kstate -> Prop) s :
  I 0%nat s ->
  (forall i s, (i < n)%nat -> I i s -> exists s', body (Z.of_nat i) s = Ret tt s' /\ I (S i) s') ->
  exists s', for_each (seqZ 0 (Z.of_nat n)) body s = Ret tt s' /\ I n s'.
Proof.
  intros H0 Hstep. destruct (for_each_index (seqZ 0 (Z.of_nat n)) body I s H0) as (s' & E & Hs').
  - intros i x s1 Hx. apply lookup_seqZ in Hx as [-> Hi]. apply Hstep. lia.
  - exists s'. by rewrite length_seqZ, Nat2Z.id in Hs'.
Qed.

(** The log in memory: its place on the disk and the blocks of the transaction. *)
Record log_is (ls : Z) (hs : list Z) (lg : log) : Prop := {
  li_dev : log_dev lg = ROOTDEV;
  li_start : log_start lg = ls;
  li_n : lh_n (log_lh lg) = Z.of_nat (length hs);
  li_len : Z.of_nat (length (lh_block (log_lh lg))) = LOGBLOCKS;
  li_blocks : take (length hs) (lh_block (log_lh lg)) = hs;
}.

Lemma log_is_lookup ls hs lg i h :
  log_is ls hs lg -> hs !! i = Some h -> lh_block (log_lh lg) !! i = Some h.
Proof.
  intros Hl Hi. pose proof (li_blocks _ _ _ Hl) as E. rewrite <- E in Hi.
  apply lookup_take_Some in Hi. tauto.
Qed.

Lemma index_run {A} (l : list A) i x s : l !! i = Some x -> index l (Z.of_nat i) s = Ret x s.
Proof.
  intros E. unfold index. rewrite (proj2 (Z.ltb_ge _ _)) by lia. by rewrite Nat2Z.id, E.
Qed.

Lemma get_log_run s f : get_log (s ⊕ f) = Ret (fs_log f) (s ⊕ f).
Proof. done. Qed.

Section steps.
Context `{Fuel} (pid : Z) (Hfuel : (0 < fuel)%nat).

Section copy.
Context (s : kstate) (Hcalm : calm pid s) (ls : Z) (f : fsst) (l : list nat) (A : blocks_in_use).
Context (Hls : 0 <= ls /\ ls + LOGBLOCKS < 2 ^ 31).

(** A block of the log and a home block are read. *)
Lemma bread_pair lb h d0 d1 :
  cache pid f l A ∅ -> h <> lb -> A !! lb = None ->
  (S (size A) < bhead)%nat \/ (size A < bhead)%nat /\ h ∈ dom A ->
  (forall rc d, A !! h = Some (rc, d) -> rc < 900) ->
  fs_blocks f !! lb = Some d0 -> fs_blocks f !! h = Some d1 ->
  exists b1 b2 f1 f', bread ROOTDEV lb (s ⊕ f) = Ret b1 (s ⊕ f1)
    /\ bread ROOTDEV h (s ⊕ f1) = Ret b2 (s ⊕ f') /\ b2 <> b1 /\ same_disk f f'
    /\ cache pid f' l (<[h := one_more A h d1]> (<[lb := (1, d0)]> A))
         (<[b2 := h]> (<[b1 := lb]> ∅)).
Proof.
  intros Hc Hne HAl Hroom Hrc Hd0 Hd1.
  destruct (bread_run pid s Hcalm Hfuel f l A ∅ lb d0) as (b1 & f1 & E1 & S1 & _ & C1); try done.
  { left. lia. } { intros ?? E. congruence. }
  unfold one_more in C1. rewrite HAl in C1.
  destruct (bread_run pid s Hcalm Hfuel f1 l (<[lb := (1, d0)]> A) (<[b1 := lb]> ∅) h d1)
    as (b2 & f2 & E2 & S2 & Hb2 & C2); try done.
  { by rewrite (same_blocks _ _ S1). }
  { intros b Hb. apply lookup_insert_Some in Hb as [[_ Hb]|[_ Hb]]; [by apply Hne|done]. }
  { rewrite map_size_insert_None by done. rewrite dom_insert_L, elem_of_union. tauto. }
  { intros ?? E. simplify_map_eq. apply Hrc in E. lia. }
  assert (Hb12 : b2 <> b1) by (intros ->; by rewrite lookup_insert_eq in Hb2).
  exists b1, b2, f1, f2.
  split_and!; [done..|by apply (same_disk_trans _ f1)|].
  unfold one_more in *. by rewrite lookup_insert_ne in C2 by done.
Qed.

(** One block of [write_log]: the cached contents go to the log. *)
Lemma write_log_step hs i h rc d lb d0 d1 :
  cache pid f l A ∅ -> log_is ls hs (fs_log f) -> hs !! i = Some h -> lb = ls + Z.of_nat i + 1 ->
  home ls h -> A !! h = Some (rc, d) -> rc < 900 -> A !! lb = None -> (size A < bhead)%nat ->
  fs_blocks f !! lb = Some d0 -> fs_blocks f !! h = Some d1 -> in_log ls lb ->
  exists f' l',
    (lg ← get_log;
     blk ← index (lh_block (log_lh lg)) (Z.of_nat i);
     to ← bread (log_dev lg) (u32 (log_start lg + Z.of_nat i + 1));
     from ← bread (log_dev lg) (u32 blk);
     data ← get_data from;
     set_data to data;;
     bwrite to;;
     brelse from;;
     brelse to) (s ⊕ f) = Ret tt (s ⊕ f')
    /\ wrote [(lb, d)] f f' /\ cache pid f' l' A ∅.
Proof.
  intros Hc Hl Hi Hlb [Hh Hhome] HA Hrc HAl Hroom Hd0 Hd1 Hin.
  assert (Hne : h <> lb) by (intros ->; done). pose proof (cache_pos Hc _ _ _ HA) as Hpos.
  erewrite bind_Ret by apply get_log_run.
  erewrite bind_Ret by (eapply index_run, log_is_lookup; eassumption).
  rewrite (li_dev _ _ _ Hl), (li_start _ _ _ Hl), <- Hlb.
  rewrite !u32_small by (unfold in_log in *; lia).
  edestruct (bread_pair lb h d0 d1) as (b1 & b2 & f1 & f2 & E1 & E2 & Hb12 & S2 & C2);
    try done.
  { right. split; [done|]. apply elem_of_dom. by eexists. }
  { intros ?? E. rewrite HA in E. injection E as <- <-. lia. }
  rewrite (bind_Ret _ _ _ _ _ E1), (bind_Ret _ _ _ _ _ E2).
  unfold one_more in C2. rewrite HA in C2.
  erewrite bind_Ret by (eapply (get_data_run pid s C2); by simplify_map_eq).
  destruct (set_data_run pid s Hfuel C2 (b := b1) (bn := lb) (rc := 1) (d := d0)) with (d' := d)
    as (f3 & E3 & S3 & C3); [by simplify_map_eq..|].
  rewrite (bind_Ret _ _ _ _ _ E3).
  erewrite bind_Ret by (eapply (bwrite_run pid s Hcalm C3); by simplify_map_eq).
  eapply cache_flush in C3; [|apply lookup_insert_eq].
  destruct (brelse_run pid s Hcalm Hfuel C3 (b := b2) (bn := h) (rc := rc + 1) (d := d))
    as (f4 & l4 & E4 & S4 & _ & C4); [by simplify_map_eq|by simplify_map_eq|lia|lia|].
  rewrite (bind_Ret _ _ _ _ _ E4). rewrite (proj2 (Z.eqb_neq (rc + 1) 1)) in C4 by lia.
  destruct (brelse_run pid s Hcalm Hfuel C4 (b := b1) (bn := lb) (rc := 1) (d := d))
    as (f5 & l5 & E5 & S5 & _ & C5); [by simplify_map_eq|by simplify_map_eq|lia| |].
  { intros _. rewrite (same_blocks _ _ S4). apply lookup_insert_eq. }
  exists f5, l5. split_and!; [exact E5| |].
  - apply wrote_step_l with f2; [done|]. apply wrote_step_l with f3; [done|].
    eapply (wrote_trans [(lb, d)] []); [|by apply same_disk_wrote, (same_disk_trans _ f4)|done].
    by split.
  - replace A with (delete lb (<[h := (rc + 1 - 1, d)]>
      (<[lb := (1, d)]> (<[h := (rc + 1, d)]> (<[lb := (1, d0)]> A))))).
    + replace ∅ with (delete b1 (delete b2 (<[b2 := h]> (<[b1 := lb]> (∅ : gmap nat Z))))); [done|].
      rewrite delete_insert_id by by simplify_map_eq. by rewrite delete_insert_id.
    + apply map_eq. intros bn. destruct (decide (bn = lb)) as [->|]; [by simplify_map_eq|].
      destruct (decide (bn = h)) as [->|]; simplify_map_eq; [|done]. do 2 f_equal. lia.
Qed.

(** One block of [install_trans]: a block of the log goes home. A block of a
    commit is pinned; in a recovery no block is in use. *)
Lemma install_step recovering hs i h d lb d1 d2 :
  cache pid f l A ∅ -> log_is ls hs (fs_log f) -> hs !! i = Some h -> lb = ls + Z.of_nat i + 1 ->
  home ls h -> A !! h = (if recovering : bool then None else Some (1, d2)) -> A !! lb = None ->
  (size A < (if recovering then Nat.pred bhead else bhead))%nat ->
  fs_blocks f !! lb = Some d -> fs_blocks f !! h = Some d1 -> in_log ls lb ->
  exists f' l',
    (lbuf ← bread ROOTDEV lb;
     dbuf ← bread ROOTDEV h;
     data ← get_data lbuf;
     set_data dbuf data;;
     bwrite dbuf;;
     when (negb recovering) (bunpin dbuf);;
     brelse lbuf;;
     brelse dbuf) (s ⊕ f) = Ret tt (s ⊕ f')
    /\ wrote [(h, d)] f f' /\ cache pid f' l' (delete h A) ∅.
Proof.
  intros Hc Hl Hi Hlb [Hh Hhome] HA HAl Hroom Hd0 Hd1 Hin.
  assert (Hne : h <> lb) by (intros ->; done).
  edestruct (bread_pair lb h d d1) as (b1 & b2 & f1 & f2 & E1 & E2 & Hb12 & S2 & C2);
    try done.
  { destruct recovering; [left; lia|]. right. split; [exact Hroom|].
    apply elem_of_dom. rewrite HA. by eexists. }
  { intros ?? E. rewrite HA in E. destruct recovering; [done|]. injection E as <- <-. lia. }
  assert (Eo : exists dd, one_more A h d1 = (if recovering then 1 else 2, dd)).
  { unfold one_more. rewrite HA. destruct recovering; by eexists. }
  destruct Eo as [dd Eo]. rewrite Eo in C2.
  rewrite (bind_Ret _ _ _ _ _ E1), (bind_Ret _ _ _ _ _ E2).
  erewrite bind_Ret
    by (eapply (get_data_run pid s C2 (bn := lb) (rc := 1) (d := d)); by simplify_map_eq).
  destruct (set_data_run pid s Hfuel C2 (b := b2) (bn := h)
    (rc := if recovering then 1 else 2) (d := dd)) with (d' := d) as (f3 & E3 & S3 & C3); [apply lookup_insert_eq..|].
  rewrite (bind_Ret _ _ _ _ _ E3).
  erewrite bind_Ret by (eapply (bwrite_run pid s Hcalm C3); by simplify_map_eq).
  eapply cache_flush in C3; [|apply lookup_insert_eq]. rewrite !insert_insert_eq in C3.
  set (g := _ <| fs_writes := _ |>) in *.
  assert (Hpin : exists f4, when (negb recovering) (bunpin b2) (s ⊕ g) = Ret tt (s ⊕ f4)
    /\ same_disk g f4 /\ cache pid f4 l (<[h := (1, d)]> (<[lb := (1, d)]> A))
         (<[b2 := h]> (<[b1 := lb]> ∅))).
  { destruct recovering; [by exists g|]. simpl.
    destruct (bunpin_run pid s Hcalm Hfuel C3 (b := b2) (bn := h) (rc := 2) (d := d)) as (f4 & E4 & S4 & C4);
      [apply lookup_insert_eq..|lia|]. rewrite insert_insert_eq in C4. by exists f4. }
  destruct Hpin as (f4 & E4 & S4 & C4). rewrite (bind_Ret _ _ _ _ _ E4).
  edestruct (brelse_run pid s Hcalm Hfuel C4 (b := b1) (bn := lb) (rc := 1) (d := d))
    as (f5 & l5 & E5 & S5 & _ & C5); [by simplify_map_eq..|lia| |].
  { intros _. rewrite (same_blocks _ _ S4). subst g. cbn. rewrite lookup_insert_ne by done.
    by rewrite (same_blocks _ _ S3), (same_blocks _ _ S2). }
  rewrite (bind_Ret _ _ _ _ _ E5). simpl in C5.
  edestruct (brelse_run pid s Hcalm Hfuel C5 (b := b2) (bn := h) (rc := 1) (d := d))
    as (f6 & l6 & E6 & S6 & _ & C6); [by simplify_map_eq..|lia| |].
  { intros _. rewrite (same_blocks _ _ S5), (same_blocks _ _ S4). apply lookup_insert_eq. }
  exists f6, l6. split_and!; [exact E6| |].
  - apply wrote_step_l with f2; [done|]. apply wrote_step_l with f3; [done|].
    eapply (wrote_trans [(h, d)] []); [|by apply same_disk_wrote, (same_disk_trans _ f5);
      [apply (same_disk_trans _ f4)|]|done]. by split.
  - simpl in C6. replace (delete h A) with (delete h (delete lb (<[h := (1, d)]> (<[lb := (1, d)]> A)))).
    + replace ∅ with (delete b2 (delete b1 (<[b2 := h]> (<[b1 := lb]> (∅ : gmap nat Z))))); [done|].
      apply map_eq. intros b. destruct (decide (b = b1)) as [->|]; [by simplify_map_eq|].
      by destruct (decide (b = b2)) as [->|]; simplify_map_eq.
    + apply map_eq. intros bn. destruct (decide (bn = lb)) as [->|]; [by simplify_map_eq|].
      by destruct (decide (bn = h)) as [->|]; simplify_map_eq.
Qed.
End copy.

End steps.

(** ** The loops of a commit *)

(** The blocks [hs] are no longer in use. *)
Definition unpin (hs : list Z) (A : blocks_in_use) : blocks_in_use := foldl (fun A h => delete h A) A hs.

Lemma lookup_unpin hs A bn : unpin hs A !! bn = if decide (bn ∈ hs) then None else A !! bn.
Proof.
  revert A. induction hs as [|h hs IH]; intros A.
  - rewrite decide_False by apply not_elem_of_nil. done.
  - unfold unpin in *. cbn. rewrite IH. destruct (decide (bn = h)) as [->|Hne].
    + rewrite lookup_delete_eq. rewrite (decide_True (P := h ∈ h :: hs)) by left. by case_decide.
    + rewrite lookup_delete_ne by done.
      destruct (decide (bn ∈ hs)); [rewrite decide_True by by right|rewrite decide_False]; [done..|].
      by rewrite not_elem_of_cons.
Qed.

Lemma size_unpin hs A : (size (unpin hs A) <= size A)%nat.
Proof.
  revert A. induction hs as [|h hs IH]; intros A; [done|]. unfold unpin in *. cbn.
  rewrite IH. apply map_subseteq_size, delete_subseteq.
Qed.

Lemma dwrites_is_Some ws D bn : is_Some (D !! bn) -> is_Some (dwrites ws D !! bn).
Proof.
  intros Hb. destruct (decide (bn ∈ ws.*1)) as [Hin|Hout].
  - destruct (dwrites_in ws D bn Hin) as (d & _ & ->). by eexists.
  - by rewrite dwrites_other.
Qed.

(** The writes of [write_log]. *)
Definition log_writes (ls : Z) (ts : list (Z * list Z)) : list (Z * list Z) :=
  imap (fun i t => (ls + Z.of_nat i + 1, t.2)) ts.

Lemma length_log_writes ls ts : length (log_writes ls ts) = length ts.
Proof. apply length_imap. Qed.

Lemma lookup_log_writes ls ts i h d :
  ts !! i = Some (h, d) -> log_writes ls ts !! i = Some (ls + Z.of_nat i + 1, d).
Proof. intros E. unfold log_writes. by rewrite list_lookup_imap, E. Qed.

Lemma log_writes_in_log ls ts bn :
  Z.of_nat (length ts) <= LOGBLOCKS -> bn ∈ (log_writes ls ts).*1 -> in_log ls bn /\ bn <> ls.
Proof.
  intros Hn. rewrite list_elem_of_fmap. intros ([a d] & -> & Hin).
  apply list_elem_of_lookup in Hin as [i Hi]. unfold log_writes in Hi.
  rewrite list_lookup_imap in Hi. destruct (ts !! i) as [t|] eqn:E; [|done].
  injection Hi as <- <-. apply lookup_lt_Some in E. unfold in_log. simpl. lia.
Qed.

Lemma fst_lookup (ts : list (Z * list Z)) i h d :
  ts !! i = Some (h, d) -> ts.*1 !! i = Some h.
Proof. intros E. by rewrite list_lookup_fmap, E. Qed.

Section runs.
Context `{Fuel} (pid : Z) (Hfuel : (0 < fuel)%nat).

Section loops.
Context (s : kstate) (Hcalm : calm pid s) (ls : Z) (f : fsst) (l : list nat) (A : blocks_in_use).
Context (ts : list (Z * list Z)) (Hls : 0 <= ls /\ ls + LOGBLOCKS < 2 ^ 31).
Context (Hc : cache pid f l A ∅) (Hlog : log_is ls ts.*1 (fs_log f)).
Context (Hn : Z.of_nat (length ts) <= LOGBLOCKS).
Context (Hhome : forall h, h ∈ ts.*1 -> home ls h /\ is_Some (fs_blocks f !! h)).
Context (Hin : forall bn, in_log ls bn -> is_Some (fs_blocks f !! bn)).
Context (Hout : forall bn, in_log ls bn -> A !! bn = None).

#[local] Lemma at_index i :
  (i < length ts)%nat -> exists h d, ts !! i = Some (h, d) /\ ts.*1 !! i = Some h
    /\ home ls h /\ is_Some (fs_blocks f !! h) /\ in_log ls (ls + Z.of_nat i + 1).
Proof.
  intros Hi. destruct (lookup_lt_is_Some_2 ts i Hi) as [[h d] E]. exists h, d.
  pose proof (fst_lookup _ _ _ _ E) as Ef. destruct (Hhome h) as [? ?]; [by eapply list_elem_of_lookup_2|].
  split_and!; try done; unfold in_log; lia.
Qed.

Lemma write_log_run :
  (size A < bhead)%nat -> (forall h d, (h, d) ∈ ts -> A !! h = Some (1, d)) ->
  exists f' l', write_log (s ⊕ f) = Ret tt (s ⊕ f') /\ wrote (log_writes ls ts) f f'
    /\ cache pid f' l' A ∅.
Proof.
  intros Hroom HA. unfold write_log. erewrite bind_Ret by apply get_log_run.
  rewrite (li_n _ _ _ Hlog), length_fmap.
  match goal with |- context [for_each _ ?body _] =>
    destruct (for_each_seqZ (length ts) body (fun i s' => exists f' l', s' = s ⊕ f'
      /\ wrote (take i (log_writes ls ts)) f f' /\ cache pid f' l' A ∅) (s ⊕ f)) as (s' & E & Hfin)
  end.
  - exists f, l. rewrite take_0. split_and!; [done|apply wrote_nil|done].
  - intros i s1 Hi (f1 & l1 & -> & Hw & Hc1). destruct (at_index i Hi) as (h & d & Ht & Hh & Hho & Hx & Hl).
    destruct (dwrites_is_Some (take i (log_writes ls ts)) _ _ (Hin _ Hl)) as [d0 Hd0].
    destruct (dwrites_is_Some (take i (log_writes ls ts)) _ _ Hx) as [d1 Hd1].
    rewrite <- (wr_blocks _ _ _ Hw) in Hd0, Hd1.
    edestruct (write_log_step pid Hfuel s Hcalm ls f1 l1 A Hls ts.*1 i h 1 d) as (f2 & l2 & E2 & Hw2 & Hc2);
      try done; [by rewrite (wr_log _ _ _ Hw)|by apply HA; eapply list_elem_of_lookup_2|by apply Hout|].
    eexists. split; [exact E2|]. exists f2, l2. split_and!; [done| |done].
    eapply wrote_trans; [exact Hw|exact Hw2|]. apply take_S_r. by eapply lookup_log_writes.
  - destruct Hfin as (f' & l' & -> & Hw & Hc'). exists f', l'. split_and!; [exact E| |done].
    by rewrite take_ge in Hw by (rewrite length_log_writes; lia).
Qed.

Lemma calm_out out : calm pid (s <| k_out := out |>).
Proof. destruct Hcalm as [[[? ? ? ?] ? ? ?] ?]. by repeat split. Qed.

Lemma install_trans_run (recovering : bool) :
  (size A < (if recovering then Nat.pred bhead else bhead))%nat ->
  (forall h, h ∈ ts.*1 -> if recovering then A !! h = None else exists d, A !! h = Some (1, d)) ->
  (recovering = false -> NoDup ts.*1) ->
  (forall i h d, ts !! i = Some (h, d) -> fs_blocks f !! (ls + Z.of_nat i + 1) = Some d) ->
  exists f' l' out, install_trans recovering (s ⊕ f) = Ret tt (s <| k_out := out |> ⊕ f')
    /\ wrote ts f f' /\ cache pid f' l' (unpin ts.*1 A) ∅ /\ (recovering = false -> out = k_out s).
Proof.
  intros Hroom HA Hnd Hdata. unfold install_trans. erewrite bind_Ret by apply get_log_run.
  rewrite (li_n _ _ _ Hlog), length_fmap.
  match goal with |- context [for_each _ ?body _] =>
    destruct (for_each_seqZ (length ts) body (fun i s' => exists f' l' out,
      s' = s <| k_out := out |> ⊕ f' /\ wrote (take i ts) f f'
      /\ cache pid f' l' (unpin (take i ts.*1) A) ∅ /\ (recovering = false -> out = k_out s))
      (s ⊕ f)) as (s' & E & Hfin)
  end.
  - exists f, l, (k_out s). rewrite !take_0. split_and!; [by destruct s|apply wrote_nil|done|done].
  - intros i s1 Hi (f1 & l1 & out & -> & Hw & Hc1 & Ho).
    destruct (at_index i Hi) as (h & d & Ht & Hh & Hho & Hx & Hl).
    destruct (dwrites_is_Some (take i ts) _ _ Hx) as [d1 Hd1].
    rewrite <- (wr_blocks _ _ _ Hw) in Hd1.
    assert (Hl1 : log_is ls ts.*1 (fs_log f1)) by by rewrite (wr_log _ _ _ Hw).
    assert (Hlb : fs_blocks f1 !! (ls + Z.of_nat i + 1) = Some d).
    { rewrite (wr_blocks _ _ _ Hw), dwrites_other; [by eapply Hdata|]. intros Hb.
      rewrite fmap_take in Hb. apply list_elem_of_lookup in Hb as [j Hj].
      apply lookup_take_Some in Hj as [Hj _].
      by destruct (Hhome (ls + Z.of_nat i + 1)) as [[_ ?] _]; [by eapply list_elem_of_lookup_2|]. }
    set (out' := if recovering then recovering_msg (Z.of_nat i) h :: out else out).
    assert (HAh : exists d2, unpin (take i ts.*1) A !! h = if recovering then None else Some (1, d2)).
    { rewrite lookup_unpin. pose proof (HA h (list_elem_of_lookup_2 _ _ _ Hh)) as HAh.
      destruct recovering; [exists []; by case_decide|]. destruct HAh as [d2 ->]. exists d2.
      rewrite decide_False; [done|]. intros Hb. apply list_elem_of_lookup in Hb as [j Hj].
      apply lookup_take_Some in Hj as [Hj Hlt].
      assert (j = i) by (eapply NoDup_lookup; eauto). lia. }
    destruct HAh as [d2 HAh].
    edestruct (install_step pid Hfuel (s <| k_out := out' |>) (calm_out out') ls f1 l1 (unpin (take i ts.*1) A)
      Hls recovering ts.*1 i h d) as (f2 & l2 & E2 & Hw2 & Hc2); try done.
    { rewrite lookup_unpin. case_decide; [done|]. by apply Hout. }
    { pose proof (size_unpin (take i ts.*1) A). lia. }
    eexists. split.
    + erewrite bind_Ret by apply get_log_run.
      erewrite bind_Ret by (eapply index_run, log_is_lookup; eassumption).
      rewrite (li_dev _ _ _ Hl1), (li_start _ _ _ Hl1).
      rewrite !u32_small by (unfold in_log, home in *; lia).
      erewrite bind_Ret; [exact E2|]. by destruct recovering.
    + exists f2, l2, out'. split_and!; [done| | |by destruct recovering].
      * eapply wrote_trans; [exact Hw|exact Hw2|]. by apply take_S_r.
      * rewrite (take_S_r _ _ _ Hh). unfold unpin. by rewrite foldl_app.
  - destruct Hfin as (f' & l' & out & -> & Hw & Hc' & Ho). exists f', l', out.
    rewrite take_ge in Hw by lia. rewrite take_ge in Hc' by (rewrite length_fmap; lia).
    by split_and!.
Qed.
End loops.

(** ** Reading and writing the header *)

Lemma cache_log f l A held lg : cache pid f l A held -> cache pid (f <| fs_log := lg |>) l A held.
Proof. intros [? ? ? ? ? ? ?]. by split. Qed.

Lemma length_lh_block d : Z.of_nat (length (lh_block (lh_of_block d))) = LOGBLOCKS.
Proof. unfold lh_of_block, uints_at. cbn [lh_block]. by rewrite !length_fmap, length_seq. Qed.

Section head.
Context (s : kstate) (Hcalm : calm pid s) (ls : Z) (f : fsst) (l : list nat) (A : blocks_in_use).
Context (Hls : 0 <= ls /\ ls + LOGBLOCKS < 2 ^ 31) (Hc : cache pid f l A ∅).
Context (HAl : A !! ls = None) (Hroom : (size A < bhead)%nat).
Context (d : list Z) (Hd : fs_blocks f !! ls = Some d).

Lemma bread_head :
  exists b f', bread ROOTDEV ls (s ⊕ f) = Ret b (s ⊕ f') /\ same_disk f f'
    /\ cache pid f' l (<[ls := (1, d)]> A) (<[b := ls]> ∅).
Proof.
  destruct (bread_run pid s Hcalm Hfuel f l A ∅ ls d) as (b & f1 & E & S1 & _ & C1); try done.
  { by left. } { intros ?? E. congruence. }
  unfold one_more in C1. rewrite HAl in C1. by exists b, f1.
Qed.

Lemma write_head_run hs :
  log_is ls hs (fs_log f) ->
  exists f' l', write_head (s ⊕ f) = Ret tt (s ⊕ f') /\ wrote [(ls, head_block hs d)] f f'
    /\ cache pid f' l' A ∅.
Proof.
  intros Hlog. unfold write_head. erewrite bind_Ret by apply get_log_run.
  rewrite (li_dev _ _ _ Hlog), (li_start _ _ _ Hlog), (li_n _ _ _ Hlog).
  rewrite u32_small by (unfold LOGBLOCKS, MAXOPBLOCKS in *; lia).
  destruct bread_head as (b & f1 & E1 & S1 & C1). rewrite (bind_Ret _ _ _ _ _ E1).
  erewrite bind_Ret by (eapply (get_data_run pid s C1); apply lookup_insert_eq).
  edestruct (set_data_run pid s Hfuel C1 (b := b) (bn := ls) (rc := 1) (d := d))
    as (f2 & E2 & S2 & C2); [apply lookup_insert_eq..|]. rewrite (bind_Ret _ _ _ _ _ E2).
  rewrite insert_insert_eq in C2.
  match goal with |- context [for_each _ ?body] =>
    destruct (for_each_seqZ (length hs) body (fun i s' => exists f', s' = s ⊕ f' /\ same_disk f f'
      /\ cache pid f' l (<[ls := (1, put_uints 4 (take i hs) (put_le 4 0 (Z.of_nat (length hs)) d))]> A)
           (<[b := ls]> ∅)) (s ⊕ f2)) as (s' & E & f3 & -> & S3 & C3)
  end.
  - exists f2. split_and!; [done|by apply (same_disk_trans _ f1)|done].
  - intros i s1 Hi (f3 & -> & S3 & C3). destruct (lookup_lt_is_Some_2 hs i Hi) as [h Hh].
    erewrite bind_Ret by (eapply index_run, log_is_lookup; eassumption).
    erewrite bind_Ret by (eapply (get_data_run pid s C3); apply lookup_insert_eq).
    edestruct (set_data_run pid s Hfuel C3 (b := b) (bn := ls) (rc := 1) (d := put_uints 4
      (take i hs) (put_le 4 0 (Z.of_nat (length hs)) d))) with (d' := put_uints 4 (take (S i) hs) (put_le 4 0 (Z.of_nat (length hs)) d))
      as (f4 & E4 & S4 & C4); [apply lookup_insert_eq..|].
    rewrite insert_insert_eq in C4. eexists. split; [|exists f4; split_and!;
      [reflexivity|by apply (same_disk_trans _ f3)|exact C4]].
    rewrite <- E4, (take_S_r _ _ _ Hh), put_uints_snoc, length_take. do 4 f_equal. lia.
  - rewrite (bind_Ret _ _ _ _ _ E). rewrite take_ge in C3 by lia. fold (head_block hs d) in C3.
    erewrite bind_Ret by (eapply (bwrite_run pid s Hcalm C3); apply lookup_insert_eq).
    eapply cache_flush in C3; [|apply lookup_insert_eq].
    edestruct (brelse_run pid s Hcalm Hfuel C3 (b := b) (bn := ls) (rc := 1) (d := head_block hs d))
      as (f4 & l4 & E4 & S4 & _ & C4); [apply lookup_insert_eq..|lia|intros _; apply lookup_insert_eq|].
    exists f4, l4. simpl in C4. rewrite !delete_insert_id in C4 by done. split_and!; [done| |done].
    apply wrote_step_l with f3; [done|].
    eapply (wrote_trans [_] []); [|by apply same_disk_wrote|done]. by split.
Qed.

Lemma read_head_run hs :
  log_is ls hs (fs_log f) -> 0 <= lh_n (lh_of_block d) <= LOGBLOCKS ->
  exists f' l', read_head (s ⊕ f) = Ret tt (s ⊕ f') /\ fs_blocks f' = fs_blocks f
    /\ fs_writes f' = fs_writes f /\ log_is ls (header ls (fs_blocks f)) (fs_log f')
    /\ cache pid f' l' A ∅.
Proof.
  intros Hlog Hn. unfold read_head. erewrite bind_Ret by apply get_log_run.
  rewrite (li_dev _ _ _ Hlog), (li_start _ _ _ Hlog).
  rewrite u32_small by (unfold LOGBLOCKS, MAXOPBLOCKS in *; lia).
  destruct bread_head as (b & f1 & E1 & S1 & C1). rewrite (bind_Ret _ _ _ _ _ E1).
  erewrite bind_Ret by (eapply (get_data_run pid s C1); apply lookup_insert_eq).
  cbv zeta. set (lh := lh_of_block d) in *. pose proof (length_lh_block d : _ = _) as Hlen.
  fold lh in Hlen. destruct (Z_of_nat_complete _ (proj1 Hn)) as [n En].
  erewrite bind_Ret by reflexivity. rewrite En.
  match goal with |- context [for_each _ ?body] =>
    destruct (for_each_seqZ n body (fun i s' => exists blocks,
      s' = s ⊕ f1 <| fs_log := (fs_log f1) <| log_lh := Logheader (Z.of_nat n) blocks |> |>
      /\ Z.of_nat (length blocks) = LOGBLOCKS /\ take i blocks = take i (lh_block lh))
      (s ⊕ f1 <| fs_log := (fs_log f1) <| log_lh := (log_lh (fs_log f1)) <| lh_n := Z.of_nat n |> |> |>))
      as (s' & E & blocks & -> & Hbl & Htk)
  end.
  - eexists. split; [reflexivity|]. split; [|done]. rewrite (same_log _ _ S1). apply Hlog.
  - intros i s1 Hi (blocks & -> & Hbl & Htk).
    destruct (lookup_lt_is_Some_2 (lh_block lh) i) as [v Hv]; [lia|].
    erewrite bind_Ret by by apply index_run. erewrite bind_Ret by apply get_log_run.
    erewrite bind_Ret by (unfold store_at; cbn [log_lh lh_block fs_log set_field];
      rewrite (proj2 (orb_false_iff _ _)) by lia; reflexivity).
    eexists. split; [reflexivity|]. exists (<[i := v]> blocks). rewrite Nat2Z.id, length_insert.
    split_and!; [done|done|]. rewrite (take_S_r _ i v) by (apply list_lookup_insert_eq; lia).
    rewrite take_insert_ge, Htk by lia. symmetry. by apply take_S_r.
  - rewrite (bind_Ret _ _ _ _ _ E).
    set (lg := (fs_log f1) <| log_lh := Logheader (Z.of_nat n) blocks |>) in *.
    apply (cache_log _ _ _ _ lg) in C1.
    edestruct (brelse_run pid s Hcalm Hfuel C1 (b := b) (bn := ls) (rc := 1) (d := d))
      as (f4 & l4 & E4 & S4 & _ & C4); [apply lookup_insert_eq..|lia| |].
    { intros _. cbn. by rewrite (same_blocks _ _ S1). }
    simpl in C4. rewrite !delete_insert_id in C4 by done.
    exists f4, l4. split_and!; [done|..|done];
      [by rewrite (proj1 S4), (proj1 S1)|by rewrite (proj1 S4), (proj1 S1)|rewrite (same_log _ _ S4)]. cbn.
    subst lg. rewrite (same_log _ _ S1).
    assert (Eh : header ls (fs_blocks f) = take n (lh_block lh)).
    { unfold header. rewrite (lookup_total_correct _ _ _ Hd). fold lh. by rewrite En, Nat2Z.id. }
    rewrite Eh. split; cbn [log_dev log_start log_lh lh_n lh_block set_field eta_log].
    + apply Hlog.
    + apply Hlog.
    + rewrite length_take. lia.
    + done.
    + rewrite length_take, Nat.min_l by lia. done.
Qed.
End head.
End runs.

(** ** Crashes *)

Lemma home_eq_dwrites ls ws D1 D2 :
  home_eq ls D1 D2 -> home_eq ls (dwrites ws D1) (dwrites ws D2).
Proof.
  intros He bn Hbn. destruct (decide (bn ∈ ws.*1)) as [Hin|Hout].
  - by apply dwrites_in_eq.
  - rewrite !dwrites_other by done. by apply He.
Qed.

Lemma home_eq_writes ls ws D :
  (forall bn, bn ∈ ws.*1 -> in_log ls bn) -> home_eq ls (dwrites ws D) D.
Proof. intros Hw bn Hbn. apply dwrites_other. auto. Qed.

(** The transaction of the header depends on the blocks of the log only. *)
Lemma pending_ext ls D1 D2 :
  (forall bn, in_log ls bn -> D1 !! bn = D2 !! bn) -> log_ok ls D1 ->
  header ls D1 = header ls D2 /\ pending ls D1 = pending ls D2.
Proof.
  intros He Hok. assert (Eh : header ls D1 = header ls D2).
  { unfold header. by rewrite (lookup_total_eq _ _ _ (He ls (in_log_start ls))). }
  split; [done|]. unfold pending. rewrite <- Eh. apply imap_ext. intros i h Hh. f_equal.
  apply lookup_total_eq, He. apply lookup_lt_Some in Hh. unfold header in Hh.
  rewrite length_take in Hh. pose proof (lo_n _ _ Hok). unfold in_log. lia.
Qed.

Lemma pending_fst ls D : (pending ls D).*1 = header ls D.
Proof.
  apply list_eq. intros i. unfold pending. rewrite list_lookup_fmap, list_lookup_imap.
  by destruct (header ls D !! i).
Qed.

Lemma elem_take {B} (x : B) k xs : x ∈ take k xs -> x ∈ xs.
Proof.
  intros Hin. rewrite <- (take_drop k xs). apply elem_of_app. by left.
Qed.

Lemma prefix_take {B} k (xs : list B) : take k xs `prefix_of` xs.
Proof. exists (drop k xs). by rewrite take_drop. Qed.

(** A crash in the middle of [install_trans]: recovery does it again. *)
Lemma install_prefix ls D k :
  log_ok ls D ->
  log_ok ls (dwrites (take k (pending ls D)) D)
  /\ recovered ls (dwrites (take k (pending ls D)) D) = recovered ls D.
Proof.
  intros Hok. set (D' := dwrites (take k (pending ls D)) D).
  assert (Hlog : forall bn, in_log ls bn -> D !! bn = D' !! bn).
  { intros bn Hbn. symmetry. apply dwrites_other. rewrite fmap_take, pending_fst. intros Hin.
    apply elem_take, (lo_home _ _ Hok) in Hin as [[_ ?] _]. done. }
  destruct (pending_ext ls D D' Hlog Hok) as [Eh Ep]. split.
  - pose proof (lookup_total_eq _ _ _ (Hlog ls (in_log_start ls))) as El.
    destruct Hok as [H1 H2 H3 H4 H5]. split; [done|..].
    + intros bn Hbn. rewrite <- Hlog by done. auto.
    + by rewrite <- El.
    + by rewrite <- El.
    + rewrite <- Eh. intros h Hh. destruct (H5 h Hh). split; [done|]. by apply dwrites_is_Some.
  - unfold recovered. rewrite <- Ep. apply dwrites_again, prefix_take.
Qed.

(** The header is erased. *)
Lemma header_erased ls D d :
  log_ok ls D -> Z.of_nat (length d) = BSIZE ->
  let D' := <[ls := head_block [] d]> D in
  log_ok ls D' /\ header ls D' = [] /\ home_eq ls D' D.
Proof.
  intros Hok Hd D'.
  assert (E : D' !! ls = Some (head_block [] d)) by apply lookup_insert_eq.
  assert (Eh : header ls D' = []).
  { eapply header_head_block; [exact Hd| |constructor|exact E].
    unfold LOGBLOCKS, MAXOPBLOCKS. simpl. lia. }
  split_and!; [|done|].
  - destruct Hok as [H1 H2 H3 H4 H5]. split; [done|..].
    + intros bn Hbn. destruct (decide (bn = ls)) as [->|]; [by eexists|].
      unfold D'. rewrite lookup_insert_ne by done. auto.
    + rewrite (lookup_total_correct _ _ _ E). apply length_head_block; [done|].
      unfold LOGBLOCKS, MAXOPBLOCKS. simpl. lia.
    + rewrite (lookup_total_correct _ _ _ E), head_block_n; [|done|];
        unfold LOGBLOCKS, MAXOPBLOCKS; simpl; lia.
    + rewrite Eh. intros h Hh. by apply not_elem_of_nil in Hh.
  - intros bn Hbn. unfold D'. apply lookup_insert_ne. intros <-. apply Hbn, in_log_start.
Qed.

(** The writes of a commit of the transaction [ts], when the header block is [d]. *)
Definition commit_writes (ls : Z) (d : list Z) (ts : list (Z * list Z)) : list (Z * list Z) :=
  log_writes ls ts ++ (ls, head_block ts.*1 d) :: ts
    ++ [(ls, head_block [] (head_block ts.*1 d))].

Section crash.
Context (ls : Z) (D : image) (d : list Z) (ts : list (Z * list Z)).
Context (Hok : log_ok ls D) (Hempty : header ls D = []) (Hd : D !! ls = Some d).
Context (Hn : Z.of_nat (length ts) <= LOGBLOCKS).
Context (Hhome : forall h, h ∈ ts.*1 -> home ls h /\ is_Some (D !! h)).

#[local] Lemma block_size : Z.of_nat (length d) = BSIZE.
Proof. rewrite <- (lookup_total_correct _ _ _ Hd). apply Hok. Qed.

#[local] Lemma home_range : Forall (fun h => 0 <= h < 2 ^ 31) ts.*1.
Proof. apply Forall_forall. intros h Hh. by destruct (Hhome h Hh) as [[? _] _]. Qed.

#[local] Lemma fst_len : Z.of_nat (length ts.*1) <= LOGBLOCKS.
Proof. by rewrite length_fmap. Qed.

(** Before the header is written the transaction has not happened. *)
Lemma crash_before k :
  let Dk := dwrites (take k (log_writes ls ts)) D in
  log_ok ls Dk /\ header ls Dk = [] /\ home_eq ls Dk D.
Proof.
  intros Dk.
  assert (Hw : forall bn, bn ∈ (take k (log_writes ls ts)).*1 -> in_log ls bn /\ bn <> ls).
  { intros bn. rewrite fmap_take. intros Hb. apply elem_take in Hb.
    by apply (log_writes_in_log ls ts bn Hn). }
  assert (El : Dk !! ls = D !! ls).
  { apply dwrites_other. intros Hb. by destruct (Hw _ Hb). }
  assert (Eh : header ls Dk = []).
  { rewrite <- Hempty. unfold header. by rewrite (lookup_total_eq _ _ _ El). }
  split_and!; [|done|].
  - destruct Hok as [H1 H2 H3 H4 H5]. split; [done|..].
    + intros bn Hbn. apply dwrites_is_Some. auto.
    + by rewrite (lookup_total_eq _ _ _ El).
    + by rewrite (lookup_total_eq _ _ _ El).
    + rewrite Eh. intros h Hh. by apply not_elem_of_nil in Hh.
  - apply home_eq_writes. intros bn Hb. by destruct (Hw _ Hb).
Qed.

(** The blocks of the log have the contents of the transaction. *)
Lemma logged_data i h dt :
  ts !! i = Some (h, dt) -> dwrites (log_writes ls ts) D !! (ls + Z.of_nat i + 1) = Some dt.
Proof.
  intros Hi. pose proof (lookup_log_writes ls _ _ _ _ Hi) as Hw.
  destruct (dwrites_in (log_writes ls ts) D (ls + Z.of_nat i + 1)) as (dd & Hin & ->).
  { apply list_elem_of_fmap. eexists. split; [|by eapply list_elem_of_lookup_2]. done. }
  apply list_elem_of_lookup in Hin as [j Hj]. unfold log_writes in Hj. rewrite list_lookup_imap in Hj.
  destruct (ts !! j) as [[h' dt']|] eqn:E; [|done]. injection Hj as Hj <-.
  assert (j = i) by lia. congruence.
Qed.

(** Once the header is written it has. *)
Lemma crash_committed :
  let D' := <[ls := head_block ts.*1 d]> (dwrites (log_writes ls ts) D) in
  log_ok ls D' /\ pending ls D' = ts /\ home_eq ls D' D.
Proof.
  intros D'.
  pose proof block_size as Hsz. pose proof home_range as Hr. pose proof fst_len as Hlen.
  assert (E : D' !! ls = Some (head_block ts.*1 d)) by apply lookup_insert_eq.
  pose proof (header_head_block _ _ Hsz Hlen Hr ls D' E) as Eh.
  assert (Hsome : forall bn, is_Some (D !! bn) -> is_Some (D' !! bn)).
  { intros bn Hb. destruct (decide (bn = ls)) as [->|]; [by eexists|].
    unfold D'. rewrite lookup_insert_ne by done. by apply dwrites_is_Some. }
  split_and!.
  - split; [apply Hok|..].
    + intros bn Hbn. by apply Hsome, Hok.
    + rewrite (lookup_total_correct _ _ _ E). by apply length_head_block.
    + rewrite (lookup_total_correct _ _ _ E), head_block_n by done. lia.
    + rewrite Eh. intros h Hh. destruct (Hhome h Hh). split; [done|]. by apply Hsome.
  - unfold pending. rewrite Eh. apply list_eq. intros i. rewrite list_lookup_imap, list_lookup_fmap.
    destruct (ts !! i) as [[h dt]|] eqn:Ei; [|done]. simpl. do 2 f_equal.
    apply lookup_total_correct. unfold D'. rewrite lookup_insert_ne by lia.
    by eapply logged_data.
  - transitivity (dwrites (log_writes ls ts) D).
    + intros bn Hbn. unfold D'. apply lookup_insert_ne. intros <-. apply Hbn, in_log_start.
    + apply home_eq_writes. intros bn Hb. by destruct (log_writes_in_log ls ts bn Hn Hb).
Qed.

(** What a crash after [k] writes of the commit leaves. *)
Lemma commit_prefix k :
  let Dk := dwrites (take k (commit_writes ls d ts)) D in
  log_ok ls Dk /\
  home_eq ls (recovered ls Dk) (if (k <=? length ts)%nat then D else dwrites ts D).
Proof.
  intros Dk. destruct (Nat.leb_spec k (length ts)) as [Hk|Hk].
  - assert (E : Dk = dwrites (take k (log_writes ls ts)) D).
    { unfold Dk, commit_writes. by rewrite take_app_le by (rewrite length_log_writes; lia). }
    rewrite E. destruct (crash_before k) as (H1 & H2 & H3). split; [done|].
    by rewrite recovered_empty.
  - destruct crash_committed as (H1 & H2 & H3).
    set (D' := <[ls := head_block ts.*1 d]> (dwrites (log_writes ls ts) D)) in *.
    assert (Hrec : home_eq ls (recovered ls D') (dwrites ts D)).
    { unfold recovered. rewrite H2. by apply home_eq_dwrites. }
    set (j := (k - S (length ts))%nat).
    assert (E : Dk = dwrites (take j (ts ++ [(ls, head_block [] (head_block ts.*1 d))])) D').
    { unfold Dk, commit_writes. rewrite take_app_ge, length_log_writes by (rewrite length_log_writes; lia).
      rewrite dwrites_app. replace (k - length ts)%nat with (S j) by lia. done. }
    rewrite E. destruct (decide (j <= length ts)%nat) as [Hj|Hj].
    + rewrite take_app_le by lia. rewrite <- H2. destruct (install_prefix ls D' j H1) as [H4 H5].
      split; [done|]. rewrite H5. by rewrite H2.
    + rewrite take_ge by (rewrite length_app; simpl; lia). rewrite dwrites_app.
      assert (Hf : log_ok ls (dwrites ts D')).
      { rewrite <- H2. rewrite <- (firstn_all (pending ls D')). by apply install_prefix. }
      edestruct (header_erased ls (dwrites ts D') (head_block ts.*1 d)) as (H6 & H7 & H8); [done|..].
      { apply length_head_block; [apply block_size|apply fst_len]. }
      split; [exact H6|]. cbn. rewrite recovered_empty by exact H7. etransitivity; [exact H8|].
      by apply home_eq_dwrites.
Qed.
End crash.

(** ** Commit and recovery *)

Lemma log_is_nil ls hs lg :
  log_is ls hs lg -> log_is ls [] (lg <| log_lh := (log_lh lg) <| lh_n := 0 |> |>).
Proof. intros [? ? ? ? ?]. by split. Qed.

(** A transaction that can be committed: its blocks [ts], with their new contents,
    are pinned, and one buffer is left for the blocks of the log. *)
Record committable (pid ls : Z) (f : fsst) (l : list nat) (A : blocks_in_use)
    (ts : list (Z * list Z)) : Prop := {
  cm_cache : cache pid f l A ∅;
  cm_disk : log_ok ls (fs_blocks f);
  cm_empty : header ls (fs_blocks f) = [];
  cm_log : log_is ls ts.*1 (fs_log f);
  cm_n : 0 < Z.of_nat (length ts) <= LOGBLOCKS;
  cm_home h : h ∈ ts.*1 -> home ls h /\ is_Some (fs_blocks f !! h);
  cm_pinned h d : (h, d) ∈ ts -> A !! h = Some (1, d);
  cm_distinct : NoDup ts.*1;
  cm_log_free bn : in_log ls bn -> A !! bn = None;
  cm_room : (size A < bhead)%nat;
}.

Section commit.
Context `{Fuel} (pid : Z) (Hfuel : (0 < fuel)%nat) (s : kstate) (Hcalm : calm pid s) (ls : Z).

Lemma commit_run f l A ts d :
  committable pid ls f l A ts -> fs_blocks f !! ls = Some d ->
  exists f' l', commit (s ⊕ f) = Ret tt (s ⊕ f')
    /\ fs_blocks f' = dwrites (commit_writes ls d ts) (fs_blocks f)
    /\ fs_writes f' = reverse (commit_writes ls d ts) ++ fs_writes f
    /\ log_is ls [] (fs_log f') /\ cache pid f' l' (unpin ts.*1 A) ∅.
Proof.
  intros [Hc Hok Hempty Hlog Hn Hhome Hpin Hnd Hfree Hroom] Hd.
  pose proof (lo_start _ _ Hok) as Hls. pose proof (Hfree ls (in_log_start ls)) as HAl.
  unfold commit. erewrite bind_Ret by apply get_log_run.
  rewrite (li_n _ _ _ Hlog), length_fmap, (proj2 (Z.ltb_lt _ _)) by lia. cbn [when].
  destruct (write_log_run pid Hfuel s Hcalm ls f l A ts) as (f1 & l1 & E1 & W1 & C1); try done.
  { lia. } { apply Hok. }
  rewrite (bind_Ret _ _ _ _ _ E1).
  assert (Hd1 : fs_blocks f1 !! ls = Some d).
  { rewrite (wr_blocks _ _ _ W1), dwrites_other; [done|]. intros Hb.
    by destruct (log_writes_in_log ls ts ls ltac:(lia) Hb). }
  destruct (write_head_run pid Hfuel s Hcalm ls f1 l1 A Hls C1 HAl Hroom d Hd1 ts.*1)
    as (f2 & l2 & E2 & W2 & C2); [by rewrite (wr_log _ _ _ W1)|].
  rewrite (bind_Ret _ _ _ _ _ E2).
  assert (B2 : fs_blocks f2 = <[ls := head_block ts.*1 d]> (dwrites (log_writes ls ts) (fs_blocks f))).
  { by rewrite (wr_blocks _ _ _ W2), (wr_blocks _ _ _ W1). }
  assert (L2 : fs_log f2 = fs_log f) by (by rewrite (wr_log _ _ _ W2), (wr_log _ _ _ W1)).
  assert (Hsome : forall bn, is_Some (fs_blocks f !! bn) -> is_Some (fs_blocks f2 !! bn)).
  { intros bn Hb. rewrite (wr_blocks _ _ _ W2), (wr_blocks _ _ _ W1). by do 2 apply dwrites_is_Some. }
  destruct (install_trans_run pid Hfuel s Hcalm ls f2 l2 A ts) with (recovering := false)
    as (f3 & l3 & out & E3 & W3 & C3 & Ho); try done.
  { by rewrite L2. } { lia. } { intros h Hh. destruct (Hhome h Hh). auto. }
  { intros h Hh. apply list_elem_of_fmap in Hh as ([h' dt] & -> & Hh). exists dt. by apply Hpin. }
  { intros i h dt Hi. rewrite B2, lookup_insert_ne by lia. by eapply logged_data. }
  rewrite (Ho eq_refl) in E3. replace (s <| k_out := k_out s |>) with s in E3 by by destruct s.
  rewrite (bind_Ret _ _ _ _ _ E3).
  set (f4 := f3 <| fs_log := (fs_log f3) <| log_lh := (log_lh (fs_log f3)) <| lh_n := 0 |> |> |>).
  rewrite (bind_Ret (upd_lh _) _ _ tt (s ⊕ f4)) by done.
  assert (L4 : log_is ls [] (fs_log f4)).
  { unfold f4. cbn. eapply log_is_nil. by rewrite (wr_log _ _ _ W3), L2. }
  destruct (write_head_run pid Hfuel s Hcalm ls f4 l3 (unpin ts.*1 A) Hls) with
    (d := head_block ts.*1 d) (hs := @nil Z) as (f5 & l5 & E5 & W5 & C5); try done.
  { by apply cache_log. } { rewrite lookup_unpin. by case_decide. }
  { pose proof (size_unpin ts.*1 A). lia. }
  { cbn. rewrite (wr_blocks _ _ _ W3), dwrites_other; [by rewrite B2, lookup_insert_eq|].
    intros Hb. destruct (Hhome ls Hb) as [[_ []] _]. apply in_log_start. }
  exists f5, l5. split_and!; [done|..|done].
  - rewrite (wr_blocks _ _ _ W5). cbn. rewrite (wr_blocks _ _ _ W3), B2.
    unfold commit_writes, dwrites. rewrite foldl_app. cbn. by rewrite foldl_app.
  - rewrite (wr_writes _ _ _ W5). cbn. rewrite (wr_writes _ _ _ W3), (wr_writes _ _ _ W2).
    rewrite (wr_writes _ _ _ W1). unfold commit_writes. rewrite !reverse_app, !reverse_cons, !reverse_app.
    by rewrite <- !app_assoc.
  - by rewrite (wr_log _ _ _ W5).
Qed.

(** The writes of a recovery. *)
Definition recovery_writes (D : image) : list (Z * list Z) :=
  pending ls D ++ [(ls, head_block [] (D !!! ls))].

Lemma recover_run f l hs :
  cache pid f l ∅ ∅ -> log_ok ls (fs_blocks f) -> log_is ls hs (fs_log f) ->
  exists f' l' out, recover_from_log (s ⊕ f) = Ret tt (s <| k_out := out |> ⊕ f')
    /\ fs_blocks f' = dwrites (recovery_writes (fs_blocks f)) (fs_blocks f)
    /\ fs_writes f' = reverse (recovery_writes (fs_blocks f)) ++ fs_writes f
    /\ log_is ls [] (fs_log f') /\ cache pid f' l' ∅ ∅.
Proof.
  intros Hc Hok Hlog. pose proof (lo_start _ _ Hok) as Hls.
  destruct (lo_log _ _ Hok ls (in_log_start ls)) as [d Hd].
  assert (Hb30 : (1 < bhead)%nat) by (vm_compute; lia).
  assert (Hroom : (size (∅ : blocks_in_use) < bhead)%nat) by (rewrite map_size_empty; lia).
  pose proof (lo_n _ _ Hok) as Hn. rewrite (lookup_total_correct _ _ _ Hd) in Hn.
  unfold recover_from_log.
  destruct (read_head_run pid Hfuel s Hcalm ls f l ∅ Hls Hc (lookup_empty _) Hroom d Hd hs Hlog Hn)
    as (f1 & l1 & E1 & B1 & W1 & L1 & C1). rewrite (bind_Ret _ _ _ _ _ E1).
  set (ts := pending ls (fs_blocks f)).
  assert (Hts : ts.*1 = header ls (fs_blocks f)) by apply pending_fst.
  assert (Hnt : Z.of_nat (length ts) <= LOGBLOCKS).
  { rewrite <- (length_fmap fst ts), Hts. unfold header. rewrite length_take.
    rewrite (lookup_total_correct _ _ _ Hd). lia. }
  destruct (install_trans_run pid Hfuel s Hcalm ls f1 l1 ∅ ts) with (recovering := true)
    as (f2 & l2 & out & E2 & W2 & C2 & _); try done.
  { by rewrite Hts. } { rewrite Hts, B1. apply Hok. }
  { rewrite map_size_empty. lia. }
  { intros i h dt Hi. rewrite B1. unfold ts, pending in Hi. rewrite list_lookup_imap in Hi.
    destruct (header ls (fs_blocks f) !! i) as [h'|] eqn:Eh; [|done]. injection Hi as <- <-.
    destruct (lo_log _ _ Hok (ls + Z.of_nat i + 1)) as [dt Hdt].
    - apply lookup_lt_Some in Eh. rewrite <- Hts, length_fmap in Eh. unfold in_log. lia.
    - by rewrite (lookup_total_correct _ _ _ Hdt). }
  rewrite (bind_Ret _ _ _ _ _ E2).
  assert (Ce : unpin ts.*1 ∅ = ∅).
  { apply map_eq. intros bn. rewrite lookup_unpin, lookup_empty. by case_decide. }
  rewrite Ce in C2.
  set (f3 := f2 <| fs_log := (fs_log f2) <| log_lh := (log_lh (fs_log f2)) <| lh_n := 0 |> |> |>).
  rewrite (bind_Ret (upd_lh _) _ _ tt (s <| k_out := out |> ⊕ f3)) by done.
  destruct (write_head_run pid Hfuel (s <| k_out := out |>) (calm_out pid s Hcalm out) ls f3 l2 ∅ Hls)
    with (d := d) (hs := @nil Z) as (f4 & l4 & E4 & W4 & C4); try done.
  { by apply cache_log. }
  { cbn. rewrite (wr_blocks _ _ _ W2), B1, dwrites_other; [done|].
    rewrite Hts. intros Hb. destruct (lo_home _ _ Hok ls Hb) as [[_ []] _]. apply in_log_start. }
  { unfold f3. cbn. eapply log_is_nil. rewrite (wr_log _ _ _ W2). exact L1. }
  exists f4, l4, out. unfold recovery_writes. rewrite (lookup_total_correct _ _ _ Hd). fold ts.
  split_and!; [done|..|done].
  - rewrite (wr_blocks _ _ _ W4). cbn. by rewrite (wr_blocks _ _ _ W2), B1, dwrites_app.
  - rewrite (wr_writes _ _ _ W4). cbn. by rewrite (wr_writes _ _ _ W2), W1, reverse_app.
  - rewrite (wr_log _ _ _ W4). unfold f3. cbn. eapply log_is_nil. rewrite (wr_log _ _ _ W2). exact L1.
Qed.
End commit.

Lemma recovery_prefix ls D k :
  log_ok ls D ->
  let Dk := dwrites (take k (recovery_writes ls D)) D in
  log_ok ls Dk /\ home_eq ls (recovered ls Dk) (recovered ls D)
  /\ (length (pending ls D) < k -> header ls Dk = [])%nat.
Proof.
  intros Hok Dk. unfold Dk, recovery_writes.
  destruct (decide (k <= length (pending ls D))%nat) as [Hk|Hk].
  - rewrite take_app_le by done. destruct (install_prefix ls D k Hok) as [H1 H2].
    split_and!; [done|by rewrite H2|lia].
  - rewrite take_ge by (rewrite length_app; simpl; lia). rewrite dwrites_app.
    destruct (install_prefix ls D (length (pending ls D)) Hok) as [H1 H2]. rewrite firstn_all in H1.
    edestruct (header_erased ls _ (D !!! ls) H1) as (H3 & H4 & H5); [apply Hok|].
    split_and!; [exact H3| |intros _; exact H4]. cbn. by rewrite recovered_empty by exact H4.
Qed.

Lemma recover_done `{Fuel} pid s ls f l hs :
  (0 < fuel)%nat -> calm pid s -> cache pid f l ∅ ∅ -> log_ok ls (fs_blocks f) ->
  log_is ls hs (fs_log f) ->
  exists f' l' out, recover_from_log (s ⊕ f) = Ret tt (s <| k_out := out |> ⊕ f')
    /\ fs_blocks f' = dwrites (recovery_writes ls (fs_blocks f)) (fs_blocks f)
    /\ fs_writes f' = reverse (recovery_writes ls (fs_blocks f)) ++ fs_writes f
    /\ home_eq ls (fs_blocks f') (recovered ls (fs_blocks f)) /\ header ls (fs_blocks f') = []
    /\ log_is ls [] (fs_log f') /\ cache pid f' l' ∅ ∅.
Proof.
  intros Hfuel Hcalm Hc Hok Hlog.
  destruct (recover_run pid Hfuel s Hcalm ls f l hs Hc Hok Hlog) as (f' & l' & out & E & B & W & L & C).
  destruct (recovery_prefix ls _ (length (recovery_writes ls (fs_blocks f))) Hok) as (H1 & H2 & H3).
  rewrite firstn_all, <- B in H1, H2, H3.
  assert (He : header ls (fs_blocks f') = []).
  { apply H3. unfold recovery_writes. rewrite length_app. simpl. lia. }
  exists f', l', out. split_and!; try done. by rewrite recovered_empty in H2.
Qed.

(** After the last write of a commit the log is empty. *)
Lemma commit_erased ls d ts D :
  Z.of_nat (length d) = BSIZE -> Z.of_nat (length ts) <= LOGBLOCKS ->
  header ls (dwrites (commit_writes ls d ts) D) = [].
Proof.
  intros Hd Hn. eapply (header_head_block [] (head_block ts.*1 d)).
  - apply length_head_block; [done|]. by rewrite length_fmap.
  - unfold LOGBLOCKS, MAXOPBLOCKS. simpl. lia.
  - constructor.
  - unfold commit_writes. rewrite app_comm_cons, app_assoc, dwrites_app. apply lookup_insert_eq.
Qed.

(** C19. Recovery is correct and can itself be interrupted: on any disk whose log is
    well formed, [recover_from_log()] leaves outside the log what [recovered] says
    (the blocks of the committed transaction, if there is one, are installed) and an
    empty log; and when the machine stops after any number of its writes, a later
    recovery still arrives at the same disk. *)
Theorem recover_from_log_spec `{Fuel} pid s ls f l hs :
  (0 < fuel)%nat -> calm pid s -> cache pid f l ∅ ∅ -> log_ok ls (fs_blocks f) ->
  log_is ls hs (fs_log f) ->
  exists f' l' out ws, recover_from_log (s ⊕ f) = Ret tt (s <| k_out := out |> ⊕ f')
    /\ fs_writes f' = reverse ws ++ fs_writes f /\ fs_blocks f' = dwrites ws (fs_blocks f)
    /\ home_eq ls (fs_blocks f') (recovered ls (fs_blocks f)) /\ header ls (fs_blocks f') = []
    /\ log_is ls [] (fs_log f') /\ cache pid f' l' ∅ ∅
    /\ forall k, let Dk := dwrites (take k ws) (fs_blocks f) in
         log_ok ls Dk /\ home_eq ls (recovered ls Dk) (recovered ls (fs_blocks f)).
Proof.
  intros Hfuel Hcalm Hc Hok Hlog.
  destruct (recover_done pid s ls f l hs) as (f' & l' & out & E & B & W & He & Hh & L & C); try done.
  exists f', l', out, (recovery_writes ls (fs_blocks f)). split_and!; try done.
  intros k. by destruct (recovery_prefix ls _ k Hok) as (? & ? & _).
Qed.

(** C1. The log makes a transaction atomic with respect to crashes. A commit of the
    transaction [ts] (distinct home blocks, each pinned in the cache with its new
    contents, and one buffer of the cache left over) runs to completion, installs
    the transaction and empties the log. When the machine stops after any number
    [k] of its disk writes, the recovery of the next boot runs to completion and
    the disk outside the log is the old one, if the header was not yet written
    ([k <= length ts]), and otherwise the one with the whole transaction. *)
Theorem commit_crash_safe `{Fuel} pid s ls f l A ts :
  (0 < fuel)%nat -> calm pid s -> committable pid ls f l A ts ->
  exists f' l' ws, commit (s ⊕ f) = Ret tt (s ⊕ f')
    /\ fs_writes f' = reverse ws ++ fs_writes f /\ fs_blocks f' = dwrites ws (fs_blocks f)
    /\ home_eq ls (fs_blocks f') (dwrites ts (fs_blocks f))
    /\ log_is ls [] (fs_log f') /\ cache pid f' l' (unpin ts.*1 A) ∅
    /\ forall k pid2 s2 f2 l2,
         fs_blocks f2 = dwrites (take k ws) (fs_blocks f) ->
         calm pid2 s2 -> cache pid2 f2 l2 ∅ ∅ -> log_is ls [] (fs_log f2) ->
         exists f3 l3 out, recover_from_log (s2 ⊕ f2) = Ret tt (s2 <| k_out := out |> ⊕ f3)
           /\ home_eq ls (fs_blocks f3)
                (if (k <=? length ts)%nat then fs_blocks f else dwrites ts (fs_blocks f))
           /\ header ls (fs_blocks f3) = [] /\ cache pid2 f3 l3 ∅ ∅.
Proof.
  intros Hfuel Hcalm Hcm. destruct (lo_log _ _ (cm_disk _ _ _ _ _ _ Hcm) ls (in_log_start ls)) as [d Hd].
  destruct (commit_run pid Hfuel s Hcalm ls f l A ts d Hcm Hd) as (f' & l' & E & B & W & L & C).
  pose proof (commit_prefix ls (fs_blocks f) d ts (cm_disk _ _ _ _ _ _ Hcm) (cm_empty _ _ _ _ _ _ Hcm) Hd
    (proj2 (cm_n _ _ _ _ _ _ Hcm)) (cm_home _ _ _ _ _ _ Hcm)) as Hpre.
  exists f', l', (commit_writes ls d ts). split_and!; try done.
  - pose proof (Hpre (length (commit_writes ls d ts))) as [_ H2]. rewrite firstn_all, <- B in H2.
    rewrite (proj2 (Nat.leb_gt _ _)) in H2
      by (unfold commit_writes; rewrite length_app, length_log_writes; simpl; lia).
    rewrite recovered_empty in H2; [done|]. rewrite B. apply commit_erased; [|apply Hcm].
    rewrite <- (lookup_total_correct _ _ _ Hd). apply Hcm.
  - intros k pid2 s2 f2 l2 B2 Hcalm2 Hc2 L2. destruct (Hpre k) as [H1 H2]. rewrite <- B2 in H1, H2.
    destruct (recover_done pid2 s2 ls f2 l2 []) as (f3 & l3 & out & E3 & _ & _ & H3 & H4 & _ & C3);
      try done. exists f3, l3, out. split_and!; try done. by rewrite H3.
Qed.

(** C20. The cache is too small for the largest transaction that log_write() accepts:
    a commit of LOGBLOCKS distinct pinned blocks uses all NBUF = LOGBLOCKS buffers,
    and the read of the first block of the log panics with "bget: no buffers". *)
Theorem full_transaction_panics `{Fuel} pid s ls f l A hs :
  (0 < fuel)%nat -> calm pid s -> cache pid f l A ∅ -> log_is ls hs (fs_log f) ->
  0 <= ls < 2 ^ 31 -> Z.of_nat (length hs) = LOGBLOCKS -> NoDup hs ->
  (forall h, h ∈ hs -> h ∈ dom A) -> A !! (ls + 1) = None ->
  commit (s ⊕ f) = Stop (SPanic "bget: no buffers").
Proof.
  intros Hfuel Hcalm Hc Hlog Hls Hn Hnd Hpin Hfree.
  assert (Hsz : (bhead <= size A)%nat).
  { assert (Hsub : hs ⊆+ elements (dom A)).
    { apply NoDup_submseteq; [done|]. intros h Hh. apply elem_of_elements. auto. }
    apply submseteq_length in Hsub. change (length (elements (dom A))) with (size (dom A)) in Hsub.
    rewrite size_dom in Hsub. unfold bhead. unfold LOGBLOCKS, NBUF in *. lia. }
  unfold commit. erewrite bind_Ret by apply get_log_run. rewrite (li_n _ _ _ Hlog), Hn.
  change (0 <? LOGBLOCKS) with true. cbn [when]. unfold bind at 1, write_log.
  erewrite bind_Ret by apply get_log_run. rewrite (li_n _ _ _ Hlog), Hn.
  destruct (seqZ 0 LOGBLOCKS) as [|i js] eqn:Es; [by vm_compute in Es|].
  assert (i = 0) as -> by (vm_compute in Es; by injection Es as <- _). cbn [for_each].
  unfold bind at 1. erewrite bind_Ret by apply get_log_run.
  destruct hs as [|h hs]; [by vm_compute in Hn|].
  erewrite bind_Ret by (apply (index_run _ 0%nat); by eapply log_is_lookup).
  rewrite (li_dev _ _ _ Hlog), (li_start _ _ _ Hlog), Z.add_0_r, u32_small by lia.
  unfold bind at 1. by rewrite (bread_full pid s Hcalm Hfuel f l A ∅).
Qed.

(** ** Adding a block to the transaction *)

(** The loop of [log_write] finds the block among the first [n], or stops at [n]. *)
Lemma absorb_spec i n blocks hs bn :
  take n blocks = hs -> length hs = n -> Forall (fun h => 0 <= h < 2 ^ 31) hs -> 0 <= bn < 2 ^ 31 ->
  exists j, absorb i n blocks bn = Some (i + Z.of_nat j)
    /\ (hs !! j = Some bn \/ bn ∉ hs /\ j = n).
Proof.
  revert i n blocks. induction hs as [|h hs IH]; intros i n blocks Ht Hn Hr Hbn.
  - subst n. exists 0%nat. simpl. split; [f_equal; lia|]. right. split; [apply not_elem_of_nil|done].
  - subst n. destruct blocks as [|v blocks]; [done|]. simpl in Ht. injection Ht as -> Ht.
    inversion Hr; subst. simpl. rewrite u32_small by lia. destruct (Z.eqb_spec h bn) as [->|Hne].
    + exists 0%nat. split; [f_equal; lia|]. by left.
    + destruct (IH (i + 1) (length hs) blocks) as (j & E & Hj); [done..|]. exists (S j).
      split; [rewrite E; f_equal; lia|]. destruct Hj as [Hj|[Hj ->]]; [by left|]. right.
      rewrite not_elem_of_cons. auto.
Qed.

(** [f] with other buffers, sleep locks and another header of the log: all that code
    inside a transaction changes. *)
Definition same_but_log (f f' : fsst) : Prop :=
  same_disk (f <| fs_log := fs_log f' |>) f'
  /\ log_outstanding (fs_log f') = log_outstanding (fs_log f).

Section log_write.
Context `{Fuel} (pid : Z) (Hfuel : (0 < fuel)%nat) (s : kstate) (Hcalm : calm pid s) (ls : Z).
Context (f : fsst) (l : list nat) (A : blocks_in_use) (held : gmap nat Z) (hs : list Z).
Context (Hc : cache pid f l A held) (Hlog : log_is ls hs (fs_log f)).
Context (b : nat) (bn rc : Z) (d : list Z) (Hb : held !! b = Some bn) (HA : A !! bn = Some (rc, d)).
Context (Hrc : rc < 1000) (Hr : Forall (fun h => 0 <= h < 2 ^ 31) hs) (Hbn : 0 <= bn < 2 ^ 31).

(** The header in memory after [log_write]. *)
Definition log_added (j : nat) (lg : log) : log :=
  lg <| log_lh := Logheader (if (j <? length hs)%nat then lh_n (log_lh lg) else lh_n (log_lh lg) + 1)
                    (<[j := bn]> (lh_block (log_lh lg))) |>.

Lemma log_added_absorbed j : hs !! j = Some bn -> log_added j (fs_log f) = fs_log f.
Proof.
  intros Hj. unfold log_added. rewrite (proj2 (Nat.ltb_lt _ _)) by by eapply lookup_lt_Some.
  rewrite list_insert_id by by eapply log_is_lookup. by destruct (fs_log f) as [? ? ? ? []].
Qed.

Lemma log_added_new :
  Z.of_nat (length hs) < LOGBLOCKS -> log_is ls (hs ++ [bn]) (log_added (length hs) (fs_log f)).
Proof.
  intros Hn. destruct Hlog as [H1 H2 H3 H4 H5]. unfold log_added. rewrite Nat.ltb_irrefl.
  split; simpl; try done.
  - rewrite length_app. simpl. lia.
  - by rewrite length_insert.
  - rewrite length_app. simpl. rewrite Nat.add_1_r.
    rewrite (take_S_r _ _ bn) by (apply list_lookup_insert_eq; lia).
    by rewrite take_insert_ge, H5 by lia.
Qed.

(** [bpin] with the lock of the log held. *)
Lemma bpin_nested lg :
  exists f', same_disk f f' /\ cache pid f' l (<[bn := (rc + 1, d)]> A) held
    /\ bpin b (ksync (acquired LkLog) s ⊕ f <| fs_log := lg |>)
       = Ret tt (ksync (acquired LkLog) s ⊕ f' <| fs_log := lg |>).
Proof.
  destruct (held_buf pid Hc Hb HA) as (x & _ & Hx & _ & _ & _ & Hxr & _ & Hpos).
  set (s2 := ksync (acquired LkBcache) (ksync (acquired LkLog) s)).
  destruct (recount_run pid Hfuel Hc Hb HA s2 (rc + 1)) as (y & Hy & _ & Hs & E & Hc'); [lia|].
  eexists. split; [exact Hs|]. split; [exact Hc'|]. unfold bpin.
  edestruct (nested_fs pid s LkLog LkBcache) as [E1 E2]; [done..|].
  erewrite bind_Ret by exact E1. erewrite bind_Ret; [apply E2|].
  erewrite upd_buf_run by done. assert (x = y) as -> by congruence.
  rewrite Hxr, u32_small by lia. done.
Qed.

Lemma log_write_run :
  0 < log_outstanding (fs_log f) -> Z.of_nat (length hs) < LOGBLOCKS ->
  exists f', log_write b (s ⊕ f) = Ret tt (s ⊕ f') /\ same_but_log f f'
    /\ (bn ∈ hs -> f' = f)
    /\ (bn ∉ hs -> log_is ls (hs ++ [bn]) (fs_log f')
          /\ cache pid f' l (<[bn := (rc + 1, d)]> A) held).
Proof.
  intros Hout Hn. destruct (held_buf pid Hc Hb HA) as (x & _ & Hx & Hxb & _ & _ & _ & _ & Hpos).
  destruct (absorb_spec 0 (length hs) _ hs bn (li_blocks _ _ _ Hlog) eq_refl Hr Hbn) as (j & Ej & Hj).
  assert (Hjn : (j <= length hs)%nat).
  { destruct Hj as [Hj|[_ ->]]; [|lia]. apply lookup_lt_Some in Hj. lia. }
  pose proof (li_n _ _ _ Hlog) as Hln. pose proof (li_len _ _ _ Hlog) as Hll.
  unfold log_write. erewrite bind_Ret by by eapply acquire_fs. erewrite bind_Ret by apply get_log_run.
  rewrite Hln, (proj2 (Z.leb_gt _ _)), (proj2 (Z.ltb_ge _ _)), Nat2Z.id by lia.
  erewrite bind_Ret by by apply get_buf_run. rewrite Hxb, Ej. erewrite bind_Ret by done.
  unfold store_at. rewrite Z.add_0_l, (proj2 (orb_false_iff _ _)) by lia.
  erewrite bind_Ret by done. rewrite Nat2Z.id, s32_small by lia.
  destruct (decide (j = length hs)) as [->|Hne].
  - erewrite bind_Ret by done. rewrite Z.eqb_refl. destruct Hj as [Hj|[Hj _]]; [apply lookup_lt_Some in Hj; lia|].
    edestruct (bpin_nested ((fs_log f) <| log_lh := (log_lh (fs_log f)) <| lh_block :=
      <[length hs := bn]> (lh_block (log_lh (fs_log f))) |> |>)) as (f2 & S2 & C2 & E2).
    exists (f2 <| fs_log := log_added (length hs) (fs_log f) |>). split_and!.
    + erewrite bind_Ret.
      * by eapply release_fs.
      * cbn [when]. erewrite bind_Ret by exact E2. unfold upd_lh, upd_log, upd_fs, modify.
        cbn. unfold log_added. rewrite Nat.ltb_irrefl. rewrite s32_small; [done|].
        rewrite Hln. unfold LOGBLOCKS, MAXOPBLOCKS in *. lia.
    + split; [|done]. destruct S2 as [S2 S3]. split; [by rewrite S2|exact S3].
    + done.
    + intros _. split; [by apply log_added_new|]. by apply cache_log.
  - rewrite (proj2 (Z.eqb_neq _ _)) by lia.
    destruct Hj as [Hj|[_ Hj]]; [|done].
    assert (Ef : f <| fs_log := (fs_log f) <| log_lh := (log_lh (fs_log f)) <| lh_block :=
      <[j := bn]> (lh_block (log_lh (fs_log f))) |> |> |> = f).
    { pose proof (log_added_absorbed j Hj) as E. unfold log_added in E.
      rewrite (proj2 (Nat.ltb_lt _ _)) in E by lia. destruct f; cbn in *. f_equal. exact E. }
    exists f. split_and!; [|split; [by destruct f|done]|done|].
    + rewrite (bind_Ret (upd_lh _) _ _ tt (ksync (acquired LkLog) s ⊕ f))
        by (rewrite <- Ef at 2; done).
      erewrite bind_Ret by done. by eapply release_fs.
    + intros Hnin. destruct Hnin. by eapply list_elem_of_lookup_2.
Qed.

Lemma log_write_errors :
  (LOGBLOCKS <= Z.of_nat (length hs) -> log_write b (s ⊕ f) = Stop (SPanic "too big a transaction"))
  /\ (Z.of_nat (length hs) < LOGBLOCKS -> log_outstanding (fs_log f) < 1 ->
      log_write b (s ⊕ f) = Stop (SPanic "log_write outside of trans")).
Proof using Hfuel Hcalm Hlog.
  pose proof (li_n _ _ _ Hlog) as Hln. unfold log_write. split.
  - intros Hn. erewrite bind_Ret by by eapply acquire_fs. erewrite bind_Ret by apply get_log_run.
    by rewrite Hln, (proj2 (Z.leb_le _ _)) by lia.
  - intros Hn Ho. erewrite bind_Ret by by eapply acquire_fs. erewrite bind_Ret by apply get_log_run.
    by rewrite Hln, (proj2 (Z.leb_gt _ _)), (proj2 (Z.ltb_lt _ _)) by lia.
Qed.
End log_write.

(** [log_write(b)] on every branch: with the log full it panics, outside of a
    transaction it panics; a block that is already in the transaction is absorbed
    (nothing changes), and any other block is appended to the header and pinned. *)
Theorem log_write_spec `{Fuel} pid s ls f l A held hs b bn rc d :
  (0 < fuel)%nat -> calm pid s -> cache pid f l A held -> log_is ls hs (fs_log f) ->
  held !! b = Some bn -> A !! bn = Some (rc, d) -> rc < 1000 ->
  Forall (fun h => 0 <= h < 2 ^ 31) hs -> 0 <= bn < 2 ^ 31 ->
  if LOGBLOCKS <=? Z.of_nat (length hs)
  then log_write b (s ⊕ f) = Stop (SPanic "too big a transaction")
  else if log_outstanding (fs_log f) <? 1
  then log_write b (s ⊕ f) = Stop (SPanic "log_write outside of trans")
  else exists f', log_write b (s ⊕ f) = Ret tt (s ⊕ f') /\ fs_blocks f' = fs_blocks f
    /\ (bn ∈ hs -> f' = f)
    /\ (bn ∉ hs -> log_is ls (hs ++ [bn]) (fs_log f')
          /\ cache pid f' l (<[bn := (rc + 1, d)]> A) held).
Proof.
  intros Hfuel Hcalm Hc Hlog Hb HA Hrc Hr Hbn.
  destruct (log_write_errors pid Hfuel s Hcalm ls f hs Hlog b) as [He1 He2].
  destruct (Z.leb_spec LOGBLOCKS (Z.of_nat (length hs))); [auto|].
  destruct (Z.ltb_spec (log_outstanding (fs_log f)) 1); [auto|].
  destruct (log_write_run pid Hfuel s Hcalm ls f l A held hs Hc Hlog b bn rc d Hb HA Hrc Hr Hbn)
    as (f' & E & [Hs _] & Hin & Hout); [lia|done|].
  exists f'. split_and!; [done|exact (same_blocks _ _ Hs)|done|done].
Qed.

(** ** An example: a disk of 200 blocks, its log at block 2, and block 100 changed *)

Section example.
#[local] Instance example_fuel : Fuel := 1%nat.

Definition example_disk : image := list_to_map ((fun bn => (bn, zero_block)) <$> seqZ 0 200).
Definition example_block : list Z := replicate (Z.to_nat BSIZE) 7.
Definition example_log (n : Z) : log := Log 2 1 0 ROOTDEV (Logheader n (100 :: replicate 29 0)).
Notation example_ts := [(100, example_block)].

Lemma example_disk_lookup bn : 0 <= bn < 200 -> example_disk !! bn = Some zero_block.
Proof.
  intros Hb. apply elem_of_list_to_map_1'.
  - intros y Hy. apply list_elem_of_fmap in Hy as (b & [= -> ->] & _). done.
  - apply list_elem_of_fmap. exists bn. split; [done|]. apply elem_of_seqZ. lia.
Qed.

Lemma zero_head : lh_n (lh_of_block zero_block) = 0.
Proof. vm_compute. reflexivity. Qed.

Lemma example_ok : log_ok 2 example_disk /\ header 2 example_disk = [].
Proof.
  assert (E : example_disk !! 2 = Some zero_block) by (apply example_disk_lookup; lia).
  assert (Eh : header 2 example_disk = []).
  { unfold header. rewrite (lookup_total_correct _ _ _ E), zero_head. reflexivity. }
  split; [|exact Eh]. split.
  - unfold LOGBLOCKS, MAXOPBLOCKS. lia.
  - intros bn Hbn. rewrite example_disk_lookup; [by eexists|].
    unfold in_log, LOGBLOCKS, MAXOPBLOCKS in Hbn. lia.
  - rewrite (lookup_total_correct _ _ _ E). unfold zero_block. rewrite length_replicate. reflexivity.
  - rewrite (lookup_total_correct _ _ _ E), zero_head. unfold LOGBLOCKS, MAXOPBLOCKS. lia.
  - rewrite Eh. intros h Hh. destruct (not_elem_of_nil _ Hh).
Qed.

Lemma example_home h : h ∈ example_ts.*1 -> home 2 h /\ is_Some (example_disk !! h).
Proof.
  cbn. intros ->%list_elem_of_singleton. rewrite example_disk_lookup by lia.
  split; [|by eexists]. unfold home, in_log, LOGBLOCKS, MAXOPBLOCKS. lia.
Qed.

Lemma example_cached D lg :
  exists f, cache 1 f (reverse bufids) ∅ ∅ /\ fs_blocks f = D /\ fs_log f = lg.
Proof.
  destruct (binit_run calm_state (fsst_zero <| fs_blocks := D |> <| fs_log := lg |>))
    as (y & f & _ & Hs & Hc & _).
  - reflexivity.
  - intros b x Hx. apply lookup_replicate in Hx as [-> _]. split; [reflexivity|discriminate].
  - exists f. split; [apply Hc|]. by rewrite (proj1 Hs).
Qed.

Lemma example_committable :
  exists f l, committable 1 2 f l {[100 := (1, example_block)]} example_ts.
Proof.
  destruct (example_cached example_disk (example_log 1)) as (f0 & C0 & B0 & L0).
  assert (Hf : (0 < fuel)%nat) by (unfold fuel, example_fuel; lia).
  assert (E100 : example_disk !! 100 = Some zero_block) by (apply example_disk_lookup; lia).
  destruct (bread_run 1 calm_state calm_state_calm Hf f0 (reverse bufids) ∅ ∅ 100 zero_block)
    as (b & f1 & _ & S1 & _ & C1).
  { exact C0. } { rewrite B0. exact E100. } { intros b' Hb'. by rewrite lookup_empty in Hb'. }
  { left. rewrite map_size_empty. vm_compute. lia. } { intros ?? E. by rewrite lookup_empty in E. }
  change (one_more ∅ 100 zero_block) with (1, zero_block) in C1.
  destruct (set_data_run 1 calm_state Hf C1 (b := b) (bn := 100) (rc := 1) (d := zero_block))
    with (d' := example_block) as (f2 & _ & S2 & C2); [apply lookup_insert_eq..|].
  destruct (bpin_run 1 calm_state calm_state_calm Hf C2 (b := b) (bn := 100) (rc := 1) (d := example_block))
    as (f3 & _ & S3 & C3); [apply lookup_insert_eq..|lia|].
  destruct (brelse_run 1 calm_state calm_state_calm Hf C3 (b := b) (bn := 100) (rc := 2) (d := example_block))
    as (f4 & l4 & _ & S4 & _ & C4); [apply lookup_insert_eq..|lia|lia|].
  cbn [Z.eqb Pos.eqb Z.sub] in C4. change (2 + -1) with 1 in C4. rewrite !insert_insert_eq in C4.
  rewrite delete_insert_id in C4 by done.
  assert (Sd : same_disk f0 f4).
  { apply (same_disk_trans _ f3); [|done]. apply (same_disk_trans _ f2); [|done].
    by apply (same_disk_trans _ f1). }
  exists f4, l4. split; rewrite ?(same_blocks _ _ Sd), ?(same_log _ _ Sd), ?B0, ?L0.
  - exact C4.
  - apply example_ok.
  - apply example_ok.
  - by split.
  - unfold LOGBLOCKS, MAXOPBLOCKS. simpl. lia.
  - apply example_home.
  - intros h d [= -> ->]%list_elem_of_singleton. apply lookup_insert_eq.
  - apply NoDup_singleton.
  - intros bn Hbn. apply lookup_singleton_ne. unfold in_log, LOGBLOCKS, MAXOPBLOCKS in Hbn. lia.
  - rewrite map_size_singleton. vm_compute. lia.
Qed.

(** [n] blocks from block 100 on are pinned. *)
Lemma example_pinned n :
  (n <= bhead)%nat -> exists f l A, cache 1 f l A ∅ /\ size A = n
    /\ fs_blocks f = example_disk /\ fs_log f = Log 2 1 0 ROOTDEV (Logheader 30 (seqZ 100 30))
    /\ forall bn, bn ∈ dom A <-> 100 <= bn < 100 + Z.of_nat n.
Proof.
  assert (Hf : (0 < fuel)%nat) by (unfold fuel, example_fuel; lia).
  assert (H30 : bhead = 30%nat) by reflexivity.
  induction n as [|n IH]; intros Hn.
  - destruct (example_cached example_disk (Log 2 1 0 ROOTDEV (Logheader 30 (seqZ 100 30))))
      as (f & C & B & L). exists f, (reverse bufids), ∅. split_and!; try done.
    intros bn. rewrite dom_empty_L. split; [set_solver|lia].
  - destruct IH as (f & l & A & C & Hsz & B & L & Hdom); [lia|]. set (bn := 100 + Z.of_nat n).
    assert (HA : A !! bn = None) by (apply not_elem_of_dom; rewrite Hdom; lia).
    destruct (bread_run 1 calm_state calm_state_calm Hf f l A ∅ bn zero_block)
      as (b & f1 & _ & S1 & _ & C1).
    { exact C. } { rewrite B. apply example_disk_lookup. lia. } { intros b' Hb'. by rewrite lookup_empty in Hb'. }
    { left. lia. } { intros ?? E. by rewrite HA in E. }
    unfold one_more in C1. rewrite HA in C1.
    destruct (bpin_run 1 calm_state calm_state_calm Hf C1 (b := b) (bn := bn) (rc := 1) (d := zero_block))
      as (f3 & _ & S3 & C3); [apply lookup_insert_eq..|lia|].
    destruct (brelse_run 1 calm_state calm_state_calm Hf C3 (b := b) (bn := bn) (rc := 2) (d := zero_block))
      as (f4 & l4 & _ & S4 & _ & C4); [apply lookup_insert_eq..|lia|lia|].
    cbn [Z.eqb Pos.eqb] in C4. rewrite !insert_insert_eq in C4. rewrite delete_insert_id in C4 by done.
    assert (Sd : same_disk f f4) by (by apply (same_disk_trans _ f3); [apply (same_disk_trans _ f1)|]).
    eexists f4, l4, _. split; [exact C4|].
    rewrite map_size_insert_None, (same_blocks _ _ Sd), (same_log _ _ Sd) by done.
    split_and!; [by f_equal|done|done|].
    intros bn'. rewrite dom_insert_L, elem_of_union, elem_of_singleton, Hdom. lia.
Qed.

Lemma full_transaction_panics_witness :
  exists f, commit (calm_state ⊕ f) = Stop (SPanic "bget: no buffers").
Proof.
  destruct (example_pinned bhead) as (f & l & A & C & Hsz & B & L & Hdom); [lia|]. exists f.
  apply (full_transaction_panics 1 calm_state 2 f l A (seqZ 100 30) (le_n 1) calm_state_calm C).
  - rewrite L. by split.
  - lia.
  - reflexivity.
  - apply NoDup_seqZ.
  - intros h Hh. apply elem_of_seqZ in Hh. apply Hdom.
    change (Z.of_nat bhead) with 30. lia.
  - apply not_elem_of_dom. rewrite Hdom. lia.
Defined.

Lemma commit_crash_safe_witness :
  exists f f', commit (calm_state ⊕ f) = Ret tt (calm_state ⊕ f')
    /\ fs_blocks f' !! 100 = Some example_block.
Proof.
  destruct example_committable as (f & l & Hcm). exists f.
  destruct (commit_crash_safe 1 calm_state 2 f l _ _ (le_n 1) calm_state_calm Hcm)
    as (f' & l' & ws & E & _ & _ & He & _). exists f'. split; [exact E|].
  rewrite He; [apply lookup_insert_eq|]. unfold in_log, LOGBLOCKS, MAXOPBLOCKS. lia.
Defined.

Lemma recover_from_log_spec_witness :
  exists f f' out, recover_from_log (calm_state ⊕ f) = Ret tt (calm_state <| k_out := out |> ⊕ f')
    /\ fs_blocks f !! 100 = Some zero_block /\ fs_blocks f' !! 100 = Some example_block.
Proof.
  pose proof (proj1 example_ok) as Hok.
  assert (E2 : example_disk !! 2 = Some zero_block) by (apply example_disk_lookup; lia).
  destruct (crash_committed 2 example_disk zero_block example_ts Hok E2) as (H1 & H2 & H3).
  { unfold LOGBLOCKS, MAXOPBLOCKS. simpl. lia. } { apply example_home. }
  match type of H1 with log_ok _ ?D => destruct (example_cached D (example_log 0)) as (f & C & B & L) end.
  rewrite <- B in H1, H2, H3. exists f.
  assert (L0 : log_is 2 [] (fs_log f)) by (rewrite L; by split).
  destruct (recover_from_log_spec 1 calm_state 2 f (reverse bufids) [] (le_n 1) calm_state_calm C H1 L0)
    as (f' & l' & out & ws & E & _ & _ & He & _).
  exists f', out. split; [exact E|].
  assert (Hn : ~ in_log 2 100) by (unfold in_log, LOGBLOCKS, MAXOPBLOCKS; lia).
  rewrite (H3 100 Hn), (He 100 Hn). unfold recovered. rewrite H2.
  split; [apply example_disk_lookup; lia|apply lookup_insert_eq].
Defined.

Lemma log_write_spec_witness :
  exists b f f', log_write b (calm_state ⊕ f) = Ret tt (calm_state ⊕ f')
    /\ log_is 2 [100] (fs_log f').
Proof.
  destruct (example_cached example_disk (example_log 0)) as (f & C & B & L).
  destruct (bread_run 1 calm_state calm_state_calm (le_n 1) f (reverse bufids) ∅ ∅ 100 zero_block)
    as (b & f1 & _ & S1 & _ & C1).
  { exact C. } { rewrite B. apply example_disk_lookup. lia. }
  { intros b' Hb'. by rewrite lookup_empty in Hb'. }
  { left. rewrite map_size_empty. vm_compute. lia. } { intros ?? E. by rewrite lookup_empty in E. }
  change (one_more ∅ 100 zero_block) with (1, zero_block) in C1.
  pose proof (log_write_spec 1 calm_state 2 f1 _ _ _ [] b 100 1 zero_block (le_n 1) calm_state_calm C1)
    as Hw. rewrite (same_log _ _ S1), L in Hw. destruct Hw as (f' & E & _ & _ & Hn).
  - by split.
  - apply lookup_insert_eq.
  - apply lookup_insert_eq.
  - lia.
  - constructor.
  - lia.
  - exists b, f1, f'. split; [exact E|]. apply Hn, not_elem_of_nil.
Defined.
End example.
