(* ===== verification/Fs.v ===== *)
(** * Blocks and inodes: [src/kernel/fs.c], first half

    The super block, the free map, the inode table, the block map of an inode and
    its content. An inode of the table is its index. *)

From stdpp Require Import pretty.
From S2P Require Import Prelude Bytes Params FsTypes Machine Spinlock ProcCore Mem Pres PresVm.
From S2P Require Import Services Proc FsCore Sleeplock Bio Log.

(** ** The structures in a block *)

Definition superblock_of (l : list Z) : superblock :=
  Superblock (le_at 4 0 l) (le_at 4 4 l) (le_at 4 8 l) (le_at 4 12 l) (le_at 4 16 l)
    (le_at 4 20 l) (le_at 4 24 l) (le_at 4 28 l).

(** [struct dinode] at offset [o]. *)
Definition dinode_at (o : Z) (l : list Z) : dinode :=
  Dinode (s16 (le_at 2 o l)) (s16 (le_at 2 (o + 2) l)) (s16 (le_at 2 (o + 4) l))
    (s16 (le_at 2 (o + 6) l)) (le_at 4 (o + 8) l)
    (uints_at (o + 12) (Z.to_nat (NDIRECT + 1)) l).

Definition put_dinode (o : Z) (d : dinode) (l : list Z) : list Z :=
  let l := put_le 2 o (di_type d) l in
  let l := put_le 2 (o + 2) (di_major d) l in
  let l := put_le 2 (o + 4) (di_minor d) l in
  let l := put_le 2 (o + 6) (di_nlink d) l in
  let l := put_le 4 (o + 8) (di_size d) l in
  put_uints (o + 12) (di_addrs d) l.

(** The offset of inode [inum] in its block. *)
Definition dinode_off (inum : Z) : Z := inum mod IPB * sizeof_dinode.

Definition dinode_of (x : inode) : dinode :=
  Dinode (i_type x) (i_major x) (i_minor x) (i_nlink x) (i_size x) (i_addrs x).

(** [memset(dip, 0, sizeof( *dip))]. *)
Definition dinode_zero : dinode :=
  Dinode 0 0 0 0 0 (replicate (Z.to_nat (NDIRECT + 1)) 0).

(** The byte [data[i]] of a block. *)
Definition byte_at (l : list Z) (i : Z) : Z := default 0 (l !! Z.to_nat i).

(** [for(bi = 0; bi < BPB && b + bi < sb.size; bi++)] up to a zero bit. *)
Fixpoint free_bit (n : nat) (b bi size : Z) (data : list Z) : option Z :=
  match n with
  | O => None
  | S n =>
      if b + bi <? size then
        let m := Z.shiftl 1 (bi mod 8) in
        if Z.land (byte_at data (bi / 8)) m =? 0 then Some bi
        else free_bit n b (bi + 1) size data
      else None
  end.

(** [data[bi/8] |= m] and [data[bi/8] &= ~m]. *)
Definition set_bit (bi : Z) (data : list Z) : list Z :=
  <[Z.to_nat (bi / 8) := Z.lor (byte_at data (bi / 8)) (Z.shiftl 1 (bi mod 8))]> data.
Definition clear_bit (bi : Z) (data : list Z) : list Z :=
  <[Z.to_nat (bi / 8) := Z.ldiff (byte_at data (bi / 8)) (Z.shiftl 1 (bi mod 8))]> data.

Section fs.
Context `{Fuel} `{DiskOps}.

Definition readsb (dev : Z) : M superblock :=
  bp ← bread dev 1;
  data ← get_data bp;
  let sb := superblock_of data in
  brelse bp;;
  ret sb.

Definition bzero (dev bno : Z) : M unit :=
  bp ← bread dev (u32 bno);
  set_data bp zero_block;;
  log_write bp;;
  brelse bp.

(** ** The free map *)

Fixpoint balloc_loop (n : nat) (dev b : Z) : M Z :=
  match n with
  | O => stop_ SFuel
  | S n =>
      sb ← get_sb;
      if b <? sb_size sb then
        bp ← bread dev (BBLOCK b sb);
        data ← get_data bp;
        match free_bit (Z.to_nat BPB) b 0 (sb_size sb) data with
        | Some bi =>
            set_data bp (set_bit bi data);;
            log_write bp;;
            brelse bp;;
            bzero dev (b + bi);;
            ret (b + bi)
        | None => brelse bp;; balloc_loop n dev (b + BPB)
        end
      else printf "balloc: out of blocks";; ret 0
  end.

Definition balloc (dev : Z) : M Z :=
  sb ← get_sb;
  balloc_loop (Z.to_nat (sb_size sb / BPB) + 2) dev 0.

Definition bfree (dev b : Z) : M unit :=
  sb ← get_sb;
  bp ← bread dev (BBLOCK b sb);
  let bi := b mod BPB in
  let m := Z.shiftl 1 (bi mod 8) in
  data ← get_data bp;
  if Z.land (byte_at data (bi / 8)) m =? 0 then panic "freeing free block" else
  set_data bp (clear_bit bi data);;
  log_write bp;;
  brelse bp.

(** ** The inode table *)

Definition iinit : M unit :=
  initlock LkItable "itable";;
  for_each (seq 0 (Z.to_nat NINODE)) (fun i => initsleeplock (slp_inode i) "inode").

(** The loop of [iget]: the entry of the inode, or the first empty slot. *)
Fixpoint iget_scan (l : list nat) (dev inum : Z) (empty : option nat) : M (nat + option nat) :=
  match l with
  | [] => ret (inr empty)
  | ip :: l =>
      x ← get_inode ip;
      if (0 <? i_ref x) && (i_dev x =? dev) && (i_inum x =? inum) then ret (inl ip) else
      let empty :=
        match empty with
        | None => if i_ref x =? 0 then Some ip else None
        | Some _ => empty
        end in
      iget_scan l dev inum empty
  end.

Definition iget (dev inum : Z) : M nat :=
  acquire LkItable;;
  found ← iget_scan (seq 0 (Z.to_nat NINODE)) dev inum None;
  match found with
  | inl ip =>
      upd_inode ip (fun x => x <| i_ref := s32 (i_ref x + 1) |>);;
      release LkItable;;
      ret ip
  | inr None => panic "iget: no inodes"
  | inr (Some ip) =>
      upd_inode ip (fun x => x <| i_dev := dev |> <| i_inum := inum |> <| i_ref := 1 |>
                               <| i_valid := 0 |>);;
      release LkItable;;
      ret ip
  end.

Definition ialloc_at (dev type inum : Z) : M (option nat) :=
  sb ← get_sb;
  bp ← bread dev (IBLOCK inum sb);
  data ← get_data bp;
  let o := dinode_off inum in
  if di_type (dinode_at o data) =? 0 then
    let d := dinode_zero in
    set_data bp (put_le 2 o type (put_dinode o d data));;
    log_write bp;;
    brelse bp;;
    ip ← iget dev inum;
    ret (Some ip)
  else brelse bp;; ret None.

Definition ialloc (dev type : Z) : M (option nat) :=
  sb ← get_sb;
  r ← for_find (seqZ 1 (ninodes sb - 1)) (ialloc_at dev type);
  match r with
  | Some ip => ret (Some ip)
  | None => printf "ialloc: no inodes";; ret None
  end.

Definition iupdate (ip : nat) : M unit :=
  x ← get_inode ip;
  sb ← get_sb;
  bp ← bread (i_dev x) (IBLOCK (i_inum x) sb);
  data ← get_data bp;
  set_data bp (put_dinode (dinode_off (i_inum x)) (dinode_of x) data);;
  log_write bp;;
  brelse bp.

Definition idup (ip : nat) : M nat :=
  acquire LkItable;;
  upd_inode ip (fun x => x <| i_ref := s32 (i_ref x + 1) |>);;
  release LkItable;;
  ret ip.

(** The fields that [ilock] copies from the disk. *)
Definition load_dinode (d : dinode) (x : inode) : inode :=
  x <| i_type := di_type d |> <| i_major := di_major d |> <| i_minor := di_minor d |>
    <| i_nlink := di_nlink d |> <| i_size := di_size d |> <| i_addrs := di_addrs d |>.

Definition ilock (ip : nat) : M unit :=
  x ← get_inode ip;
  if i_ref x <? 1 then panic "ilock" else
  acquiresleep (slp_inode ip);;
  x ← get_inode ip;
  when (i_valid x =? 0)
    (sb ← get_sb;
     bp ← bread (i_dev x) (IBLOCK (i_inum x) sb);
     data ← get_data bp;
     let d := dinode_at (dinode_off (i_inum x)) data in
     upd_inode ip (load_dinode d);;
     brelse bp;;
     upd_inode ip (fun x => x <| i_valid := 1 |>);;
     if di_type d =? 0 then panic "ilock: no type" else ret tt).

Definition iunlock (ip : nat) : M unit :=
  h ← holdingsleep (slp_inode ip);
  x ← get_inode ip;
  if negb h || (i_ref x <? 1) then panic "iunlock" else
  releasesleep (slp_inode ip).

(** ** Content *)

(** One direct block of [itrunc]. *)
Definition itrunc_direct (ip : nat) (i : Z) : M unit :=
  x ← get_inode ip;
  a ← index (i_addrs x) i;
  when (truthy a)
    (bfree (i_dev x) a;;
     upd_inode ip (fun x => x <| i_addrs := <[Z.to_nat i := 0]> (i_addrs x) |>)).

(** The indirect block of [itrunc] and the blocks it lists. *)
Definition itrunc_indirect (ip : nat) : M unit :=
  x ← get_inode ip;
  ind ← index (i_addrs x) NDIRECT;
  when (truthy ind)
    (bp ← bread (i_dev x) ind;
     for_each (seqZ 0 NINDIRECT) (fun j =>
       data ← get_data bp;
       let a := le_at 4 (4 * j) data in
       when (truthy a) (bfree (i_dev x) a));;
     brelse bp;;
     bfree (i_dev x) ind;;
     upd_inode ip (fun x => x <| i_addrs := <[Z.to_nat NDIRECT := 0]> (i_addrs x) |>)).

Definition itrunc (ip : nat) : M unit :=
  for_each (seqZ 0 NDIRECT) (itrunc_direct ip);;
  itrunc_indirect ip;;
  upd_inode ip (fun x => x <| i_size := 0 |>);;
  iupdate ip.

Definition iput (ip : nat) : M unit :=
  acquire LkItable;;
  x ← get_inode ip;
  when ((i_ref x =? 1) && truthy (i_valid x) && (i_nlink x =? 0))
    (acquiresleep (slp_inode ip);;
     release LkItable;;
     itrunc ip;;
     upd_inode ip (fun x => x <| i_type := 0 |>);;
     iupdate ip;;
     upd_inode ip (fun x => x <| i_valid := 0 |>);;
     releasesleep (slp_inode ip);;
     acquire LkItable);;
  upd_inode ip (fun x => x <| i_ref := s32 (i_ref x - 1) |>);;
  release LkItable.

Definition iunlockput (ip : nat) : M unit :=
  iunlock ip;;
  iput ip.

Definition ireclaim_one (dev inum : Z) : M unit :=
  sb ← get_sb;
  bp ← bread dev (IBLOCK inum sb);
  data ← get_data bp;
  let d := dinode_at (dinode_off inum) data in
  ip ← (if negb (di_type d =? 0) && (di_nlink d =? 0) then
          printf ("ireclaim: orphaned inode " +:+ pretty inum);;
          ip ← iget dev inum;
          ret (Some ip)
        else ret None);
  brelse bp;;
  match ip with
  | Some ip =>
      begin_op;;
      ilock ip;;
      iunlock ip;;
      iput ip;;
      end_op
  | None => ret tt
  end.

Definition ireclaim (dev : Z) : M unit :=
  sb ← get_sb;
  for_each (seqZ 1 (ninodes sb - 1)) (ireclaim_one dev).

Definition fsinit (dev : Z) : M unit :=
  sb ← readsb dev;
  upd_fs (fun f => f <| fs_sb := sb |>);;
  if negb (magic sb =? FSMAGIC) then panic "invalid file system" else
  initlog dev sb;;
  ireclaim dev.

(** Entry [i] of [ip->addrs], allocated when it is 0. *)
Definition bmap_direct (ip : nat) (i : Z) : M Z :=
  x ← get_inode ip;
  addr ← index (i_addrs x) i;
  if addr =? 0 then
    addr ← balloc (i_dev x);
    if addr =? 0 then ret 0 else
    upd_inode ip (fun x => x <| i_addrs := <[Z.to_nat i := addr]> (i_addrs x) |>);;
    ret addr
  else ret addr.

Definition bmap (ip : nat) (bn : Z) : M Z :=
  if bn <? NDIRECT then bmap_direct ip bn else
  let bn := bn - NDIRECT in
  if bn <? NINDIRECT then
    addr ← bmap_direct ip NDIRECT;
    if addr =? 0 then ret 0 else
    x ← get_inode ip;
    bp ← bread (i_dev x) addr;
    data ← get_data bp;
    let addr := le_at 4 (4 * bn) data in
    addr ← (if addr =? 0 then
              addr ← balloc (i_dev x);
              when (truthy addr)
                (data ← get_data bp;
                 set_data bp (put_le 4 (4 * bn) addr data);;
                 log_write bp);;
              ret addr
            else ret addr);
    brelse bp;;
    ret addr
  else panic "bmap: out of range".

Definition stati (ip : nat) : M stat :=
  x ← get_inode ip;
  ret (Stat (s32 (i_dev x)) (i_inum x) (i_type x) (i_nlink x) (i_size x)).

(** [dst += m] and [src += m]. *)
Definition dst_add (dst : cpdst) (m : Z) : cpdst :=
  match dst with UserDst va => UserDst (u64 (va + m)) | KernDst => KernDst end.
Definition src_add (src : cpsrc) (m : Z) : cpsrc :=
  match src with
  | UserSrc va => UserSrc (u64 (va + m))
  | KernSrc l => KernSrc (drop (Z.to_nat m) l)
  end.

(** The loop of [readi]; [acc] is what a kernel buffer has got so far. *)
Fixpoint readi_loop (k : nat) (ip : nat) (dst : cpdst) (off n tot : Z) (acc : list Z)
    : M (Z * list Z) :=
  match k with
  | O => stop_ SFuel
  | S k =>
      if tot <? n then
        addr ← bmap ip (off / BSIZE);
        if addr =? 0 then ret (tot, acc) else
        x ← get_inode ip;
        bp ← bread (i_dev x) addr;
        let m := Z.min (n - tot) (BSIZE - off mod BSIZE) in
        data ← get_data bp;
        ' (r, bytes) ← either_copyout dst (slice (Z.to_nat (off mod BSIZE)) (Z.to_nat m) data);
        if r =? -1 then brelse bp;; ret (-1, acc) else
        brelse bp;;
        readi_loop k ip (dst_add dst m) (u32 (off + m)) n (tot + m) (acc ++ bytes)
      else ret (tot, acc)
  end.

(** [readi]: the result, and the bytes that a kernel buffer [dst] receives. *)
Definition readi (ip : nat) (dst : cpdst) (off n : Z) : M (Z * list Z) :=
  let n := u32 n in
  x ← get_inode ip;
  if (i_size x <? off) || (u32 (off + n) <? off) then ret (0, []) else
  let n := if i_size x <? u32 (off + n) then i_size x - off else n in
  ' (tot, bytes) ← readi_loop (Z.to_nat (n / BSIZE) + 3) ip dst off n 0 [];
  ret (s32 tot, bytes).

(** The loop of [writei]: [tot] and [off] at its end. *)
Fixpoint writei_loop (k : nat) (ip : nat) (src : cpsrc) (off n tot : Z) : M (Z * Z) :=
  match k with
  | O => stop_ SFuel
  | S k =>
      if tot <? n then
        addr ← bmap ip (off / BSIZE);
        if addr =? 0 then ret (tot, off) else
        x ← get_inode ip;
        bp ← bread (i_dev x) addr;
        let m := Z.min (n - tot) (BSIZE - off mod BSIZE) in
        ' (r, bytes) ← either_copyin src m;
        data ← get_data bp;
        set_data bp (splice (Z.to_nat (off mod BSIZE)) bytes data);;
        if r =? -1 then brelse bp;; ret (tot, off) else
        log_write bp;;
        brelse bp;;
        writei_loop k ip (src_add src m) (u32 (off + m)) n (tot + m)
      else ret (tot, off)
  end.

Definition writei (ip : nat) (src : cpsrc) (off n : Z) : M Z :=
  let n := u32 n in
  x ← get_inode ip;
  if (i_size x <? off) || (u32 (off + n) <? off) then ret (-1) else
  if MAXFILE * BSIZE <? u32 (off + n) then ret (-1) else
  ' (tot, off) ← writei_loop (Z.to_nat (n / BSIZE) + 3) ip src off n 0;
  x ← get_inode ip;
  when (i_size x <? off) (upd_inode ip (fun x => x <| i_size := off |>));;
  iupdate ip;;
  ret (s32 tot).

(** ** The process table is left alone *)

Context `{!DiskLaws}.

Lemma pres_readsb dev : pres mlfq_inv (readsb dev).
Proof. unfold readsb. pres. Qed.
Lemma pres_bzero dev bno : pres mlfq_inv (bzero dev bno).
Proof. unfold bzero. pres. Qed.
#[local] Hint Resolve pres_readsb pres_bzero : pres.
Lemma pres_balloc_loop n dev b : pres mlfq_inv (balloc_loop n dev b).
Proof. revert b. induction n; intros b; cbn [balloc_loop]; pres. Qed.
#[local] Hint Resolve pres_balloc_loop : pres.
Lemma pres_balloc dev : pres mlfq_inv (balloc dev).
Proof. unfold balloc. pres. Qed.
Lemma pres_bfree dev b : pres mlfq_inv (bfree dev b).
Proof. unfold bfree. pres. Qed.
#[local] Hint Resolve pres_balloc pres_bfree : pres.
Lemma pres_iinit : pres mlfq_inv iinit.
Proof. unfold iinit. pres. Qed.
Lemma pres_iget_scan l dev inum e : pres mlfq_inv (iget_scan l dev inum e).
Proof. revert e. induction l; intros e; simpl; pres. Qed.
#[local] Hint Resolve pres_iget_scan : pres.
Lemma pres_iget dev inum : pres mlfq_inv (iget dev inum).
Proof. unfold iget. pres. Qed.
#[local] Hint Resolve pres_iget : pres.
Lemma pres_ialloc_at dev type inum : pres mlfq_inv (ialloc_at dev type inum).
Proof. unfold ialloc_at. pres. Qed.
#[local] Hint Resolve pres_ialloc_at : pres.
Lemma pres_ialloc dev type : pres mlfq_inv (ialloc dev type).
Proof. unfold ialloc. pres. Qed.
Lemma pres_iupdate ip : pres mlfq_inv (iupdate ip).
Proof. unfold iupdate. pres. Qed.
Lemma pres_idup_ ip : pres mlfq_inv (idup ip).
Proof. unfold idup. pres. Qed.
Lemma pres_ilock ip : pres mlfq_inv (ilock ip).
Proof. unfold ilock. pres. Qed.
Lemma pres_iunlock ip : pres mlfq_inv (iunlock ip).
Proof. unfold iunlock. pres. Qed.
#[local] Hint Resolve pres_iupdate pres_ilock pres_iunlock : pres.
Lemma pres_itrunc ip : pres mlfq_inv (itrunc ip).
Proof. unfold itrunc, itrunc_direct, itrunc_indirect. pres. Qed.
#[local] Hint Resolve pres_itrunc : pres.
Lemma pres_iput_ ip : pres mlfq_inv (iput ip).
Proof. unfold iput. pres. Qed.
#[local] Hint Resolve pres_iput_ : pres.
Lemma pres_iunlockput ip : pres mlfq_inv (iunlockput ip).
Proof. unfold iunlockput. pres. Qed.
Lemma pres_ireclaim dev : pres mlfq_inv (ireclaim dev).
Proof. unfold ireclaim, ireclaim_one. pres. Qed.
#[local] Hint Resolve pres_ireclaim : pres.
Lemma pres_fsinit_ dev : pres mlfq_inv (fsinit dev).
Proof. unfold fsinit. pres. Qed.
Lemma pres_bmap_direct ip i : pres mlfq_inv (bmap_direct ip i).
Proof. unfold bmap_direct. pres. Qed.
#[local] Hint Resolve pres_bmap_direct : pres.
Lemma pres_bmap ip bn : pres mlfq_inv (bmap ip bn).
Proof. unfold bmap. pres. Qed.
#[local] Hint Resolve pres_bmap : pres.
Lemma pres_stati ip : pres mlfq_inv (stati ip).
Proof. unfold stati. pres. Qed.
Lemma pres_readi_loop k ip dst off n tot acc : pres mlfq_inv (readi_loop k ip dst off n tot acc).
Proof. revert dst off tot acc. induction k; intros dst off tot acc; cbn [readi_loop]; pres. Qed.
#[local] Hint Resolve pres_readi_loop : pres.
Lemma pres_readi ip dst off n : pres mlfq_inv (readi ip dst off n).
Proof. unfold readi. pres. Qed.
Lemma pres_writei_loop k ip src off n tot : pres mlfq_inv (writei_loop k ip src off n tot).
Proof. revert src off tot. induction k; intros src off tot; cbn [writei_loop]; pres. Qed.
#[local] Hint Resolve pres_writei_loop : pres.
Lemma pres_writei ip src off n : pres mlfq_inv (writei ip src off n).
Proof. unfold writei. pres. Qed.
End fs.

#[export] Hint Resolve pres_iinit pres_iget pres_ialloc pres_iupdate pres_idup_ pres_ilock
  pres_iunlock pres_itrunc pres_iput_ pres_iunlockput pres_fsinit_ pres_stati pres_readi
  pres_writei : pres.
