(* ===== verification/Dir.v ===== *)
(** * Directories and path names: [src/kernel/fs.c], second half

    A name and a path are arrays of characters; a path ends with a NUL, and
    running past the end of an array is undefined behaviour. *)

From S2P Require Import Prelude Bytes Params FsTypes Machine Spinlock ProcCore Mem Kstring Pres.
From S2P Require Import PresVm Services Proc FsCore Sleeplock Bio Log Fs.

(** [struct dirent] and its bytes. *)
Definition dirent_of (l : list Z) : dirent :=
  Dirent (le_at 2 0 l) (slice 2 (Z.to_nat DIRSIZ) l).
Definition dirent_bytes (de : dirent) : list Z := le_bytes 2 (de_inum de) ++ de_name de.

(** A name buffer [char name[DIRSIZ]] before its first use. *)
Definition name_zero : list Z := replicate (Z.to_nat DIRSIZ) 0.

Definition namecmp (s t : list Z) : option Z := strncmp (Z.to_nat DIRSIZ) s t.

(** ** Path elements *)

(** [while( *path == '/') path++;] *)
Fixpoint skip_slashes (path : list Z) : list Z :=
  match path with
  | c :: path' => if c =? 47 then skip_slashes path' else path
  | [] => []
  end.

(** [while( *path != '/' && *path != 0) path++;]: what is passed, and the rest. *)
Fixpoint take_elem (path : list Z) : list Z * list Z :=
  match path with
  | c :: path' =>
      if (c =? 47) || (c =? 0) then ([], path)
      else let (s, rest) := take_elem path' in (c :: s, rest)
  | [] => ([], [])
  end.

(** What [skipelem] leaves in [name]. *)
Definition copy_elem (s name : list Z) : list Z :=
  if DIRSIZ <=? Z.of_nat (length s)
  then splice 0 (take (Z.to_nat DIRSIZ) s) name
  else splice 0 (s ++ [0]) name.

(** [skipelem]: [None] when it leaves the array, [Some None] for its result 0,
    and otherwise the new path and name. *)
Definition skipelem (path name : list Z) : option (option (list Z * list Z)) :=
  match skip_slashes path with
  | [] => None
  | c :: path' =>
      if c =? 0 then Some None else
      let (s, rest) := take_elem (c :: path') in
      match skip_slashes rest with
      | [] => None
      | next => Some (Some (next, copy_elem s name))
      end
  end.

Section dir.
Context `{Fuel} `{DiskOps}.

(** ** Directories *)

(** One entry of a directory. *)
Definition read_dirent (dp : nat) (off : Z) (msg : string) : M dirent :=
  ' (r, bytes) ← readi dp KernDst off sizeof_dirent;
  if negb (r =? sizeof_dirent) then panic msg else
  ret (dirent_of bytes).

Fixpoint dirlookup_loop (n : nat) (dp : nat) (name : list Z) (off : Z) : M (option (nat * Z)) :=
  match n with
  | O => stop_ SFuel
  | S n =>
      x ← get_inode dp;
      if off <? i_size x then
        de ← read_dirent dp off "dirlookup read";
        if de_inum de =? 0 then dirlookup_loop n dp name (off + sizeof_dirent) else
        c ← in_bounds (namecmp name (de_name de));
        if c =? 0 then
          x ← get_inode dp;
          ip ← iget (i_dev x) (de_inum de);
          ret (Some (ip, off))
        else dirlookup_loop n dp name (off + sizeof_dirent)
      else ret None
  end.

(** [dirlookup]: the inode and the offset of its entry. *)
Definition dirlookup (dp : nat) (name : list Z) : M (option (nat * Z)) :=
  x ← get_inode dp;
  if negb (i_type x =? T_DIR) then panic "dirlookup not DIR" else
  dirlookup_loop (Z.to_nat (i_size x / sizeof_dirent) + 2) dp name 0.

(** The offset of the first empty entry, or the size of the directory, and the
    entry read last. *)
Fixpoint empty_dirent (n : nat) (dp : nat) (off : Z) (de : dirent) : M (Z * dirent) :=
  match n with
  | O => stop_ SFuel
  | S n =>
      x ← get_inode dp;
      if off <? i_size x then
        de ← read_dirent dp off "dirlink read";
        if de_inum de =? 0 then ret (off, de)
        else empty_dirent n dp (off + sizeof_dirent) de
      else ret (off, de)
  end.

Definition dirlink (dp : nat) (name : list Z) (inum : Z) : M Z :=
  found ← dirlookup dp name;
  match found with
  | Some (ip, _) => iput ip;; ret (-1)
  | None =>
      x ← get_inode dp;
      ' (off, de) ← empty_dirent (Z.to_nat (i_size x / sizeof_dirent) + 2) dp 0
                      (Dirent 0 name_zero);
      nm ← in_bounds (strncpy (de_name de) name DIRSIZ);
      let de := Dirent (u16 inum) nm in
      r ← writei dp (KernSrc (dirent_bytes de)) off sizeof_dirent;
      if negb (r =? sizeof_dirent) then ret (-1) else ret 0
  end.

(** ** Paths *)

Fixpoint namex_loop (n : nat) (ip : nat) (path : list Z) (nameiparent : bool) (name : list Z)
    : M (option nat * list Z) :=
  match n with
  | O => stop_ SFuel
  | S n =>
      e ← in_bounds (skipelem path name);
      match e with
      | None =>
          if nameiparent then iput ip;; ret (None, name) else ret (Some ip, name)
      | Some (path, name) =>
          ilock ip;;
          x ← get_inode ip;
          if negb (i_type x =? T_DIR) then iunlockput ip;; ret (None, name) else
          c ← in_bounds (head path);
          if nameiparent && (c =? 0) then iunlock ip;; ret (Some ip, name) else
          next ← dirlookup ip name;
          match next with
          | None => iunlockput ip;; ret (None, name)
          | Some (next, _) => iunlockput ip;; namex_loop n next path nameiparent name
          end
      end
  end.

(** [namex]: the inode, and the last element in [name]. *)
Definition namex (path : list Z) (nameiparent : bool) (name : list Z) : M (option nat * list Z) :=
  c ← in_bounds (head path);
  ip ← (if c =? 47 then iget ROOTDEV ROOTINO
        else
          p ← myproc_deref;
          pr ← get_proc p;
          cwd ← deref (p_cwd pr);
          idup cwd);
  namex_loop (S (length path)) ip path nameiparent name.

Definition namei (path : list Z) : M (option nat) :=
  ' (ip, _) ← namex path false name_zero;
  ret ip.

Definition nameiparent (path : list Z) : M (option nat * list Z) :=
  namex path true name_zero.

Context `{!DiskLaws}.

Lemma pres_read_dirent dp off msg : pres mlfq_inv (read_dirent dp off msg).
Proof. unfold read_dirent. pres. Qed.
#[local] Hint Resolve pres_read_dirent : pres.
Lemma pres_dirlookup_loop n dp name off : pres mlfq_inv (dirlookup_loop n dp name off).
Proof. revert off. induction n; intros off; cbn [dirlookup_loop]; pres. Qed.
#[local] Hint Resolve pres_dirlookup_loop : pres.
Lemma pres_dirlookup dp name : pres mlfq_inv (dirlookup dp name).
Proof. unfold dirlookup. pres. Qed.
Lemma pres_empty_dirent n dp off de : pres mlfq_inv (empty_dirent n dp off de).
Proof. revert off de. induction n; intros off de; cbn [empty_dirent]; pres. Qed.
#[local] Hint Resolve pres_dirlookup pres_empty_dirent : pres.
Lemma pres_dirlink dp name inum : pres mlfq_inv (dirlink dp name inum).
Proof. unfold dirlink. pres. Qed.
Lemma pres_namex_loop n ip path np name : pres mlfq_inv (namex_loop n ip path np name).
Proof.
  revert ip path name. induction n; intros ip path name; cbn [namex_loop]; pres.
Qed.
#[local] Hint Resolve pres_namex_loop : pres.
Lemma pres_namex path np name : pres mlfq_inv (namex path np name).
Proof. unfold namex. pres. Qed.
#[local] Hint Resolve pres_namex : pres.
Lemma pres_namei_ path : pres mlfq_inv (namei path).
Proof. unfold namei. pres. Qed.
Lemma pres_nameiparent path : pres mlfq_inv (nameiparent path).
Proof. unfold nameiparent. pres. Qed.
End dir.

#[export] Hint Resolve pres_dirlookup pres_dirlink pres_namei_ pres_nameiparent
  pres_read_dirent : pres.
