(* ===== verification/FsSpec.v ===== *)
(** * What a file holds

    The content of an inode as a list of bytes, and [readi()] and [dirlookup()] of
    [src/kernel/fs.c] in terms of it. The blocks of the disk are seen through the
    buffer cache of [BioSpec]. *)

From S2P Require Import Prelude Bytes Params FsTypes Machine Spinlock ProcCore Mem Kstring Pres PresVm Services.
From S2P Require Import Proc FsCore Sleeplock Calm Bio Lru BioSpec Log LogSpec Fs Dir.

(** ** The bytes of a file

    [rd] gives the contents of the blocks. *)

(** The block with block [fbn] of the file: what [bmap] finds. *)
Definition block_addr (rd : Z -> list Z) (addrs : list Z) (fbn : Z) : Z :=
  if fbn <? NDIRECT then default 0 (addrs !! Z.to_nat fbn)
  else le_at 4 (4 * (fbn - NDIRECT)) (rd (default 0 (addrs !! Z.to_nat NDIRECT))).

Definition file_byte (rd : Z -> list Z) (addrs : list Z) (i : Z) : Z :=
  default 0 (rd (block_addr rd addrs (i / BSIZE)) !! Z.to_nat (i mod BSIZE)).

(** [n] bytes from offset [off]. *)
Definition file_bytes (rd : Z -> list Z) (addrs : list Z) (off n : Z) : list Z :=
  file_byte rd addrs <$> seqZ off n.

(** Blocks in the cache are newer than on the disk. *)
Definition view (f : fsst) (A : blocks_in_use) (bn : Z) : list Z :=
  match A !! bn with Some (_, d) => d | None => default zero_block (fs_blocks f !! bn) end.

(** The blocks of the first [size] bytes of the file are allocated. *)
Record mapped (D : image) (rd : Z -> list Z) (addrs : list Z) (size : Z) : Prop := {
  mp_size : size <= MAXFILE * BSIZE;
  mp_addrs : Z.of_nat (length addrs) = NDIRECT + 1;
  mp_block fbn : 0 <= fbn -> fbn * BSIZE < size ->
    block_addr rd addrs fbn <> 0 /\ is_Some (D !! block_addr rd addrs fbn)
    /\ Z.of_nat (length (rd (block_addr rd addrs fbn))) = BSIZE;
  mp_indirect a : NDIRECT * BSIZE < size -> addrs !! Z.to_nat NDIRECT = Some a ->
    a <> 0 /\ is_Some (D !! a);
}.

Lemma length_file_bytes rd addrs off n : length (file_bytes rd addrs off n) = Z.to_nat n.
Proof. unfold file_bytes. by rewrite length_fmap, length_seqZ. Qed.

Lemma file_bytes_app rd addrs off n m :
  0 <= n -> 0 <= m ->
  file_bytes rd addrs off (n + m) = file_bytes rd addrs off n ++ file_bytes rd addrs (off + n) m.
Proof. intros. unfold file_bytes. by rewrite seqZ_app, fmap_app by lia. Qed.

Lemma file_bytes_ext rd rd' addrs off n :
  (forall bn, rd bn = rd' bn) -> file_bytes rd addrs off n = file_bytes rd' addrs off n.
Proof.
  intros Hrd. unfold file_bytes. apply list_fmap_ext. intros i z _.
  unfold file_byte, block_addr. by rewrite !Hrd.
Qed.

(** The part of the file in one block. *)
Lemma file_bytes_block rd addrs off m :
  0 <= off -> 0 <= m -> off mod BSIZE + m <= BSIZE ->
  Z.of_nat (length (rd (block_addr rd addrs (off / BSIZE)))) = BSIZE ->
  slice (Z.to_nat (off mod BSIZE)) (Z.to_nat m) (rd (block_addr rd addrs (off / BSIZE)))
  = file_bytes rd addrs off m.
Proof.
  intros Hoff Hm Hfit Hlen. pose proof (Z.mod_pos_bound off BSIZE eq_refl) as Hmod.
  apply list_eq. intros i. unfold file_bytes. rewrite lookup_slice, list_lookup_fmap.
  case_decide as Hi.
  - rewrite lookup_seqZ_lt by lia. simpl. unfold file_byte.
    assert (E : (off + Z.of_nat i) / BSIZE = off / BSIZE /\ (off + Z.of_nat i) mod BSIZE = off mod BSIZE + Z.of_nat i).
    { pose proof (Z.div_mod off BSIZE). unfold BSIZE in *.
      split; [symmetry; apply (Z.div_unique _ _ _ (off mod 1024 + Z.of_nat i))
             |symmetry; apply (Z.mod_unique _ _ (off / 1024))]; lia. }
    destruct E as [-> ->].
    destruct (lookup_lt_is_Some_2 (rd (block_addr rd addrs (off / BSIZE))) (Z.to_nat (off mod BSIZE) + i))
      as [c Hc]; [unfold BSIZE in *; lia|].
    replace (Z.to_nat (off mod BSIZE + Z.of_nat i)) with (Z.to_nat (off mod BSIZE) + i)%nat by lia.
    by rewrite Hc.
  - rewrite lookup_seqZ_ge by lia. done.
Qed.

(** ** Reading blocks *)

Section reading.
Context `{Fuel} (pid : Z) (s : kstate) (Hcalm : calm pid s) (Hfuel : (0 < fuel)%nat).
Context (A : blocks_in_use) (Hroom : (size A < bhead)%nat).
Context (Hrc : forall bn rc d, A !! bn = Some (rc, d) -> rc < 900).

Lemma same_disk_refl f : same_disk f f.
Proof using Type. by destruct f. Qed.

Lemma same_view f f' : same_disk f f' -> view f' A = view f A.
Proof using Type. intros Hs. unfold view. by rewrite (same_blocks _ _ Hs). Qed.

Lemma same_inodes f f' : same_disk f f' -> fs_inodes f' = fs_inodes f.
Proof using Type. by intros [-> _]. Qed.

Lemma get_inode_run f ip x :
  fs_inodes f !! ip = Some x -> get_inode ip (s ⊕ f) = Ret x (s ⊕ f).
Proof using Type. intros Hx. unfold get_inode, fetch. simpl. by rewrite Hx. Qed.

(** A block is read and released; the table of inodes may change in between. *)
Lemma block_run_with f l bn t :
  cache pid f l A ∅ -> is_Some (fs_blocks f !! bn) ->
  exists b f1 f2 l2, bread ROOTDEV bn (s ⊕ f) = Ret b (s ⊕ f1)
    /\ get_data b (s ⊕ f1) = Ret (view f A bn) (s ⊕ f1) /\ same_disk f f1
    /\ brelse b (s ⊕ f1 <| fs_inodes := t |>) = Ret tt (s ⊕ f2)
    /\ same_disk (f <| fs_inodes := t |>) f2 /\ cache pid f2 l2 A ∅.
Proof.
  intros Hc [d Hd].
  destruct (bread_run pid s Hcalm Hfuel f l A ∅ bn d) as (b & f1 & E1 & S1 & _ & C1); try done.
  { by left. } { intros rc d' E. apply Hrc in E. lia. }
  destruct (one_more A bn d) as [rc d'] eqn:Eo.
  assert (Hv : d' = view f A bn).
  { unfold one_more in Eo. unfold view. rewrite Hd. by destruct (A !! bn) as [[]|]; injection Eo as <- <-. }
  assert (Hrc' : rc < 1000).
  { unfold one_more in Eo. destruct (A !! bn) as [[rc0 d0]|] eqn:EA; injection Eo as <- <-; [|lia].
    apply Hrc in EA. lia. }
  assert (C1' : cache pid (f1 <| fs_inodes := t |>) l (<[bn := (rc, d')]> A) (<[b := bn]> ∅)) by (destruct C1; by split).
  destruct (brelse_run pid s Hcalm Hfuel C1' (b := b) (bn := bn) (rc := rc) (d := d'))
    as (f2 & l2 & E2 & S2 & _ & C2); [by simplify_map_eq..|done| |].
  { intros ->. unfold one_more in Eo. simpl. rewrite (same_blocks _ _ S1).
    destruct (A !! bn) as [[rc0 d0]|] eqn:EA; inversion Eo; subst; [|done].
    pose proof (cache_pos Hc _ _ _ EA). lia. }
  exists b, f1, f2, l2. split_and!; try done.
  - rewrite <- Hv. eapply (get_data_run pid s C1); by simplify_map_eq.
  - apply (same_disk_trans _ (f1 <| fs_inodes := t |>)); [|done]. destruct S1 as [S1 H1]. split; [by rewrite S1|exact H1].
  - rewrite (delete_insert_id ∅ b) in C2 by apply lookup_empty. unfold one_more in Eo.
    destruct (A !! bn) as [[rc0 d0]|] eqn:EA; injection Eo as <- <-.
    + rewrite (proj2 (Z.eqb_neq (rc0 + 1) 1)) in C2 by (pose proof (cache_pos Hc _ _ _ EA); lia).
      rewrite insert_insert_eq in C2. replace (rc0 + 1 - 1) with rc0 in C2 by lia.
      by rewrite insert_id in C2.
    + simpl in C2. by rewrite delete_insert_id in C2.
Qed.

Lemma block_run f l bn :
  cache pid f l A ∅ -> is_Some (fs_blocks f !! bn) ->
  exists b f1 f2 l2, bread ROOTDEV bn (s ⊕ f) = Ret b (s ⊕ f1)
    /\ get_data b (s ⊕ f1) = Ret (view f A bn) (s ⊕ f1) /\ same_disk f f1
    /\ brelse b (s ⊕ f1) = Ret tt (s ⊕ f2) /\ same_disk f f2 /\ cache pid f2 l2 A ∅.
Proof.
  intros Hc Hd. destruct (block_run_with f l bn (fs_inodes f) Hc Hd) as (b & f1 & f2 & l2 & E1 & E2 & S1 & E3 & S2 & C2).
  exists b, f1, f2, l2. split_and!; try done.
  rewrite <- (same_inodes _ _ S1) in E3. by replace (f1 <| fs_inodes := fs_inodes f1 |>) with f1 in E3 by by destruct f1.
Qed.

Context (ip : nat) (x : inode) (Hdev : i_dev x = ROOTDEV).

Lemma bmap_direct_run f i a :
  fs_inodes f !! ip = Some x -> 0 <= i -> i_addrs x !! Z.to_nat i = Some a -> a <> 0 ->
  bmap_direct ip i (s ⊕ f) = Ret a (s ⊕ f).
Proof using Type.
  intros Hx Hi Ha Hz. unfold bmap_direct. erewrite bind_Ret by by apply get_inode_run.
  erewrite bind_Ret.
  2:{ rewrite <- (Z2Nat.id i) by done. by apply index_run. }
  by rewrite (proj2 (Z.eqb_neq a 0)).
Qed.

(** [bmap] finds the block of an allocated part of the file. *)
Lemma bmap_run f l size fbn :
  cache pid f l A ∅ -> fs_inodes f !! ip = Some x -> mapped (fs_blocks f) (view f A) (i_addrs x) size ->
  0 <= fbn -> fbn * BSIZE < size ->
  exists f' l', bmap ip fbn (s ⊕ f) = Ret (block_addr (view f A) (i_addrs x) fbn) (s ⊕ f')
    /\ same_disk f f' /\ cache pid f' l' A ∅.
Proof.
  intros Hc Hx Hm H0 Hlt. destruct (mp_block _ _ _ _ Hm fbn H0 Hlt) as (Hz & Hb & _).
  pose proof (mp_addrs _ _ _ _ Hm) as Hlen. pose proof (mp_size _ _ _ _ Hm) as Hsz.
  assert (Hmax : fbn < MAXFILE) by (change BSIZE with 1024 in *; lia).
  unfold bmap, block_addr in *. destruct (Z.ltb_spec fbn NDIRECT) as [Hd|Hd].
  - exists f, l. split_and!; [|apply same_disk_refl|done]. change NDIRECT with 12 in *.
    destruct (lookup_lt_is_Some_2 (i_addrs x) (Z.to_nat fbn)) as [a Ha]; [lia|].
    rewrite Ha in *. by apply bmap_direct_run.
  - replace (fbn - NDIRECT <? NINDIRECT) with true by (unfold MAXFILE in *; lia).
    destruct (lookup_lt_is_Some_2 (i_addrs x) (Z.to_nat NDIRECT)) as [a Ha];
      [change NDIRECT with 12 in *; lia|]. rewrite Ha in *. simpl in *.
    destruct (mp_indirect _ _ _ _ Hm a) as [Haz Hab]; [change BSIZE with 1024 in *; lia|done|].
    erewrite bind_Ret by (by apply bmap_direct_run; [|change NDIRECT with 12; lia|..]).
    rewrite (proj2 (Z.eqb_neq a 0)) by done. erewrite bind_Ret by by apply get_inode_run.
    destruct (block_run f l a Hc Hab) as (b & f1 & f2 & l2 & E1 & Ed & S1 & E2 & S2 & C2).
    rewrite Hdev, (bind_Ret _ _ _ _ _ E1), (bind_Ret _ _ _ _ _ Ed).
    rewrite (proj2 (Z.eqb_neq _ 0)) by done.
    exists f2, l2. split_and!; try done. by erewrite bind_Ret; [erewrite bind_Ret by exact E2|].
Qed.
Lemma mapped_same f f' addrs sz :
  same_disk f f' -> mapped (fs_blocks f) (view f A) addrs sz ->
  mapped (fs_blocks f') (view f' A) addrs sz.
Proof using Type. intros Hs. by rewrite (same_view _ _ Hs), (same_blocks _ _ Hs). Qed.

Lemma either_copyout_kern f bytes : either_copyout KernDst bytes (s ⊕ f) = Ret (0, bytes) (s ⊕ f).
Proof using Hcalm.
  unfold either_copyout, bind. rewrite (kok_myproc 0) by eauto with xv6. simpl.
  f_equal. pose proof (quiet_settled _ _ _ (calm_quiet _ _ Hcalm)) as E. unfold ksync. simpl.
  rewrite E. by destruct s.
Qed.

(** One round of the loop of [readi]. *)
Lemma readi_round f l sz k off n tot acc :
  cache pid f l A ∅ -> fs_inodes f !! ip = Some x -> mapped (fs_blocks f) (view f A) (i_addrs x) sz ->
  0 <= off -> tot < n -> off + (n - tot) <= sz ->
  let m := Z.min (n - tot) (BSIZE - off mod BSIZE) in
  exists f' l', readi_loop (S k) ip KernDst off n tot acc (s ⊕ f)
    = readi_loop k ip KernDst (off + m) n (tot + m)
        (acc ++ file_bytes (view f A) (i_addrs x) off m) (s ⊕ f')
    /\ same_disk f f' /\ cache pid f' l' A ∅.
Proof.
  intros Hc Hx Hm Hoff Htot Hsz m. pose proof (Z.mod_pos_bound off BSIZE eq_refl) as Hmod.
  pose proof (mp_size _ _ _ _ Hm) as Hmax. change (MAXFILE * BSIZE) with 274432 in Hmax.
  pose proof (Z.div_pos off BSIZE Hoff eq_refl) as Hq.
  pose proof (Z.div_mod off BSIZE ltac:(done)) as Hdm. change BSIZE with 1024 in Hmod, Hdm.
  assert (Hlt : off / BSIZE * BSIZE < sz) by (change BSIZE with 1024; lia).
  cbn [readi_loop]. rewrite (proj2 (Z.ltb_lt _ _)) by done.
  destruct (bmap_run f l sz (off / BSIZE)) as (f1 & l1 & E1 & S1 & C1); try done.
  rewrite (bind_Ret _ _ _ _ _ E1).
  destruct (mp_block _ _ _ _ Hm (off / BSIZE) Hq Hlt) as (Hz & Hb & Hlen).
  rewrite (proj2 (Z.eqb_neq _ 0)) by done.
  erewrite bind_Ret by (apply get_inode_run; by rewrite (same_inodes _ _ S1)).
  rewrite Hdev. rewrite <- (same_blocks _ _ S1) in Hb.
  destruct (block_run f1 l1 _ C1 Hb) as (b & f2 & f3 & l3 & E2 & Ed & S2 & E3 & S3 & C3).
  rewrite (bind_Ret _ _ _ _ _ E2), (bind_Ret _ _ _ _ _ Ed). fold m.
  rewrite (bind_Ret _ _ _ _ _ (either_copyout_kern f2 _)).
  change (0 =? -1) with false. cbv iota.
  rewrite (bind_Ret _ _ _ _ _ E3), (same_view _ _ S1). exists f3, l3. split_and!; [|by eapply same_disk_trans|done].
  rewrite file_bytes_block by (try done; unfold m; change BSIZE with 1024; lia).
  rewrite u32_small; [done|]. unfold m. change BSIZE with 1024. lia.
Qed.

Lemma readi_loop_run k f l sz off n tot acc :
  cache pid f l A ∅ -> fs_inodes f !! ip = Some x -> mapped (fs_blocks f) (view f A) (i_addrs x) sz ->
  0 <= off -> tot <= n -> off + (n - tot) <= sz ->
  (0 < k)%nat -> (tot < n -> off mod BSIZE + (n - tot) <= BSIZE * (Z.of_nat k - 1)) ->
  exists f' l', readi_loop k ip KernDst off n tot acc (s ⊕ f)
    = Ret (n, acc ++ file_bytes (view f A) (i_addrs x) off (n - tot)) (s ⊕ f')
    /\ same_disk f f' /\ cache pid f' l' A ∅.
Proof.
  revert f l off tot acc. induction k as [|k IH]; intros f l off tot acc Hc Hx Hm Hoff Htot Hsz Hk0 Hk; [lia|].
  destruct (Z.ltb_spec tot n) as [Hlt|Hge].
  - destruct (readi_round f l sz k off n tot acc) as (f1 & l1 & -> & S1 & C1); [done..|].
    pose proof (Z.mod_pos_bound off BSIZE eq_refl) as Hmod. specialize (Hk Hlt).
    set (m := Z.min (n - tot) (BSIZE - off mod BSIZE)) in *.
    assert (Hm0 : 0 < m) by lia.
    assert (Hnext : tot + m < n -> (off + m) mod BSIZE = 0).
    { intros Hn. assert (E : m = BSIZE - off mod BSIZE) by lia. rewrite E.
      replace (off + (BSIZE - off mod BSIZE)) with ((off / BSIZE + 1) * BSIZE).
      - apply Z.mod_mul. done.
      - pose proof (Z.div_mod off BSIZE ltac:(done)). lia. }
    destruct (IH f1 l1 (off + m) (tot + m) (acc ++ file_bytes (view f A) (i_addrs x) off m))
      as (f2 & l2 & E & S2 & C2); try done; try lia.
    + by rewrite (same_inodes _ _ S1).
    + by apply (mapped_same f).
    + change BSIZE with 1024 in *. lia.
    + exists f2, l2. split_and!; [|by eapply same_disk_trans|done]. rewrite E, (same_view _ _ S1), <- app_assoc.
      rewrite <- file_bytes_app by lia. do 4 f_equal. lia.
  - cbn [readi_loop]. rewrite (proj2 (Z.ltb_ge _ _)) by done. assert (tot = n) by lia. subst tot.
    exists f, l. rewrite Z.sub_diag. unfold file_bytes. rewrite seqZ_nil by lia. simpl.
    rewrite app_nil_r. split_and!; [done|apply same_disk_refl|done].
Qed.

(** What a read of [n] bytes at [off] returns. *)
Definition readable (sz off n : Z) : Z := if sz <? off then 0 else Z.min n (sz - off).

Lemma readi_run f l off n :
  cache pid f l A ∅ -> fs_inodes f !! ip = Some x ->
  mapped (fs_blocks f) (view f A) (i_addrs x) (i_size x) ->
  0 <= off -> 0 <= n -> off + n < 2 ^ 32 -> 0 <= i_size x ->
  exists f' l', readi ip KernDst off n (s ⊕ f)
    = Ret (readable (i_size x) off n,
           file_bytes (view f A) (i_addrs x) off (readable (i_size x) off n)) (s ⊕ f')
    /\ same_disk f f' /\ cache pid f' l' A ∅.
Proof.
  intros Hc Hx Hm Hoff Hn Hov Hsz0. pose proof (mp_size _ _ _ _ Hm) as Hmax.
  change (MAXFILE * BSIZE) with 274432 in Hmax.
  unfold readi. rewrite !(u32_small n) by lia. erewrite bind_Ret by by apply get_inode_run.
  rewrite u32_small by lia. rewrite (proj2 (Z.ltb_ge (off + n) off)) by lia. rewrite orb_false_r.
  unfold readable. destruct (Z.ltb_spec (i_size x) off) as [Hout|Hin].
  { exists f, l. split_and!; [done|apply same_disk_refl|done]. }
  set (n1 := if i_size x <? off + n then i_size x - off else n).
  assert (E1 : n1 = Z.min n (i_size x - off)) by (unfold n1; destruct (Z.ltb_spec (i_size x) (off + n)); lia).
  rewrite <- E1. pose proof (Z.mod_pos_bound off BSIZE eq_refl) as Hmod.
  destruct (readi_loop_run (Z.to_nat (n1 / BSIZE) + 3) f l (i_size x) off n1 0 []) as (f' & l' & E & S & C);
    try done; try lia.
  - intros _. pose proof (Z.div_mod n1 BSIZE ltac:(done)). pose proof (Z.mod_pos_bound n1 BSIZE eq_refl).
    pose proof (Z.div_pos n1 BSIZE ltac:(lia) eq_refl). change BSIZE with 1024 in *. lia.
  - exists f', l'. rewrite (bind_Ret _ _ _ _ _ E), s32_small, Z.sub_0_r by lia. done.
Qed.
End reading.

(** ** The inode table *)

Definition caches (t : list inode) (dev inum : Z) (i : nat) : bool :=
  match t !! i with
  | Some x => (0 <? i_ref x) && (i_dev x =? dev) && (i_inum x =? inum)
  | None => false
  end.

Definition free_slot (t : list inode) (i : nat) : bool :=
  match t !! i with Some x => i_ref x =? 0 | None => false end.

(** The table after [iget(dev, inum)]: one more reference to the entry of the inode,
    or the first free entry, not yet read from the disk. *)
Definition igot (t : list inode) (dev inum : Z) : option (nat * list inode) :=
  match List.find (caches t dev inum) (seq 0 (length t)) with
  | Some i => Some (i, alter (fun x => x <| i_ref := s32 (i_ref x + 1) |>) i t)
  | None =>
      match List.find (free_slot t) (seq 0 (length t)) with
      | Some i => Some (i, alter (fun x => x <| i_dev := dev |> <| i_inum := inum |> <| i_ref := 1 |>
                                             <| i_valid := 0 |>) i t)
      | None => None
      end
  end.

Lemma alter_insert {B} (g : B -> B) (i : nat) (l : list B) x : l !! i = Some x -> alter g i l = <[i := g x]> l.
Proof.
  intros Hx. pose proof (lookup_lt_Some _ _ _ Hx). apply list_eq. intros j.
  destruct (decide (i = j)) as [<-|Hne].
  - by rewrite list_lookup_alter_eq, list_lookup_insert_eq, Hx.
  - by rewrite list_lookup_alter_ne, list_lookup_insert_ne.
Qed.

Lemma upd_inode_run s f ip g x :
  fs_inodes f !! ip = Some x ->
  upd_inode ip g (s ⊕ f) = Ret tt (s ⊕ f <| fs_inodes := alter g ip (fs_inodes f) |>).
Proof.
  intros Hx. unfold upd_inode. erewrite bind_Ret by by apply get_inode_run.
  by rewrite (alter_insert _ _ _ _ Hx).
Qed.

Lemma iget_scan_run s f dev inum l empty :
  Forall (fun i => (i < length (fs_inodes f))%nat) l ->
  iget_scan l dev inum empty (s ⊕ f)
  = Ret (match List.find (caches (fs_inodes f) dev inum) l with
         | Some i => inl i
         | None => inr (match empty with Some e => Some e | None => List.find (free_slot (fs_inodes f)) l end)
         end) (s ⊕ f).
Proof.
  revert empty. induction l as [|i l IH]; intros empty Hl; [by destruct empty|].
  apply Forall_cons in Hl as [Hi Hl]. destruct (lookup_lt_is_Some_2 _ _ Hi) as [x Hx].
  cbn [iget_scan List.find]. erewrite bind_Ret by by apply get_inode_run.
  unfold caches at 1, free_slot at 1. rewrite Hx. case_if; [done|]. rewrite IH by done.
  destruct (List.find _ l); [done|]. destruct empty; [done|]. by destruct (i_ref x =? 0).
Qed.

Lemma find_lt P n i : List.find P (seq 0 n) = Some i -> (i < n)%nat /\ P i = true.
Proof.
  intros E. apply find_some in E as [Hin HP]. apply in_seq in Hin. split; [lia|done].
Qed.

Lemma iget_run pid s f dev inum :
  calm pid s -> Z.of_nat (length (fs_inodes f)) = NINODE ->
  iget dev inum (s ⊕ f)
  = match igot (fs_inodes f) dev inum with
    | Some (ip, t) => Ret ip (s ⊕ f <| fs_inodes := t |>)
    | None => Stop (SPanic "iget: no inodes")
    end.
Proof.
  intros Hc Hlen. unfold iget, igot. replace (Z.to_nat NINODE) with (length (fs_inodes f)) by lia.
  erewrite bind_Ret by by eapply acquire_fs.
  erewrite bind_Ret by (apply iget_scan_run, Forall_seq; intros; lia).
  destruct (List.find (caches _ _ _) _) as [i|] eqn:Ec; [|destruct (List.find (free_slot _) _) as [i|] eqn:Ef].
  - apply find_lt in Ec as [Hi _]. destruct (lookup_lt_is_Some_2 _ _ Hi) as [x Hx].
    erewrite bind_Ret by by eapply upd_inode_run. by erewrite bind_Ret by by eapply release_fs.
  - apply find_lt in Ef as [Hi _]. destruct (lookup_lt_is_Some_2 _ _ Hi) as [x Hx].
    erewrite bind_Ret by by eapply upd_inode_run. by erewrite bind_Ret by by eapply release_fs.
  - done.
Qed.

(** ** Names *)

Lemma strncmp_equal n p q :
  Forall byte p -> Forall byte q -> (n <= length q)%nat -> (n <= length p)%nat \/ terminated p ->
  exists c, strncmp n p q = Some c /\ (c = 0 <-> cstr (take n p) = cstr (take n q)).
Proof.
  unfold terminated. revert p q. induction n as [|n IH]; intros p q Hp Hq Hlq Hlp.
  { exists 0. by rewrite !take_0. }
  destruct q as [|b q]; simpl in Hlq; [lia|]. apply Forall_cons in Hq as [Hb Hq].
  destruct p as [|a p]. { destruct Hlp as [Hlp|Hlp]; [simpl in Hlp; lia|by apply elem_of_nil in Hlp]. }
  apply Forall_cons in Hp as [Ha Hp]. unfold byte in Ha, Hb.
  cbn [strncmp take]. destruct (truthy a && (a =? b)) eqn:E; bool_to_prop.
  - subst b. destruct (IH p q Hp Hq) as (c & Ec & Hc); [lia| |].
    { destruct Hlp as [?|Hlp]; [left; simpl in *; lia|right; set_solver]. }
    exists c. split; [done|]. rewrite Hc, !cstr_cons by done. split; congruence.
  - exists (a - b). unfold u8. rewrite !Z.mod_small by lia. split; [done|].
    apply andb_false_iff in E as [E|E]; bool_to_prop.
    + subst a. simpl. destruct (Z.eqb_spec b 0) as [->|Hb0]; [by split|].
      split; [lia|done].
    + split; [lia|]. simpl. intros Heq.
      destruct (Z.eqb_spec a 0), (Z.eqb_spec b 0); try done; try congruence; lia.
Qed.

(** ** Directories *)

Definition dir_entry (rd : Z -> list Z) (addrs : list Z) (i : nat) : dirent :=
  dirent_of (file_bytes rd addrs (sizeof_dirent * Z.of_nat i) sizeof_dirent).

(** The entry is in use and has the name, of which [DIRSIZ] characters count. *)
Definition de_matches (name : list Z) (de : dirent) : bool :=
  negb (de_inum de =? 0) && bool_decide (cstr (take (Z.to_nat DIRSIZ) name) = cstr (de_name de)).

(** The number of the first entry with the name, in a directory of [size] bytes. *)
Definition dir_find (rd : Z -> list Z) (addrs : list Z) (size : Z) (name : list Z) : option nat :=
  List.find (fun i => de_matches name (dir_entry rd addrs i)) (seq 0 (Z.to_nat (size / sizeof_dirent))).

Lemma file_bytes_byte rd addrs off n :
  (forall bn, Forall byte (rd bn)) -> Forall byte (file_bytes rd addrs off n).
Proof.
  intros Hrd. unfold file_bytes. rewrite Forall_fmap, Forall_forall. intros i _. unfold compose, file_byte.
  destruct (_ !! _) as [c|] eqn:E; simpl; [|unfold byte; lia].
  specialize (Hrd (block_addr rd addrs (i / BSIZE))). by eapply Forall_lookup_1.
Qed.

Lemma dir_find_ext rd rd' addrs sz name :
  (forall bn, rd bn = rd' bn) -> dir_find rd addrs sz name = dir_find rd' addrs sz name.
Proof.
  intros Hrd. unfold dir_find. induction (seq _ _) as [|i l IH]; [done|]. simpl. rewrite IH.
  unfold dir_entry. by rewrite (file_bytes_ext rd rd').
Qed.

Lemma length_de_name l : length l = Z.to_nat sizeof_dirent -> length (de_name (dirent_of l)) = Z.to_nat DIRSIZ.
Proof. intros Hl. simpl. apply length_slice. rewrite Hl. vm_compute. lia. Qed.

Lemma cache_inodes pid f l A held t :
  cache pid f l A held -> cache pid (f <| fs_inodes := t |>) l A held.
Proof. intros []. by split. Qed.

Section dirlookup.
Context `{Fuel} (pid : Z) (s : kstate) (Hcalm : calm pid s) (Hfuel : (0 < fuel)%nat).
Context (A : blocks_in_use) (Hroom : (size A < bhead)%nat).
Context (Hrc : forall bn rc d, A !! bn = Some (rc, d) -> rc < 900).
Context (dp : nat) (x : inode) (Hdev : i_dev x = ROOTDEV).
Context (name : list Z) (Hname : Forall byte name)
  (Hlong : (Z.to_nat DIRSIZ <= length name)%nat \/ terminated name).

(** [f] holds the directory. *)
Record dir_at (f : fsst) (l : list nat) : Prop := {
  da_cache : cache pid f l A ∅;
  da_inode : fs_inodes f !! dp = Some x;
  da_mapped : mapped (fs_blocks f) (view f A) (i_addrs x) (i_size x);
  da_bytes bn : Forall byte (view f A bn);
  da_size : 0 <= i_size x /\ i_size x mod sizeof_dirent = 0;
}.

Lemma dir_at_same f f' l l' :
  dir_at f l -> same_disk f f' -> cache pid f' l' A ∅ -> dir_at f' l'.
Proof using Type.
  intros [? ? ? ? ?] Hs Hc. split; try done.
  - by rewrite (same_inodes _ _ Hs).
  - by apply (mapped_same A f).
  - by rewrite (same_view A _ _ Hs).
Qed.

Lemma dir_size f l : dir_at f l -> i_size x = sizeof_dirent * (i_size x / sizeof_dirent).
Proof using Type.
  clear Hfuel Hroom Hlong Hcalm. intros [_ _ _ _ [? Hm]]. rewrite (Z.div_mod (i_size x) sizeof_dirent) at 1 by done. lia.
Qed.

Lemma read_dirent_run f l i msg :
  dir_at f l -> Z.of_nat i < i_size x / sizeof_dirent ->
  exists f' l', read_dirent dp (sizeof_dirent * Z.of_nat i) msg (s ⊕ f)
    = Ret (dir_entry (view f A) (i_addrs x) i) (s ⊕ f') /\ same_disk f f' /\ cache pid f' l' A ∅.
Proof using Hcalm Hfuel Hroom Hrc Hdev.
  clear Hlong. intros Hd Hi. pose proof (dir_size f l Hd) as Hs. destruct Hd as [Hc Hx Hm _ [H0 _]].
  pose proof (mp_size _ _ _ _ Hm) as Hmax. change (MAXFILE * BSIZE) with 274432 in Hmax.
  destruct (readi_run pid s Hcalm Hfuel A Hroom Hrc dp x Hdev f l (sizeof_dirent * Z.of_nat i) sizeof_dirent)
    as (f' & l' & E & S' & C'); try done; try (change sizeof_dirent with 16 in *; lia).
  assert (Er : readable (i_size x) (sizeof_dirent * Z.of_nat i) sizeof_dirent = sizeof_dirent).
  { unfold readable. change sizeof_dirent with 16 in *. destruct (Z.ltb_spec (i_size x) (16 * Z.of_nat i)); lia. }
  rewrite Er in E. exists f', l'. split_and!; [|done|done]. unfold read_dirent.
  by rewrite (bind_Ret _ _ _ _ _ E), Z.eqb_refl.
Qed.

(** The result of the search from entry [i] on. *)
Definition lookup_result (f : fsst) (found : option nat) (r : outcome (option (nat * Z))) : Prop :=
  match found with
  | Some j =>
      match igot (fs_inodes f) ROOTDEV (de_inum (dir_entry (view f A) (i_addrs x) j)) with
      | Some (ip, t') => exists f' l', r = Ret (Some (ip, sizeof_dirent * Z.of_nat j)) (s ⊕ f' <| fs_inodes := t' |>)
          /\ dir_at f' l' /\ same_disk f f'
      | None => r = Stop (SPanic "iget: no inodes")
      end
  | None => exists f' l', r = Ret None (s ⊕ f') /\ dir_at f' l' /\ same_disk f f'
  end.

Lemma lookup_result_same f f1 found r : same_disk f f1 -> lookup_result f1 found r -> lookup_result f found r.
Proof using Type.
  intros S1. unfold lookup_result. rewrite (same_view A _ _ S1), (same_inodes _ _ S1).
  destruct found as [j|]; [destruct (igot _ _ _) as [[ip t']|]; [|done]|];
    intros (f' & l' & ? & ? & S2); exists f', l'; split_and!; try done; by apply (same_disk_trans _ f1).
Qed.

Lemma dirlookup_loop_run k f l i m :
  dir_at f l -> Z.of_nat (length (fs_inodes f)) = NINODE ->
  (i + m)%nat = Z.to_nat (i_size x / sizeof_dirent) -> (m < k)%nat ->
  lookup_result f
    (List.find (fun j => de_matches name (dir_entry (view f A) (i_addrs x) j)) (seq i m))
    (dirlookup_loop k dp name (sizeof_dirent * Z.of_nat i) (s ⊕ f)).
Proof using Hcalm Hfuel Hroom Hrc Hdev Hname Hlong.
  revert f l i m. induction k as [|k IH]; intros f l i m Hd Hlen Him Hk; [lia|].
  pose proof (dir_size f l Hd) as Hs. cbn [dirlookup_loop].
  erewrite bind_Ret by (apply get_inode_run, Hd). pose proof (proj1 (da_size _ _ Hd)) as H0.
  assert (Hq : 0 <= i_size x / sizeof_dirent) by (apply Z.div_pos; done).
  destruct m as [|m]; cbn [seq List.find].
  { rewrite (proj2 (Z.ltb_ge _ _)) by (change sizeof_dirent with 16 in *; lia). exists f, l. split_and!; [done|done|apply same_disk_refl]. }
  rewrite (proj2 (Z.ltb_lt _ _)) by (change sizeof_dirent with 16 in *; lia).
  destruct (read_dirent_run f l i "dirlookup read" Hd) as (f1 & l1 & E1 & S1 & C1); [lia|].
  rewrite (bind_Ret _ _ _ _ _ E1). pose proof (dir_at_same _ _ _ _ Hd S1 C1) as Hd1.
  assert (Hnext : lookup_result f
    (List.find (fun j => de_matches name (dir_entry (view f A) (i_addrs x) j)) (seq (S i) m))
    (dirlookup_loop k dp name (sizeof_dirent * Z.of_nat i + sizeof_dirent) (s ⊕ f1))).
  { apply (lookup_result_same f f1); [done|]. rewrite <- (same_view A _ _ S1).
    replace (sizeof_dirent * Z.of_nat i + sizeof_dirent) with (sizeof_dirent * Z.of_nat (S i)) by lia.
    apply (IH f1 l1); [done|by rewrite (same_inodes _ _ S1)|lia|lia]. }
  unfold de_matches at 1.
  set (de := dir_entry (view f A) (i_addrs x) i) in *.
  destruct (Z.eqb_spec (de_inum de) 0) as [Hz|Hz]; simpl negb; [done|].
  assert (Hl : length (de_name de) = Z.to_nat DIRSIZ).
  { apply length_de_name. by rewrite length_file_bytes. }
  destruct (strncmp_equal (Z.to_nat DIRSIZ) name (de_name de)) as (c & Ec & Hc0); [done| |lia|done|].
  { unfold de, dir_entry. simpl. unfold slice. apply Forall_take, Forall_drop, file_bytes_byte, Hd. }
  unfold namecmp. rewrite Ec. erewrite bind_Ret by done.
  rewrite (take_ge (de_name de)) in Hc0 by lia.
  destruct (Z.eqb_spec c 0) as [Hc|Hc].
  - rewrite bool_decide_true by tauto. cbn [andb]. unfold lookup_result.
    erewrite bind_Ret by (apply get_inode_run, Hd1). rewrite Hdev. unfold bind.
    rewrite (iget_run pid) by (rewrite ?(same_inodes _ _ S1); done). rewrite (same_inodes _ _ S1).
    fold de. destruct (igot _ _ _) as [[ip t']|]; [|done]. by exists f1, l1.
  - rewrite bool_decide_false by tauto. done.
Qed.

Lemma dirlookup_run f l :
  dir_at f l -> Z.of_nat (length (fs_inodes f)) = NINODE -> i_type x = T_DIR ->
  lookup_result f (dir_find (view f A) (i_addrs x) (i_size x) name)
    (dirlookup dp name (s ⊕ f)).
Proof using Hcalm Hfuel Hroom Hrc Hdev Hname Hlong.
  intros Hd Hlen Ht. unfold dirlookup. erewrite bind_Ret by (apply get_inode_run, Hd).
  rewrite Ht. simpl negb. cbv iota. apply (dirlookup_loop_run _ f l 0); [done|done|done|lia].
Qed.
End dirlookup.

(** C17. [readi(ip, 0, dst, off, n)] of an inode whose blocks are allocated returns the
    number of bytes between [off] and the end of the file, at most [n] (0 beyond the
    end), and delivers exactly these bytes of the file, through direct and indirect
    blocks and across block boundaries, cached blocks before those of the disk; it
    changes neither the disk, nor the inode table, nor which blocks are in use. *)
Theorem readi_spec `{Fuel} pid s f l A ip x off n :
  (0 < fuel)%nat -> calm pid s -> cache pid f l A ∅ -> (size A < bhead)%nat ->
  (forall bn rc d, A !! bn = Some (rc, d) -> rc < 900) ->
  fs_inodes f !! ip = Some x -> i_dev x = ROOTDEV -> 0 <= i_size x ->
  mapped (fs_blocks f) (view f A) (i_addrs x) (i_size x) ->
  0 <= off -> 0 <= n -> off + n < 2 ^ 32 ->
  let len := if i_size x <? off then 0 else Z.min n (i_size x - off) in
  exists f' l', readi ip KernDst off n (s ⊕ f)
    = Ret (len, file_bytes (view f A) (i_addrs x) off len) (s ⊕ f')
    /\ same_disk f f' /\ cache pid f' l' A ∅.
Proof. intros. by eapply readi_run. Qed.

(** C18. [dirlookup(dp, name)] in a directory returns the inode number and the offset of
    the first entry in use whose name agrees with [name] on the characters before a
    NUL, at most [DIRSIZ]; the inode gets one more reference if it is in the inode
    table, otherwise the first free entry of the table, and the call panics when
    there is none. It returns 0 when no entry agrees. The disk is not changed. *)
Theorem dirlookup_spec `{Fuel} pid s f l A dp x name :
  (0 < fuel)%nat -> calm pid s -> (size A < bhead)%nat ->
  (forall bn rc d, A !! bn = Some (rc, d) -> rc < 900) ->
  dir_at pid A dp x f l -> i_dev x = ROOTDEV -> i_type x = T_DIR ->
  Z.of_nat (length (fs_inodes f)) = NINODE ->
  Forall byte name -> (Z.to_nat DIRSIZ <= length name)%nat \/ terminated name ->
  match dir_find (view f A) (i_addrs x) (i_size x) name with
  | Some j =>
      match igot (fs_inodes f) ROOTDEV (de_inum (dir_entry (view f A) (i_addrs x) j)) with
      | Some (ip, t) => exists f' l',
          dirlookup dp name (s ⊕ f)
          = Ret (Some (ip, sizeof_dirent * Z.of_nat j)) (s ⊕ f' <| fs_inodes := t |>)
          /\ dir_at pid A dp x f' l' /\ same_disk f f'
      | None => dirlookup dp name (s ⊕ f) = Stop (SPanic "iget: no inodes")
      end
  | None => exists f' l', dirlookup dp name (s ⊕ f) = Ret None (s ⊕ f')
      /\ dir_at pid A dp x f' l' /\ same_disk f f'
  end.
Proof. intros. by eapply dirlookup_run. Qed.

(** ** A disk with a directory *)

#[local] Instance byte_dec b : Decision (byte b).
Proof. unfold byte. apply _. Defined.

Section example.
#[local] Instance example_fuel : Fuel := 1%nat.

(** The entry ["init"] for inode 5, after an empty entry. *)
Definition example_dir : list Z :=
  replicate 16 0 ++ [5; 0; 105; 110; 105; 116] ++ replicate (Z.to_nat BSIZE - 22) 0.

Definition example_inode : inode := Inode ROOTDEV ROOTINO 1 1 T_DIR 0 0 1 48 (7 :: replicate 12 0).

Definition example_inodes : list inode := example_inode :: replicate 49 inode_zero.

Lemma example_view f :
  fs_blocks f = {[7 := example_dir]} ->
  forall bn, view f ∅ bn = if decide (bn = 7) then example_dir else zero_block.
Proof. intros Hb bn. unfold view. rewrite lookup_empty, Hb. case_decide; by simplify_map_eq. Qed.

Lemma example_dir_at : exists f, dir_at 1 ∅ 0 example_inode f (reverse bufids)
  /\ fs_inodes f = example_inodes /\ fs_blocks f = {[7 := example_dir]}.
Proof.
  destruct (binit_run calm_state (fsst_zero <| fs_blocks := {[7 := example_dir]} |>
    <| fs_inodes := example_inodes |>)) as (y & f & _ & Hs & Hc & _).
  - reflexivity.
  - intros b x Hx. apply lookup_replicate in Hx as [-> _]. split; [reflexivity|discriminate].
  - assert (Hb : fs_blocks f = {[7 := example_dir]}) by by rewrite (proj1 Hs).
    pose proof (example_view f Hb) as Hv.
    assert (Hi : fs_inodes f = example_inodes) by by rewrite (proj1 Hs).
    exists f. split_and!; [|done|done]. split.
    + apply Hc.
    + by rewrite Hi.
    + split; [vm_compute; discriminate|reflexivity| |vm_compute; discriminate].
      intros fbn H0 Hlt. assert (E : fbn = 0) by (change BSIZE with 1024 in Hlt; simpl in Hlt; lia).
      subst fbn. change (block_addr (view f ∅) (i_addrs example_inode) 0) with 7. rewrite Hv, Hb.
      split_and!; [discriminate|by eexists; apply lookup_insert_eq|reflexivity].
    + intros bn. rewrite Hv. case_decide; apply (bool_decide_eq_true_1 _); vm_compute; reflexivity.
    + split; [vm_compute; discriminate|reflexivity].
Qed.

Lemma readi_spec_witness :
  exists f f', readi 0 KernDst 16 100 (calm_state ⊕ f)
    = Ret (32, [5; 0; 105; 110; 105; 116] ++ replicate 26 0) (calm_state ⊕ f').
Proof.
  destruct example_dir_at as (f & [C Hx Hm _ _] & Hi & Hb).
  destruct (readi_spec 1 calm_state f _ ∅ 0 example_inode 16 100 (le_n 1) calm_state_calm C)
    as (f' & l' & E & _); try done.
  - vm_compute. lia.
  - exists f, f'. etransitivity; [exact E|].
    rewrite (file_bytes_ext _ _ _ _ _ (example_view f Hb)). reflexivity.
Defined.

Lemma dirlookup_spec_witness :
  exists f f' t, dirlookup 0 [105; 110; 105; 116; 0] (calm_state ⊕ f)
    = Ret (Some (1%nat, 16)) (calm_state ⊕ f' <| fs_inodes := t |>).
Proof.
  destruct example_dir_at as (f & Hd & Hi & Hb).
  pose proof (dirlookup_spec 1 calm_state f (reverse bufids) ∅ 0 example_inode [105; 110; 105; 116; 0] (le_n 1)
    calm_state_calm) as H.
  rewrite (dir_find_ext _ _ _ _ _ (example_view f Hb)), Hi in H.
  change (dir_find _ (i_addrs example_inode) _ _) with (Some 1%nat) in H. cbv iota in H.
  unfold dir_entry in H. rewrite (file_bytes_ext _ _ _ _ _ (example_view f Hb)) in H.
  match type of H with context [igot ?t ?d ?i] =>
    let r := eval vm_compute in (igot t d i) in change (igot t d i) with r in H
  end. cbv iota beta in H.
  destruct H as (f' & l' & E & _); try done.
  - vm_compute. lia.
  - apply (bool_decide_eq_true_1 _). reflexivity.
  - right. apply list_elem_of_In. simpl. tauto.
  - exists f, f'. eexists. exact E.
Defined.
End example.
