(* ===== verification/FsWrite.v ===== *)
(** * Writing a file inside a transaction

    [writei()] and [iupdate()] of [src/kernel/fs.c] on the content of a file
    ([FsSpec]), in the state between two calls of a transaction of the log. *)

From S2P Require Import Prelude Bytes Params FsTypes Machine Spinlock ProcCore Mem Kstring Pres PresVm Services.
From S2P Require Import Proc FsCore Sleeplock Calm Bio Lru BioSpec Log LogSpec Fs Dir FsSpec.

(** ** An open transaction

    The blocks [hs] of the transaction are pinned in the cache; no other block is in
    use. *)
Record tx (pid ls : Z) (f : fsst) (l : list nat) (A : blocks_in_use) (hs : list Z) : Prop := {
  tx_cache : cache pid f l A ∅;
  tx_log : log_is ls hs (fs_log f);
  tx_open : 0 < log_outstanding (fs_log f);
  tx_range : Forall (fun h => 0 <= h < 2 ^ 31) hs;
  tx_nodup : NoDup hs;
  tx_one bn rc d : A !! bn = Some (rc, d) -> rc = 1;
  tx_dom : dom A = list_to_set hs;
}.

Definition add_block (bn : Z) (hs : list Z) : list Z := if decide (bn ∈ hs) then hs else hs ++ [bn].

Lemma add_block_length bn hs : (length (add_block bn hs) <= S (length hs))%nat.
Proof. unfold add_block. case_decide; [lia|]. rewrite length_app. simpl. lia. Qed.

Lemma same_but_log_refl f : same_but_log f f.
Proof. split; [by destruct f|done]. Qed.

Lemma same_but_log_trans f g h : same_but_log f g -> same_but_log g h -> same_but_log f h.
Proof.
  intros [[S1 H1] O1] [[S2 H2] O2]. split; [|congruence]. split; [by rewrite S2, S1|].
  intros a Ha. rewrite H2 by done. by apply H1.
Qed.

Lemma same_disk_but_log f g : same_disk f g -> same_but_log f g.
Proof.
  intros Hs. pose proof (same_log _ _ Hs) as Hl. split; [|by rewrite Hl]. destruct Hs as [Hs Ho].
  rewrite Hl. split; [|done]. rewrite Hs at 1. by destruct f.
Qed.

Lemma same_but_log_blocks f g : same_but_log f g -> fs_blocks g = fs_blocks f.
Proof. intros [Hs _]. exact (same_blocks _ _ Hs). Qed.

Lemma same_but_log_inodes f g : same_but_log f g -> fs_inodes g = fs_inodes f.
Proof. intros [Hs _]. exact (same_inodes _ _ Hs). Qed.

Lemma same_but_log_sb f g : same_but_log f g -> fs_sb g = fs_sb f.
Proof. intros [[Hs _] _]. by rewrite Hs. Qed.

Lemma tx_same pid ls f f' l l' A hs :
  tx pid ls f l A hs -> same_disk f f' -> cache pid f' l' A ∅ -> tx pid ls f' l' A hs.
Proof. intros [? ? ? ? ? ? ?] Hs Hc. split; rewrite ?(same_log _ _ Hs); done. Qed.

Section tx.
Context {pid ls : Z} {f : fsst} {l : list nat} {A : blocks_in_use} {hs : list Z} (Htx : tx pid ls f l A hs).

Lemma tx_size : size A = length hs.
Proof.
  rewrite <- size_dom, (tx_dom _ _ _ _ _ _ Htx). apply size_list_to_set, Htx.
Qed.

Lemma tx_room : Z.of_nat (length hs) < LOGBLOCKS -> (size A < bhead)%nat.
Proof. rewrite tx_size. unfold bhead, LOGBLOCKS, NBUF. lia. Qed.

Lemma tx_refs bn rc d : A !! bn = Some (rc, d) -> rc < 900.
Proof. intros HA. apply (tx_one _ _ _ _ _ _ Htx) in HA. lia. Qed.

Lemma tx_elem bn : bn ∈ hs <-> is_Some (A !! bn).
Proof. rewrite <- elem_of_dom, (tx_dom _ _ _ _ _ _ Htx). by rewrite elem_of_list_to_set. Qed.

Lemma tx_added f' l' bn d :
  cache pid f' l' (<[bn := (1, d)]> A) ∅ -> log_is ls (add_block bn hs) (fs_log f') ->
  0 < log_outstanding (fs_log f') -> 0 <= bn < 2 ^ 31 ->
  tx pid ls f' l' (<[bn := (1, d)]> A) (add_block bn hs).
Proof.
  intros Hc Hl Ho Hbn. unfold add_block in *. destruct Htx as [_ _ _ Hr Hn H1 Hd]. split; try done.
  - case_decide; [done|]. apply Forall_app. by rewrite Forall_singleton.
  - case_decide; [done|]. apply NoDup_app. split_and!; [done| |apply NoDup_singleton]. set_solver.
  - intros bn' rc d' HA. apply lookup_insert_Some in HA as [[_ [= <- _]]|[_ HA]]; [done|by eapply H1].
  - rewrite dom_insert_L, Hd. case_decide; set_solver.
Qed.
End tx.

(** ** Changing a block *)

Section edit.
Context `{Fuel} (pid : Z) (s : kstate) (Hcalm : calm pid s) (Hfuel : (0 < fuel)%nat) (ls : Z).

(** [bread], [log_write] and [brelse] around a change of the block. *)
Lemma edit_run f l A hs bn :
  tx pid ls f l A hs -> is_Some (fs_blocks f !! bn) -> 0 <= bn < 2 ^ 31 ->
  Z.of_nat (length hs) < LOGBLOCKS ->
  exists b f1, bread ROOTDEV bn (s ⊕ f) = Ret b (s ⊕ f1) /\ same_disk f f1
    /\ get_data b (s ⊕ f1) = Ret (view f A bn) (s ⊕ f1)
    /\ forall d', exists f2 f3 f' l', set_data b d' (s ⊕ f1) = Ret tt (s ⊕ f2)
      /\ log_write b (s ⊕ f2) = Ret tt (s ⊕ f3) /\ brelse b (s ⊕ f3) = Ret tt (s ⊕ f')
      /\ same_but_log f f' /\ tx pid ls f' l' (<[bn := (1, d')]> A) (add_block bn hs).
Proof.
  intros Htx [d Hd] Hbn Hn.
  destruct (bread_run pid s Hcalm Hfuel f l A ∅ bn d) as (b & f1 & E1 & S1 & _ & C1); try done.
  { apply Htx. } { left. by apply (tx_room Htx). } { intros rc d' E. apply (tx_refs Htx) in E. lia. }
  exists b, f1. split_and!; [done|done| |].
  { eapply (get_data_run pid s C1 (rc := (one_more A bn d).1)); [by simplify_map_eq|].
    rewrite lookup_insert_eq. unfold one_more, view. rewrite Hd. by destruct (A !! bn) as [[rc' d']|]. }
  intros d'. set (rc := if decide (bn ∈ hs) then 2 else 1).
  assert (Erc : (one_more A bn d).1 = rc).
  { unfold one_more, rc. case_decide as Hin.
    - apply (tx_elem Htx) in Hin as [[rc' dd] HA]. rewrite HA. by rewrite (tx_one _ _ _ _ _ _ Htx _ _ _ HA).
    - rewrite (tx_elem Htx) in Hin. destruct (A !! bn) as [p|]; [destruct Hin; by eexists|done]. }
  destruct (one_more A bn d) as [rc0 d0]. simpl in Erc. subst rc0.
  destruct (set_data_run pid s Hfuel C1 (b := b) (bn := bn) (rc := rc) (d := d0)) with (d' := d')
    as (f2 & E2 & S2 & C2); [by simplify_map_eq..|]. rewrite insert_insert_eq in C2.
  pose proof (same_log _ _ (same_disk_trans _ _ _ S1 S2)) as Hlg.
  destruct (log_write_run pid Hfuel s Hcalm ls f2 l _ _ hs C2 ltac:(rewrite Hlg; apply Htx) b bn rc d')
    as (f3 & E3 & S3 & Hin & Hout); try done.
  { by simplify_map_eq. } { by simplify_map_eq. } { unfold rc. case_decide; lia. } { apply Htx. }
  { rewrite Hlg. apply Htx. }
  assert (H3 : cache pid f3 l (<[bn := (2, d')]> A) {[b := bn]} /\ log_is ls (add_block bn hs) (fs_log f3)).
  { unfold add_block, rc in *. case_decide as Hi.
    - rewrite (Hin Hi). rewrite Hlg. split; [done|apply Htx].
    - destruct (Hout Hi) as [? C3]. rewrite insert_insert_eq in C3. done. }
  destruct H3 as [C3 L3].
  destruct (brelse_run pid s Hcalm Hfuel C3 (b := b) (bn := bn) (rc := 2) (d := d'))
    as (f4 & l4 & E4 & S4 & _ & C4); [by simplify_map_eq..|lia|lia|].
  exists f2, f3, f4, l4. split_and!; try done.
  - apply (same_but_log_trans _ f1); [by apply same_disk_but_log|].
    apply (same_but_log_trans _ f2); [by apply same_disk_but_log|].
    apply (same_but_log_trans _ f3); [done|by apply same_disk_but_log].
  - change (2 =? 1) with false in C4. cbv iota in C4. rewrite insert_insert_eq in C4.
    change (2 - 1) with 1 in C4. rewrite delete_singleton_eq in C4.
    apply (tx_added Htx); [done|by rewrite (same_log _ _ S4)| |done].
    rewrite (same_log _ _ S4), (proj2 S3), Hlg. apply Htx.
Qed.
End edit.

(** ** The content of a file after a change of one of its blocks *)

Definition upd_block (rd : Z -> list Z) (bn : Z) (d : list Z) (b : Z) : list Z :=
  if decide (b = bn) then d else rd b.

Lemma view_insert f f' A bn d b :
  fs_blocks f' = fs_blocks f -> view f' (<[bn := (1, d)]> A) b = upd_block (view f A) bn d b.
Proof. intros Hb. unfold view, upd_block. rewrite Hb. case_decide; by simplify_map_eq. Qed.

(** The first [cap] bytes of the file are in blocks of their own. *)
Record separate (rd : Z -> list Z) (addrs : list Z) (cap : Z) : Prop := {
  sp_range i : 0 <= i -> i * BSIZE < cap -> 0 <= block_addr rd addrs i < 2 ^ 31;
  sp_inj i j : 0 <= i -> i * BSIZE < cap -> 0 <= j -> j * BSIZE < cap ->
    block_addr rd addrs i = block_addr rd addrs j -> i = j;
  sp_indirect i : 0 <= i -> i * BSIZE < cap -> NDIRECT * BSIZE < cap ->
    block_addr rd addrs i <> default 0 (addrs !! Z.to_nat NDIRECT);
}.

(** [rd'] has the bytes [src] at [off] of the file, and is otherwise as [rd]. *)
Record written (rd rd' : Z -> list Z) (addrs : list Z) (cap off : Z) (src : list Z) : Prop := {
  wr_addr i : 0 <= i -> i * BSIZE < cap -> block_addr rd' addrs i = block_addr rd addrs i;
  wr_byte i : 0 <= i < cap ->
    file_byte rd' addrs i
    = if decide (off <= i < off + Z.of_nat (length src)) then default 0 (src !! Z.to_nat (i - off))
      else file_byte rd addrs i;
  wr_length bn : length (rd' bn) = length (rd bn);
  wr_frame bn : (forall i, 0 <= i -> i * BSIZE < cap -> bn <> block_addr rd addrs i) -> rd' bn = rd bn;
}.

Lemma block_addr_same rd rd' addrs cap i :
  0 <= i -> i * BSIZE < cap ->
  (NDIRECT * BSIZE < cap -> rd' (default 0 (addrs !! Z.to_nat NDIRECT)) = rd (default 0 (addrs !! Z.to_nat NDIRECT))) ->
  block_addr rd' addrs i = block_addr rd addrs i.
Proof.
  intros Hi Hlt He. unfold block_addr. destruct (Z.ltb_spec i NDIRECT); [done|].
  rewrite He; [done|]. change NDIRECT with 12 in *. change BSIZE with 1024 in *. lia.
Qed.

Section content.
Context (addrs : list Z) (cap : Z).

Lemma written_mapped D rd rd' off src :
  mapped D rd addrs cap -> written rd rd' addrs cap off src -> mapped D rd' addrs cap.
Proof.
  intros [H1 H2 H3 H4] [W1 _ W3 _]. split; try done.
  intros fbn H0 Hlt. rewrite W1, W3 by done. auto.
Qed.

Lemma written_separate rd rd' off src :
  separate rd addrs cap -> written rd rd' addrs cap off src -> separate rd' addrs cap.
Proof.
  intros [H1 H2 H3] [W1 _ _ _]. split.
  - intros i Hi Hlt. rewrite W1 by done. auto.
  - intros i j Hi Hli Hj Hlj. rewrite !W1 by done. auto.
  - intros i Hi Hlt Hn. rewrite W1 by done. auto.
Qed.

Lemma written_nil rd off : written rd rd addrs cap off [].
Proof. split; try done. intros i Hi. simpl. rewrite decide_False by lia. done. Qed.

Lemma written_ext rd rd1 rd2 off src :
  written rd rd1 addrs cap off src -> (forall bn, rd2 bn = rd1 bn) -> written rd rd2 addrs cap off src.
Proof.
  intros [W1 W2 W3 W4] He. assert (Ha : forall i, block_addr rd2 addrs i = block_addr rd1 addrs i).
  { intros i. unfold block_addr. by rewrite He. }
  split.
  - intros i Hi Hlt. rewrite Ha. auto.
  - intros i Hi. rewrite <- W2 by done. unfold file_byte. by rewrite Ha, He.
  - intros bn. rewrite He. auto.
  - intros bn Hbn. rewrite He. auto.
Qed.

Lemma written_join rd1 rd2 rd3 off src1 src2 :
  written rd1 rd2 addrs cap off src1 ->
  written rd2 rd3 addrs cap (off + Z.of_nat (length src1)) src2 ->
  written rd1 rd3 addrs cap off (src1 ++ src2).
Proof.
  intros [V1 V2 V3 V4] [W1 W2 W3 W4]. split.
  - intros i Hi Hlt. by rewrite W1, V1.
  - intros i Hi. rewrite W2, V2 by done. rewrite length_app. repeat case_decide; try lia; try done.
    + rewrite lookup_app_r by lia. do 2 f_equal. lia.
    + rewrite lookup_app_l by lia. done.
  - intros bn. by rewrite W3.
  - intros bn Hbn. rewrite W4, V4; [done|done|]. intros i Hi Hlt. rewrite V1 by done. auto.
Qed.

(** A change inside one block. *)
Lemma written_block D rd off src :
  mapped D rd addrs cap -> separate rd addrs cap -> 0 <= off ->
  off + Z.of_nat (length src) <= cap -> src <> [] ->
  off mod BSIZE + Z.of_nat (length src) <= BSIZE ->
  let a := block_addr rd addrs (off / BSIZE) in
  written rd (upd_block rd a (splice (Z.to_nat (off mod BSIZE)) src (rd a))) addrs cap off src.
Proof.
  intros Hm Hs Hoff Hcap Hne Hfit a.
  assert (Hlen : 0 < Z.of_nat (length src)) by (destruct src; [done|simpl; lia]).
  pose proof (Z.mod_pos_bound off BSIZE eq_refl) as Hmod.
  pose proof (Z.div_mod off BSIZE ltac:(done)) as Hdm.
  assert (Hq : 0 <= off / BSIZE) by (apply Z.div_pos; done).
  assert (Hlt : off / BSIZE * BSIZE < cap) by (change BSIZE with 1024 in *; lia).
  destruct (mp_block _ _ _ _ Hm _ Hq Hlt) as (_ & _ & Hla). fold a in Hla.
  assert (Hls : length (splice (Z.to_nat (off mod BSIZE)) src (rd a)) = length (rd a)).
  { apply length_splice. change BSIZE with 1024 in *. lia. }
  set (rd' := upd_block _ _ _).
  assert (Haddr : forall i, 0 <= i -> i * BSIZE < cap -> block_addr rd' addrs i = block_addr rd addrs i).
  { intros i Hi Hl. apply (block_addr_same _ _ _ cap); [done..|]. intros Hn. unfold rd', upd_block.
    rewrite decide_False; [done|]. intros E. by eapply (sp_indirect _ _ _ Hs (off / BSIZE)). }
  split; [done| | |].
  - intros i Hi. pose proof (Z.mod_pos_bound i BSIZE eq_refl) as Hmi.
    pose proof (Z.div_mod i BSIZE ltac:(done)) as Hdi.
    assert (Hqi : 0 <= i / BSIZE) by (apply Z.div_pos; lia || done).
    assert (Hli : i / BSIZE * BSIZE < cap) by (change BSIZE with 1024 in *; lia).
    unfold file_byte. rewrite Haddr by done. unfold rd', upd_block. case_decide as Ea.
    + apply (sp_inj _ _ _ Hs) in Ea; [|done..]. fold a. rewrite Ea. fold a.
      rewrite lookup_splice by (change BSIZE with 1024 in *; lia).
      destruct (decide (off <= i < off + Z.of_nat (length src))) as [Hin|Hin].
      * rewrite decide_True by (change BSIZE with 1024 in *; lia). do 2 f_equal.
        change BSIZE with 1024 in *. lia.
      * rewrite decide_False; [done|]. change BSIZE with 1024 in *. lia.
    + rewrite decide_False; [done|]. intros Hin. apply Ea. unfold a. f_equal.
      change BSIZE with 1024 in *. lia.
  - intros bn. unfold rd', upd_block. case_decide; [by subst|done].
  - intros bn Hbn. unfold rd', upd_block. rewrite decide_False; [done|]. by apply Hbn.
Qed.
End content.

(** ** The loop of writei() *)

Section writei.
Context `{Fuel} (pid : Z) (s : kstate) (Hcalm : calm pid s) (Hfuel : (0 < fuel)%nat) (ls : Z).
Context (ip : nat) (x : inode) (Hdev : i_dev x = ROOTDEV) (cap : Z).

(** A transaction with the inode [x] in entry [ip] of the table, and [cap] bytes of
    allocated blocks. *)
Record writing (f : fsst) (l : list nat) (A : blocks_in_use) (hs : list Z) : Prop := {
  wg_tx : tx pid ls f l A hs;
  wg_inode : fs_inodes f !! ip = Some x;
  wg_mapped : mapped (fs_blocks f) (view f A) (i_addrs x) cap;
  wg_separate : separate (view f A) (i_addrs x) cap;
}.

Lemma either_copyin_kern f bytes len :
  len <= Z.of_nat (length bytes) ->
  either_copyin (KernSrc bytes) len (s ⊕ f) = Ret (0, take (Z.to_nat len) bytes) (s ⊕ f).
Proof using Hcalm.
  intros Hlen. unfold either_copyin, bind. rewrite (kok_myproc 0) by eauto with xv6. simpl.
  rewrite (proj2 (Z.ltb_ge _ _)) by done. unfold ret. f_equal.
  pose proof (quiet_settled _ _ _ (calm_quiet _ _ Hcalm)) as E. unfold ksync. simpl.
  rewrite E. by destruct s.
Qed.

(** The blocks that [rem] bytes from [off] on are in. *)
Definition rounds (off rem : Z) : Z := (off mod BSIZE + rem + (BSIZE - 1)) / BSIZE.

Lemma rounds_pos off rem : 0 < rem -> 1 <= rounds off rem.
Proof using Type.
  clear. intros Hr. unfold rounds. change BSIZE with 1024. Z.to_euclidean_division_equations. lia.
Qed.

Lemma rounds_next off rem :
  BSIZE - off mod BSIZE < rem ->
  rounds off rem = 1 + rounds (off + (BSIZE - off mod BSIZE)) (rem - (BSIZE - off mod BSIZE)).
Proof using Type.
  clear. intros Hr. unfold rounds. change BSIZE with 1024 in *. Z.to_euclidean_division_equations. lia.
Qed.

Lemma rounds_bound off n : 0 <= n -> rounds off n <= n / BSIZE + 2.
Proof using Type.
  clear. intros Hn. unfold rounds. change BSIZE with 1024. Z.to_euclidean_division_equations. lia.
Qed.

Lemma writing_next f f' l' A hs' bn d off src :
  fs_inodes f !! ip = Some x -> mapped (fs_blocks f) (view f A) (i_addrs x) cap ->
  separate (view f A) (i_addrs x) cap -> same_but_log f f' ->
  tx pid ls f' l' (<[bn := (1, d)]> A) hs' ->
  written (view f A) (upd_block (view f A) bn d) (i_addrs x) cap off src ->
  written (view f A) (view f' (<[bn := (1, d)]> A)) (i_addrs x) cap off src
  /\ writing f' l' (<[bn := (1, d)]> A) hs'.
Proof using Type.
  clear Hfuel Hcalm Hdev. intros Hx Hm Hs Hsame Htx Hw.
  assert (W : written (view f A) (view f' (<[bn := (1, d)]> A)) (i_addrs x) cap off src).
  { eapply written_ext; [exact Hw|]. intros b. apply view_insert. by apply same_but_log_blocks. }
  split; [done|]. split; [done| | |].
  - by rewrite (same_but_log_inodes _ _ Hsame).
  - rewrite (same_but_log_blocks _ _ Hsame). by eapply written_mapped.
  - by eapply written_separate.
Qed.

(** One round. *)
Lemma writei_round f l A hs k off n tot src :
  writing f l A hs -> 0 <= off -> tot < n -> off + (n - tot) <= cap ->
  n - tot <= Z.of_nat (length src) -> Z.of_nat (length hs) < LOGBLOCKS ->
  let m := Z.min (n - tot) (BSIZE - off mod BSIZE) in
  exists f' l' A' hs', writei_loop (S k) ip (KernSrc src) off n tot (s ⊕ f)
    = writei_loop k ip (KernSrc (drop (Z.to_nat m) src)) (off + m) n (tot + m) (s ⊕ f')
    /\ same_but_log f f' /\ writing f' l' A' hs' /\ (length hs' <= S (length hs))%nat
    /\ written (view f A) (view f' A') (i_addrs x) cap off (take (Z.to_nat m) src).
Proof using Hcalm Hfuel Hdev.
  intros [Htx Hx Hm Hs] Hoff Htot Hcap Hsrc Hn m.
  pose proof (mp_size _ _ _ _ Hm) as Hmax. change (MAXFILE * BSIZE) with 274432 in Hmax.
  pose proof (Z.mod_pos_bound off BSIZE eq_refl) as Hmod.
  pose proof (Z.div_mod off BSIZE ltac:(done)) as Hdm.
  assert (Hq : 0 <= off / BSIZE) by (apply Z.div_pos; done).
  assert (Hm0 : 0 < m <= Z.of_nat (length src)) by (unfold m; change BSIZE with 1024 in *; lia).
  assert (Hlt : off / BSIZE * BSIZE < cap) by (change BSIZE with 1024 in *; lia).
  cbn [writei_loop]. rewrite (proj2 (Z.ltb_lt _ _)) by done.
  destruct (bmap_run pid s Hcalm Hfuel A (tx_room Htx Hn) (fun bn rc d => tx_refs Htx bn rc d) ip x Hdev
    f l cap (off / BSIZE)) as (f1 & l1 & E1 & S1 & C1); [apply Htx|done..|].
  rewrite (bind_Ret _ _ _ _ _ E1). destruct (mp_block _ _ _ _ Hm _ Hq Hlt) as (Hz & Hb & Hla).
  set (a := block_addr (view f A) (i_addrs x) (off / BSIZE)) in *.
  rewrite (proj2 (Z.eqb_neq a 0)) by done.
  erewrite bind_Ret by (apply get_inode_run; by rewrite (same_inodes _ _ S1)).
  destruct (edit_run pid s Hcalm Hfuel ls f1 l1 A hs a) as (b & f2 & E2 & S2 & Ed & Hed);
    [by eapply tx_same|by rewrite (same_blocks _ _ S1)|by apply Hs|done|].
  rewrite Hdev, (bind_Ret _ _ _ _ _ E2). fold m.
  erewrite bind_Ret by (apply either_copyin_kern; lia). cbv beta iota.
  rewrite (bind_Ret _ _ _ _ _ Ed), (same_view A _ _ S1).
  set (d' := splice _ _ _). destruct (Hed d') as (f3 & f4 & f5 & l5 & E3 & E4 & E5 & S5 & Htx5).
  rewrite (bind_Ret _ _ _ _ _ E3). change (0 =? -1) with false. cbv iota.
  rewrite (bind_Ret _ _ _ _ _ E4), (bind_Ret _ _ _ _ _ E5).
  rewrite u32_small by (unfold m; change BSIZE with 1024 in *; lia).
  assert (S15 : same_but_log f f5) by (eapply same_but_log_trans; [by apply same_disk_but_log|done]).
  assert (Hlen : Z.of_nat (length (take (Z.to_nat m) src)) = m) by (rewrite length_take; lia).
  destruct (writing_next f f5 l5 A (add_block a hs) a d' off (take (Z.to_nat m) src)) as [W Hw]; try done.
  { apply (written_block _ _ (fs_blocks f)); try done; [lia| |].
    - intros E. rewrite E in Hlen. simpl in Hlen. lia.
    - rewrite Hlen. unfold m. lia. }
  exists f5, l5, (<[a := (1, d')]> A), (add_block a hs). split_and!; try done. apply add_block_length.
Qed.

Lemma writei_loop_run k f l A hs off n tot src :
  writing f l A hs -> 0 <= off -> tot <= n -> off + (n - tot) <= cap ->
  n - tot <= Z.of_nat (length src) -> (0 < k)%nat ->
  (tot < n -> rounds off (n - tot) < Z.of_nat k) ->
  (tot < n -> Z.of_nat (length hs) + rounds off (n - tot) <= LOGBLOCKS) ->
  exists f' l' A' hs', writei_loop k ip (KernSrc src) off n tot (s ⊕ f)
    = Ret (n, off + (n - tot)) (s ⊕ f')
    /\ same_but_log f f' /\ writing f' l' A' hs'
    /\ Z.of_nat (length hs') <= Z.of_nat (length hs) + (if tot <? n then rounds off (n - tot) else 0)
    /\ written (view f A) (view f' A') (i_addrs x) cap off (take (Z.to_nat (n - tot)) src).
Proof using Hcalm Hfuel Hdev.
  revert f l A hs off tot src.
  induction k as [|k IH]; intros f l A hs off tot src Hw Hoff Htot Hcap Hsrc Hk0 Hk Hlog; [lia|].
  destruct (Z.ltb_spec tot n) as [Hlt|Hge].
  - specialize (Hk Hlt). specialize (Hlog Hlt). pose proof (rounds_pos off (n - tot) ltac:(lia)) as Hp.
    pose proof (Z.mod_pos_bound off BSIZE eq_refl) as Hmod.
    destruct (writei_round f l A hs k off n tot src Hw) as (f1 & l1 & A1 & hs1 & -> & S1 & Hw1 & Hl1 & W1);
      try done; [lia|].
    set (m := Z.min (n - tot) (BSIZE - off mod BSIZE)) in *.
    assert (Hm0 : 0 < m <= n - tot) by lia.
    assert (Hr : tot + m < n -> rounds off (n - tot) = 1 + rounds (off + m) (n - (tot + m))).
    { intros Hn. assert (E : m = BSIZE - off mod BSIZE) by lia. rewrite E, rounds_next by lia.
      do 2 f_equal. lia. }
    destruct (IH f1 l1 A1 hs1 (off + m) (tot + m) (drop (Z.to_nat m) src))
      as (f2 & l2 & A2 & hs2 & E & S2 & Hw2 & Hl2 & W2); try done; try lia.
    + rewrite length_drop. lia.
    + exists f2, l2, A2, hs2. split_and!; [|by eapply same_but_log_trans|done| |].
      * rewrite E. do 2 f_equal. lia.
      * destruct (Z.ltb_spec (tot + m) n) as [Hn|Hn].
        -- specialize (Hr Hn). lia.
        -- lia.
      * assert (Hl : Z.of_nat (length (take (Z.to_nat m) src)) = m) by (rewrite length_take; lia).
        replace (take (Z.to_nat (n - tot)) src)
          with (take (Z.to_nat m) src ++ take (Z.to_nat (n - (tot + m))) (drop (Z.to_nat m) src)).
        -- eapply written_join; [exact W1|]. by rewrite Hl.
        -- rewrite take_drop_commute. rewrite <- (take_drop (Z.to_nat m) (take (Z.to_nat (n - tot)) src)).
           rewrite take_take. repeat f_equal; lia.
  - assert (tot = n) as -> by lia. cbn [writei_loop]. rewrite Z.ltb_irrefl, Z.sub_diag, Z.add_0_r.
    exists f, l, A, hs. split_and!; [done|apply same_but_log_refl|done|lia|]. apply written_nil.
Qed.
End writei.

(** ** An inode on the disk *)

Definition dinode_ok (d : dinode) : Prop :=
  (forall v, v ∈ [di_type d; di_major d; di_minor d; di_nlink d] -> - 2 ^ 15 <= v < 2 ^ 15)
  /\ 0 <= di_size d < 2 ^ 32 /\ Z.of_nat (length (di_addrs d)) = NDIRECT + 1
  /\ Forall (fun a => 0 <= a < 2 ^ 32) (di_addrs d).

Lemma s16_mod v : - 2 ^ 15 <= v < 2 ^ 15 -> s16 (v mod 256 ^ Z.of_nat 2) = v.
Proof.
  intros Hv. unfold s16. change (256 ^ Z.of_nat 2) with (2 ^ 16).
  Z.to_euclidean_division_equations. lia.
Qed.

Lemma put_dinode_spec o d l :
  0 <= o -> dinode_ok d -> o + sizeof_dinode <= Z.of_nat (length l) ->
  length (put_dinode o d l) = length l /\ dinode_at o (put_dinode o d l) = d
  /\ forall n' off', 0 <= off' -> off' + Z.of_nat n' <= o \/ o + sizeof_dinode <= off' ->
       le_at n' off' (put_dinode o d l) = le_at n' off' l.
Proof.
  intros Ho (Hs & Hsz & Ha & Hu) Hl. change sizeof_dinode with 64 in *. change (NDIRECT + 1) with 13 in Ha.
  unfold put_dinode.
  set (l1 := put_le 2 o (di_type d) l). set (l2 := put_le 2 (o + 2) (di_major d) l1).
  set (l3 := put_le 2 (o + 4) (di_minor d) l2). set (l4 := put_le 2 (o + 6) (di_nlink d) l3).
  set (l5 := put_le 4 (o + 8) (di_size d) l4). set (l6 := put_uints (o + 12) (di_addrs d) l5).
  assert (L1 : length l1 = length l) by (apply length_put_le; lia).
  assert (L2 : length l2 = length l) by (rewrite <- L1; apply length_put_le; lia).
  assert (L3 : length l3 = length l) by (rewrite <- L2; apply length_put_le; lia).
  assert (L4 : length l4 = length l) by (rewrite <- L3; apply length_put_le; lia).
  assert (L5 : length l5 = length l) by (rewrite <- L4; apply length_put_le; lia).
  assert (N6 : forall n' off', 0 <= off' -> off' + Z.of_nat n' <= o + 12 \/ o + 64 <= off' ->
    le_at n' off' l6 = le_at n' off' l5) by (intros; apply le_at_put_uints_ne; lia).
  split; [rewrite <- L5; apply length_put_uints; lia|]. split.
  - assert (F1 : le_at 2 o l5 = di_type d mod 256 ^ Z.of_nat 2).
    { do 4 (etransitivity; [apply le_at_put_le_ne; lia|]). apply le_at_put_le_eq. lia. }
    assert (F2 : le_at 2 (o + 2) l5 = di_major d mod 256 ^ Z.of_nat 2).
    { do 3 (etransitivity; [apply le_at_put_le_ne; lia|]). apply le_at_put_le_eq. lia. }
    assert (F3 : le_at 2 (o + 4) l5 = di_minor d mod 256 ^ Z.of_nat 2).
    { do 2 (etransitivity; [apply le_at_put_le_ne; lia|]). apply le_at_put_le_eq. lia. }
    assert (F4 : le_at 2 (o + 6) l5 = di_nlink d mod 256 ^ Z.of_nat 2).
    { etransitivity; [apply le_at_put_le_ne; lia|]. apply le_at_put_le_eq. lia. }
    assert (F5 : le_at 4 (o + 8) l5 = di_size d mod 256 ^ Z.of_nat 4) by (apply le_at_put_le_eq; lia).
    unfold dinode_at. rewrite !N6, F1, F2, F3, F4, F5 by lia. unfold l6.
    replace (Z.to_nat (NDIRECT + 1)) with (length (di_addrs d)) by (change (NDIRECT + 1) with 13; lia).
    rewrite uints_at_put_uints by lia.
    rewrite !s16_mod by (apply Hs; set_solver). rewrite Z.mod_small by lia.
    replace (u32 <$> di_addrs d) with (di_addrs d); [by destruct d|].
    symmetry. rewrite <- (list_fmap_id (di_addrs d)) at 2. apply list_fmap_ext. intros i a Hi.
    apply u32_small. by eapply Forall_lookup_1 in Hu.
  - intros n' off' H0 Hd. rewrite N6 by lia. do 5 (etransitivity; [apply le_at_put_le_ne; lia|]). done.
Qed.

(** The other slots of the block keep their inodes. *)
Lemma put_dinode_others i j d l :
  0 <= i -> 0 <= j -> j mod IPB <> i mod IPB -> dinode_ok d -> Z.of_nat (length l) = BSIZE ->
  dinode_at (dinode_off j) (put_dinode (dinode_off i) d l) = dinode_at (dinode_off j) l.
Proof.
  intros Hi Hj Hne Hd Hl. change BSIZE with 1024 in Hl. unfold dinode_off in *.
  change IPB with 16 in *. change sizeof_dinode with 64 in *.
  assert (0 <= i mod 16 < 16 /\ 0 <= j mod 16 < 16) as [? ?] by (split; apply Z.mod_pos_bound; lia).
  destruct (put_dinode_spec (i mod 16 * 64) d l) as (_ & _ & Hk); [lia|done|change sizeof_dinode with 64; lia|].
  change sizeof_dinode with 64 in Hk. unfold dinode_at. rewrite !Hk by lia. f_equal.
  apply list_fmap_ext. intros k c Hc. apply lookup_seq in Hc as [-> Hc]. change (Z.to_nat (NDIRECT + 1)) with 13%nat in Hc.
  apply Hk; lia.
Qed.

(** ** iupdate() and writei() *)

(** A block that the first [cap] bytes of the file do not depend on. *)
Definition outside (rd : Z -> list Z) (addrs : list Z) (cap bn : Z) : Prop :=
  (forall i, 0 <= i -> i * BSIZE < cap -> bn <> block_addr rd addrs i)
  /\ (NDIRECT * BSIZE < cap -> bn <> default 0 (addrs !! Z.to_nat NDIRECT)).

Lemma outside_same D rd rd' addrs cap :
  mapped D rd addrs cap -> (forall bn, ~ outside rd addrs cap bn -> rd' bn = rd bn) ->
  mapped D rd' addrs cap /\ forall i, 0 <= i < cap -> file_byte rd' addrs i = file_byte rd addrs i.
Proof.
  intros [M1 M2 M3 M4] Hsame.
  assert (Ha : forall i, 0 <= i -> i * BSIZE < cap -> block_addr rd' addrs i = block_addr rd addrs i).
  { intros i Hi Hlt. apply (block_addr_same _ _ _ cap); [done..|]. intros Hn. apply Hsame.
    intros [_ Ho]. by apply Ho. }
  assert (Hb : forall i, 0 <= i -> i * BSIZE < cap ->
    rd' (block_addr rd addrs i) = rd (block_addr rd addrs i)).
  { intros i Hi Hlt. apply Hsame. intros [Ho _]. by eapply Ho. }
  split.
  - split; try done. intros fbn H0 Hlt. rewrite Ha, Hb by done. auto.
  - intros i Hi. unfold file_byte.
    assert (0 <= i / BSIZE /\ i / BSIZE * BSIZE < cap) as [? ?].
    { change BSIZE with 1024. Z.to_euclidean_division_equations. lia. }
    by rewrite Ha, Hb.
Qed.

Lemma tx_inodes pid ls f l A hs t :
  tx pid ls f l A hs -> tx pid ls (f <| fs_inodes := t |>) l A hs.
Proof. intros [? ? ? ? ? ? ?]. split; try done. by apply cache_inodes. Qed.

(** The inode after a write that ends at [e]. *)
Definition grown (e : Z) (x : inode) : inode := if i_size x <? e then x <| i_size := e |> else x.

Section iupdate.
Context `{Fuel} (pid : Z) (s : kstate) (Hcalm : calm pid s) (Hfuel : (0 < fuel)%nat) (ls : Z).
Context (ip : nat).

Lemma iupdate_run f l A hs x :
  tx pid ls f l A hs -> fs_inodes f !! ip = Some x -> i_dev x = ROOTDEV ->
  let ib := IBLOCK (i_inum x) (fs_sb f) in
  is_Some (fs_blocks f !! ib) -> 0 <= ib < 2 ^ 31 -> Z.of_nat (length hs) < LOGBLOCKS ->
  exists f' l', iupdate ip (s ⊕ f) = Ret tt (s ⊕ f') /\ same_but_log f f'
    /\ tx pid ls f' l' (<[ib := (1, put_dinode (dinode_off (i_inum x)) (dinode_of x) (view f A ib))]> A)
         (add_block ib hs).
Proof.
  intros Htx Hx Hdev ib Hb Hr Hn. unfold iupdate. erewrite bind_Ret by by apply get_inode_run.
  rewrite (bind_Ret get_sb _ _ (fs_sb f) (s ⊕ f)) by done. fold ib.
  destruct (edit_run pid s Hcalm Hfuel ls f l A hs ib Htx Hb Hr Hn) as (b & f1 & E1 & S1 & Ed & Hed).
  rewrite Hdev, (bind_Ret _ _ _ _ _ E1), (bind_Ret _ _ _ _ _ Ed).
  edestruct Hed as (f2 & f3 & f4 & l4 & E2 & E3 & E4 & S4 & Htx4).
  rewrite (bind_Ret _ _ _ _ _ E2), (bind_Ret _ _ _ _ _ E3). exists f4, l4. done.
Qed.

(** What [writei] of [src] at [off] makes of the file: the bytes, the size, the inode
    on the disk, and nothing else, neither the other inodes of the inode's block nor
    any other block. *)
Record file_written (f : fsst) (A : blocks_in_use) (x : inode) (cap off : Z) (src : list Z)
    (f' : fsst) (A' : blocks_in_use) : Prop := {
  fw_inode : fs_inodes f' = <[ip := grown (off + Z.of_nat (length src)) x]> (fs_inodes f);
  fw_disk : fs_blocks f' = fs_blocks f /\ fs_sb f' = fs_sb f;
  fw_mapped : mapped (fs_blocks f') (view f' A') (i_addrs x) cap;
  fw_byte i : 0 <= i < cap ->
    file_byte (view f' A') (i_addrs x) i
    = if decide (off <= i < off + Z.of_nat (length src)) then default 0 (src !! Z.to_nat (i - off))
      else file_byte (view f A) (i_addrs x) i;
  fw_dinode : dinode_at (dinode_off (i_inum x)) (view f' A' (IBLOCK (i_inum x) (fs_sb f)))
    = dinode_of (grown (off + Z.of_nat (length src)) x);
  fw_others j : 0 <= j -> j mod IPB <> i_inum x mod IPB ->
    dinode_at (dinode_off j) (view f' A' (IBLOCK (i_inum x) (fs_sb f)))
    = dinode_at (dinode_off j) (view f A (IBLOCK (i_inum x) (fs_sb f)));
  fw_frame bn : outside (view f A) (i_addrs x) cap bn -> bn <> IBLOCK (i_inum x) (fs_sb f) ->
    view f' A' bn = view f A bn;
}.

(** The block of the inode, and the inode, are as on a file system. *)
Record inode_ok (f : fsst) (A : blocks_in_use) (x : inode) (cap : Z) : Prop := {
  io_dev : i_dev x = ROOTDEV;
  io_inum : 0 <= i_inum x;
  io_size : 0 <= i_size x <= cap;
  io_dinode : dinode_ok (dinode_of x);
  io_block : is_Some (fs_blocks f !! IBLOCK (i_inum x) (fs_sb f));
  io_range : 0 <= IBLOCK (i_inum x) (fs_sb f) < 2 ^ 31;
  io_length : Z.of_nat (length (view f A (IBLOCK (i_inum x) (fs_sb f)))) = BSIZE;
  io_outside : outside (view f A) (i_addrs x) cap (IBLOCK (i_inum x) (fs_sb f));
}.

Lemma grown_addrs e x : i_addrs (grown e x) = i_addrs x /\ i_inum (grown e x) = i_inum x
  /\ i_dev (grown e x) = i_dev x /\ i_size (grown e x) = Z.max (i_size x) e.
Proof using Type.
  clear. unfold grown. destruct (Z.ltb_spec (i_size x) e); destruct x; simpl in *; split_and!; try done; lia.
Qed.

Lemma grown_dinode e x cap :
  dinode_ok (dinode_of x) -> e <= cap -> cap <= MAXFILE * BSIZE -> 0 <= i_size x ->
  dinode_ok (dinode_of (grown e x)).
Proof using Type.
  clear. intros (H1 & H2 & H3 & H4) He Hc H0. change (MAXFILE * BSIZE) with 274432 in Hc.
  unfold grown. destruct (Z.ltb_spec (i_size x) e); [|done]. destruct x; simpl in *.
  split; [done|]. split; [|done]. simpl. lia.
Qed.

Lemma dinode_off_fits inum : 0 <= inum -> 0 <= dinode_off inum /\ dinode_off inum + sizeof_dinode <= BSIZE.
Proof using Type.
  clear. intros Hi. unfold dinode_off. change IPB with 16. change sizeof_dinode with 64. change BSIZE with 1024.
  Z.to_euclidean_division_equations. lia.
Qed.

(** [ip->size = off], if the file grew. *)
Lemma isize_grow_run f x e :
  fs_inodes f !! ip = Some x ->
  when (i_size x <? e) (upd_inode ip (fun x => x <| i_size := e |>)) (s ⊕ f)
  = Ret tt (s ⊕ f <| fs_inodes := <[ip := grown e x]> (fs_inodes f) |>).
Proof using Type.
  intros Hx. unfold grown. destruct (i_size x <? e); simpl.
  - rewrite (upd_inode_run _ _ _ _ _ Hx), (alter_insert _ _ _ _ Hx). done.
  - rewrite list_insert_id by done. by destruct f.
Qed.

(** The content after the inode is written back to its block. *)
Lemma iupdate_content f A x cap off src f1 A1 f3 :
  fs_inodes f !! ip = Some x -> mapped (fs_blocks f) (view f A) (i_addrs x) cap -> inode_ok f A x cap ->
  off + Z.of_nat (length src) <= cap -> same_but_log f f1 ->
  written (view f A) (view f1 A1) (i_addrs x) cap off src ->
  let y := grown (off + Z.of_nat (length src)) x in
  let ib := IBLOCK (i_inum x) (fs_sb f) in
  same_but_log (f1 <| fs_inodes := <[ip := y]> (fs_inodes f1) |>) f3 ->
  file_written f A x cap off src f3
    (<[ib := (1, put_dinode (dinode_off (i_inum x)) (dinode_of y) (view f1 A1 ib))]> A1).
Proof using Type.
  clear Hcalm Hfuel. intros Hx Hm Hok He S1 W y ib S3.
  pose proof (same_but_log_blocks _ _ S3) as B3. simpl in B3.
  pose proof (same_but_log_blocks _ _ S1) as B1.
  assert (Hv : forall bn, view f3 (<[ib := (1, put_dinode (dinode_off (i_inum x)) (dinode_of y) (view f1 A1 ib))]> A1) bn
    = upd_block (view f1 A1) ib (put_dinode (dinode_off (i_inum x)) (dinode_of y) (view f1 A1 ib)) bn).
  { intros bn. by apply view_insert. }
  set (rd3 := view f3 _) in *.
  assert (Hout : outside (view f1 A1) (i_addrs x) cap ib).
  { destruct (io_outside _ _ _ _ Hok) as [O1 O2]. split; [|done]. intros i Hi Hlt.
    rewrite (wr_addr _ _ _ _ _ _ W) by done. by apply O1. }
  destruct (outside_same (fs_blocks f) (view f1 A1) rd3 (i_addrs x) cap) as [Hm3 Hb3].
  { by eapply written_mapped. }
  { intros bn Hbn. rewrite Hv. unfold upd_block. rewrite decide_False; [done|]. by intros ->. }
  split.
  - rewrite (same_but_log_inodes _ _ S3). simpl. by rewrite (same_but_log_inodes _ _ S1).
  - split; [congruence|]. rewrite (same_but_log_sb _ _ S3). simpl. apply (same_but_log_sb _ _ S1).
  - rewrite B3, B1. exact Hm3.
  - intros i Hi. rewrite Hb3 by done. apply (wr_byte _ _ _ _ _ _ W i Hi).
  - fold ib. fold rd3. rewrite Hv. unfold upd_block. rewrite decide_True by done.
    destruct (dinode_off_fits (i_inum x) (io_inum _ _ _ _ Hok)) as [? ?].
    apply put_dinode_spec; [done| |].
    + eapply grown_dinode; [apply Hok|exact He|apply Hm|apply Hok].
    + rewrite (wr_length _ _ _ _ _ _ W). fold ib in Hok. pose proof (io_length _ _ _ _ Hok). unfold ib. lia.
  - intros j Hj Hne. fold ib. fold rd3. rewrite Hv. unfold upd_block. rewrite decide_True by done.
    rewrite put_dinode_others; [|apply Hok|done|done|eapply grown_dinode; [apply Hok|exact He|apply Hm|apply Hok]|].
    + by rewrite (wr_frame _ _ _ _ _ _ W ib) by apply (io_outside _ _ _ _ Hok).
    + rewrite (wr_length _ _ _ _ _ _ W). apply Hok.
  - intros bn Ho Hne. fold rd3. rewrite Hv. unfold upd_block. rewrite decide_False by done.
    apply (wr_frame _ _ _ _ _ _ W). apply Ho.
Qed.

Lemma writei_run f l A hs x cap off src :
  tx pid ls f l A hs -> fs_inodes f !! ip = Some x ->
  mapped (fs_blocks f) (view f A) (i_addrs x) cap -> separate (view f A) (i_addrs x) cap ->
  inode_ok f A x cap -> 0 <= off <= i_size x -> off + Z.of_nat (length src) <= cap ->
  Z.of_nat (length hs) + Z.of_nat (length src) / BSIZE + 3 <= LOGBLOCKS ->
  exists f' l' A' hs', writei ip (KernSrc src) off (Z.of_nat (length src)) (s ⊕ f)
    = Ret (Z.of_nat (length src)) (s ⊕ f')
    /\ tx pid ls f' l' A' hs'
    /\ Z.of_nat (length hs') <= Z.of_nat (length hs) + Z.of_nat (length src) / BSIZE + 3
    /\ file_written f A x cap off src f' A'.
Proof.
  intros Htx Hx Hm Hs Hok Hoff Hcap Hlog. set (n := Z.of_nat (length src)) in *.
  pose proof (mp_size _ _ _ _ Hm) as Hmax. change (MAXFILE * BSIZE) with 274432 in Hmax.
  assert (Hn : 0 <= n) by lia. pose proof (rounds_bound off n Hn) as Hrb.
  assert (Hq : 0 <= n / BSIZE) by (apply Z.div_pos; done).
  unfold writei. rewrite !(u32_small n) by lia. erewrite bind_Ret by by apply get_inode_run.
  rewrite u32_small by lia. change (MAXFILE * BSIZE) with 274432.
  rewrite (proj2 (Z.ltb_ge (i_size x) off)), (proj2 (Z.ltb_ge (off + n) off)), (proj2 (Z.ltb_ge 274432 _)) by lia.
  cbn [orb].
  destruct (writei_loop_run pid s Hcalm Hfuel ls ip x (io_dev _ _ _ _ Hok) cap (Z.to_nat (n / BSIZE) + 3)
    f l A hs off n 0 src) as (f1 & l1 & A1 & hs1 & E1 & S1 & [Htx1 Hx1 Hm1 Hs1] & Hl1 & W1);
    try done; try lia.
  { rewrite Z.sub_0_r. lia. } { rewrite Z.sub_0_r. lia. }
  rewrite Z.sub_0_r in *. rewrite (bind_Ret _ _ _ _ _ E1).
  assert (Hl1' : Z.of_nat (length hs1) <= Z.of_nat (length hs) + n / BSIZE + 2).
  { destruct (0 <? n); lia. }
  replace (take (Z.to_nat n) src) with src in W1 by (symmetry; apply take_ge; lia).
  erewrite bind_Ret by by apply get_inode_run. rewrite (bind_Ret _ _ _ _ _ (isize_grow_run f1 x (off + n) Hx1)).
  set (y := grown (off + n) x). set (f2 := f1 <| fs_inodes := _ |>).
  assert (Hy : fs_inodes f2 !! ip = Some y) by (apply list_lookup_insert_eq; by eapply lookup_lt_Some).
  destruct (grown_addrs (off + n) x) as (Ya & Yi & Yd & _). fold y in Ya, Yi, Yd.
  assert (Hsb : fs_sb f2 = fs_sb f) by apply (same_but_log_sb _ _ S1).
  destruct (iupdate_run f2 l1 A1 hs1 y) as (f3 & l3 & E3 & S3 & Htx3).
  { by apply tx_inodes. } { done. } { rewrite Yd. apply Hok. }
  { rewrite Yi, Hsb. unfold f2. simpl. rewrite (same_but_log_blocks _ _ S1). apply Hok. }
  { rewrite Yi, Hsb. apply Hok. } { lia. }
  rewrite (bind_Ret _ _ _ _ _ E3). rewrite Yi, Hsb in Htx3.
  exists f3, l3. eexists _, _. split_and!; [|exact Htx3| |].
  - rewrite s32_small by lia. done.
  - pose proof (add_block_length (IBLOCK (i_inum x) (fs_sb f)) hs1). lia.
  - apply (iupdate_content f A x cap off src f1 A1 f3); try done.
Qed.

(** The tests at the start of [writei]. *)
Lemma writei_refused f x src off n :
  fs_inodes f !! ip = Some x -> 0 <= off < 2 ^ 32 -> 0 <= n < 2 ^ 32 ->
  i_size x < off \/ MAXFILE * BSIZE < off + n -> writei ip src off n (s ⊕ f) = Ret (-1) (s ⊕ f).
Proof using Type.
  clear Hcalm Hfuel. intros Hx Hoff Hn Hbad. unfold writei. rewrite (u32_small n) by done.
  erewrite bind_Ret by by apply get_inode_run. change (MAXFILE * BSIZE) with 274432 in *.
  destruct (Z.ltb_spec (i_size x) off) as [|Hsz]; [done|].
  destruct (Z.ltb_spec (u32 (off + n)) off) as [|Hw]; [done|]. cbn [orb].
  rewrite (proj2 (Z.ltb_lt _ _)); [done|]. unfold u32 in *. Z.to_euclidean_division_equations. lia.
Qed.
End iupdate.

Lemma mapped_mono D rd addrs cap cap' : mapped D rd addrs cap -> cap' <= cap -> mapped D rd addrs cap'.
Proof.
  intros [M1 M2 M3 M4] Hle. split; [lia|done| |].
  - intros fbn H0 Hlt. apply M3; lia.
  - intros a Hlt. apply M4. lia.
Qed.

(** C6. [writei(ip, 0, src, off, n)] inside a transaction. With [off] in the file and
    [off + n] in its allocated part, it returns [n]; the file then has the bytes [src]
    at [off] and its old bytes elsewhere; its size is the larger of the old one and
    [off + n]; the inode in its block on the disk agrees with the one in memory; the
    other inodes of that block are as before, and so is every block that belongs
    neither to the file nor to its inode. All changes are in the transaction, at most
    [n / BSIZE + 3] blocks of it. With [off] beyond the size, or an end beyond the
    largest file (also where [off + n] overflows 32 bits), it returns -1 and nothing
    changes, whatever the source. *)
Theorem writei_spec `{Fuel} pid s ls ip f l A hs x cap off :
  (0 < fuel)%nat -> calm pid s -> tx pid ls f l A hs -> fs_inodes f !! ip = Some x ->
  mapped (fs_blocks f) (view f A) (i_addrs x) cap -> separate (view f A) (i_addrs x) cap ->
  inode_ok f A x cap -> 0 <= off < 2 ^ 32 ->
  (forall src, let n := Z.of_nat (length src) in
     off <= i_size x -> off + n <= cap -> Z.of_nat (length hs) + n / BSIZE + 3 <= LOGBLOCKS ->
     exists f' l' A' hs', writei ip (KernSrc src) off n (s ⊕ f) = Ret n (s ⊕ f')
       /\ tx pid ls f' l' A' hs'
       /\ Z.of_nat (length hs') <= Z.of_nat (length hs) + n / BSIZE + 3
       /\ file_written ip f A x cap off src f' A')
  /\ (forall src n, 0 <= n < 2 ^ 32 -> i_size x < off \/ MAXFILE * BSIZE < off + n ->
      writei ip src off n (s ⊕ f) = Ret (-1) (s ⊕ f)).
Proof.
  intros Hf Hc Htx Hx Hm Hs Hok Hoff. split.
  - intros src n Hsz Hcap Hlog. apply (writei_run pid s Hc Hf ls ip f l); try done. lia.
  - intros src n Hn Hbad. by apply writei_refused with x.
Qed.

(** C7. What [writei()] writes, [readi()] reads back, inside the transaction and before
    anything of it is on the disk. *)
Theorem writei_readi `{Fuel} pid s ls ip f l A hs x cap off src :
  (0 < fuel)%nat -> calm pid s -> tx pid ls f l A hs -> fs_inodes f !! ip = Some x ->
  mapped (fs_blocks f) (view f A) (i_addrs x) cap -> separate (view f A) (i_addrs x) cap ->
  inode_ok f A x cap -> 0 <= off <= i_size x -> off + Z.of_nat (length src) <= cap ->
  Z.of_nat (length hs) + Z.of_nat (length src) / BSIZE + 3 < LOGBLOCKS ->
  let n := Z.of_nat (length src) in
  exists f', (writei ip (KernSrc src) off n;; readi ip KernDst off n) (s ⊕ f) = Ret (n, src) (s ⊕ f')
    /\ fs_blocks f' = fs_blocks f.
Proof.
  intros Hfuel Hcalm Htx Hx Hm Hs Hok Hoff Hcap Hlog n.
  destruct (writei_run pid s Hcalm Hfuel ls ip f l A hs x cap off src)
    as (f1 & l1 & A1 & hs1 & E1 & Htx1 & Hl1 & [W1 [W2 _] W3 W4 _ _ _]); try done; [lia|].
  pose proof (mp_size _ _ _ _ Hm) as Hmax. change (MAXFILE * BSIZE) with 274432 in Hmax.
  rewrite (bind_Ret _ _ _ _ _ E1). fold n in E1, W1, W4, Hl1, Hlog, Hcap |- *.
  destruct (grown_addrs (off + n) x) as (Ya & Yi & Yd & Ys). set (y := grown (off + n) x) in *.
  pose proof (io_size _ _ _ _ Hok) as Hsz.
  destruct (readi_run pid s Hcalm Hfuel A1 (tx_room Htx1 ltac:(lia)) (fun bn rc d => tx_refs Htx1 bn rc d)
    ip y ltac:(rewrite Yd; apply Hok) f1 l1 off n) as (f2 & l2 & E2 & S2 & _); try lia.
  - apply Htx1.
  - rewrite W1. apply list_lookup_insert_eq. by eapply lookup_lt_Some.
  - rewrite Ya. eapply mapped_mono; [exact W3|]. lia.
  - exists f2. split; [|by rewrite (same_blocks _ _ S2)]. rewrite E2.
    assert (Er : readable (i_size y) off n = n).
    { unfold readable. destruct (Z.ltb_spec (i_size y) off); lia. }
    rewrite Er, Ya. f_equal. f_equal. apply list_eq. intros i. unfold file_bytes.
    rewrite list_lookup_fmap. destruct (decide (i < length src)%nat) as [Hi|Hi].
    + rewrite lookup_seqZ_lt by lia. simpl. rewrite W4, decide_True by lia.
      destruct (lookup_lt_is_Some_2 src i Hi) as [c Hc].
      replace (Z.to_nat (off + Z.of_nat i - off)) with i by lia. by rewrite Hc.
    + rewrite lookup_seqZ_ge, lookup_ge_None_2 by lia. done.
Qed.

(** ** A file of one block in an open transaction *)

Section example.
#[local] Instance write_fuel : Fuel := 1%nat.

Definition write_inode : inode := Inode ROOTDEV 2 1 1 T_FILE 0 0 1 10 (60 :: replicate 12 0).

Definition write_fs : fsst :=
  fsst_zero <| fs_blocks := {[33 := zero_block; 60 := zero_block]} |>
    <| fs_inodes := write_inode :: replicate 49 inode_zero |>
    <| fs_log := Log 2 1 0 ROOTDEV (Logheader 0 (replicate 30 0)) |>
    <| fs_sb := Superblock FSMAGIC 2000 1953 200 31 2 33 46 |>.

Lemma write_example : exists f, tx 1 2 f (reverse bufids) ∅ [] /\ fs_inodes f !! 0%nat = Some write_inode
  /\ mapped (fs_blocks f) (view f ∅) (i_addrs write_inode) 1024
  /\ separate (view f ∅) (i_addrs write_inode) 1024 /\ inode_ok f ∅ write_inode 1024.
Proof.
  destruct (binit_run calm_state write_fs) as (y & f & _ & Hs & Hc & _).
  - reflexivity.
  - intros b x Hx. apply lookup_replicate in Hx as [-> _]. split; [reflexivity|discriminate].
  - assert (Hb : fs_blocks f = {[33 := zero_block; 60 := zero_block]}) by by rewrite (proj1 Hs).
    assert (Hv : forall bn, view f ∅ bn = zero_block).
    { intros bn. unfold view. rewrite lookup_empty, Hb. destruct (decide (bn = 33)) as [->|]; [by simplify_map_eq|].
      destruct (decide (bn = 60)) as [->|]; by simplify_map_eq. }
    assert (Hsb : fs_sb f = fs_sb write_fs) by by rewrite (proj1 Hs).
    assert (Hib : IBLOCK (i_inum write_inode) (fs_sb f) = 33) by by rewrite Hsb.
    assert (Ha : forall i, 0 <= i -> i * BSIZE < 1024 -> i = 0).
    { intros i Hi Hlt. change BSIZE with 1024 in Hlt. lia. }
    exists f. split_and!.
    + split; [apply Hc|rewrite (same_log _ _ Hs); split; reflexivity|rewrite (same_log _ _ Hs); reflexivity
             |constructor|constructor| |by rewrite dom_empty_L].
      intros bn rc d E. by rewrite lookup_empty in E.
    + by rewrite (same_inodes _ _ Hs).
    + split; [vm_compute; discriminate|reflexivity| |vm_compute; discriminate].
      intros i Hi Hlt. apply Ha in Hlt as ->; [|done].
      change (block_addr (view f ∅) (i_addrs write_inode) 0) with 60. rewrite Hb, Hv.
      split_and!; [discriminate|eexists; by simplify_map_eq|reflexivity].
    + split.
      * intros i Hi Hlt. apply Ha in Hlt as ->; [|done]. vm_compute. split; [discriminate|reflexivity].
      * intros i j Hi Hli Hj Hlj _. apply Ha in Hli as ->, Hlj as ->; done.
      * intros i Hi Hlt Hn. vm_compute in Hn. discriminate.
    + split; rewrite ?Hib, ?Hv.
      * reflexivity.
      * simpl. lia.
      * simpl. lia.
      * split; [|split; [simpl; lia|split; [reflexivity|]]]; simpl.
        -- intros v Hv'. rewrite !elem_of_cons in Hv'.
           destruct Hv' as [->|[->|[->|[->|Hv']]]]; try (unfold T_FILE; lia). by apply elem_of_nil in Hv'.
        -- apply Forall_cons. split; [lia|]. apply (Forall_replicate _ 12). lia.
      * rewrite Hb. eexists. apply lookup_insert_eq.
      * lia.
      * reflexivity.
      * split; [|intros Hn; vm_compute in Hn; discriminate]. intros i Hi Hlt.
        apply Ha in Hlt as ->; [|done]. change (33 <> 60). lia.
Qed.

Lemma writei_spec_witness :
  exists f f' A', writei 0 (KernSrc [104; 105]) 10 2 (calm_state ⊕ f) = Ret 2 (calm_state ⊕ f')
    /\ file_byte (view f' A') (i_addrs write_inode) 11 = 105.
Proof.
  destruct write_example as (f & Htx & Hx & Hm & Hs & Hok).
  destruct (writei_spec 1 calm_state 2 0 f _ ∅ [] write_inode 1024 10 (le_n 1) calm_state_calm
    Htx Hx Hm Hs Hok) as [Hw _]; [lia|].
  destruct (Hw [104; 105]) as (f' & l' & A' & hs' & E & _ & _ & W); try done.
  exists f, f', A'. split; [exact E|]. rewrite (fw_byte _ _ _ _ _ _ _ _ _ W); [reflexivity|lia].
Defined.

Lemma writei_readi_witness :
  exists f f', (writei 0 (KernSrc [104; 105]) 10 2;; readi 0 KernDst 10 2) (calm_state ⊕ f)
    = Ret (2, [104; 105]) (calm_state ⊕ f').
Proof.
  destruct write_example as (f & Htx & Hx & Hm & Hs & Hok).
  destruct (writei_readi 1 calm_state 2 0 f _ ∅ [] write_inode 1024 10 [104; 105] (le_n 1) calm_state_calm
    Htx Hx Hm Hs Hok)
    as (f' & E & _); try done.
  exists f, f'. exact E.
Defined.
End example.
