(* ===== verification/FsAlloc.v ===== *)
(** * The free map

    [balloc()] and [bfree()] of [src/kernel/fs.c] on the set of the blocks in use that
    the bits of the free map represent. *)

From S2P Require Import Prelude Bytes Params FsTypes Machine Spinlock ProcCore Mem Kstring Pres PresVm Services.
From S2P Require Import Proc FsCore Sleeplock Calm Bio Lru BioSpec Log LogSpec Fs Dir FsSpec FsWrite.

(** ** Bits *)

Definition bit (data : list Z) (bi : Z) : bool := Z.testbit (byte_at data (bi / 8)) (bi mod 8).

Lemma land_bit x k : 0 <= k -> (Z.land x (Z.shiftl 1 k) =? 0) = negb (Z.testbit x k).
Proof.
  intros Hk. rewrite Z.shiftl_1_l. destruct (Z.testbit x k) eqn:E; simpl.
  - apply Z.eqb_neq. intros H. assert (Ht : Z.testbit (Z.land x (2 ^ k)) k = false) by (rewrite H; apply Z.bits_0).
    rewrite Z.land_spec, E, Z.pow2_bits_true in Ht by done. done.
  - apply Z.eqb_eq. apply Z.bits_inj'. intros i Hi. rewrite Z.land_spec, Z.bits_0.
    destruct (decide (i = k)) as [->|Hne]; [by rewrite E|]. rewrite Z.pow2_bits_false by lia. apply andb_false_r.
Qed.

Lemma bit_land data bi : (Z.land (byte_at data (bi / 8)) (Z.shiftl 1 (bi mod 8)) =? 0) = negb (bit data bi).
Proof. apply land_bit. apply Z.mod_pos_bound. lia. Qed.

Section bits.
Context (data : list Z) (Hlen : Z.of_nat (length data) = BSIZE).

Lemma bit_change (g : Z -> Z) bi j :
  0 <= bi < BPB -> 0 <= j < BPB ->
  bit (<[Z.to_nat (bi / 8) := g (byte_at data (bi / 8))]> data) j
  = if decide (j / 8 = bi / 8) then Z.testbit (g (byte_at data (bi / 8))) (j mod 8) else bit data j.
Proof.
  intros Hbi Hj. unfold bit, byte_at. change BPB with 8192 in *. change BSIZE with 1024 in Hlen.
  assert (Hq : 0 <= bi / 8 < 1024 /\ 0 <= j / 8 < 1024) by (Z.to_euclidean_division_equations; lia).
  case_decide as E.
  - rewrite E, list_lookup_insert_eq by lia. done.
  - rewrite list_lookup_insert_ne by lia. done.
Qed.

Lemma div_mod_8 i j : j / 8 = i / 8 -> j mod 8 = i mod 8 -> j = i.
Proof using Type. clear. intros H1 H2. Z.to_euclidean_division_equations. lia. Qed.

Lemma set_bit_bit bi j :
  0 <= bi < BPB -> 0 <= j < BPB -> bit (set_bit bi data) j = if decide (j = bi) then true else bit data j.
Proof.
  intros Hbi Hj. unfold set_bit.
  rewrite (bit_change (fun v => Z.lor v (Z.shiftl 1 (bi mod 8)))) by done.
  pose proof (Z.mod_pos_bound bi 8 eq_refl). pose proof (Z.mod_pos_bound j 8 eq_refl).
  destruct (decide (j / 8 = bi / 8)) as [E|E]; [|by rewrite decide_False by congruence].
  rewrite Z.lor_spec, Z.shiftl_1_l. case_decide as Ej.
  - subst j. rewrite Z.pow2_bits_true by lia. apply orb_true_r.
  - rewrite Z.pow2_bits_false, orb_false_r by (intros Em; apply Ej; by apply div_mod_8).
    unfold bit. by rewrite E.
Qed.

Lemma clear_bit_bit bi j :
  0 <= bi < BPB -> 0 <= j < BPB -> bit (clear_bit bi data) j = if decide (j = bi) then false else bit data j.
Proof.
  intros Hbi Hj. unfold clear_bit.
  rewrite (bit_change (fun v => Z.ldiff v (Z.shiftl 1 (bi mod 8)))) by done.
  pose proof (Z.mod_pos_bound bi 8 eq_refl). pose proof (Z.mod_pos_bound j 8 eq_refl).
  destruct (decide (j / 8 = bi / 8)) as [E|E]; [|by rewrite decide_False by congruence].
  rewrite Z.ldiff_spec, Z.shiftl_1_l. case_decide as Ej.
  - subst j. rewrite Z.pow2_bits_true by lia. apply andb_false_r.
  - rewrite Z.pow2_bits_false, andb_true_r by (intros Em; apply Ej; by apply div_mod_8).
    unfold bit. by rewrite E.
Qed.
End bits.

(** The search: the first clear bit from [bi] on, up to the size of the disk. *)
Lemma free_bit_spec n b bi sz data :
  match free_bit n b bi sz data with
  | Some r => bi <= r < bi + Z.of_nat n /\ b + r < sz /\ bit data r = false
      /\ forall j, bi <= j < r -> bit data j = true
  | None => forall j, bi <= j < bi + Z.of_nat n -> b + j < sz -> bit data j = true
  end.
Proof.
  revert bi. induction n as [|n IH]; intros bi; cbn [free_bit]; [intros j; lia|].
  destruct (Z.ltb_spec (b + bi) sz) as [Hlt|Hge]; [|intros j; lia].
  rewrite bit_land. destruct (bit data bi) eqn:E; simpl.
  - specialize (IH (bi + 1)). destruct (free_bit n b (bi + 1) sz data) as [r|].
    + destruct IH as (H1 & H2 & H3 & H4). split; [lia|]. split; [lia|]. split; [done|]. intros j Hj.
      destruct (decide (j = bi)) as [->|]; [done|]. apply H4. lia.
    + intros j Hj Hs. destruct (decide (j = bi)) as [->|]; [done|]. apply IH; lia.
  - split; [lia|]. split; [lia|]. split; [done|]. intros j. lia.
Qed.

(** ** Blocks in use *)

Definition used (rd : Z -> list Z) (sb : superblock) (a : Z) : bool := bit (rd (BBLOCK a sb)) (a mod BPB).

Section alloc.
Context `{Fuel} (pid : Z) (s : kstate) (Hcalm : calm pid s) (Hfuel : (0 < fuel)%nat) (ls : Z).
Context (sb : superblock) (Hsb : 0 <= sb_size sb < 2 ^ 31) (Hbm : 0 <= bmapstart sb < 2 ^ 31).

(** The disk has the blocks and the free map that the super block describes; no block
    of the map is free. *)
Record map_ok (f : fsst) (A : blocks_in_use) : Prop := {
  mo_sb : fs_sb f = sb;
  mo_block a : 0 <= a < sb_size sb -> is_Some (fs_blocks f !! a);
  mo_map a : 0 <= a < sb_size sb ->
    is_Some (fs_blocks f !! BBLOCK a sb) /\ 0 <= BBLOCK a sb < 2 ^ 31
    /\ Z.of_nat (length (view f A (BBLOCK a sb))) = BSIZE;
  mo_apart a a' : 0 <= a < sb_size sb -> 0 <= a' < sb_size sb -> used (view f A) sb a = false ->
    a <> BBLOCK a' sb;
}.

Lemma map_ok_same f f' A : same_disk f f' -> map_ok f A -> map_ok f' A.
Proof using Type.
  clear Hcalm Hfuel. intros Hs [M1 M2 M3 M4].
  split; rewrite ?(same_view A _ _ Hs), ?(same_blocks _ _ Hs); try done.
  by rewrite (proj1 Hs).
Qed.

Lemma get_sb_run f : get_sb (s ⊕ f) = Ret (fs_sb f) (s ⊕ f).
Proof using Type. done. Qed.

(** A block of the map covers [BPB] blocks. *)
Lemma bblock_run b bi : 0 <= bi < BPB -> b mod BPB = 0 -> BBLOCK (b + bi) sb = BBLOCK b sb /\ (b + bi) mod BPB = bi.
Proof using Type.
  clear. intros Hbi Hb. unfold BBLOCK. change BPB with 8192 in *.
  assert ((b + bi) / 8192 = b / 8192 /\ (b + bi) mod 8192 = bi) as [-> ->];
    [Z.to_euclidean_division_equations; lia|done].
Qed.

Lemma bblock_inj a a' :
  0 <= a < sb_size sb -> 0 <= a' < sb_size sb -> BBLOCK a sb = BBLOCK a' sb -> a mod BPB = a' mod BPB -> a = a'.
Proof using Hsb Hbm.
  clear Hcalm Hfuel. intros Ha Ha' E Em. unfold BBLOCK in E. change BPB with 8192 in *.
  assert (0 <= a / 8192 <= a /\ 0 <= a' / 8192 <= a') by (Z.to_euclidean_division_equations; lia).
  rewrite !u32_small in E by lia. Z.to_euclidean_division_equations. lia.
Qed.

(** The state after [balloc] gave out block [a]. *)
Record allocated (f : fsst) (A : blocks_in_use) (hs : list Z) (a : Z) (f' : fsst) (l' : list nat)
    (A' : blocks_in_use) (hs' : list Z) : Prop := {
  al_tx : tx pid ls f' l' A' hs';
  al_same : same_but_log f f';
  al_log : (length hs' <= 2 + length hs)%nat;
  al_zero : view f' A' a = zero_block;
  al_used a' : 0 <= a' < sb_size sb ->
    used (view f' A') sb a' = if decide (a' = a) then true else used (view f A) sb a';
  al_length a' : 0 <= a' < sb_size sb ->
    length (view f' A' (BBLOCK a' sb)) = length (view f A (BBLOCK a' sb));
  al_frame bn : bn <> a -> bn <> BBLOCK a sb -> view f' A' bn = view f A bn;
}.

Lemma bzero_run f l A hs a :
  tx pid ls f l A hs -> is_Some (fs_blocks f !! a) -> 0 <= a < 2 ^ 31 -> Z.of_nat (length hs) < LOGBLOCKS ->
  exists f' l', bzero ROOTDEV a (s ⊕ f) = Ret tt (s ⊕ f') /\ same_but_log f f'
    /\ tx pid ls f' l' (<[a := (1, zero_block)]> A) (add_block a hs).
Proof using Hcalm Hfuel.
  intros Htx Hb Ha Hn. unfold bzero. rewrite u32_small by lia.
  destruct (edit_run pid s Hcalm Hfuel ls f l A hs a Htx Hb Ha Hn) as (b & f1 & E1 & S1 & _ & Hed).
  rewrite (bind_Ret _ _ _ _ _ E1).
  destruct (Hed zero_block) as (f2 & f3 & f4 & l4 & E2 & E3 & E4 & S4 & Htx4).
  rewrite (bind_Ret _ _ _ _ _ E2), (bind_Ret _ _ _ _ _ E3). by exists f4, l4.
Qed.

(** The bit is set and the block zeroed. *)
Lemma take_block_run {B} f l A hs b bi (k : M B) :
  tx pid ls f l A hs -> map_ok f A -> 0 <= bi < BPB -> b mod BPB = 0 -> 0 <= b + bi < sb_size sb ->
  used (view f A) sb (b + bi) = false -> Z.of_nat (length hs) + 2 <= LOGBLOCKS ->
  exists bp f1, bread ROOTDEV (BBLOCK b sb) (s ⊕ f) = Ret bp (s ⊕ f1) /\ same_disk f f1
    /\ get_data bp (s ⊕ f1) = Ret (view f A (BBLOCK b sb)) (s ⊕ f1)
    /\ exists f' l' A' hs',
      (set_data bp (set_bit bi (view f A (BBLOCK b sb)));; log_write bp;; brelse bp;;
       bzero ROOTDEV (b + bi);; k) (s ⊕ f1) = k (s ⊕ f')
      /\ allocated f A hs (b + bi) f' l' A' hs'.
Proof using Hcalm Hfuel Hsb Hbm.
  intros Htx [M1 M2 M3 M4] Hbi Hb Ha Hu Hlog. destruct (bblock_run b bi Hbi Hb) as [Eb Em].
  destruct (M3 _ Ha) as (Hmb & Hmr & Hml). rewrite Eb in Hmb, Hmr, Hml.
  destruct (edit_run pid s Hcalm Hfuel ls f l A hs (BBLOCK b sb) Htx Hmb Hmr) as (bp & f1 & E1 & S1 & Ed & Hed); [lia|].
  exists bp, f1. split_and!; try done. set (d := set_bit _ _).
  destruct (Hed d) as (f2 & f3 & f4 & l4 & E2 & E3 & E4 & S4 & Htx4).
  pose proof (add_block_length (BBLOCK b sb) hs) as L1.
  destruct (bzero_run f4 l4 _ _ (b + bi) Htx4) as (f5 & l5 & E5 & S5 & Htx5);
    [rewrite (same_but_log_blocks _ _ S4); auto|lia|lia|].
  pose proof (add_block_length (b + bi) (add_block (BBLOCK b sb) hs)) as L2.
  exists f5, l5. eexists _, _. split.
  { rewrite (bind_Ret _ _ _ _ _ E2), (bind_Ret _ _ _ _ _ E3), (bind_Ret _ _ _ _ _ E4).
    by rewrite (bind_Ret _ _ _ _ _ E5). }
  assert (Hv : forall bn, view f5 (<[b + bi := (1, zero_block)]> (<[BBLOCK b sb := (1, d)]> A)) bn
    = upd_block (upd_block (view f A) (BBLOCK b sb) d) (b + bi) zero_block bn).
  { intros bn. rewrite (view_insert f4) by by apply same_but_log_blocks. unfold upd_block at 1 2.
    case_decide; [done|]. apply view_insert. by apply same_but_log_blocks. }
  split; [exact Htx5|by eapply same_but_log_trans|lia| | | |].
  - rewrite Hv. unfold upd_block. by rewrite decide_True.
  - intros a' Ha'. unfold used. rewrite Hv. unfold upd_block. rewrite decide_False by (intros E; by eapply (M4 (b + bi) a')).
    case_decide as E.
    + pose proof (Z.mod_pos_bound a' BPB eq_refl) as Hm. unfold d. rewrite set_bit_bit by done.
      replace (view f A (BBLOCK a' sb)) with (view f A (BBLOCK b sb)) by by rewrite E.
      destruct (decide (a' = b + bi)) as [->|Hne]; [by rewrite Em, decide_True|].
      rewrite decide_False; [done|]. intros Ebi. apply Hne, bblock_inj; [done..|congruence|congruence].
    + destruct (decide (a' = b + bi)) as [->|Hne]; [by rewrite Eb in E|done].
  - intros a' Ha'. rewrite Hv. unfold upd_block. rewrite decide_False by (intros E; by eapply (M4 (b + bi) a')).
    case_decide as E; [|done]. rewrite E. apply length_insert.
  - intros bn Hn1 Hn2. rewrite Hv. unfold upd_block. rewrite Eb in Hn2. by rewrite !decide_False.
Qed.

Lemma allocated_same f f1 A hs a f' l' A' hs' :
  same_disk f f1 -> allocated f1 A hs a f' l' A' hs' -> allocated f A hs a f' l' A' hs'.
Proof using Type.
  clear Hcalm Hfuel. intros Hs [A1 A2 A3 A4 A5 A6 A7]. rewrite (same_view A _ _ Hs) in *. split; try done.
  eapply same_but_log_trans; [by apply same_disk_but_log|done].
Qed.

Lemma allocated_map_ok f A hs a f' l' A' hs' :
  map_ok f A -> allocated f A hs a f' l' A' hs' -> map_ok f' A'.
Proof using Type.
  clear Hcalm Hfuel. intros [M1 M2 M3 M4] [A1 A2 A3 A4 A5 A6 A7].
  pose proof (same_but_log_blocks _ _ A2) as B. split; rewrite ?B; try done.
  - by rewrite (same_but_log_sb _ _ A2).
  - intros a1 Ha1. rewrite A6 by done. auto.
  - intros a1 a2 Ha1 Ha2. rewrite A5 by done. case_decide; [done|]. by apply M4.
Qed.

(** What [balloc] does, from the block [b] of the disk on. *)
Definition balloc_result (f : fsst) (A : blocks_in_use) (hs : list Z) (r : outcome Z) : Prop :=
  (exists a f' l' A' hs', r = Ret a (s ⊕ f') /\ 0 <= a < sb_size sb /\ used (view f A) sb a = false
     /\ (forall a', 0 <= a' < a -> used (view f A) sb a' = true) /\ allocated f A hs a f' l' A' hs')
  \/ ((forall a, 0 <= a < sb_size sb -> used (view f A) sb a = true)
      /\ exists f' l', r = Ret 0 (s <| k_out := "balloc: out of blocks" :: k_out s |> ⊕ f')
         /\ same_disk f f' /\ cache pid f' l' A ∅).

Lemma balloc_result_same f f1 A hs r :
  same_disk f f1 -> balloc_result f1 A hs r -> balloc_result f A hs r.
Proof using Type.
  clear Hfuel Hcalm Hsb Hbm. intros Hs [(a & f' & l' & A' & hs' & E & Ha & Hu & Hl & Hal)|(Hall & f' & l' & E & S' & C')].
  - left. exists a, f', l', A', hs'. rewrite (same_view A _ _ Hs) in *. split_and!; try done; try lia.
    by eapply allocated_same.
  - right. rewrite (same_view A _ _ Hs) in *. split; [done|]. exists f', l'. split_and!; try done.
    by eapply same_disk_trans.
Qed.

Lemma balloc_loop_run n f l A hs b :
  tx pid ls f l A hs -> map_ok f A -> 0 <= b -> b mod BPB = 0 ->
  (forall a, 0 <= a < b -> a < sb_size sb -> used (view f A) sb a = true) ->
  (0 < n)%nat -> sb_size sb - b <= BPB * (Z.of_nat n - 1) -> Z.of_nat (length hs) + 2 <= LOGBLOCKS ->
  balloc_result f A hs (balloc_loop n ROOTDEV b (s ⊕ f)).
Proof using Hcalm Hfuel Hsb Hbm.
  revert f l b. induction n as [|n IH]; intros f l b Htx Hmap Hb0 Hb Hlow Hn0 Hn Hlog; [lia|].
  cbn [balloc_loop]. rewrite (bind_Ret _ _ _ _ _ (get_sb_run f)), (mo_sb _ _ Hmap).
  destruct (Z.ltb_spec b (sb_size sb)) as [Hlt|Hge].
  2:{ right. split; [intros a Ha; apply Hlow; lia|]. exists f, l.
      split_and!; [done|apply same_disk_refl|apply Htx]. }
  assert (Hroom : (size A < bhead)%nat) by (apply (tx_room Htx); lia).
  pose proof (free_bit_spec (Z.to_nat BPB) b 0 (sb_size sb) (view f A (BBLOCK b sb))) as Hfb.
  assert (Hbit : forall j, 0 <= j < BPB -> bit (view f A (BBLOCK b sb)) j = used (view f A) sb (b + j)).
  { intros j Hj. unfold used. by destruct (bblock_run b j Hj Hb) as [-> ->]. }
  destruct (free_bit _ b 0 (sb_size sb) (view f A (BBLOCK b sb))) as [bi|] eqn:Ef.
  - destruct Hfb as (Hbi & Hsz & Hclr & Hset). rewrite Z2Nat.id in Hbi by done. rewrite Hbit in Hclr by lia.
    destruct (take_block_run f l A hs b bi (ret (b + bi)) Htx Hmap) as (bp & f1 & E1 & S1 & Ed & f' & l' & A' & hs' & E & Hal);
      try done; try lia.
    rewrite (bind_Ret _ _ _ _ _ E1), (bind_Ret _ _ _ _ _ Ed), Ef. left.
    exists (b + bi), f', l', A', hs'. split_and!; try done; try lia.
    intros a' Ha'. destruct (Z.ltb_spec a' b) as [Hab|Hab]; [apply Hlow; lia|].
    replace a' with (b + (a' - b)) by lia. rewrite <- Hbit by lia. apply Hset. lia.
  - destruct (block_run pid s Hcalm Hfuel A Hroom (fun bn rc d => tx_refs Htx bn rc d) f l (BBLOCK b sb))
      as (bp & f1 & f2 & l2 & E1 & Ed & S1 & E2 & S2 & C2); [apply Htx|apply (mo_map _ _ Hmap b); lia|].
    rewrite (bind_Ret _ _ _ _ _ E1), (bind_Ret _ _ _ _ _ Ed), Ef, (bind_Ret _ _ _ _ _ E2).
    apply (balloc_result_same f f2); [done|].
    apply (IH f2 l2); try lia.
    + by eapply tx_same.
    + by eapply map_ok_same.
    + change BPB with 8192. lia.
    + change BPB with 8192 in *. Z.to_euclidean_division_equations. lia.
    + rewrite (same_view A _ _ S2). intros a Ha Hsz. destruct (Z.ltb_spec a b) as [Hab|Hab]; [apply Hlow; lia|].
      replace a with (b + (a - b)) by lia. rewrite <- Hbit by lia.
      rewrite Z2Nat.id in Hfb by done. apply Hfb; lia.
    + change BPB with 8192 in *. lia.
Qed.

Lemma balloc_run f l A hs :
  tx pid ls f l A hs -> map_ok f A -> Z.of_nat (length hs) + 2 <= LOGBLOCKS ->
  balloc_result f A hs (balloc ROOTDEV (s ⊕ f)).
Proof using Hcalm Hfuel Hsb Hbm.
  intros Htx Hmap Hlog. unfold balloc.
  rewrite (bind_Ret _ _ _ _ _ (get_sb_run f)), (mo_sb _ _ Hmap).
  apply (balloc_loop_run _ f l); try done; [intros; lia|lia|].
  change BPB with 8192. assert (0 <= sb_size sb / 8192) by (apply Z.div_pos; lia).
  pose proof (Z.div_mod (sb_size sb) 8192). pose proof (Z.mod_pos_bound (sb_size sb) 8192). lia.
Qed.

Lemma bfree_run f l A hs a :
  tx pid ls f l A hs -> fs_sb f = sb -> is_Some (fs_blocks f !! BBLOCK a sb) ->
  0 <= BBLOCK a sb < 2 ^ 31 -> Z.of_nat (length (view f A (BBLOCK a sb))) = BSIZE ->
  0 <= a < sb_size sb -> Z.of_nat (length hs) < LOGBLOCKS ->
  if used (view f A) sb a
  then exists f' l' A' hs', bfree ROOTDEV a (s ⊕ f) = Ret tt (s ⊕ f') /\ tx pid ls f' l' A' hs'
    /\ same_but_log f f' /\ (length hs' <= S (length hs))%nat
    /\ Z.of_nat (length (view f' A' (BBLOCK a sb))) = BSIZE
    /\ (forall a', 0 <= a' < sb_size sb ->
          used (view f' A') sb a' = if decide (a' = a) then false else used (view f A) sb a')
    /\ (forall bn, bn <> BBLOCK a sb -> view f' A' bn = view f A bn)
  else bfree ROOTDEV a (s ⊕ f) = Stop (SPanic "freeing free block").
Proof using Hcalm Hfuel Hsb Hbm.
  intros Htx Hfsb Hmb Hmr Hml Ha Hn. unfold bfree. rewrite (bind_Ret _ _ _ _ _ (get_sb_run f)), Hfsb.
  destruct (edit_run pid s Hcalm Hfuel ls f l A hs (BBLOCK a sb) Htx Hmb Hmr Hn) as (bp & f1 & E1 & S1 & Ed & Hed).
  rewrite (bind_Ret _ _ _ _ _ E1). cbv zeta. rewrite (bind_Ret _ _ _ _ _ Ed), bit_land.
  pose proof (Z.mod_pos_bound a BPB eq_refl) as Hm. unfold used at 1.
  destruct (bit (view f A (BBLOCK a sb)) (a mod BPB)) eqn:Eu; cbn [negb]; [|done].
  edestruct Hed as (f2 & f3 & f4 & l4 & E2 & E3 & E4 & S4 & Htx4).
  rewrite (bind_Ret _ _ _ _ _ E2), (bind_Ret _ _ _ _ _ E3).
  exists f4, l4. eexists _, _. split_and!; [exact E4|exact Htx4|done|apply add_block_length| | |].
  - rewrite (view_insert f) by by apply same_but_log_blocks. unfold upd_block. rewrite decide_True by done.
    unfold clear_bit. by rewrite length_insert.
  - intros a' Ha'. unfold used. rewrite (view_insert f) by by apply same_but_log_blocks. unfold upd_block.
    pose proof (Z.mod_pos_bound a' BPB eq_refl) as Hm'. case_decide as E.
    + rewrite clear_bit_bit by done. replace (view f A (BBLOCK a' sb)) with (view f A (BBLOCK a sb)) by by rewrite E.
      destruct (decide (a' = a)) as [->|Hne]; [by rewrite decide_True|].
      rewrite decide_False; [done|]. intros Em. apply Hne, bblock_inj; done.
    + rewrite decide_False; [done|]. by intros ->.
  - intros bn Hbn. rewrite (view_insert f) by by apply same_but_log_blocks. unfold upd_block.
    by rewrite decide_False.
Qed.
End alloc.

(** C8. [balloc(dev)] gives out the lowest-numbered free block of the disk: it marks that
    block, and no other, as used in the free map, fills it with zeroes, and changes
    no other block; when every block is used it prints a message and returns 0. The
    changes are in the transaction. *)
Theorem balloc_spec `{Fuel} pid s ls sb f l A hs :
  (0 < fuel)%nat -> calm pid s -> 0 <= sb_size sb < 2 ^ 31 -> 0 <= bmapstart sb < 2 ^ 31 ->
  tx pid ls f l A hs -> map_ok sb f A -> Z.of_nat (length hs) + 2 <= LOGBLOCKS ->
  (exists a f' l' A' hs', balloc ROOTDEV (s ⊕ f) = Ret a (s ⊕ f')
     /\ 0 <= a < sb_size sb /\ used (view f A) sb a = false
     /\ (forall a', 0 <= a' < a -> used (view f A) sb a' = true)
     /\ allocated pid ls sb f A hs a f' l' A' hs')
  \/ ((forall a, 0 <= a < sb_size sb -> used (view f A) sb a = true)
      /\ exists f' l', balloc ROOTDEV (s ⊕ f)
           = Ret 0 (s <| k_out := "balloc: out of blocks" :: k_out s |> ⊕ f')
         /\ same_disk f f' /\ cache pid f' l' A ∅).
Proof. intros Hfuel Hcalm Hsb Hbm Htx Hmap Hlog. by eapply balloc_run. Qed.

(** A block that is allocated and freed again leaves the free map as it was; freeing
    it once more panics. *)
Theorem balloc_bfree `{Fuel} pid s ls sb f l A hs a0 :
  (0 < fuel)%nat -> calm pid s -> 0 <= sb_size sb < 2 ^ 31 -> 0 <= bmapstart sb < 2 ^ 31 ->
  tx pid ls f l A hs -> map_ok sb f A -> Z.of_nat (length hs) + 4 <= LOGBLOCKS ->
  0 <= a0 < sb_size sb -> used (view f A) sb a0 = false ->
  exists a f' l' A' hs',
    (a ← balloc ROOTDEV; bfree ROOTDEV a;; ret a) (s ⊕ f) = Ret a (s ⊕ f') /\ tx pid ls f' l' A' hs'
    /\ (forall a', 0 <= a' < sb_size sb -> used (view f' A') sb a' = used (view f A) sb a')
    /\ bfree ROOTDEV a (s ⊕ f') = Stop (SPanic "freeing free block").
Proof.
  intros Hfuel Hcalm Hsb Hbm Htx Hmap Hlog Ha0 Hu0.
  destruct (balloc_run pid s Hcalm Hfuel ls sb Hsb Hbm f l A hs Htx Hmap)
    as [(a & f1 & l1 & A1 & hs1 & E & Ha & Hu & _ & Hal)|[Hall _]]; [lia| |by rewrite Hall in Hu0].
  assert (Hm1 : map_ok sb f1 A1) by by eapply allocated_map_ok.
  destruct Hal as [Htx1 S1 L1 _ U1 Len1 _].
  destruct (mo_map _ _ _ Hm1 a Ha) as (Hb1 & Hr1 & Hl1).
  pose proof (bfree_run pid s Hcalm Hfuel ls sb Hsb Hbm f1 l1 A1 hs1 a Htx1 (mo_sb _ _ _ Hm1) Hb1 Hr1 Hl1 Ha) as Hfree.
  rewrite U1, decide_True in Hfree by done.
  destruct Hfree as (f2 & l2 & A2 & hs2 & E2 & Htx2 & S2 & L2 & Hl2 & U2 & Fr2); [lia|].
  exists a, f2, l2, A2, hs2. rewrite (bind_Ret _ _ _ _ _ E). split_and!; try done.
  - by rewrite (bind_Ret _ _ _ _ _ E2).
  - intros a' Ha'. rewrite U2, U1 by done. by case_decide; [subst|].
  - pose proof (bfree_run pid s Hcalm Hfuel ls sb Hsb Hbm f2 l2 A2 hs2 a Htx2) as Hagain.
    rewrite U2, decide_True in Hagain by done. rewrite (same_but_log_blocks _ _ S2) in Hagain.
    apply Hagain; try done; [|lia]. rewrite (same_but_log_sb _ _ S2). apply Hm1.
Qed.

(** ** A disk of 70 blocks, of which the first 50 are used *)

Section example.
#[local] Instance alloc_fuel : Fuel := 1%nat.

Definition alloc_map : list Z := replicate 6 255 ++ [3] ++ replicate (Z.to_nat BSIZE - 7) 0.
Definition alloc_disk : gmap Z (list Z) :=
  list_to_map ((fun bn => (bn, if bn =? 46 then alloc_map else zero_block)) <$> seqZ 0 70).
Definition alloc_sb : superblock := Superblock FSMAGIC 70 20 200 31 2 33 46.

Definition alloc_fs : fsst :=
  fsst_zero <| fs_blocks := alloc_disk |>
    <| fs_log := Log 2 1 0 ROOTDEV (Logheader 0 (replicate 30 0)) |> <| fs_sb := alloc_sb |>.

Lemma alloc_disk_lookup bn :
  0 <= bn < 70 -> alloc_disk !! bn = Some (if bn =? 46 then alloc_map else zero_block).
Proof.
  intros Hbn. apply elem_of_list_to_map_1'.
  - intros y Hy. apply list_elem_of_fmap in Hy as (b & [= -> ->] & _). done.
  - apply list_elem_of_fmap. exists bn. split; [done|]. apply elem_of_seqZ. lia.
Qed.

Lemma alloc_example : exists f, tx 1 2 f (reverse bufids) ∅ [] /\ map_ok alloc_sb f ∅
  /\ forall a, 0 <= a < 70 -> used (view f ∅) alloc_sb a = bit alloc_map a.
Proof.
  destruct (binit_run calm_state alloc_fs) as (y & f & _ & Hs & Hc & _).
  - reflexivity.
  - intros b x Hx. apply lookup_replicate in Hx as [-> _]. split; [reflexivity|discriminate].
  - assert (Hb : fs_blocks f = alloc_disk) by by rewrite (proj1 Hs).
    assert (Hm : forall a, 0 <= a < 70 -> BBLOCK a alloc_sb = 46).
    { intros a Ha. unfold BBLOCK. change BPB with 8192. rewrite Z.div_small by lia. reflexivity. }
    assert (Hv : view f ∅ 46 = alloc_map).
    { unfold view. rewrite lookup_empty, Hb, alloc_disk_lookup by lia. reflexivity. }
    assert (Hu : forall a, 0 <= a < 70 -> used (view f ∅) alloc_sb a = bit alloc_map a).
    { intros a Ha. unfold used. rewrite Hm, Hv by done. f_equal. change BPB with 8192. apply Z.mod_small. lia. }
    exists f. split_and!; [| |done].
    + split; [apply Hc|rewrite (same_log _ _ Hs); split; reflexivity|rewrite (same_log _ _ Hs); reflexivity
             |constructor|constructor| |by rewrite dom_empty_L].
      intros bn rc d E. by rewrite lookup_empty in E.
    + split.
      * by rewrite (proj1 Hs).
      * intros a Ha. change (sb_size alloc_sb) with 70 in Ha. rewrite Hb, alloc_disk_lookup by done. by eexists.
      * intros a Ha. change (sb_size alloc_sb) with 70 in Ha. rewrite Hm, Hv, Hb, alloc_disk_lookup by lia.
        split_and!; [by eexists|lia|lia|reflexivity].
      * intros a a' Ha Ha' Hua E. change (sb_size alloc_sb) with 70 in Ha, Ha'. rewrite Hm in E by done. subst a.
        rewrite Hu in Hua by done. vm_compute in Hua. discriminate.
Qed.

Lemma balloc_spec_witness :
  exists a f f' A', balloc ROOTDEV (calm_state ⊕ f) = Ret a (calm_state ⊕ f')
    /\ used (view f ∅) alloc_sb a = false /\ used (view f' A') alloc_sb a = true.
Proof.
  destruct alloc_example as (f & Htx & Hmap & Hu).
  destruct (balloc_spec 1 calm_state 2 alloc_sb f (reverse bufids) ∅ [] (le_n 1) calm_state_calm)
    as [(a & f' & l' & A' & hs' & E & Ha & Hf & Hlow & Hal)|[Hall _]].
  - simpl. lia.
  - simpl. lia.
  - exact Htx.
  - exact Hmap.
  - simpl. unfold LOGBLOCKS, MAXOPBLOCKS. lia.
  - exists a, f, f', A'. split; [exact E|]. split; [exact Hf|].
    rewrite (al_used _ _ _ _ _ _ _ _ _ _ _ Hal) by exact Ha. by rewrite decide_True.
  - specialize (Hall 50). rewrite Hu in Hall by lia. vm_compute in Hall. discriminate Hall. split; [discriminate|reflexivity].
Defined.

Lemma balloc_bfree_witness :
  exists a f f', (a ← balloc ROOTDEV; bfree ROOTDEV a;; ret a) (calm_state ⊕ f) = Ret a (calm_state ⊕ f').
Proof.
  destruct alloc_example as (f & Htx & Hmap & Hu).
  destruct (balloc_bfree 1 calm_state 2 alloc_sb f (reverse bufids) ∅ [] 50 (le_n 1) calm_state_calm)
    as (a & f' & l' & A' & hs' & E & _).
  - simpl. lia.
  - simpl. lia.
  - exact Htx.
  - exact Hmap.
  - simpl. unfold LOGBLOCKS, MAXOPBLOCKS. lia.
  - simpl. lia.
  - rewrite Hu by lia. reflexivity.
  - exists a, f, f'. exact E.
Defined.
End example.
