(* ===== verification/Path.v ===== *)
(** * Path names: [namei()] of [src/kernel/fs.c]

    A path is resolved on the disk by [resolve], which reads inodes and directories
    there. The kernel does it through the table of inodes: it takes references with
    [iget], reads inodes with [ilock] and gives them back with [iunlockput]. Here these
    operations are specified, and [namei] is shown to return a reference to the inode
    that [resolve] finds, and to leave every other reference count as it was. *)

From S2P Require Import Prelude Bytes Params FsTypes Machine Spinlock ProcCore Mem Kstring Pres PresVm Services.
From S2P Require Import Proc FsCore Sleeplock Calm Bio Lru BioSpec Log LogSpec Fs Dir FsSpec.

(** ** Elements of a path *)

Definition flush (cur : list Z) : list (list Z) := match cur with [] => [] | _ => [cur] end.

(** The names between the slashes. *)
Fixpoint elems_from (cur s : list Z) : list (list Z) :=
  match s with
  | [] => flush cur
  | c :: s => if c =? 47 then flush cur ++ elems_from [] s else elems_from (cur ++ [c]) s
  end.
Definition elems (s : list Z) : list (list Z) := elems_from [] s.

Lemma skip_slashes_elems s :
  exists p, skip_slashes (s ++ [0]) = p ++ [0] /\ elems p = elems s /\ (length p <= length s)%nat
    /\ head p <> Some 47 /\ (forall c, c ∈ p -> c ∈ s).
Proof.
  induction s as [|c s (p & E & He & Hl & Hh & Hin)]; simpl; [by exists []|].
  destruct (Z.eqb_spec c 47) as [->|Hc].
  - exists p. split_and!; [done|done|lia|done|set_solver].
  - exists (c :: s). split_and!; [done|done|done|simpl; congruence|done].
Qed.

Lemma take_elem_elems s : forall cur, 0 ∉ s ->
  exists e r, take_elem (s ++ [0]) = (e, r ++ [0]) /\ (length e + length r)%nat = length s
    /\ (forall c, c ∈ r -> c ∈ s) /\ (forall c, c ∈ e -> c ∈ s) /\ 0 ∉ e /\ (forall c s', s = c :: s' -> c <> 47 -> e <> [])
    /\ elems_from cur s = flush (cur ++ e) ++ elems r.
Proof.
  induction s as [|c s IH]; intros cur H0.
  { exists [], []. simpl. rewrite app_nil_r. unfold elems. simpl. rewrite app_nil_r. split_and!; try done; set_solver. }
  apply not_elem_of_cons in H0 as [Hc0 H0]. simpl. destruct (Z.eqb_spec c 47) as [->|Hc]; simpl.
  { exists [], (47 :: s). rewrite app_nil_r. split_and!; try done; set_solver. }
  rewrite (proj2 (Z.eqb_neq c 0)) by done.
  destruct (IH (cur ++ [c]) H0) as (e & r & E & Hl & Hin & Hie & He0 & _ & He). rewrite E.
  exists (c :: e), r. rewrite <- app_assoc in He. simpl in *. split_and!; try done; [lia|set_solver..].
Qed.

(** [skipelem] takes the first element off the path. *)
Lemma skipelem_elems p name :
  0 ∉ p ->
  match elems p with
  | [] => skipelem (p ++ [0]) name = Some None
  | e :: es => exists p', skipelem (p ++ [0]) name = Some (Some (p' ++ [0], copy_elem e name))
      /\ 0 ∉ p' /\ elems p' = es /\ (length p' < length p)%nat /\ 0 ∉ e /\ (forall c, c ∈ p' -> c ∈ p) /\ (forall c, c ∈ e -> c ∈ p)
  end.
Proof.
  intros H0. destruct (skip_slashes_elems p) as (q & Eq & Hq & Hlq & Hh & Hin). rewrite <- Hq.
  unfold skipelem. rewrite Eq. destruct q as [|c q]; [done|].
  assert (Hc0 : c <> 0) by (intros ->; apply H0, Hin; set_solver).
  assert (H0q : 0 ∉ c :: q) by (intros H; by apply H0, Hin).
  assert (Hc : c <> 47) by (intros ->; by apply Hh).
  cbn [app]. rewrite (proj2 (Z.eqb_neq c 0)) by done.
  destruct (take_elem_elems (c :: q) [] H0q) as (e & r & E & Hl & Hr & Hie & He0 & Hne & He).
  cbn [app] in E. rewrite E. specialize (Hne c q eq_refl Hc).
  destruct (skip_slashes_elems r) as (r' & Er & Hr' & Hlr & _ & Hinr). rewrite Er.
  unfold elems at 1. rewrite He. cbn [app]. destruct e as [|c' e]; [done|]. cbn [flush app].
  exists r'. split_and!.
  - by destruct r'.
  - intros H. by apply H0q, Hr, Hinr.
  - done.
  - simpl in Hl, Hlq. lia.
  - done.
  - intros d Hd. by apply Hin, Hr, Hinr.
  - intros d Hd. by apply Hin, Hie.
Qed.

Lemma cstr_nul s t : 0 ∉ s -> cstr (s ++ 0 :: t) = s.
Proof.
  induction s as [|c s IH]; intros Hs; simpl; [done|]. apply not_elem_of_cons in Hs as [Hc Hs].
  destruct (Z.eqb_spec c 0) as [->|_]; [done|]. by rewrite IH.
Qed.

Lemma cstr_free s : 0 ∉ s -> cstr s = s.
Proof.
  induction s as [|c s IH]; intros Hs; simpl; [done|]. apply not_elem_of_cons in Hs as [Hc Hs].
  destruct (Z.eqb_spec c 0) as [->|_]; [done|]. by rewrite IH.
Qed.

(** The characters of the name that count. *)
Lemma copy_elem_name e name :
  0 ∉ e -> length name = Z.to_nat DIRSIZ ->
  length (copy_elem e name) = Z.to_nat DIRSIZ
  /\ cstr (take (Z.to_nat DIRSIZ) (copy_elem e name)) = cstr (take (Z.to_nat DIRSIZ) e).
Proof.
  change (Z.to_nat DIRSIZ) with 14%nat. intros H0 Hl. unfold copy_elem. change (Z.to_nat DIRSIZ) with 14%nat.
  change DIRSIZ with 14. destruct (Z.leb_spec 14 (Z.of_nat (length e))) as [Hle|Hlt].
  - rewrite length_splice by (rewrite length_take; lia). split; [done|].
    unfold splice. simpl. rewrite length_take, Nat.min_l by lia. rewrite drop_ge, app_nil_r by lia.
    by rewrite take_take.
  - rewrite length_splice by (rewrite length_app; simpl; lia). split; [done|].
    rewrite (take_ge e) by lia. rewrite take_ge by (rewrite length_splice; rewrite ?length_app; simpl; lia).
    unfold splice. simpl. rewrite <- app_assoc. simpl.
    by rewrite cstr_nul, cstr_free.
Qed.

Lemma copy_elem_byte e name : Forall byte e -> Forall byte name -> Forall byte (copy_elem e name).
Proof.
  intros He Hn. assert (Hs : forall u, Forall byte u -> Forall byte (splice 0 u name)).
  { intros u Hu. unfold splice. apply Forall_app. split; [by apply Forall_take|]. apply Forall_app. split; [done|by apply Forall_drop]. }
  unfold copy_elem. destruct (_ <=? _); apply Hs; [by apply Forall_take|]. apply Forall_app. split; [done|].
  repeat constructor; lia.
Qed.

(** ** Resolving a path on the disk *)

Definition inode_at (rd : Z -> list Z) (sb : superblock) (inum : Z) : dinode :=
  dinode_at (dinode_off inum) (rd (IBLOCK inum sb)).

(** From inode [inum], along the elements of a path. *)
Fixpoint resolve (rd : Z -> list Z) (sb : superblock) (inum : Z) (els : list (list Z)) : option Z :=
  match els with
  | [] => Some inum
  | e :: els =>
      let d := inode_at rd sb inum in
      if di_type d =? T_DIR then
        match dir_find rd (di_addrs d) (di_size d) e with
        | Some j => resolve rd sb (de_inum (dir_entry rd (di_addrs d) j)) els
        | None => None
        end
      else None
  end.

(** The inodes in [live] are allocated and linked, and so are those that a directory
    among them names; directories have their blocks. *)
Record live_ok (D : image) (rd : Z -> list Z) (sb : superblock) (live : Z -> Prop) : Prop := {
  lv_bytes bn : Forall byte (rd bn);
  lv_block i : live i -> is_Some (D !! IBLOCK i sb);
  lv_type i : live i -> di_type (inode_at rd sb i) <> 0;
  lv_nlink i : live i -> di_nlink (inode_at rd sb i) <> 0;
  lv_dir i : live i -> di_type (inode_at rd sb i) = T_DIR ->
    let d := inode_at rd sb i in
    mapped D rd (di_addrs d) (di_size d) /\ 0 <= di_size d /\ di_size d mod sizeof_dirent = 0;
  lv_entry i j : live i -> di_type (inode_at rd sb i) = T_DIR ->
    let d := inode_at rd sb i in
    let de := dir_entry rd (di_addrs d) j in
    Z.of_nat j < di_size d / sizeof_dirent -> de_inum de <> 0 -> live (de_inum de);
}.

(** Only the contents of the blocks matter. *)
Section ext.
Context (rd rd' : Z -> list Z) (Hrd : forall bn, rd bn = rd' bn).

Lemma block_addr_eq addrs i : block_addr rd addrs i = block_addr rd' addrs i.
Proof. unfold block_addr. by rewrite Hrd. Qed.

Lemma inode_at_eq sb i : inode_at rd sb i = inode_at rd' sb i.
Proof. unfold inode_at. by rewrite Hrd. Qed.

Lemma dir_entry_eq addrs j : dir_entry rd addrs j = dir_entry rd' addrs j.
Proof. unfold dir_entry. by rewrite (file_bytes_ext rd rd'). Qed.

Lemma mapped_reads D addrs sz : mapped D rd addrs sz -> mapped D rd' addrs sz.
Proof. intros [M1 M2 M3 M4]. split; try done. intros fbn. rewrite <- block_addr_eq, <- Hrd. apply M3. Qed.

Lemma resolve_eq sb els : forall inum, resolve rd sb inum els = resolve rd' sb inum els.
Proof.
  induction els as [|e els IH]; intros inum; [done|]. cbn [resolve]. rewrite inode_at_eq, (dir_find_ext rd rd') by done.
  destruct (_ =? _); [|done]. destruct (dir_find _ _ _ _); [|done]. by rewrite dir_entry_eq.
Qed.

Lemma live_eq D sb live : live_ok D rd sb live -> live_ok D rd' sb live.
Proof.
  intros [L1 L2 L3 L4 L5 L6]. split; try done.
  - intros bn. rewrite <- Hrd. apply L1.
  - intros i. rewrite <- inode_at_eq. apply L3.
  - intros i. rewrite <- inode_at_eq. apply L4.
  - intros i. rewrite <- inode_at_eq. intros H1 H2. destruct (L5 i H1 H2) as [H3 H4]. split; [by apply mapped_reads|done].
  - intros i j. cbv zeta. rewrite <- inode_at_eq, <- dir_entry_eq. apply L6.
Qed.
End ext.

(** ** The table of inodes *)

Definition refs (t : list inode) : list Z := i_ref <$> t.

(** [x] is the inode [inum] of the root device, as the disk has it once it is read. *)
Definition agrees (rd : Z -> list Z) (sb : superblock) (x : inode) : Prop :=
  i_valid x <> 0 -> load_dinode (inode_at rd sb (i_inum x)) x = x.

Lemma agrees_ref rd sb x n : agrees rd sb x -> agrees rd sb (x <| i_ref := n |>).
Proof. intros H Hv. specialize (H Hv). apply (f_equal (fun y => y <| i_ref := n |>)) in H. exact H. Qed.

Section table.
Context `{Fuel} (pid : Z) (s : kstate) (Hcalm : calm pid s) (Hfuel : (0 < fuel)%nat).
Context (A : blocks_in_use) (Hroom : (size A < bhead)%nat).
Context (Hrc : forall bn rc d, A !! bn = Some (rc, d) -> rc < 900).
Context (D : image) (rd : Z -> list Z) (sb : superblock) (live : Z -> Prop) (Hlive : live_ok D rd sb live).

(** The cache, the table and the locks of the inodes; only [lk] is locked. *)
Record table_ok (f : fsst) (l : list nat) (lk : option nat) : Prop := {
  tk_cache : cache pid f l A ∅;
  tk_disk : fs_blocks f = D /\ view f A = rd /\ fs_sb f = sb;
  tk_len : Z.of_nat (length (fs_inodes f)) = NINODE;
  tk_refs : Forall (fun r => 0 <= r < 2 ^ 30 + 4) (refs (fs_inodes f));
  tk_sleep ip : Z.of_nat ip < NINODE -> exists nm q, fs_sleep f !! slp_inode ip
    = Some (if decide (lk = Some ip) then Sleeplock 1 nm pid else Sleeplock 0 nm q);
  tk_agrees ip x : fs_inodes f !! ip = Some x -> 0 < i_ref x -> i_dev x = ROOTDEV -> agrees rd sb x;
}.

Lemma table_same f f' l l' lk :
  table_ok f l lk -> same_disk f f' -> cache pid f' l' A ∅ -> table_ok f' l' lk.
Proof using Type.
  clear Hfuel Hroom Hrc Hlive. intros [T1 (T2 & T3 & T4) T5 T6 T7 T8] Hs Hc. pose proof (same_inodes _ _ Hs) as Hi.
  split; try done; try by rewrite Hi.
  - rewrite (same_blocks _ _ Hs), (same_view A _ _ Hs). split_and!; try done. by rewrite (proj1 Hs).
  - intros ip Hip. rewrite (proj2 Hs) by (unfold slp_inode, NBUF, MAXOPBLOCKS; lia). by apply T7.
Qed.

(** The lock of inode [ip]. *)
Lemma fs_lock_inode ip : Z.of_nat ip < NINODE -> fs_lock (LkSleep (slp_inode ip)).
Proof using Type. clear. intros Hip. right. unfold slp_inode. lia. Qed.

Lemma table_slot f l lk ip x : table_ok f l lk -> fs_inodes f !! ip = Some x -> Z.of_nat ip < NINODE /\ 0 <= i_ref x < 2 ^ 30 + 4.
Proof using Type.
  clear Hfuel Hroom Hrc Hlive. intros [_ _ T5 T6 _ _] Hx. split; [apply lookup_lt_Some in Hx; lia|].
  apply (proj1 (Forall_lookup _ _) T6 ip). unfold refs. by rewrite list_lookup_fmap, Hx.
Qed.

(** The table with another entry and the lock [lk']. *)
Lemma table_put f l lk ip x y lk' slp' :
  table_ok f l lk -> fs_inodes f !! ip = Some x ->
  0 <= i_ref y < 2 ^ 30 + 4 -> (0 < i_ref y -> i_dev y = ROOTDEV -> agrees rd sb y) ->
  (forall a, a < 1000 -> slp' !! a = fs_sleep f !! a) ->
  (forall j, Z.of_nat j < NINODE -> exists nm q, slp' !! slp_inode j
    = Some (if decide (lk' = Some j) then Sleeplock 1 nm pid else Sleeplock 0 nm q)) ->
  table_ok (f <| fs_inodes := <[ip := y]> (fs_inodes f) |> <| fs_sleep := slp' |>) l lk'.
Proof using Type.
  clear Hfuel Hroom Hrc Hlive. intros [T1 T2 T5 T6 T7 T8] Hx Hy Hag Hsl Hlk. pose proof (lookup_lt_Some _ _ _ Hx) as Hlt.
  split; try done.
  - destruct T1 as [Hr Hs Hu Hi Hq Hcl Hh]. split; try done. intros b Hb. simpl.
    rewrite Hsl by (unfold slp_buf, bhead, NBUF, MAXOPBLOCKS in *; lia). by apply Hs.
  - simpl. by rewrite length_insert.
  - simpl. unfold refs. rewrite list_fmap_insert. by apply Forall_insert.
  - intros j z Hj. simpl in Hj. apply list_lookup_insert_Some in Hj as [(<- & <- & _)|[_ Hj]]; [done|by apply (T8 j)].
Qed.

(** The table with [ip] locked, or unlocked. *)
Lemma table_lock f l lk lk' ip x y :
  table_ok f l lk -> fs_inodes f !! ip = Some x -> (lk = None /\ lk' = Some ip \/ lk = Some ip /\ lk' = None) ->
  (exists nm q, y = (if decide (lk' = Some ip) then Sleeplock 1 nm pid else Sleeplock 0 nm q)) ->
  table_ok (f <| fs_sleep := <[slp_inode ip := y]> (fs_sleep f) |>) l lk'.
Proof using Type.
  clear Hfuel Hroom Hrc Hlive. intros Ht Hx Hlk (nm & q & Hy).
  pose proof (table_put f l lk ip x x lk' (<[slp_inode ip := y]> (fs_sleep f)) Ht Hx) as H1.
  rewrite list_insert_id in H1 by done. replace (f <| fs_inodes := fs_inodes f |>) with f in H1 by by destruct f.
  apply H1.
  - by eapply table_slot.
  - intros Hr Hd. by apply (tk_agrees _ _ _ Ht ip).
  - intros a Ha. apply lookup_insert_ne. unfold slp_inode. lia.
  - intros j Hj. destruct (decide (ip = j)) as [<-|Hne].
    + exists nm, q. by rewrite lookup_insert_eq, Hy.
    + destruct (tk_sleep _ _ _ Ht j Hj) as (nm' & q' & E'). exists nm', q'.
      rewrite lookup_insert_ne by (unfold slp_inode; lia). rewrite E'. f_equal.
      destruct Hlk as [[-> ->]|[-> ->]]; repeat case_decide; congruence.
Qed.

(** [ilock] of a referenced inode that is alive. *)
Lemma ilock_run f l ip x :
  table_ok f l None -> fs_inodes f !! ip = Some x -> 0 < i_ref x -> i_dev x = ROOTDEV -> live (i_inum x) ->
  exists f' l' x', ilock ip (s ⊕ f) = Ret tt (s ⊕ f') /\ table_ok f' l' (Some ip)
    /\ fs_inodes f' = <[ip := x']> (fs_inodes f)
    /\ x' = load_dinode (inode_at rd sb (i_inum x)) (x <| i_valid := i_valid x' |>) /\ i_valid x' <> 0.
Proof.
  intros Ht Hx Hr Hdev Hl. destruct (table_slot _ _ _ _ _ Ht Hx) as [Hip Href].
  destruct (tk_sleep _ _ _ Ht ip Hip) as (nm & q & Hsl). rewrite decide_False in Hsl by done.
  unfold ilock. erewrite bind_Ret by by apply get_inode_run.
  rewrite (proj2 (Z.ltb_ge (i_ref x) 1)) by lia.
  erewrite bind_Ret by (eapply (acquiresleep_run pid s Hcalm); [done|by apply fs_lock_inode|exact Hsl]).
  set (f1 := f <| fs_sleep := _ |>).
  assert (H1 : table_ok f1 l (Some ip)).
  { apply (table_lock f l None _ ip x); [done|done|by left|]. exists nm, 0. by rewrite decide_True. }
  erewrite bind_Ret by by apply get_inode_run. destruct (Z.eqb_spec (i_valid x) 0) as [Hv|Hv].
  2: { exists f1, l, x. split_and!; [done|done| | |done].
       - simpl. by rewrite list_insert_id.
       - rewrite (tk_agrees _ _ _ Ht ip x); done. }
  cbn [when]. destruct (tk_disk _ _ _ H1) as (Hbl & Hvw & Hsb).
  erewrite bind_Ret by done. change (fs_sb (k_fs (s ⊕ f1))) with (fs_sb f1). rewrite Hsb, Hdev.
  set (d := inode_at rd sb (i_inum x)). set (y := load_dinode d x).
  destruct (block_run_with pid s Hcalm Hfuel A Hroom Hrc f1 l (IBLOCK (i_inum x) sb) (<[ip := y]> (fs_inodes f1)))
    as (b & f2 & f3 & l3 & E1 & E2 & S2 & E3 & S3 & C3); [apply H1|rewrite Hbl; by apply (lv_block _ _ _ _ Hlive)|].
  rewrite (bind_Ret _ _ _ _ _ E1), (bind_Ret _ _ _ _ _ E2), Hvw. fold (inode_at rd sb (i_inum x)). fold d. cbv zeta.
  erewrite bind_Ret by (eapply upd_inode_run; rewrite (same_inodes _ _ S2); exact Hx).
  rewrite (same_inodes _ _ S2), (alter_insert _ _ _ _ Hx). rewrite (bind_Ret _ _ _ _ _ E3).
  assert (Hi3 : fs_inodes f3 !! ip = Some y).
  { rewrite (same_inodes _ _ S3). simpl. apply list_lookup_insert_eq. by eapply lookup_lt_Some. }
  erewrite bind_Ret by (eapply upd_inode_run; exact Hi3). rewrite (alter_insert _ _ _ _ Hi3).
  rewrite (proj2 (Z.eqb_neq (di_type d) 0)) by by apply (lv_type _ _ _ _ Hlive).
  set (z := y <| i_valid := 1 |>). exists (f3 <| fs_inodes := <[ip := z]> (fs_inodes f3) |>), l3, z.
  split_and!; [done| | |done|done].
  - assert (Hz : table_ok (f1 <| fs_inodes := <[ip := z]> (fs_inodes f1) |> <| fs_sleep := fs_sleep f1 |>) l (Some ip)).
    { apply (table_put f1 l (Some ip) ip x z (Some ip) (fs_sleep f1) H1 Hx Href); [|done|apply H1]. done. }
    eapply table_same; [exact Hz| |by apply cache_inodes]. rewrite (same_inodes _ _ S3). simpl.
    rewrite list_insert_insert_eq. destruct S3 as [S3 H3]. split; [by rewrite S3|exact H3].
  - simpl. rewrite (same_inodes _ _ S3). simpl. by rewrite list_insert_insert_eq.
Qed.

(** [iunlock] of the locked inode. *)
Lemma iunlock_run f l ip x :
  table_ok f l (Some ip) -> fs_inodes f !! ip = Some x -> 0 < i_ref x ->
  exists f', iunlock ip (s ⊕ f) = Ret tt (s ⊕ f') /\ table_ok f' l None /\ fs_inodes f' = fs_inodes f.
Proof.
  clear Hroom Hrc Hlive. intros Ht Hx Hr. destruct (table_slot _ _ _ _ _ Ht Hx) as [Hip Href].
  destruct (tk_sleep _ _ _ Ht ip Hip) as (nm & q & Hsl). rewrite decide_True in Hsl by done.
  unfold iunlock. erewrite bind_Ret by (eapply (holdingsleep_run pid s Hcalm); [by apply fs_lock_inode|exact Hsl]).
  erewrite bind_Ret by by apply get_inode_run. rewrite (proj2 (Z.ltb_ge (i_ref x) 1)) by lia. simpl.
  eexists. split_and!; [eapply (releasesleep_run pid s Hcalm); [by apply fs_lock_inode|exact Hsl]| |done].
  apply (table_lock f l (Some ip) _ ip x); [done|done|by right|]. exists nm, 0. by rewrite decide_False.
Qed.

(** [iput] of a reference to an inode that is linked, or not read. *)
Lemma iput_run f l ip x :
  table_ok f l None -> fs_inodes f !! ip = Some x -> 0 < i_ref x -> (i_valid x <> 0 -> i_nlink x <> 0) ->
  exists f', iput ip (s ⊕ f) = Ret tt (s ⊕ f') /\ table_ok f' l None
    /\ fs_inodes f' = <[ip := x <| i_ref := i_ref x - 1 |>]> (fs_inodes f) /\ fs_sleep f' = fs_sleep f.
Proof.
  clear Hroom Hrc Hlive. intros Ht Hx Hr Hnl. destruct (table_slot _ _ _ _ _ Ht Hx) as [Hip Href].
  unfold iput. erewrite bind_Ret by by eapply acquire_fs. erewrite bind_Ret by by apply get_inode_run.
  assert (E : (i_ref x =? 1) && truthy (i_valid x) && (i_nlink x =? 0) = false).
  { unfold truthy. destruct (Z.eqb_spec (i_valid x) 0) as [Hv|Hv]; simpl; [by rewrite andb_false_r|].
    rewrite (proj2 (Z.eqb_neq (i_nlink x) 0)) by auto. by rewrite andb_false_r. }
  rewrite E. erewrite bind_Ret by done. erewrite bind_Ret by by eapply upd_inode_run.
  rewrite (alter_insert _ _ _ _ Hx), s32_small by lia.
  eexists. split_and!; [by eapply release_fs| |done|done].
  pose proof (table_put f l None ip x (x <| i_ref := i_ref x - 1 |>) None (fs_sleep f) Ht Hx) as H1.
  apply H1; [simpl; lia| |done|apply Ht]. intros Hr1 Hd. apply agrees_ref. by apply (tk_agrees _ _ _ Ht ip x).
Qed.

Lemma iunlockput_run f l ip x :
  table_ok f l (Some ip) -> fs_inodes f !! ip = Some x -> 0 < i_ref x -> i_dev x = ROOTDEV -> live (i_inum x) ->
  exists f', iunlockput ip (s ⊕ f) = Ret tt (s ⊕ f') /\ table_ok f' l None
    /\ fs_inodes f' = <[ip := x <| i_ref := i_ref x - 1 |>]> (fs_inodes f).
Proof.
  intros Ht Hx Hr Hd Hl. destruct (iunlock_run f l ip x Ht Hx Hr) as (f1 & E1 & H1 & I1).
  destruct (iput_run f1 l ip x H1) as (f2 & E2 & H2 & I2 & _); [by rewrite I1|done| |].
  { intros Hv. rewrite <- (tk_agrees _ _ _ Ht ip x Hx Hr Hd Hv). by apply (lv_nlink _ _ _ _ Hlive). }
  exists f2. split_and!; [|done|by rewrite I2, I1]. unfold iunlockput. by rewrite (bind_Ret _ _ _ _ _ E1).
Qed.

Lemma refs_insert (t : list inode) ip x y k :
  t !! ip = Some x -> i_ref y = i_ref x + k -> refs (<[ip := y]> t) = alter (Z.add k) ip (refs t).
Proof using Type.
  clear. intros Hx Hy. unfold refs. rewrite list_fmap_insert. symmetry.
  erewrite alter_insert by (rewrite list_lookup_fmap, Hx; reflexivity). by rewrite Hy, Z.add_comm.
Qed.

(** [iget] with an entry for the inode. *)
Lemma igot_run f l lk inum :
  table_ok f l lk -> Forall (fun r => r < 2 ^ 30 + 3) (refs (fs_inodes f)) -> 0 ∈ refs (fs_inodes f) ->
  exists ip x x', let t := <[ip := x']> (fs_inodes f) in
    igot (fs_inodes f) ROOTDEV inum = Some (ip, t) /\ fs_inodes f !! ip = Some x
    /\ table_ok (f <| fs_inodes := t |>) l lk
    /\ i_dev x' = ROOTDEV /\ i_inum x' = inum /\ i_ref x' = i_ref x + 1
    /\ (0 < i_ref x -> x' = x <| i_ref := i_ref x + 1 |>).
Proof using Type.
  clear Hfuel Hroom Hrc Hlive. intros Ht Hb Hz. unfold igot.
  assert (Hput : forall ip x y, fs_inodes f !! ip = Some x -> 0 <= i_ref y < 2 ^ 30 + 4 ->
    (0 < i_ref y -> i_dev y = ROOTDEV -> agrees rd sb y) -> table_ok (f <| fs_inodes := <[ip := y]> (fs_inodes f) |>) l lk).
  { intros ip x y Hx Hy Hag. exact (table_put f l lk ip x y lk (fs_sleep f) Ht Hx Hy Hag (fun _ _ => eq_refl) (tk_sleep _ _ _ Ht)). }
  destruct (List.find (caches _ _ _) _) as [ip|] eqn:Ec.
  - apply find_lt in Ec as [Hip Hc]. destruct (lookup_lt_is_Some_2 _ _ Hip) as [x Hx].
    unfold caches in Hc. rewrite Hx in Hc. bool_to_prop.
    destruct (table_slot _ _ _ _ _ Ht Hx) as [_ Href].
    assert (Hlt : i_ref x < 2 ^ 30 + 3).
    { apply (proj1 (Forall_lookup _ _) Hb ip). unfold refs. by rewrite list_lookup_fmap, Hx. }
    exists ip, x, (x <| i_ref := i_ref x + 1 |>). rewrite (alter_insert _ _ _ _ Hx), s32_small by lia.
    split_and!; try done. apply (Hput ip x); [done|simpl; lia|]. intros _ Hd. apply agrees_ref.
    by apply (tk_agrees _ _ _ Ht ip x).
  - destruct (List.find (free_slot _) _) as [ip|] eqn:Ef.
    + apply find_lt in Ef as [Hip Hc]. destruct (lookup_lt_is_Some_2 _ _ Hip) as [x Hx].
      unfold free_slot in Hc. rewrite Hx in Hc. bool_to_prop.
      exists ip, x, (x <| i_dev := ROOTDEV |> <| i_inum := inum |> <| i_ref := 1 |> <| i_valid := 0 |>).
      rewrite (alter_insert _ _ _ _ Hx). split_and!; try done; [|simpl; lia|lia].
      apply (Hput ip x); [done|simpl; lia|]. intros _ _. by intros Hv.
    + exfalso. apply list_elem_of_lookup in Hz as [i Hi]. unfold refs in Hi. rewrite list_lookup_fmap in Hi.
      apply fmap_Some in Hi as (x & Hx & H0).
      apply (find_none _ _) with (x := i) in Ef; [|apply in_seq; apply lookup_lt_Some in Hx; lia].
      unfold free_slot in Ef. rewrite Hx in Ef. bool_to_prop. congruence.
Qed.

(** A reference to [inum] is held in entry [ip], beyond the reference counts [R]. *)
Definition holds (f : fsst) (l : list nat) (ip : nat) (inum : Z) (R : list Z) : Prop :=
  table_ok f l None /\ exists x, fs_inodes f !! ip = Some x /\ i_dev x = ROOTDEV /\ i_inum x = inum
    /\ refs (fs_inodes f) = alter (Z.add 1) ip R.

(** Two entries of the table are free. *)
Definition room (R : list Z) : Prop :=
  Forall (fun r => 0 <= r < 2 ^ 30) R /\ exists i j, i <> j /\ R !! i = Some 0 /\ R !! j = Some 0.

Lemma room_held R ip : room R -> 0 ∈ alter (Z.add 1) ip R.
Proof using Type.
  clear. intros (_ & i & j & Hij & Hi & Hj). apply list_elem_of_lookup. destruct (decide (ip = i)) as [->|Hne].
  - exists j. by rewrite list_lookup_alter_ne.
  - exists i. by rewrite list_lookup_alter_ne.
Qed.

Lemma room_bound R ip : room R -> Forall (fun r => 0 <= r < 2 ^ 30 + 1) (alter (Z.add 1) ip R).
Proof using Type.
  clear. intros [Hb _]. apply Forall_lookup. intros i r Hi. destruct (decide (ip = i)) as [->|Hne].
  - rewrite list_lookup_alter_eq in Hi. apply fmap_Some in Hi as (r0 & Hr & ->).
    pose proof (proj1 (Forall_lookup _ _) Hb _ _ Hr). simpl in *. lia.
  - rewrite list_lookup_alter_ne in Hi by done. pose proof (proj1 (Forall_lookup _ _) Hb _ _ Hi). simpl in *. lia.
Qed.

Lemma held_ref f l ip inum R x : holds f l ip inum R -> room R -> fs_inodes f !! ip = Some x -> 0 < i_ref x < 2 ^ 30 + 1.
Proof using Type.
  clear Hfuel Hroom Hrc Hlive. intros (Ht & x' & Hx' & _ & _ & Hr) HR Hx.
  assert (E : refs (fs_inodes f) !! ip = Some (i_ref x)) by (unfold refs; by rewrite list_lookup_fmap, Hx).
  pose proof (room_bound R ip HR) as Hb. rewrite <- Hr in Hb. pose proof (proj1 (Forall_lookup _ _) Hb _ _ E) as Hb1.
  rewrite Hr, list_lookup_alter_eq in E. apply fmap_Some in E as (r0 & Hr0 & E).
  pose proof (proj1 (Forall_lookup _ _) (proj1 HR) _ _ Hr0) as Hb0. simpl in Hb0, Hb1. lia.
Qed.

Lemma dir_find_name addrs sz e name :
  cstr (take (Z.to_nat DIRSIZ) name) = cstr (take (Z.to_nat DIRSIZ) e) ->
  dir_find rd addrs sz name = dir_find rd addrs sz e.
Proof using Type. intros E. unfold dir_find, de_matches. by rewrite E. Qed.

Lemma alter_alter_back (R : list Z) i j : alter (Z.add (-1)) i (alter (Z.add 1) j (alter (Z.add 1) i R)) = alter (Z.add 1) j R.
Proof using Type.
  clear. apply list_eq. intros k. destruct (decide (i = k)) as [<-|Hi], (decide (j = i)) as [->|Hj].
  - rewrite !list_lookup_alter_eq. destruct (R !! i); simpl; [|done]. f_equal. lia.
  - rewrite list_lookup_alter_eq, !(list_lookup_alter_ne _ _ j), list_lookup_alter_eq by done.
    destruct (R !! i); simpl; [|done]. f_equal. lia.
  - by rewrite !list_lookup_alter_ne by done.
  - rewrite list_lookup_alter_ne by done. destruct (decide (j = k)) as [<-|Hjk].
    + by rewrite !list_lookup_alter_eq, list_lookup_alter_ne by done.
    + by rewrite !list_lookup_alter_ne by done.
Qed.

Lemma alter_back (R : list Z) i : alter (Z.add (-1)) i (alter (Z.add 1) i R) = R.
Proof using Type.
  clear. apply list_eq. intros k. destruct (decide (i = k)) as [<-|Hi].
  - rewrite !list_lookup_alter_eq. destruct (R !! i); simpl; [|done]. f_equal. lia.
  - by rewrite !list_lookup_alter_ne by done.
Qed.

(** Giving back the reference. *)
Lemma iunlockput_held f l ip R' x :
  table_ok f l (Some ip) -> fs_inodes f !! ip = Some x -> 0 < i_ref x -> i_dev x = ROOTDEV -> live (i_inum x) ->
  R' = alter (Z.add (-1)) ip (refs (fs_inodes f)) ->
  exists f', iunlockput ip (s ⊕ f) = Ret tt (s ⊕ f') /\ table_ok f' l None /\ refs (fs_inodes f') = R'
    /\ fs_inodes f' = <[ip := x <| i_ref := i_ref x - 1 |>]> (fs_inodes f).
Proof.
  intros Ht Hx Hr Hd Hl ->. destruct (iunlockput_run f l ip x Ht Hx Hr Hd Hl) as (f' & E & H' & I').
  exists f'. split_and!; try done. rewrite I'. apply (refs_insert _ _ x); [done|]. simpl. lia.
Qed.

(** [dirlookup] in the locked directory [ip]. *)
Lemma lookup_run f l ip x name e R :
  table_ok f l (Some ip) -> fs_inodes f !! ip = Some x -> i_dev x = ROOTDEV -> live (i_inum x) ->
  let d := inode_at rd sb (i_inum x) in
  i_type x = T_DIR -> di_type d = T_DIR -> i_size x = di_size d -> i_addrs x = di_addrs d ->
  room R -> refs (fs_inodes f) = alter (Z.add 1) ip R ->
  length name = Z.to_nat DIRSIZ -> Forall byte name ->
  cstr (take (Z.to_nat DIRSIZ) name) = cstr (take (Z.to_nat DIRSIZ) e) ->
  match dir_find rd (di_addrs d) (di_size d) e with
  | Some j => exists ip2 x2 y2 off f' l', dirlookup ip name (s ⊕ f) = Ret (Some (ip2, off)) (s ⊕ f')
      /\ table_ok f' l' (Some ip) /\ fs_inodes f !! ip2 = Some x2 /\ fs_inodes f' = <[ip2 := y2]> (fs_inodes f)
      /\ i_dev y2 = ROOTDEV /\ i_inum y2 = de_inum (dir_entry rd (di_addrs d) j) /\ i_ref y2 = i_ref x2 + 1
      /\ (0 < i_ref x2 -> y2 = x2 <| i_ref := i_ref x2 + 1 |>)
      /\ live (de_inum (dir_entry rd (di_addrs d) j))
  | None => exists f' l', dirlookup ip name (s ⊕ f) = Ret None (s ⊕ f') /\ table_ok f' l' (Some ip)
      /\ fs_inodes f' = fs_inodes f
  end.
Proof.
  intros Ht Hx Hd Hl d Hty Hty' Hsz Had HR Hrefs Hn Hb Hcs.
  destruct (tk_disk _ _ _ Ht) as (Hbl & Hvw & Hsb). destruct (lv_dir _ _ _ _ Hlive _ Hl Hty') as (Hm & Hs0 & Hs16).
  assert (Hda : dir_at pid A ip x f l).
  { split; [apply Ht|done| | |]; rewrite ?Hbl, ?Hvw, ?Hsz, ?Had; try done. by apply (lv_bytes _ _ _ _ Hlive). }
  pose proof (dirlookup_run pid s Hcalm Hfuel A Hroom Hrc ip x Hd name Hb (or_introl (eq_ind_r (fun n => (_ <= n)%nat) (le_n _) Hn))
    f l Hda (tk_len _ _ _ Ht) Hty) as Hres.
  rewrite Hvw, Hsz, Had, (dir_find_name _ _ e) in Hres by done. fold d in Hs0, Hs16, Hm.
  unfold lookup_result in Hres. destruct (dir_find rd (di_addrs d) (di_size d) e) as [j|] eqn:Ej.
  2: { destruct Hres as (f' & l' & E & [C' _ _ _ _] & S'). exists f', l'. split_and!; [done|by eapply table_same|by apply same_inodes]. }
  rewrite Hvw, Had in Hres.
  destruct (igot_run f l (Some ip) (de_inum (dir_entry rd (di_addrs d) j)) Ht) as (ip2 & x2 & y2 & Eg & Hx2 & Ht2 & Hy2).
  { rewrite Hrefs. eapply Forall_impl; [by apply room_bound|]. simpl. lia. }
  { rewrite Hrefs. by apply room_held. }
  rewrite Eg in Hres. destruct Hres as (f' & l' & E & [C' _ _ _ _] & S').
  eexists ip2, x2, y2, _, _, l'. split_and!; [exact E| |done|done|apply Hy2..|].
  - eapply table_same; [exact Ht2| |by apply cache_inodes]. destruct S' as [S' H']. split; [by rewrite S'|exact H'].
  - apply find_lt in Ej as [Hj Hm2]. unfold de_matches in Hm2. bool_to_prop.
    apply (lv_entry _ _ _ _ Hlive _ j Hl Hty'); fold d; [|done].
    assert (0 <= di_size d / sizeof_dirent) by (apply Z.div_pos; done). lia.
Qed.

(** The directory is given back, and the reference to the next inode stays. *)
Lemma next_held t f l ip x ip2 x2 y2 R :
  table_ok f l (Some ip) -> t !! ip = Some x -> t !! ip2 = Some x2 -> fs_inodes f = <[ip2 := y2]> t ->
  refs t = alter (Z.add 1) ip R -> 0 < i_ref x -> i_dev x = ROOTDEV -> live (i_inum x) ->
  i_dev y2 = ROOTDEV -> i_ref y2 = i_ref x2 + 1 -> (0 < i_ref x2 -> y2 = x2 <| i_ref := i_ref x2 + 1 |>) ->
  exists f', iunlockput ip (s ⊕ f) = Ret tt (s ⊕ f') /\ holds f' l ip2 (i_inum y2) R.
Proof.
  intros Ht Hx Hx2 If Hrf Hr Hd Hl G1 G3 G4.
  assert (Hr2 : refs (fs_inodes f) = alter (Z.add 1) ip2 (alter (Z.add 1) ip R)).
  { rewrite If, <- Hrf. by apply (refs_insert _ _ x2). }
  assert (Hx3 : exists x3, fs_inodes f !! ip = Some x3 /\ 0 < i_ref x3 /\ i_dev x3 = ROOTDEV /\ i_inum x3 = i_inum x
    /\ (ip = ip2 -> x3 = y2)).
  { rewrite If. destruct (decide (ip2 = ip)) as [->|Hne].
    - exists y2. rewrite list_lookup_insert_eq by by eapply lookup_lt_Some. rewrite Hx in Hx2. injection Hx2 as <-.
      rewrite (G4 Hr). split_and!; try done. simpl. lia.
    - exists x. rewrite list_lookup_insert_ne by done. by split_and!. }
  destruct Hx3 as (x3 & Hx3 & Hr3 & Hd3 & Hi3 & Heq).
  destruct (iunlockput_held f l ip (alter (Z.add 1) ip2 R) x3 Ht Hx3 Hr3 Hd3) as (f' & E & Ht' & R' & I');
    [by rewrite Hi3|by rewrite Hr2, alter_alter_back|].
  exists f'. split; [done|]. split; [done|]. rewrite I'. destruct (decide (ip = ip2)) as [<-|Hne].
  - specialize (Heq eq_refl). subst x3. eexists. rewrite list_lookup_insert_eq by by eapply lookup_lt_Some.
    split_and!; [done|done|done|by rewrite <- I'].
  - exists y2. rewrite list_lookup_insert_ne, If, list_lookup_insert_eq by (done || by eapply lookup_lt_Some).
    split_and!; [done|done|done|by rewrite <- If, <- I'].
Qed.

(** What [namex] returns for the inode [found]: a reference to it, or nothing. *)
Definition found_inode (R : list Z) (found : option Z) (r : outcome (option nat * list Z)) : Prop :=
  match found with
  | Some inum => exists ip name f' l', r = Ret (Some ip, name) (s ⊕ f') /\ holds f' l' ip inum R
  | None => exists name f' l', r = Ret (None, name) (s ⊕ f') /\ table_ok f' l' None /\ refs (fs_inodes f') = R
  end.

Lemma namex_loop_run k : forall f l ip inum R p name,
  holds f l ip inum R -> room R -> live inum -> 0 ∉ p -> Forall byte p -> (length p < k)%nat ->
  length name = Z.to_nat DIRSIZ -> Forall byte name ->
  found_inode R (resolve rd sb inum (elems p)) (namex_loop k ip (p ++ [0]) false name (s ⊕ f)).
Proof.
  induction k as [|k IH]; intros f l ip inum R p name Hh HR Hl H0 Hp Hk Hn Hb; [lia|]. cbn [namex_loop].
  pose proof (skipelem_elems p name H0) as Hsk. destruct (elems p) as [|e es].
  { rewrite Hsk. erewrite bind_Ret by done. simpl. by exists ip, name, f, l. }
  destruct Hsk as (p' & Esk & H0' & <- & Hlen & He0 & Hin & Hine). rewrite Esk. erewrite bind_Ret by done. cbv beta iota.
  destruct (copy_elem_name e name He0 Hn) as [Hn' Hcs]. set (name' := copy_elem e name) in *.
  pose proof Hh as (Ht & x & Hx & Hd & Hi & Hrf). pose proof (held_ref f l ip inum R x Hh HR Hx) as Hr.
  destruct (ilock_run f l ip x Ht Hx (proj1 Hr) Hd) as (f1 & l1 & x1 & E1 & Ht1 & I1 & Hx1 & Hv1); [by rewrite Hi|].
  rewrite Hi in Hx1. set (d := inode_at rd sb inum) in *.
  assert (Hx1' : fs_inodes f1 !! ip = Some x1) by (rewrite I1; apply list_lookup_insert_eq; by eapply lookup_lt_Some).
  assert (Hf1 : i_dev x1 = ROOTDEV /\ i_inum x1 = inum /\ i_ref x1 = i_ref x /\ i_type x1 = di_type d
    /\ i_size x1 = di_size d /\ i_addrs x1 = di_addrs d) by (rewrite Hx1; done).
  destruct Hf1 as (F1 & F2 & F3 & F4 & F5 & F6).
  assert (Hrf1 : refs (fs_inodes f1) = alter (Z.add 1) ip R).
  { rewrite I1, (refs_insert _ _ x _ 0 Hx) by lia. rewrite Hrf. apply list_eq. intros j.
    destruct (decide (ip = j)) as [<-|Hne]; [|by rewrite list_lookup_alter_ne].
    rewrite list_lookup_alter_eq. by destruct (alter _ _ _ !! ip). }
  rewrite (bind_Ret _ _ _ _ _ E1). erewrite bind_Ret by by apply get_inode_run. rewrite F4. cbn [resolve]. fold d.
  destruct (Z.eqb_spec (di_type d) T_DIR) as [Hty|Hty]; cbn [negb].
  2: { destruct (iunlockput_held f1 l1 ip R x1 Ht1 Hx1') as (f2 & E2 & Ht2 & R2 & _); try done; [lia|by rewrite F2|by rewrite Hrf1, alter_back|].
       rewrite (bind_Ret _ _ _ _ _ E2). by exists name', f2, l1. }
  assert (Hc : exists c, head (p' ++ [0]) = Some c) by (destruct p'; by eexists). destruct Hc as [c Hc].
  rewrite Hc. erewrite bind_Ret by done. cbn [andb].
  assert (Hb' : Forall byte name').
  { apply copy_elem_byte; [|done]. apply Forall_forall. intros y Hy. by apply (proj1 (Forall_forall _ _) Hp), Hine. }
  pose proof (lookup_run f1 l1 ip x1 name' e R Ht1 Hx1' F1) as Hlk. rewrite F2 in Hlk. fold d in Hlk.
  specialize (Hlk Hl ltac:(by rewrite F4) Hty F5 F6 HR Hrf1 Hn' Hb' Hcs).
  destruct (dir_find rd (di_addrs d) (di_size d) e) as [j|].
  2: { destruct Hlk as (f2 & l2 & E2 & Ht2 & I2). rewrite (bind_Ret _ _ _ _ _ E2). cbv beta iota.
       destruct (iunlockput_held f2 l2 ip R x1 Ht2) as (f3 & E3 & Ht3 & R3 & _);
         [by rewrite I2|lia|done|by rewrite F2|by rewrite I2, Hrf1, alter_back|].
       rewrite (bind_Ret _ _ _ _ _ E3). by exists name', f3, l2. }
  destruct Hlk as (ip2 & x2 & y2 & off & f2 & l2 & E2 & Ht2 & Hx2 & I2 & G1 & G2 & G3 & G4 & G5).
  rewrite (bind_Ret _ _ _ _ _ E2). cbv beta iota.
  destruct (next_held (fs_inodes f1) f2 l2 ip x1 ip2 x2 y2 R Ht2 Hx1' Hx2 I2 Hrf1) as (f3 & E3 & Hh3);
    [lia|done|by rewrite F2|done|done|done|].
  rewrite (bind_Ret _ _ _ _ _ E3). rewrite G2 in Hh3. apply (IH f3 l2); try done; [|lia].
  apply Forall_forall. intros y Hy. by apply (proj1 (Forall_forall _ _) Hp), Hin.
Qed.

(** Absolute paths. *)
Lemma namei_run f l p :
  table_ok f l None -> room (refs (fs_inodes f)) -> live ROOTINO -> 0 ∉ p -> Forall byte p ->
  match resolve rd sb ROOTINO (elems p) with
  | Some inum => exists ip f' l', namei (47 :: p ++ [0]) (s ⊕ f) = Ret (Some ip) (s ⊕ f')
      /\ holds f' l' ip inum (refs (fs_inodes f))
  | None => exists f' l', namei (47 :: p ++ [0]) (s ⊕ f) = Ret None (s ⊕ f')
      /\ table_ok f' l' None /\ refs (fs_inodes f') = refs (fs_inodes f)
  end.
Proof.
  intros Ht HR Hl H0 Hp. unfold namei, namex.
  destruct (igot_run f l None ROOTINO Ht) as (ip & x & y & Eg & Hx & Ht1 & Hy).
  { eapply Forall_impl; [apply HR|]. simpl. lia. }
  { destruct HR as (_ & i & _ & _ & Hi & _). apply list_elem_of_lookup. by exists i. }
  set (f1 := f <| fs_inodes := <[ip := y]> (fs_inodes f) |>) in *.
  assert (Hh : holds f1 l ip ROOTINO (refs (fs_inodes f))).
  { split; [done|]. exists y. destruct Hy as (? & ? & ? & _). split_and!; try done.
    - apply list_lookup_insert_eq. by eapply lookup_lt_Some.
    - by apply (refs_insert _ _ x). }
  assert (Ei : iget ROOTDEV ROOTINO (s ⊕ f) = Ret ip (s ⊕ f1)) by by rewrite (iget_run pid), Eg by (done || apply Ht).
  pose proof (namex_loop_run (S (length (47 :: p ++ [0]))) f1 l ip ROOTINO (refs (fs_inodes f)) (47 :: p) name_zero Hh HR Hl) as Hrun.
  change (elems (47 :: p)) with (elems p) in Hrun. cbn [app] in Hrun.
  assert (Hrun' := Hrun ltac:(set_solver) ltac:(by constructor) ltac:(simpl; rewrite length_app; simpl; lia) eq_refl
    ltac:(by repeat constructor)). clear Hrun.
  destruct (resolve rd sb ROOTINO (elems p)) as [inum|].
  - destruct Hrun' as (ip' & name & f' & l' & E & Hh'). exists ip', f', l'. split; [|done].
    erewrite bind_Ret by (cbn [head]; erewrite bind_Ret by done; erewrite bind_Ret by exact Ei; exact E). done.
  - destruct Hrun' as (name & f' & l' & E & Hh'). exists f', l'. split; [|done].
    erewrite bind_Ret by (cbn [head]; erewrite bind_Ret by done; erewrite bind_Ret by exact Ei; exact E). done.
Qed.
End table.

(** C4. [namei(path)] of an absolute path resolves it as the directories on the disk say:
    when every element names an entry of a directory, it returns an entry of the inode
    table for the inode at the end, with one more reference; when one does not, or is
    not in a directory, it returns 0. Every other reference count, every lock and the
    disk are as before: no reference is lost on any way. *)
Theorem namei_spec `{Fuel} pid s f l A D rd sb live p :
  (0 < fuel)%nat -> calm pid s -> (size A < bhead)%nat ->
  (forall bn rc d, A !! bn = Some (rc, d) -> rc < 900) ->
  live_ok D rd sb live -> live ROOTINO -> table_ok pid A D rd sb f l None -> room (refs (fs_inodes f)) ->
  0 ∉ p -> Forall byte p ->
  match resolve rd sb ROOTINO (elems p) with
  | Some inum => exists ip f' l', namei (47 :: p ++ [0]) (s ⊕ f) = Ret (Some ip) (s ⊕ f')
      /\ holds pid A D rd sb f' l' ip inum (refs (fs_inodes f))
  | None => exists f' l', namei (47 :: p ++ [0]) (s ⊕ f) = Ret None (s ⊕ f')
      /\ table_ok pid A D rd sb f' l' None /\ refs (fs_inodes f') = refs (fs_inodes f)
  end.
Proof. intros Hf Hc Hs Hrc Hlive Hr Ht HR H0 Hp. by eapply (namei_run pid s Hc Hf A Hs Hrc D rd sb live Hlive). Qed.

(** ** A disk with a file in the root directory *)

Section example.
#[local] Instance path_fuel : Fuel := 1%nat.

Definition path_sb : superblock := Superblock FSMAGIC 100 50 32 10 2 33 46.

(** The inodes 1, the root directory, and 5, a file without content. *)
Definition path_inodes : list Z :=
  put_dinode (dinode_off 1) (Dinode T_DIR 0 0 1 48 (7 :: replicate 12 0))
    (put_dinode (dinode_off 5) (Dinode T_FILE 0 0 1 0 (replicate 13 0)) zero_block).

Definition path_disk : image := {[7 := example_dir; 33 := path_inodes]}.

Definition path_locks : gmap Z sleeplock :=
  list_to_map ((fun i => (slp_inode i, Sleeplock 0 "inode" 0)) <$> seq 0 50).

Definition path_rd (bn : Z) : list Z := default zero_block (path_disk !! bn).

Lemma path_live : live_ok path_disk path_rd path_sb (fun i => i = 1 \/ i = 5).
Proof.
  split.
  - intros bn. unfold path_rd, path_disk. destruct (decide (bn = 7)) as [->|H7].
    { simplify_map_eq. apply (bool_decide_eq_true_1 _). vm_compute. reflexivity. }
    destruct (decide (bn = 33)) as [->|H33].
    { rewrite lookup_insert_ne by done. simplify_map_eq. apply (bool_decide_eq_true_1 _). vm_compute. reflexivity. }
    rewrite lookup_insert_ne, lookup_singleton_ne by done. apply (bool_decide_eq_true_1 _). vm_compute. reflexivity.
  - intros i [->| ->]; vm_compute; by eexists.
  - intros i [->| ->]; vm_compute; discriminate.
  - intros i [->| ->]; vm_compute; discriminate.
  - intros i [->| ->] Ht; [|vm_compute in Ht; discriminate]. split; [|split; [vm_compute; discriminate|reflexivity]].
    split; [vm_compute; discriminate|reflexivity| |vm_compute; discriminate].
    intros fbn H0 Hlt. assert (fbn = 0) as ->.
    { change (di_size (inode_at path_rd path_sb 1)) with 48 in Hlt. change BSIZE with 1024 in Hlt. lia. }
    split_and!; [vm_compute; discriminate|vm_compute; by eexists|reflexivity].
  - intros i j [->| ->] Ht; [|vm_compute in Ht; discriminate]. cbv zeta. intros Hj.
    assert (Hj3 : Z.of_nat j < 3) by exact Hj. clear Hj.
    destruct j as [|[|[|j]]]; [intros Hn; vm_compute in Hn; congruence|intros _; vm_compute; by right
      |intros Hn; vm_compute in Hn; congruence|lia].
Qed.

(** A kernel that has read nothing yet. *)
Lemma fresh_table D sb :
  exists f, table_ok 1 ∅ D (view f ∅) sb f (reverse bufids) None /\ refs (fs_inodes f) = replicate 50 0
    /\ forall bn, view f ∅ bn = default zero_block (D !! bn).
Proof.
  destruct (binit_run calm_state (fsst_zero <| fs_blocks := D |> <| fs_sb := sb |> <| fs_sleep := path_locks |>
    <| fs_inodes := replicate 50 inode_zero |>)) as (y & f & _ & Hs & Hc & _).
  { reflexivity. }
  { intros b x Hx. apply lookup_replicate in Hx as [-> _]. split; [reflexivity|discriminate]. }
  assert (Hi : fs_inodes f = replicate 50 inode_zero) by by rewrite (proj1 Hs).
  assert (Hb : fs_blocks f = D) by by rewrite (proj1 Hs).
  exists f. split_and!.
  - split; [apply Hc| |by rewrite Hi| |..].
    + split_and!; [done|done|by rewrite (proj1 Hs)].
    + rewrite Hi. unfold refs. rewrite fmap_replicate. apply Forall_replicate. simpl. lia.
    + intros ip Hip. exists "inode"%string, 0. rewrite decide_False by done.
      rewrite (proj2 Hs) by (unfold slp_inode, NBUF, MAXOPBLOCKS; lia).
      apply elem_of_list_to_map_1; [|].
      * rewrite <- list_fmap_compose. apply NoDup_fmap_2; [|apply NoDup_seq]. intros a b Hab. unfold slp_inode in Hab. simpl in Hab. lia.
      * apply list_elem_of_fmap. exists ip. split; [done|]. apply elem_of_seq. change NINODE with 50 in Hip. lia.
    + intros ip x Hx Hr. rewrite Hi in Hx. apply lookup_replicate in Hx as [-> _]. simpl in Hr. lia.
  - by rewrite Hi.
  - intros bn. unfold view. by rewrite lookup_empty, Hb.
Qed.

Lemma namei_spec_witness :
  exists f f' l' ip, namei (47 :: [105; 110; 105; 116] ++ [0]) (calm_state ⊕ f) = Ret (Some ip) (calm_state ⊕ f')
    /\ holds 1 ∅ path_disk (view f ∅) path_sb f' l' ip 5 (replicate 50 0).
Proof.
  destruct (fresh_table path_disk path_sb) as (f & Ht & Hr & Hv).
  assert (Hp : forall bn, path_rd bn = view f ∅ bn) by (intros bn; by rewrite Hv).
  pose proof (live_eq _ _ Hp _ _ _ path_live) as Hl.
  assert (Hroom : room (refs (fs_inodes f))).
  { rewrite Hr. split; [apply Forall_replicate; lia|]. by exists 0%nat, 1%nat. }
  assert (Hsz : (size (∅ : blocks_in_use) < bhead)%nat) by (vm_compute; lia).
  assert (Hrc0 : forall bn rc d, (∅ : blocks_in_use) !! bn = Some (rc, d) -> rc < 900) by done.
  assert (Hin : 0 ∉ [105; 110; 105; 116]) by (apply (bool_decide_eq_true_1 _); reflexivity).
  assert (Hby : Forall byte [105; 110; 105; 116]) by (repeat constructor; lia).
  pose proof (namei_spec 1 calm_state f _ ∅ _ _ _ _ [105; 110; 105; 116] (le_n 1) calm_state_calm
    Hsz Hrc0 Hl (or_introl eq_refl) Ht Hroom Hin Hby) as H.
  rewrite <- (resolve_eq _ _ Hp) in H.
  assert (E5 : resolve path_rd path_sb ROOTINO (elems [105; 110; 105; 116]) = Some 5) by (vm_compute; reflexivity).
  rewrite E5 in H.
  destruct H as (ip & f' & l' & E & Hh). exists f, f', l', ip. rewrite Hr in Hh. split; [exact E|exact Hh].
Defined.
End example.
