(* ===== verification/Uart.v ===== *)
(** * The device registers and the UART: [src/kernel/uart.c], [src/kernel/plic.c]

    A device is reached through its memory-mapped registers. What the hardware
    does on a read or a write of a register is a parameter of the model. *)

From S2P Require Import Prelude Params FsTypes Machine Spinlock ProcCore Mem Pres FsCore.

(** Reads and writes of a device register at a physical address. *)
Class Mmio : Type := {
  mmio_read : Z -> M Z;
  mmio_write : Z -> Z -> M unit;
}.

(** The hardware does not write the process table. *)
Class MmioLaws `{Mmio} : Prop := {
  pres_mmio_read a : pres mlfq_inv (mmio_read a);
  pres_mmio_write a v : pres mlfq_inv (mmio_write a v);
}.

#[export] Hint Resolve pres_mmio_read pres_mmio_write : pres.

(** ** uart.c *)

Definition RHR : Z := 0.
Definition THR : Z := 0.
Definition IER : Z := 1.
Definition IER_RX_ENABLE : Z := Z.shiftl 1 0.
Definition IER_TX_ENABLE : Z := Z.shiftl 1 1.
Definition FCR : Z := 2.
Definition FCR_FIFO_ENABLE : Z := Z.shiftl 1 0.
Definition FCR_FIFO_CLEAR : Z := Z.shiftl 3 1.
Definition ISR : Z := 2.
Definition LCR : Z := 3.
Definition LCR_EIGHT_BITS : Z := Z.shiftl 3 0.
Definition LCR_BAUD_LATCH : Z := Z.shiftl 1 7.
Definition LSR : Z := 5.
Definition LSR_RX_READY : Z := Z.shiftl 1 0.
Definition LSR_TX_IDLE : Z := Z.shiftl 1 5.

Section uart.
Context `{Fuel} `{Mmio}.

Definition ReadReg (reg : Z) : M Z := v ← mmio_read (UART0 + reg); ret (u8 v).
Definition WriteReg (reg v : Z) : M unit := mmio_write (UART0 + reg) (u8 v).

Definition uartinit : M unit :=
  WriteReg IER 0x00;;
  WriteReg LCR LCR_BAUD_LATCH;;
  WriteReg 0 0x03;;
  WriteReg 1 0x00;;
  WriteReg LCR LCR_EIGHT_BITS;;
  WriteReg FCR (Z.lor FCR_FIFO_ENABLE FCR_FIFO_CLEAR);;
  WriteReg IER (Z.lor IER_TX_ENABLE IER_RX_ENABLE);;
  initlock LkTx "uart".

(** [while(tx_busy != 0) sleep(&tx_chan, &tx_lock);] *)
Fixpoint wait_tx (n : nat) : M unit :=
  match n with
  | O => stop_ SFuel
  | S n =>
      busy ← gets (fun s => dev_tx_busy (k_dev s));
      if truthy busy then sleep (Some ChTx) LkTx;; wait_tx n else ret tt
  end.

Definition uartwrite (buf : list Z) : M unit :=
  acquire LkTx;;
  for_each buf (fun c =>
    wait_tx fuel;;
    WriteReg THR c;;
    upd_dev (fun d => d <| dev_tx_busy := 1 |>));;
  release LkTx.

(** [while((ReadReg(LSR) & LSR_TX_IDLE) == 0);] *)
Fixpoint wait_idle (n : nat) : M unit :=
  match n with
  | O => stop_ SFuel
  | S n =>
      v ← ReadReg LSR;
      if Z.land v LSR_TX_IDLE =? 0 then wait_idle n else ret tt
  end.

Definition panicking : M Z := gets (fun s => dev_panicking (k_dev s)).
Definition panicked : M Z := gets (fun s => dev_panicked (k_dev s)).

Definition uartputc_sync (c : Z) : M unit :=
  pk ← panicking;
  when (pk =? 0) push_off;;
  pd ← panicked;
  if truthy pd then stop_ SHang else
  wait_idle fuel;;
  WriteReg THR c;;
  pk ← panicking;
  when (pk =? 0) pop_off.

Definition uartgetc : M Z :=
  v ← ReadReg LSR;
  if truthy (Z.land v LSR_RX_READY) then ReadReg RHR else ret (-1).

Lemma pres_ReadReg `{!MmioLaws} r : pres mlfq_inv (ReadReg r).
Proof. unfold ReadReg. pres. Qed.
Lemma pres_WriteReg `{!MmioLaws} r v : pres mlfq_inv (WriteReg r v).
Proof. unfold WriteReg. pres. Qed.
#[local] Hint Resolve pres_ReadReg pres_WriteReg : pres.
Lemma pres_uartinit `{!MmioLaws} : pres mlfq_inv uartinit.
Proof. unfold uartinit. pres. Qed.
Lemma pres_wait_tx n : pres mlfq_inv (wait_tx n).
Proof. induction n; simpl; pres. Qed.
Lemma pres_wait_idle `{!MmioLaws} n : pres mlfq_inv (wait_idle n).
Proof. induction n; cbn [wait_idle]; pres. Qed.
#[local] Hint Resolve pres_wait_tx pres_wait_idle : pres.
Lemma pres_uartwrite `{!MmioLaws} buf : pres mlfq_inv (uartwrite buf).
Proof. unfold uartwrite. pres. Qed.
Lemma pres_uartputc_sync `{!MmioLaws} c : pres mlfq_inv (uartputc_sync c).
Proof. unfold uartputc_sync, panicking, panicked. pres. Qed.
Lemma pres_uartgetc `{!MmioLaws} : pres mlfq_inv uartgetc.
Proof. unfold uartgetc. pres. Qed.

(** ** plic.c *)

Definition PLIC_SENABLE (hart : Z) : Z := PLIC + 0x2080 + hart * 0x100.
Definition PLIC_SPRIORITY (hart : Z) : Z := PLIC + 0x201000 + hart * 0x2000.
Definition PLIC_SCLAIM (hart : Z) : Z := PLIC + 0x201004 + hart * 0x2000.

Definition plicinit : M unit :=
  mmio_write (PLIC + UART0_IRQ * 4) 1;;
  mmio_write (PLIC + VIRTIO0_IRQ * 4) 1.

Definition plicinithart : M unit :=
  hart ← cpuid;
  mmio_write (PLIC_SENABLE (Z.of_nat hart)) (Z.lor (Z.shiftl 1 UART0_IRQ) (Z.shiftl 1 VIRTIO0_IRQ));;
  mmio_write (PLIC_SPRIORITY (Z.of_nat hart)) 0.

Definition plic_claim : M Z :=
  hart ← cpuid;
  irq ← mmio_read (PLIC_SCLAIM (Z.of_nat hart));
  ret (s32 irq).

Definition plic_complete (irq : Z) : M unit :=
  hart ← cpuid;
  mmio_write (PLIC_SCLAIM (Z.of_nat hart)) (u32 irq).

Lemma pres_plicinit `{!MmioLaws} : pres mlfq_inv plicinit.
Proof. unfold plicinit. pres. Qed.
Lemma pres_plicinithart `{!MmioLaws} : pres mlfq_inv plicinithart.
Proof. unfold plicinithart, cpuid, r_tp. pres. Qed.
Lemma pres_plic_claim_ `{!MmioLaws} : pres mlfq_inv plic_claim.
Proof. unfold plic_claim, cpuid, r_tp. pres. Qed.
Lemma pres_plic_complete_ `{!MmioLaws} irq : pres mlfq_inv (plic_complete irq).
Proof. unfold plic_complete, cpuid, r_tp. pres. Qed.
End uart.

#[export] Hint Resolve pres_uartinit pres_uartwrite pres_uartputc_sync pres_uartgetc pres_plicinit
  pres_plicinithart pres_plic_claim_ pres_plic_complete_ : pres.
