(* ===== verification/Console.v ===== *)
(** * The console: [src/kernel/console.c]

    Line editing of the typed characters in a circular buffer, the reads and
    writes of the console device, and the UART interrupt that feeds it. *)

From S2P Require Import Prelude Params FsTypes Machine Spinlock ProcCore Mem Pres PresVm Services.
From S2P Require Import Proc FsCore Uart.

Definition BACKSPACE : Z := 0x100.

(** Control-x. *)
Definition C (x : Z) : Z := x - 64.

Section console.
Context `{Fuel} `{Mmio}.

Definition consputc (c : Z) : M unit :=
  if c =? BACKSPACE then
    uartputc_sync 8;; uartputc_sync 32;; uartputc_sync 8
  else uartputc_sync c.

Definition get_cons : M console := gets (fun s => dev_cons (k_dev s)).
Definition upd_cons (g : console -> console) : M unit :=
  upd_dev (fun d => d <| dev_cons := g (dev_cons d) |>).

Fixpoint consolewrite_loop (k : nat) (va i n : Z) : M Z :=
  match k with
  | O => stop_ SFuel
  | S k =>
      if i <? n then
        let nn := if n - i <? 32 then n - i else 32 in
        ' (r, buf) ← either_copyin (UserSrc (u64 (va + i))) nn;
        if r =? -1 then ret i else
        uartwrite buf;;
        consolewrite_loop k va (i + nn) n
      else ret i
  end.

(** [consolewrite(1, src, n)]: the file layer always writes from user memory. *)
Definition consolewrite (src n : Z) : M Z :=
  consolewrite_loop (Z.to_nat (n / 32) + 2) src 0 n.

(** [while(cons.r == cons.w) ...]: wait for input; [false] when killed. *)
Fixpoint wait_input (k : nat) : M bool :=
  match k with
  | O => stop_ SFuel
  | S k =>
      c ← get_cons;
      if c_r c =? c_w c then
        p ← myproc_deref;
        kd ← killed p;
        if truthy kd then release LkCons;; ret false
        else sleep (Some ChCons) LkCons;; wait_input k
      else ret true
  end.

(** The outer loop of [consoleread]: the value of [n] at its end, or [None] when
    it returned -1. *)
Fixpoint consoleread_loop (k : nat) (dst : cpdst) (n target : Z) : M (option Z) :=
  match k with
  | O => ret (Some n)
  | S k =>
      ready ← wait_input fuel;
      if negb ready then ret None else
      co ← get_cons;
      c ← index (c_buf co) (c_r co mod INPUT_BUF_SIZE);
      upd_cons (fun x => x <| c_r := u32 (c_r x + 1) |>);;
      if c =? C 68 then
        when (n <? target) (upd_cons (fun x => x <| c_r := u32 (c_r x - 1) |>));;
        ret (Some n)
      else
        ' (r, _) ← either_copyout dst [c];
        if r =? -1 then ret (Some n) else
        let dst := match dst with UserDst va => UserDst (u64 (va + 1)) | KernDst => KernDst end in
        if c =? 10 then ret (Some (n - 1))
        else consoleread_loop k dst (n - 1) target
  end.

Definition consoleread (dst : cpdst) (n : Z) : M Z :=
  let target := u32 n in
  acquire LkCons;;
  r ← consoleread_loop (Z.to_nat n) dst n target;
  match r with
  | None => ret (-1)
  | Some n =>
      release LkCons;;
      ret (s32 (target - n))
  end.

(** [while(cons.e != cons.w && cons.buf[(cons.e-1) % INPUT_BUF_SIZE] != '\n')] *)
Fixpoint kill_line (k : nat) : M unit :=
  match k with
  | O => stop_ SFuel
  | S k =>
      co ← get_cons;
      if c_e co =? c_w co then ret tt else
      c ← index (c_buf co) (u32 (c_e co - 1) mod INPUT_BUF_SIZE);
      if c =? 10 then ret tt else
      upd_cons (fun x => x <| c_e := u32 (c_e x - 1) |>);;
      consputc BACKSPACE;;
      kill_line k
  end.

(** The default case of the switch: store a character. *)
Definition console_input (c : Z) : M unit :=
  co ← get_cons;
  when (negb (c =? 0) && (u32 (c_e co - c_r co) <? INPUT_BUF_SIZE))
    (let c := if c =? 13 then 10 else c in
     consputc c;;
     co ← get_cons;
     buf ← store_at (c_buf co) (c_e co mod INPUT_BUF_SIZE) (u8 c);
     upd_cons (fun x => x <| c_buf := buf |> <| c_e := u32 (c_e x + 1) |>);;
     co ← get_cons;
     when ((c =? 10) || (c =? C 68) || (u32 (c_e co - c_r co) =? INPUT_BUF_SIZE))
       (upd_cons (fun x => x <| c_w := c_e x |>);;
        wakeup (Some ChCons))).

Definition consoleintr (c : Z) : M unit :=
  acquire LkCons;;
  (if c =? C 80 then procdump
   else if c =? C 85 then kill_line (S (Z.to_nat INPUT_BUF_SIZE))
   else if (c =? C 72) || (c =? 127) then
     (co ← get_cons;
      when (negb (c_e co =? c_w co))
        (upd_cons (fun x => x <| c_e := u32 (c_e x - 1) |>);;
         consputc BACKSPACE))
   else console_input c);;
  release LkCons.

(** [uartintr] of [uart.c]: the loop over the received characters. *)
Fixpoint receive (k : nat) : M unit :=
  match k with
  | O => stop_ SFuel
  | S k =>
      c ← uartgetc;
      if c =? -1 then ret tt else consoleintr c;; receive k
  end.

Definition uartintr : M unit :=
  ReadReg ISR;;
  acquire LkTx;;
  v ← ReadReg LSR;
  when (truthy (Z.land v LSR_TX_IDLE))
    (upd_dev (fun d => d <| dev_tx_busy := 0 |>);;
     wakeup (Some ChTx));;
  release LkTx;;
  receive fuel.

Definition consoleinit : M unit :=
  initlock LkCons "cons";;
  uartinit;;
  upd_fs (fun f =>
    f <| fs_devsw := alter (fun d => d <| dv_read := Some DrvConsole |>
                                       <| dv_write := Some DrvConsole |>)
                       (Z.to_nat CONSOLE) (fs_devsw f) |>).

Lemma pres_get_cons : pres mlfq_inv get_cons.
Proof. unfold get_cons. pres. Qed.
Lemma pres_upd_cons g : pres mlfq_inv (upd_cons g).
Proof. unfold upd_cons. pres. Qed.
Lemma pres_procdump : pres mlfq_inv procdump.
Proof. unfold procdump. pres. Qed.
#[local] Hint Resolve pres_get_cons pres_upd_cons pres_procdump : pres.
Lemma pres_wait_input k : pres mlfq_inv (wait_input k).
Proof. induction k; cbn [wait_input]; pres. Qed.
#[local] Hint Resolve pres_wait_input : pres.
Lemma pres_consoleread_loop k dst n t : pres mlfq_inv (consoleread_loop k dst n t).
Proof. revert dst n. induction k; intros dst n; cbn [consoleread_loop]; pres. Qed.
#[local] Hint Resolve pres_consoleread_loop : pres.
Lemma pres_consoleread dst n : pres mlfq_inv (consoleread dst n).
Proof. unfold consoleread. pres. Qed.

Context `{!MmioLaws}.

Lemma pres_consputc c : pres mlfq_inv (consputc c).
Proof. unfold consputc. pres. Qed.
#[local] Hint Resolve pres_consputc : pres.
Lemma pres_consolewrite_loop k va i n : pres mlfq_inv (consolewrite_loop k va i n).
Proof. revert i. induction k; intros i; cbn [consolewrite_loop]; pres. Qed.
Lemma pres_consolewrite src n : pres mlfq_inv (consolewrite src n).
Proof. apply pres_consolewrite_loop. Qed.
Lemma pres_kill_line k : pres mlfq_inv (kill_line k).
Proof. induction k; cbn [kill_line]; pres. Qed.
Lemma pres_console_input c : pres mlfq_inv (console_input c).
Proof. unfold console_input. pres. Qed.
#[local] Hint Resolve pres_kill_line pres_console_input : pres.
Lemma pres_consoleintr c : pres mlfq_inv (consoleintr c).
Proof. unfold consoleintr. pres. Qed.
#[local] Hint Resolve pres_consoleintr : pres.
Lemma pres_receive k : pres mlfq_inv (receive k).
Proof. induction k; cbn [receive]; pres. Qed.
#[local] Hint Resolve pres_receive pres_ReadReg : pres.
Lemma pres_uartintr_ : pres mlfq_inv uartintr.
Proof. unfold uartintr. pres. Qed.
Lemma pres_consoleinit : pres mlfq_inv consoleinit.
Proof. unfold consoleinit. pres. Qed.
End console.

#[export] Hint Resolve pres_consoleread pres_consolewrite pres_consputc pres_uartintr_
  pres_consoleinit : pres.
