(* ===== verification/Pipe.v ===== *)
(** * Pipes: [src/kernel/pipe.c]

    A pipe is a circular buffer of [PIPESIZE] bytes with two free-running
    counters. [pipealloc()] is with the file table in [FileTable]. *)

From S2P Require Import Prelude Params FsTypes Machine Spinlock ProcCore Mem Kalloc Vm Pres PresVm.
From S2P Require Import Services Proc FsCore.

Section pipe.
Context `{Fuel}.

Definition pipeclose (pi : Z) (writable : Z) : M unit :=
  acquire (LkPipe pi);;
  (if truthy writable then
     upd_pipe pi (fun x => x <| pi_writeopen := 0 |>);;
     wakeup (Some (ChNread pi))
   else
     upd_pipe pi (fun x => x <| pi_readopen := 0 |>);;
     wakeup (Some (ChNwrite pi)));;
  x ← get_pipe pi;
  if (pi_readopen x =? 0) && (pi_writeopen x =? 0) then
    release (LkPipe pi);;
    upd_fs (fun f => f <| fs_pipes := delete pi (fs_pipes f) |>);;
    kfree pi
  else release (LkPipe pi).

(** [pi->data[pi->nwrite++ % PIPESIZE] = ch;] *)
Definition push_byte (ch : Z) (x : pipe) : pipe :=
  x <| pi_data := <[Z.to_nat (pi_nwrite x mod PIPESIZE) := ch]> (pi_data x) |>
    <| pi_nwrite := u32 (pi_nwrite x + 1) |>.

(** The loop of [pipewrite] by process [pr]: the bytes written, or [None] when it
    returned -1. *)
Fixpoint pipewrite_loop (k : nat) (pi : Z) (pr : nat) (addr i n : Z) : M (option Z) :=
  match k with
  | O => stop_ SFuel
  | S k =>
      if i <? n then
        x ← get_pipe pi;
        dead ← (if pi_readopen x =? 0 then ret true
                else kd ← killed pr; ret (truthy kd));
        if dead : bool then release (LkPipe pi);; ret None else
        x ← get_pipe pi;
        if pi_nwrite x =? u32 (pi_nread x + PIPESIZE) then
          wakeup (Some (ChNread pi));;
          sleep (Some (ChNwrite pi)) (LkPipe pi);;
          pipewrite_loop k pi pr addr i n
        else
          r ← get_proc pr;
          ' (e, ch) ← copyin (p_pagetable r) (u64 (addr + i)) 1;
          if e =? -1 then ret (Some i) else
          ch ← in_bounds (head ch);
          upd_pipe pi (push_byte ch);;
          pipewrite_loop k pi pr addr (i + 1) n
      else ret (Some i)
  end.

Definition pipewrite (pi addr n : Z) : M Z :=
  pr ← myproc_deref;
  acquire (LkPipe pi);;
  r ← pipewrite_loop (fuel + Z.to_nat n + 1) pi pr addr 0 n;
  match r with
  | None => ret (-1)
  | Some i =>
      wakeup (Some (ChNread pi));;
      release (LkPipe pi);;
      ret i
  end.

(** [while(pi->nread == pi->nwrite && pi->writeopen)]: [false] when killed. *)
Fixpoint wait_data (k : nat) (pi : Z) (pr : nat) : M bool :=
  match k with
  | O => stop_ SFuel
  | S k =>
      x ← get_pipe pi;
      if (pi_nread x =? pi_nwrite x) && truthy (pi_writeopen x) then
        kd ← killed pr;
        if truthy kd then release (LkPipe pi);; ret false
        else sleep (Some (ChNread pi)) (LkPipe pi);; wait_data k pi pr
      else ret true
  end.

(** The copying loop of [piperead], for the [k] bytes still asked for. *)
Fixpoint piperead_loop (k : nat) (pi : Z) (pr : nat) (addr i : Z) : M Z :=
  match k with
  | O => ret i
  | S k =>
      x ← get_pipe pi;
      if pi_nread x =? pi_nwrite x then ret i else
      ch ← index (pi_data x) (pi_nread x mod PIPESIZE);
      r ← get_proc pr;
      e ← copyout (p_pagetable r) (u64 (addr + i)) [ch];
      if e =? -1 then ret (if i =? 0 then -1 else i) else
      upd_pipe pi (fun x => x <| pi_nread := u32 (pi_nread x + 1) |>);;
      piperead_loop k pi pr addr (i + 1)
  end.

Definition piperead (pi addr n : Z) : M Z :=
  pr ← myproc_deref;
  acquire (LkPipe pi);;
  ready ← wait_data fuel pi pr;
  if negb ready then ret (-1) else
  i ← piperead_loop (Z.to_nat n) pi pr addr 0;
  wakeup (Some (ChNwrite pi));;
  release (LkPipe pi);;
  ret i.

Lemma pres_pipeclose pi w : pres mlfq_inv (pipeclose pi w).
Proof. unfold pipeclose. pres. Qed.
Lemma pres_pipewrite_loop k pi pr addr i n : pres mlfq_inv (pipewrite_loop k pi pr addr i n).
Proof. revert i. induction k; intros i; cbn [pipewrite_loop]; pres. Qed.
Lemma pres_wait_data k pi pr : pres mlfq_inv (wait_data k pi pr).
Proof. induction k; cbn [wait_data]; pres. Qed.
Lemma pres_piperead_loop k pi pr addr i : pres mlfq_inv (piperead_loop k pi pr addr i).
Proof. revert i. induction k; intros i; cbn [piperead_loop]; pres. Qed.
#[local] Hint Resolve pres_pipewrite_loop pres_wait_data pres_piperead_loop : pres.
Lemma pres_pipewrite pi addr n : pres mlfq_inv (pipewrite pi addr n).
Proof. unfold pipewrite. pres. Qed.
Lemma pres_piperead pi addr n : pres mlfq_inv (piperead pi addr n).
Proof. unfold piperead. pres. Qed.
End pipe.

#[export] Hint Resolve pres_pipeclose pres_pipewrite pres_piperead : pres.
