(* ===== verification/FileTable.v ===== *)
(** * The file table: [src/kernel/file.c] and [pipealloc()] of [src/kernel/pipe.c] *)

From S2P Require Import Prelude Bytes Params FsTypes Machine Spinlock ProcCore Mem Kalloc Vm Pres.
From S2P Require Import PresVm Services Proc FsCore Sleeplock Bio Log Fs Dir Uart Console Pipe.

(** [struct stat] in memory, with its four bytes of padding, which [filestat]
    leaves as they were on its stack. *)
Definition stat_bytes (pad : list Z) (st : stat) : list Z :=
  le_bytes 4 (st_dev st) ++ le_bytes 4 (st_ino st) ++ le_bytes 2 (st_type st)
    ++ le_bytes 2 (st_nlink st) ++ pad ++ le_bytes 8 (st_size st).

(** The padding bytes on the stack of [filestat]. *)
Class StatPad : Type := stat_pad : list Z.

Section file.
Context `{Fuel} `{DiskOps} `{Mmio} `{StatPad}.

Definition fileinit : M unit := initlock LkFtable "ftable".

Definition filealloc : M (option nat) :=
  acquire LkFtable;;
  f ← for_find (seq 0 (Z.to_nat NFILE)) (fun f =>
        x ← get_file f;
        if f_ref x =? 0 then
          upd_file f (fun x => x <| f_ref := 1 |>);;
          ret (Some f)
        else ret None);
  release LkFtable;;
  ret f.

Definition filedup (f : nat) : M nat :=
  acquire LkFtable;;
  x ← get_file f;
  if f_ref x <? 1 then panic "filedup" else
  upd_file f (fun x => x <| f_ref := s32 (f_ref x + 1) |>);;
  release LkFtable;;
  ret f.

Definition fileclose (f : nat) : M unit :=
  acquire LkFtable;;
  x ← get_file f;
  if f_ref x <? 1 then panic "fileclose" else
  upd_file f (fun x => x <| f_ref := s32 (f_ref x - 1) |>);;
  ff ← get_file f;
  if 0 <? f_ref ff then release LkFtable else
  upd_file f (fun x => x <| f_ref := 0 |> <| f_type := FD_NONE |>);;
  release LkFtable;;
  match f_type ff with
  | FD_PIPE => pipeclose (f_pipe ff) (f_writable ff)
  | FD_INODE | FD_DEVICE =>
      begin_op;;
      ip ← deref (f_ip ff);
      iput ip;;
      end_op
  | FD_NONE => ret tt
  end.

Definition filestat (f : nat) (addr : Z) : M Z :=
  p ← myproc_deref;
  x ← get_file f;
  match f_type x with
  | FD_INODE | FD_DEVICE =>
      ip ← deref (f_ip x);
      ilock ip;;
      st ← stati ip;
      iunlock ip;;
      pr ← get_proc p;
      r ← copyout (p_pagetable pr) addr (stat_bytes stat_pad st);
      if r <? 0 then ret (-1) else ret 0
  | _ => ret (-1)
  end.

(** [devsw[f->major]], when the major number is in range. *)
Definition device_of (major : Z) : M (option devsw) :=
  if (major <? 0) || (NDEV <=? major) then ret None
  else t ← gets (fun s => fs_devsw (k_fs s)); d ← index t major; ret (Some d).

Definition fileread (f : nat) (addr n : Z) : M Z :=
  x ← get_file f;
  if f_readable x =? 0 then ret (-1) else
  match f_type x with
  | FD_PIPE => piperead (f_pipe x) addr n
  | FD_DEVICE =>
      d ← device_of (f_major x);
      match d ≫= dv_read with
      | Some DrvConsole => consoleread (UserDst addr) n
      | None => ret (-1)
      end
  | FD_INODE =>
      ip ← deref (f_ip x);
      ilock ip;;
      x ← get_file f;
      ' (r, _) ← readi ip (UserDst addr) (f_off x) n;
      when (0 <? r) (upd_file f (fun x => x <| f_off := u32 (f_off x + r) |>));;
      iunlock ip;;
      ret r
  | FD_NONE => panic "fileread"
  end.

(** The most bytes one transaction may write: [((MAXOPBLOCKS-1-1-2) / 2) * BSIZE]. *)
Definition max_chunk : Z := (MAXOPBLOCKS - 1 - 1 - 2) / 2 * BSIZE.

(** The loop of [filewrite] on an inode: the bytes written. *)
Fixpoint filewrite_loop (k : nat) (f : nat) (addr i n : Z) : M Z :=
  match k with
  | O => stop_ SFuel
  | S k =>
      if i <? n then
        let n1 := if max_chunk <? n - i then max_chunk else n - i in
        begin_op;;
        x ← get_file f;
        ip ← deref (f_ip x);
        ilock ip;;
        x ← get_file f;
        r ← writei ip (UserSrc (u64 (addr + i))) (f_off x) n1;
        when (0 <? r) (upd_file f (fun x => x <| f_off := u32 (f_off x + r) |>));;
        iunlock ip;;
        end_op;;
        if negb (r =? n1) then ret i else filewrite_loop k f addr (i + r) n
      else ret i
  end.

Definition filewrite (f : nat) (addr n : Z) : M Z :=
  x ← get_file f;
  if f_writable x =? 0 then ret (-1) else
  match f_type x with
  | FD_PIPE => pipewrite (f_pipe x) addr n
  | FD_DEVICE =>
      d ← device_of (f_major x);
      match d ≫= dv_write with
      | Some DrvConsole => consolewrite addr n
      | None => ret (-1)
      end
  | FD_INODE =>
      i ← filewrite_loop (Z.to_nat (n / max_chunk) + 2) f addr 0 n;
      ret (if i =? n then n else -1)
  | FD_NONE => panic "filewrite"
  end.

(** ** pipealloc() *)

(** A fresh pipe in the page at [pi]; the data is what the page holds. *)
Definition new_pipe : pipe := Pipe (replicate (Z.to_nat PIPESIZE) 5) 0 0 1 1.

Definition read_end (pi : Z) (x : file) : file :=
  x <| f_type := FD_PIPE |> <| f_readable := 1 |> <| f_writable := 0 |> <| f_pipe := pi |>.
Definition write_end (pi : Z) (x : file) : file :=
  x <| f_type := FD_PIPE |> <| f_readable := 0 |> <| f_writable := 1 |> <| f_pipe := pi |>.

(** The label [bad]: close the files that were allocated. *)
Definition close_opt (f : option nat) : M unit :=
  match f with Some f => fileclose f | None => ret tt end.

(** [pipealloc]: the two files, or [None] for -1. *)
Definition pipealloc : M (option (nat * nat)) :=
  f0 ← filealloc;
  f1 ← match f0 with Some _ => filealloc | None => ret None end;
  match f0, f1 with
  | Some g0, Some g1 =>
      pi ← kalloc;
      if pi =? 0 then close_opt f0;; close_opt f1;; ret None else
      upd_fs (fun f => f <| fs_pipes := <[pi := new_pipe]> (fs_pipes f) |>);;
      initlock (LkPipe pi) "pipe";;
      upd_file g0 (read_end pi);;
      upd_file g1 (write_end pi);;
      ret (Some (g0, g1))
  | _, _ => close_opt f0;; close_opt f1;; ret None
  end.

Context `{!DiskLaws} `{!MmioLaws}.

Lemma pres_filealloc : pres mlfq_inv filealloc.
Proof. unfold filealloc. pres. Qed.
Lemma pres_filedup_ f : pres mlfq_inv (filedup f).
Proof. unfold filedup. pres. Qed.
Lemma pres_fileclose_ f : pres mlfq_inv (fileclose f).
Proof. unfold fileclose. pres. Qed.
Lemma pres_filestat f addr : pres mlfq_inv (filestat f addr).
Proof. unfold filestat. pres. Qed.
Lemma pres_device_of m : pres mlfq_inv (device_of m).
Proof. unfold device_of. pres. Qed.
#[local] Hint Resolve pres_filealloc pres_fileclose_ pres_device_of : pres.
Lemma pres_fileread f addr n : pres mlfq_inv (fileread f addr n).
Proof. unfold fileread. pres. Qed.
Lemma pres_filewrite_loop k f addr i n : pres mlfq_inv (filewrite_loop k f addr i n).
Proof. revert i. induction k; intros i; cbn [filewrite_loop]; pres. Qed.
#[local] Hint Resolve pres_filewrite_loop : pres.
Lemma pres_filewrite f addr n : pres mlfq_inv (filewrite f addr n).
Proof. unfold filewrite. pres. Qed.
Lemma pres_close_opt f : pres mlfq_inv (close_opt f).
Proof. unfold close_opt. pres. Qed.
#[local] Hint Resolve pres_close_opt : pres.
Lemma pres_pipealloc : pres mlfq_inv pipealloc.
Proof.
  unfold pipealloc. apply pres_bind; [pres|intros f0]. apply pres_bind; [destruct f0; pres|intros f1].
  destruct f0, f1; pres.
Qed.
End file.

#[export] Hint Resolve pres_filealloc pres_filedup_ pres_fileclose_ pres_filestat pres_fileread
  pres_filewrite pres_pipealloc : pres.
