(* ===== verification/Exec.v ===== *)
(** * exec: [src/kernel/exec.c] and [src/kernel/elf.h] *)

From S2P Require Import Prelude Bytes Params FsTypes Machine Spinlock ProcCore Sched Mem Kalloc Vm.
From S2P Require Import Kstring Pres PresVm Services Proc FsCore Sleeplock Bio Log Fs Dir.

Definition ELF_MAGIC : Z := 0x464C457F.
Definition ELF_PROG_LOAD : Z := 1.
Definition sizeof_elfhdr : Z := 64.
Definition sizeof_proghdr : Z := 56.

(** The fields of [struct elfhdr] and [struct proghdr] that [kexec] reads. *)
Record elfhdr : Type := Elfhdr { eh_magic : Z; eh_entry : Z; eh_phoff : Z; eh_phnum : Z }.
Record proghdr : Type := Proghdr {
  ph_type : Z;
  ph_flags : Z;
  ph_off : Z;
  ph_vaddr : Z;
  ph_filesz : Z;
  ph_memsz : Z;
}.

Definition elfhdr_of (l : list Z) : elfhdr :=
  Elfhdr (le_at 4 0 l) (le_at 8 24 l) (le_at 8 32 l) (le_at 2 56 l).
Definition proghdr_of (l : list Z) : proghdr :=
  Proghdr (le_at 4 0 l) (le_at 4 4 l) (le_at 8 8 l) (le_at 8 16 l) (le_at 8 32 l) (le_at 8 40 l).

Definition flags2perm (flags : Z) : Z :=
  let perm := 0 in
  let perm := if truthy (Z.land flags 0x1) then PTE_X else perm in
  if truthy (Z.land flags 0x2) then Z.lor perm PTE_W else perm.

(** [for(last=s=path; *s; s++) if( *s == '/') last = s+1;] *)
Fixpoint last_elem (s last : list Z) : option (list Z) :=
  match s with
  | [] => None
  | c :: s' =>
      if c =? 0 then Some last
      else if c =? 47 then last_elem s' s' else last_elem s' last
  end.

Section exec.
Context `{Fuel} `{DiskOps}.

Fixpoint loadseg_loop (k : nat) (pagetable va : Z) (ip : nat) (offset sz i : Z) : M Z :=
  match k with
  | O => stop_ SFuel
  | S k =>
      if i <? sz then
        pa ← walkaddr pagetable (u64 (va + i));
        if pa =? 0 then panic "loadseg: address should exist" else
        let n := if sz - i <? PGSIZE then sz - i else PGSIZE in
        ' (r, bytes) ← readi ip KernDst (u32 (offset + i)) n;
        store_bytes pa bytes;;
        if negb (u32 r =? n) then ret (-1)
        else loadseg_loop k pagetable va ip offset sz (u32 (i + PGSIZE))
      else ret 0
  end.

Definition loadseg (pagetable va : Z) (ip : nat) (offset sz : Z) : M Z :=
  loadseg_loop (Z.to_nat (sz / PGSIZE) + 2) pagetable va ip (u32 offset) (u32 sz) 0.

(** One program header: whether the load goes on, and the size so far. *)
Definition load_ph (pagetable : Z) (ip : nat) (off sz : Z) : M (bool * Z) :=
  ' (r, bytes) ← readi ip KernDst (u32 off) sizeof_proghdr;
  if negb (r =? sizeof_proghdr) then ret (false, sz) else
  let ph := proghdr_of bytes in
  if negb (ph_type ph =? ELF_PROG_LOAD) then ret (true, sz) else
  if ph_memsz ph <? ph_filesz ph then ret (false, sz) else
  if u64 (ph_vaddr ph + ph_memsz ph) <? ph_vaddr ph then ret (false, sz) else
  if negb (ph_vaddr ph mod PGSIZE =? 0) then ret (false, sz) else
  sz1 ← uvmalloc pagetable sz (u64 (ph_vaddr ph + ph_memsz ph)) (flags2perm (ph_flags ph));
  if sz1 =? 0 then ret (false, sz) else
  r ← loadseg pagetable (ph_vaddr ph) ip (ph_off ph) (ph_filesz ph);
  if r <? 0 then ret (false, sz1) else ret (true, sz1).

(** [for(i=0, off=elf.phoff; i<elf.phnum; i++, off+=sizeof(ph))]. *)
Fixpoint load_phs (k : nat) (pagetable : Z) (ip : nat) (off sz : Z) : M (bool * Z) :=
  match k with
  | O => ret (true, sz)
  | S k =>
      ' (ok, sz) ← load_ph pagetable ip off sz;
      if ok : bool then load_phs k pagetable ip (s32 (off + sizeof_proghdr)) sz
      else ret (false, sz)
  end.

(** The arguments on the new stack: [sp] and [ustack], or [None] for [bad]. *)
Fixpoint push_args (argv : list (list Z)) (pagetable stackbase sp : Z) (ustack : list Z)
    : M (option (Z * list Z)) :=
  match argv with
  | [] => ret (Some (sp, ustack))
  | a :: argv =>
      if MAXARG <=? Z.of_nat (length ustack) then ret None else
      n ← in_bounds (strlen a);
      let sp := u64 (sp - (n + 1)) in
      let sp := sp - sp mod 16 in
      if sp <? stackbase then ret None else
      r ← copyout pagetable sp (take (Z.to_nat (n + 1)) a);
      if r <? 0 then ret None else
      push_args argv pagetable stackbase sp (ustack ++ [sp])
  end.

(** [ustack[argc] = 0] and the push of the array: the final [sp]. *)
Definition push_ustack (pagetable stackbase sp : Z) (ustack : list Z) : M (option Z) :=
  let argc := Z.of_nat (length ustack) in
  if MAXARG <=? argc then fault else
  let sp := u64 (sp - (argc + 1) * 8) in
  let sp := sp - sp mod 16 in
  if sp <? stackbase then ret None else
  r ← copyout pagetable sp (mjoin (le_bytes 8 <$> ustack ++ [0]));
  if r <? 0 then ret None else ret (Some sp).

(** The label [bad]. *)
Definition exec_bad (pagetable sz : Z) (ip : option nat) : M Z :=
  when (truthy pagetable) (proc_freepagetable pagetable sz);;
  match ip with
  | Some ip => iunlockput ip;; end_op
  | None => ret tt
  end;;
  ret (-1).

(** The stack of the new image: its size, [sp] and [ustack]. *)
Definition exec_stack (pagetable sz : Z) (argv : list (list Z)) : M (Z * option (Z * list Z)) :=
  let sz := PGROUNDUP sz in
  sz1 ← uvmalloc pagetable sz (u64 (sz + (USERSTACK + 1) * PGSIZE)) PTE_W;
  if sz1 =? 0 then ret (sz, None) else
  let sz := sz1 in
  uvmclear pagetable (u64 (sz - (USERSTACK + 1) * PGSIZE));;
  let stackbase := u64 (sz - USERSTACK * PGSIZE) in
  a ← push_args argv pagetable stackbase sz [];
  match a with
  | None => ret (sz, None)
  | Some (sp, ustack) =>
      sp ← push_ustack pagetable stackbase sp ustack;
      match sp with
      | None => ret (sz, None)
      | Some sp => ret (sz, Some (sp, ustack))
      end
  end.

(** Commit to the user image. *)
Definition exec_commit (p : nat) (path : list Z) (pagetable sz oldsz entry sp : Z) : M unit :=
  tf_set p Ta1 sp;;
  last ← in_bounds (last_elem path path);
  pr ← get_proc p;
  nm ← copy_name (p_name pr) last;
  upd_proc p (fun r => r <| p_name := nm |>);;
  pr ← get_proc p;
  let oldpagetable := p_pagetable pr in
  upd_proc p (fun r => r <| p_pagetable := pagetable |> <| p_sz := sz |>);;
  tf_set p Tepc entry;;
  tf_set p Tsp sp;;
  proc_freepagetable oldpagetable oldsz.

Definition kexec (path : list Z) (argv : list (list Z)) : M Z :=
  p ← myproc_deref;
  begin_op;;
  ip ← namei path;
  match ip with
  | None => end_op;; ret (-1)
  | Some ip =>
      ilock ip;;
      ' (r, bytes) ← readi ip KernDst 0 sizeof_elfhdr;
      if negb (r =? sizeof_elfhdr) then exec_bad 0 0 (Some ip) else
      let elf := elfhdr_of bytes in
      if negb (eh_magic elf =? ELF_MAGIC) then exec_bad 0 0 (Some ip) else
      pagetable ← proc_pagetable p;
      if pagetable =? 0 then exec_bad 0 0 (Some ip) else
      ' (ok, sz) ← load_phs (Z.to_nat (eh_phnum elf)) pagetable ip (s32 (eh_phoff elf)) 0;
      if negb ok then exec_bad pagetable sz (Some ip) else
      iunlockput ip;;
      end_op;;
      p ← myproc_deref;
      pr ← get_proc p;
      let oldsz := p_sz pr in
      ' (sz, st) ← exec_stack pagetable sz argv;
      match st with
      | None => exec_bad pagetable sz None
      | Some (sp, ustack) =>
          exec_commit p path pagetable sz oldsz (eh_entry elf) sp;;
          ret (Z.of_nat (length ustack))
      end
  end.

Context `{!DiskLaws}.

Lemma pres_loadseg_loop k pt va ip o sz i : pres mlfq_inv (loadseg_loop k pt va ip o sz i).
Proof. revert i. induction k; intros i; cbn [loadseg_loop]; pres. Qed.
#[local] Hint Resolve pres_loadseg_loop : pres.
Lemma pres_load_ph pt ip off sz : pres mlfq_inv (load_ph pt ip off sz).
Proof. unfold load_ph, loadseg. pres. Qed.
#[local] Hint Resolve pres_load_ph : pres.
Lemma pres_load_phs k pt ip off sz : pres mlfq_inv (load_phs k pt ip off sz).
Proof. revert off sz. induction k; intros off sz; cbn [load_phs]; pres. Qed.
Lemma pres_push_args argv pt sb sp us : pres mlfq_inv (push_args argv pt sb sp us).
Proof. revert sp us. induction argv; intros sp us; cbn [push_args]; pres. Qed.
Lemma pres_push_ustack pt sb sp us : pres mlfq_inv (push_ustack pt sb sp us).
Proof. unfold push_ustack. pres. Qed.
#[local] Hint Resolve pres_load_phs pres_push_args pres_push_ustack : pres.
Lemma pres_exec_bad pt sz ip : pres mlfq_inv (exec_bad pt sz ip).
Proof. unfold exec_bad. pres. Qed.
Lemma pres_exec_stack pt sz argv : pres mlfq_inv (exec_stack pt sz argv).
Proof. unfold exec_stack. pres. Qed.
Lemma pres_exec_commit p path pt sz osz e sp : pres mlfq_inv (exec_commit p path pt sz osz e sp).
Proof. unfold exec_commit. pres. Qed.
#[local] Hint Resolve pres_exec_bad pres_exec_stack pres_exec_commit : pres.
Lemma pres_kexec_ path argv : pres mlfq_inv (kexec path argv).
Proof. unfold kexec. pres. Qed.
End exec.

#[export] Hint Resolve pres_kexec_ : pres.
