(* ===== verification/Sysfile.v ===== *)
(** * The system calls on files: [src/kernel/sysfile.c]

    Argument checking, and calls of the file table, the file system and exec. *)

From S2P Require Import Prelude Bytes Params FsTypes Machine Spinlock ProcCore Mem Kalloc Vm.
From S2P Require Import Kstring Pres PresVm Services Proc Syscall FsCore Sleeplock Bio Log Fs Dir.
From S2P Require Import Uart Console Pipe FileTable Exec.

(** ["."] and [".."]. *)
Definition dot : list Z := [46; 0].
Definition dotdot : list Z := [46; 46; 0].

Section sysfile.
Context `{Fuel} `{DiskOps} `{Mmio} `{StatPad}.

(** [argfd]: the descriptor and its file, or [None] for -1. *)
Definition argfd (n : Z) : M (option (Z * nat)) :=
  fd ← argint n;
  if (fd <? 0) || (NOFILE <=? fd) then ret None else
  p ← myproc_deref;
  pr ← get_proc p;
  f ← index (p_ofile pr) fd;
  match f with
  | None => ret None
  | Some f => ret (Some (fd, f))
  end.

(** [p->ofile[fd] = f]. *)
Definition set_ofile (p : nat) (fd : Z) (f : option nat) : M unit :=
  upd_proc p (fun r => r <| p_ofile := <[Z.to_nat fd := f]> (p_ofile r) |>).

Definition fdalloc (f : nat) : M Z :=
  p ← myproc_deref;
  r ← for_find (seqZ 0 NOFILE) (fun fd =>
        pr ← get_proc p;
        o ← index (p_ofile pr) fd;
        match o with
        | None => set_ofile p fd (Some f);; ret (Some fd)
        | Some _ => ret None
        end);
  match r with
  | Some fd => ret fd
  | None => ret (-1)
  end.

Definition sys_dup : M Z :=
  a ← argfd 0;
  match a with
  | None => ret (-1)
  | Some (_, f) =>
      fd ← fdalloc f;
      if fd <? 0 then ret (-1) else
      filedup f;;
      ret fd
  end.

Definition sys_read : M Z :=
  p ← argaddr 1;
  n ← argint 2;
  a ← argfd 0;
  match a with
  | None => ret (-1)
  | Some (_, f) => fileread f p n
  end.

Definition sys_write : M Z :=
  p ← argaddr 1;
  n ← argint 2;
  a ← argfd 0;
  match a with
  | None => ret (-1)
  | Some (_, f) => filewrite f p n
  end.

Definition sys_close : M Z :=
  a ← argfd 0;
  match a with
  | None => ret (-1)
  | Some (fd, f) =>
      p ← myproc_deref;
      set_ofile p fd None;;
      fileclose f;;
      ret 0
  end.

Definition sys_fstat : M Z :=
  st ← argaddr 1;
  a ← argfd 0;
  match a with
  | None => ret (-1)
  | Some (_, f) => filestat f st
  end.

(** The label [bad] of [sys_link]. *)
Definition link_bad (ip : nat) : M Z :=
  ilock ip;;
  upd_inode ip (fun x => x <| i_nlink := s16 (i_nlink x - 1) |>);;
  iupdate ip;;
  iunlockput ip;;
  end_op;;
  ret (-1).

Definition sys_link : M Z :=
  ' (r, old) ← argstr 0 MAXPATH;
  if r <? 0 then ret (-1) else
  ' (r, new) ← argstr 1 MAXPATH;
  if r <? 0 then ret (-1) else
  begin_op;;
  ip ← namei old;
  match ip with
  | None => end_op;; ret (-1)
  | Some ip =>
      ilock ip;;
      x ← get_inode ip;
      if i_type x =? T_DIR then iunlockput ip;; end_op;; ret (-1) else
      upd_inode ip (fun x => x <| i_nlink := s16 (i_nlink x + 1) |>);;
      iupdate ip;;
      iunlock ip;;
      ' (dp, name) ← nameiparent new;
      match dp with
      | None => link_bad ip
      | Some dp =>
          ilock dp;;
          d ← get_inode dp;
          x ← get_inode ip;
          r ← (if negb (i_dev d =? i_dev x) then ret (-1) else dirlink dp name (i_inum x));
          if r <? 0 then iunlockput dp;; link_bad ip else
          iunlockput dp;;
          iput ip;;
          end_op;;
          ret 0
      end
  end.

(** [for(off=2*sizeof(de); off<dp->size; off+=sizeof(de))]. *)
Fixpoint isdirempty_loop (n : nat) (dp : nat) (off : Z) : M bool :=
  match n with
  | O => stop_ SFuel
  | S n =>
      x ← get_inode dp;
      if off <? i_size x then
        de ← read_dirent dp off "isdirempty: readi";
        if negb (de_inum de =? 0) then ret false
        else isdirempty_loop n dp (off + sizeof_dirent)
      else ret true
  end.

Definition isdirempty (dp : nat) : M bool :=
  x ← get_inode dp;
  isdirempty_loop (Z.to_nat (i_size x / sizeof_dirent) + 2) dp (2 * sizeof_dirent).

(** The label [bad] of [sys_unlink]. *)
Definition unlink_bad (dp : nat) : M Z := iunlockput dp;; end_op;; ret (-1).

(** [sys_unlink] once the entry at [off] of [dp] is known to be that of [ip]. *)
Definition unlink_entry (dp ip : nat) (off : Z) : M Z :=
  ilock ip;;
  x ← get_inode ip;
  if i_nlink x <? 1 then panic "unlink: nlink < 1" else
  busy ← (if i_type x =? T_DIR then e ← isdirempty ip; ret (negb e) else ret false);
  if busy : bool then iunlockput ip;; unlink_bad dp else
  r ← writei dp (KernSrc (replicate (Z.to_nat sizeof_dirent) 0)) off sizeof_dirent;
  if negb (r =? sizeof_dirent) then panic "unlink: writei" else
  x ← get_inode ip;
  when (i_type x =? T_DIR)
    (upd_inode dp (fun x => x <| i_nlink := s16 (i_nlink x - 1) |>);;
     iupdate dp);;
  iunlockput dp;;
  upd_inode ip (fun x => x <| i_nlink := s16 (i_nlink x - 1) |>);;
  iupdate ip;;
  iunlockput ip;;
  end_op;;
  ret 0.

Definition sys_unlink : M Z :=
  ' (r, path) ← argstr 0 MAXPATH;
  if r <? 0 then ret (-1) else
  begin_op;;
  ' (dp, name) ← nameiparent path;
  match dp with
  | None => end_op;; ret (-1)
  | Some dp =>
      ilock dp;;
      c1 ← in_bounds (namecmp name dot);
      if c1 =? 0 then unlink_bad dp else
      c2 ← in_bounds (namecmp name dotdot);
      if c2 =? 0 then unlink_bad dp else
      e ← dirlookup dp name;
      match e with
      | None => unlink_bad dp
      | Some (ip, off) => unlink_entry dp ip off
      end
  end.

(** The label [fail] of [create]. *)
Definition create_fail (dp ip : nat) : M (option nat) :=
  upd_inode ip (fun x => x <| i_nlink := 0 |>);;
  iupdate ip;;
  iunlockput ip;;
  iunlockput dp;;
  ret None.

(** [create] once [ialloc] gave the inode [ip]. *)
Definition create_init (dp ip : nat) (name : list Z) (type major minor : Z) : M (option nat) :=
  ilock ip;;
  upd_inode ip (fun x => x <| i_major := major |> <| i_minor := minor |> <| i_nlink := 1 |>);;
  iupdate ip;;
  x ← get_inode ip;
  d ← get_inode dp;
  r ← (if type =? T_DIR then
         r ← dirlink ip dot (i_inum x);
         if r <? 0 then ret r else dirlink ip dotdot (i_inum d)
       else ret 0);
  if r <? 0 then create_fail dp ip else
  r ← dirlink dp name (i_inum x);
  if r <? 0 then create_fail dp ip else
  when (type =? T_DIR)
    (upd_inode dp (fun x => x <| i_nlink := s16 (i_nlink x + 1) |>);;
     iupdate dp);;
  iunlockput dp;;
  ret (Some ip).

Definition create (path : list Z) (type major minor : Z) : M (option nat) :=
  ' (dp, name) ← nameiparent path;
  match dp with
  | None => ret None
  | Some dp =>
      ilock dp;;
      e ← dirlookup dp name;
      match e with
      | Some (ip, _) =>
          iunlockput dp;;
          ilock ip;;
          x ← get_inode ip;
          if (type =? T_FILE) && ((i_type x =? T_FILE) || (i_type x =? T_DEVICE))
          then ret (Some ip)
          else iunlockput ip;; ret None
      | None =>
          d ← get_inode dp;
          ip ← ialloc (i_dev d) type;
          match ip with
          | None => iunlockput dp;; ret None
          | Some ip => create_init dp ip name type major minor
          end
      end
  end.

(** The inode that [sys_open] opens, locked; [None] when it returns -1. *)
Definition open_inode (path : list Z) (omode : Z) : M (option nat) :=
  if truthy (Z.land omode O_CREATE) then
    ip ← create path T_FILE 0 0;
    match ip with
    | None => end_op;; ret None
    | Some ip => ret (Some ip)
    end
  else
    ip ← namei path;
    match ip with
    | None => end_op;; ret None
    | Some ip =>
        ilock ip;;
        x ← get_inode ip;
        if (i_type x =? T_DIR) && negb (omode =? O_RDONLY)
        then iunlockput ip;; end_op;; ret None
        else ret (Some ip)
    end.

(** What [sys_open] stores in the file. *)
Definition open_file (omode : Z) (ip : nat) (x : inode) (f : file) : file :=
  let f := if i_type x =? T_DEVICE
           then f <| f_type := FD_DEVICE |> <| f_major := i_major x |>
           else f <| f_type := FD_INODE |> <| f_off := 0 |> in
  f <| f_ip := Some ip |>
    <| f_readable := if truthy (Z.land omode O_WRONLY) then 0 else 1 |>
    <| f_writable := if truthy (Z.land omode O_WRONLY) || truthy (Z.land omode O_RDWR)
                     then 1 else 0 |>.

Definition sys_open : M Z :=
  omode ← argint 1;
  ' (n, path) ← argstr 0 MAXPATH;
  if n <? 0 then ret (-1) else
  begin_op;;
  ip ← open_inode path omode;
  match ip with
  | None => ret (-1)
  | Some ip =>
      x ← get_inode ip;
      if (i_type x =? T_DEVICE) && ((i_major x <? 0) || (NDEV <=? i_major x))
      then iunlockput ip;; end_op;; ret (-1) else
      f ← filealloc;
      match f with
      | None => iunlockput ip;; end_op;; ret (-1)
      | Some f =>
          fd ← fdalloc f;
          if fd <? 0 then fileclose f;; iunlockput ip;; end_op;; ret (-1) else
          x ← get_inode ip;
          upd_file f (open_file omode ip x);;
          when (truthy (Z.land omode O_TRUNC) && (i_type x =? T_FILE)) (itrunc ip);;
          iunlock ip;;
          end_op;;
          ret fd
      end
  end.

Definition sys_mkdir : M Z :=
  begin_op;;
  ' (r, path) ← argstr 0 MAXPATH;
  ip ← (if r <? 0 then ret None else create path T_DIR 0 0);
  match ip with
  | None => end_op;; ret (-1)
  | Some ip =>
      iunlockput ip;;
      end_op;;
      ret 0
  end.

Definition sys_mknod : M Z :=
  begin_op;;
  major ← argint 1;
  minor ← argint 2;
  ' (r, path) ← argstr 0 MAXPATH;
  ip ← (if r <? 0 then ret None else create path T_DEVICE (s16 major) (s16 minor));
  match ip with
  | None => end_op;; ret (-1)
  | Some ip =>
      iunlockput ip;;
      end_op;;
      ret 0
  end.

Definition sys_chdir : M Z :=
  p ← myproc_deref;
  begin_op;;
  ' (r, path) ← argstr 0 MAXPATH;
  ip ← (if r <? 0 then ret None else namei path);
  match ip with
  | None => end_op;; ret (-1)
  | Some ip =>
      ilock ip;;
      x ← get_inode ip;
      if negb (i_type x =? T_DIR) then iunlockput ip;; end_op;; ret (-1) else
      iunlock ip;;
      pr ← get_proc p;
      cwd ← deref (p_cwd pr);
      iput cwd;;
      end_op;;
      upd_proc p (fun r => r <| p_cwd := Some ip |>);;
      ret 0
  end.

(** The loop of [sys_exec] from argument [i] on: [k] more arguments fit, [pages]
    and [strs] are the pages and the strings of the arguments so far; the flag is
    [false] after a jump to [bad]. *)
Fixpoint fetch_args (k : nat) (uargv i : Z) (pages : list Z) (strs : list (list Z))
    : M (bool * list Z * list (list Z)) :=
  match k with
  | O => ret (false, pages, strs)
  | S k =>
      ' (r, uarg) ← fetchaddr (u64 (uargv + 8 * i));
      if r <? 0 then ret (false, pages, strs) else
      if uarg =? 0 then ret (true, pages, strs) else
      page ← kalloc;
      if page =? 0 then ret (false, pages, strs) else
      ' (r, str) ← fetchstr uarg PGSIZE;
      store_bytes page str;;
      if r <? 0 then ret (false, pages ++ [page], strs)
      else fetch_args k uargv (i + 1) (pages ++ [page]) (strs ++ [str])
  end.

Definition sys_exec : M Z :=
  uargv ← argaddr 1;
  ' (r, path) ← argstr 0 MAXPATH;
  if r <? 0 then ret (-1) else
  ' (ok, pages, strs) ← fetch_args (Z.to_nat MAXARG) uargv 0 [] [];
  if negb ok then for_each pages kfree;; ret (-1) else
  r ← kexec path strs;
  for_each pages kfree;;
  ret r.

Definition sys_pipe : M Z :=
  p ← myproc_deref;
  fdarray ← argaddr 0;
  a ← pipealloc;
  match a with
  | None => ret (-1)
  | Some (rf, wf) =>
      fd0 ← fdalloc rf;
      fd1 ← (if fd0 <? 0 then ret (-1) else fdalloc wf);
      if (fd0 <? 0) || (fd1 <? 0) then
        when (0 <=? fd0) (set_ofile p fd0 None);;
        fileclose rf;;
        fileclose wf;;
        ret (-1)
      else
        pr ← get_proc p;
        r ← copyout (p_pagetable pr) fdarray (le_bytes 4 fd0);
        r ← (if r <? 0 then ret r
             else copyout (p_pagetable pr) (u64 (fdarray + 4)) (le_bytes 4 fd1));
        if r <? 0 then
          set_ofile p fd0 None;;
          set_ofile p fd1 None;;
          fileclose rf;;
          fileclose wf;;
          ret (-1)
        else ret 0
  end.

(** ** The MLFQ levels are kept *)

Context `{!DiskLaws} `{!MmioLaws}.

Lemma pres_argfd n : pres mlfq_inv (argfd n).
Proof. unfold argfd. pres. Qed.
Lemma pres_set_ofile p fd f : pres mlfq_inv (set_ofile p fd f).
Proof. unfold set_ofile. pres. Qed.
#[local] Hint Resolve pres_argfd pres_set_ofile : pres.
Lemma pres_fdalloc f : pres mlfq_inv (fdalloc f).
Proof. unfold fdalloc. pres. Qed.
#[local] Hint Resolve pres_fdalloc : pres.
Lemma pres_sys_dup_ : pres mlfq_inv sys_dup.
Proof. unfold sys_dup. pres. Qed.
Lemma pres_sys_read_ : pres mlfq_inv sys_read.
Proof. unfold sys_read. pres. Qed.
Lemma pres_sys_write_ : pres mlfq_inv sys_write.
Proof. unfold sys_write. pres. Qed.
Lemma pres_sys_close_ : pres mlfq_inv sys_close.
Proof. unfold sys_close. pres. Qed.
Lemma pres_sys_fstat_ : pres mlfq_inv sys_fstat.
Proof. unfold sys_fstat. pres. Qed.
Lemma pres_link_bad ip : pres mlfq_inv (link_bad ip).
Proof. unfold link_bad. pres. Qed.
#[local] Hint Resolve pres_link_bad : pres.
Lemma pres_sys_link_ : pres mlfq_inv sys_link.
Proof. unfold sys_link. pres. Qed.
Lemma pres_isdirempty_loop n dp off : pres mlfq_inv (isdirempty_loop n dp off).
Proof. revert off. induction n; intros off; cbn [isdirempty_loop]; pres. Qed.
#[local] Hint Resolve pres_isdirempty_loop : pres.
Lemma pres_unlink_entry dp ip off : pres mlfq_inv (unlink_entry dp ip off).
Proof. unfold unlink_entry, unlink_bad, isdirempty. pres. Qed.
#[local] Hint Resolve pres_unlink_entry : pres.
Lemma pres_sys_unlink_ : pres mlfq_inv sys_unlink.
Proof. unfold sys_unlink, unlink_bad. pres. Qed.
Lemma pres_create_init dp ip name t ma mi : pres mlfq_inv (create_init dp ip name t ma mi).
Proof. unfold create_init, create_fail. pres. Qed.
#[local] Hint Resolve pres_create_init : pres.
Lemma pres_create path t ma mi : pres mlfq_inv (create path t ma mi).
Proof. unfold create. pres. Qed.
#[local] Hint Resolve pres_create : pres.
Lemma pres_open_inode path o : pres mlfq_inv (open_inode path o).
Proof. unfold open_inode. pres. Qed.
#[local] Hint Resolve pres_open_inode : pres.
Lemma pres_sys_open_ : pres mlfq_inv sys_open.
Proof. unfold sys_open. pres. Qed.
Lemma pres_sys_mkdir_ : pres mlfq_inv sys_mkdir.
Proof. unfold sys_mkdir. pres. Qed.
Lemma pres_sys_mknod_ : pres mlfq_inv sys_mknod.
Proof. unfold sys_mknod. pres. Qed.
Lemma pres_sys_chdir_ : pres mlfq_inv sys_chdir.
Proof. unfold sys_chdir. pres. Qed.
Lemma pres_fetch_args k u i ps ss : pres mlfq_inv (fetch_args k u i ps ss).
Proof. revert i ps ss. induction k; intros i ps ss; cbn [fetch_args]; pres. Qed.
#[local] Hint Resolve pres_fetch_args : pres.
Lemma pres_sys_exec_ : pres mlfq_inv sys_exec.
Proof. unfold sys_exec. pres. Qed.
Lemma pres_sys_pipe_ : pres mlfq_inv sys_pipe.
Proof. unfold sys_pipe. pres. Qed.
End sysfile.
