(* ===== verification/Virtio.v ===== *)
(** * The disk driver: [src/kernel/virtio_disk.c] and [src/kernel/virtio.h]

    Requests are chains of three descriptors in a table shared with the device.
    What the device does with them is outside: it changes the state while the
    driver sleeps, and its registers are behind [Mmio]. *)

From S2P Require Import Prelude Params FsTypes Machine Spinlock ProcCore Mem Kalloc Pres PresVm.
From S2P Require Import FsCore Sleeplock Bio Uart.

(** The control registers and their offsets from [VIRTIO0]. *)
Inductive vreg : Type :=
  | VIRTIO_MMIO_MAGIC_VALUE | VIRTIO_MMIO_VERSION | VIRTIO_MMIO_DEVICE_ID
  | VIRTIO_MMIO_VENDOR_ID | VIRTIO_MMIO_DEVICE_FEATURES | VIRTIO_MMIO_DRIVER_FEATURES
  | VIRTIO_MMIO_QUEUE_SEL | VIRTIO_MMIO_QUEUE_NUM_MAX | VIRTIO_MMIO_QUEUE_NUM
  | VIRTIO_MMIO_QUEUE_READY | VIRTIO_MMIO_QUEUE_NOTIFY | VIRTIO_MMIO_INTERRUPT_STATUS
  | VIRTIO_MMIO_INTERRUPT_ACK | VIRTIO_MMIO_STATUS | VIRTIO_MMIO_QUEUE_DESC_LOW
  | VIRTIO_MMIO_QUEUE_DESC_HIGH | VIRTIO_MMIO_DRIVER_DESC_LOW | VIRTIO_MMIO_DRIVER_DESC_HIGH
  | VIRTIO_MMIO_DEVICE_DESC_LOW | VIRTIO_MMIO_DEVICE_DESC_HIGH.

Definition vreg_off (r : vreg) : Z :=
  match r with
  | VIRTIO_MMIO_MAGIC_VALUE => 0x000 | VIRTIO_MMIO_VERSION => 0x004
  | VIRTIO_MMIO_DEVICE_ID => 0x008 | VIRTIO_MMIO_VENDOR_ID => 0x00c
  | VIRTIO_MMIO_DEVICE_FEATURES => 0x010 | VIRTIO_MMIO_DRIVER_FEATURES => 0x020
  | VIRTIO_MMIO_QUEUE_SEL => 0x030 | VIRTIO_MMIO_QUEUE_NUM_MAX => 0x034
  | VIRTIO_MMIO_QUEUE_NUM => 0x038 | VIRTIO_MMIO_QUEUE_READY => 0x044
  | VIRTIO_MMIO_QUEUE_NOTIFY => 0x050 | VIRTIO_MMIO_INTERRUPT_STATUS => 0x060
  | VIRTIO_MMIO_INTERRUPT_ACK => 0x064 | VIRTIO_MMIO_STATUS => 0x070
  | VIRTIO_MMIO_QUEUE_DESC_LOW => 0x080 | VIRTIO_MMIO_QUEUE_DESC_HIGH => 0x084
  | VIRTIO_MMIO_DRIVER_DESC_LOW => 0x090 | VIRTIO_MMIO_DRIVER_DESC_HIGH => 0x094
  | VIRTIO_MMIO_DEVICE_DESC_LOW => 0x0a0 | VIRTIO_MMIO_DEVICE_DESC_HIGH => 0x0a4
  end.

Definition VIRTIO_CONFIG_S_ACKNOWLEDGE : Z := 1.
Definition VIRTIO_CONFIG_S_DRIVER : Z := 2.
Definition VIRTIO_CONFIG_S_DRIVER_OK : Z := 4.
Definition VIRTIO_CONFIG_S_FEATURES_OK : Z := 8.

Definition VIRTIO_BLK_F_RO : Z := 5.
Definition VIRTIO_BLK_F_SCSI : Z := 7.
Definition VIRTIO_BLK_F_CONFIG_WCE : Z := 11.
Definition VIRTIO_BLK_F_MQ : Z := 12.
Definition VIRTIO_F_ANY_LAYOUT : Z := 27.
Definition VIRTIO_RING_F_INDIRECT_DESC : Z := 28.
Definition VIRTIO_RING_F_EVENT_IDX : Z := 29.

Definition VRING_DESC_F_NEXT : Z := 1.
Definition VRING_DESC_F_WRITE : Z := 2.
Definition VIRTIO_BLK_T_IN : Z := 0.
Definition VIRTIO_BLK_T_OUT : Z := 1.

(** The features that the driver turns off. *)
Definition refused : list Z :=
  [VIRTIO_BLK_F_RO; VIRTIO_BLK_F_SCSI; VIRTIO_BLK_F_CONFIG_WCE; VIRTIO_BLK_F_MQ;
   VIRTIO_F_ANY_LAYOUT; VIRTIO_RING_F_EVENT_IDX; VIRTIO_RING_F_INDIRECT_DESC].

Section virtio.
Context `{Fuel} `{Mmio}.

(** Reading and writing [*R(r)]. *)
Definition vread (r : vreg) : M Z := v ← mmio_read (VIRTIO0 + vreg_off r); ret (u32 v).
Definition vwrite (r : vreg) (v : Z) : M unit := mmio_write (VIRTIO0 + vreg_off r) (u32 v).

Definition get_disk : M disk := gets (fun s => dev_disk (k_dev s)).
Definition upd_disk (g : disk -> disk) : M unit :=
  upd_dev (fun d => d <| dev_disk := g (dev_disk d) |>).

(** The handshake up to FEATURES_OK: the value of [status]. *)
Definition negotiate : M Z :=
  let status := 0 in
  vwrite VIRTIO_MMIO_STATUS status;;
  let status := Z.lor status VIRTIO_CONFIG_S_ACKNOWLEDGE in
  vwrite VIRTIO_MMIO_STATUS status;;
  let status := Z.lor status VIRTIO_CONFIG_S_DRIVER in
  vwrite VIRTIO_MMIO_STATUS status;;
  features ← vread VIRTIO_MMIO_DEVICE_FEATURES;
  let features := foldl (fun f bit => Z.ldiff f (Z.shiftl 1 bit)) features refused in
  vwrite VIRTIO_MMIO_DRIVER_FEATURES features;;
  let status := Z.lor status VIRTIO_CONFIG_S_FEATURES_OK in
  vwrite VIRTIO_MMIO_STATUS status;;
  vread VIRTIO_MMIO_STATUS.

(** The queue: its memory, its size and its addresses. *)
Definition queue_init : M unit :=
  desc ← kalloc;
  avail ← kalloc;
  used ← kalloc;
  upd_disk (fun d => d <| d_pages := (desc, avail, used) |>);;
  if (desc =? 0) || (avail =? 0) || (used =? 0) then panic "virtio disk kalloc" else
  memset desc 0 PGSIZE;;
  memset avail 0 PGSIZE;;
  memset used 0 PGSIZE;;
  upd_disk (fun d => d <| d_desc := replicate (Z.to_nat NUM) desc_zero |>
                       <| d_avail_idx := 0 |> <| d_avail_ring := replicate (Z.to_nat NUM) 0 |>
                       <| d_used_idx := 0 |> <| d_used_ring := replicate (Z.to_nat NUM) 0 |>);;
  vwrite VIRTIO_MMIO_QUEUE_NUM NUM;;
  vwrite VIRTIO_MMIO_QUEUE_DESC_LOW desc;;
  vwrite VIRTIO_MMIO_QUEUE_DESC_HIGH (Z.shiftr desc 32);;
  vwrite VIRTIO_MMIO_DRIVER_DESC_LOW avail;;
  vwrite VIRTIO_MMIO_DRIVER_DESC_HIGH (Z.shiftr avail 32);;
  vwrite VIRTIO_MMIO_DEVICE_DESC_LOW used;;
  vwrite VIRTIO_MMIO_DEVICE_DESC_HIGH (Z.shiftr used 32);;
  vwrite VIRTIO_MMIO_QUEUE_READY 0x1.

(** [*R(r) != v], for the registers in turn until one differs. *)
Fixpoint check_regs (l : list (vreg * Z)) : M bool :=
  match l with
  | [] => ret true
  | (r, v) :: l => x ← vread r; if x =? v then check_regs l else ret false
  end.

Definition virtio_disk_init : M unit :=
  initlock LkDisk "virtio_disk";;
  found ← check_regs [(VIRTIO_MMIO_MAGIC_VALUE, 0x74726976); (VIRTIO_MMIO_VERSION, 2);
                      (VIRTIO_MMIO_DEVICE_ID, 2); (VIRTIO_MMIO_VENDOR_ID, 0x554d4551)];
  if negb found then panic "could not find virtio disk" else
  status ← negotiate;
  if Z.land status VIRTIO_CONFIG_S_FEATURES_OK =? 0 then panic "virtio disk FEATURES_OK unset" else
  vwrite VIRTIO_MMIO_QUEUE_SEL 0;;
  ready ← vread VIRTIO_MMIO_QUEUE_READY;
  if truthy ready then panic "virtio disk should not be ready" else
  max ← vread VIRTIO_MMIO_QUEUE_NUM_MAX;
  if max =? 0 then panic "virtio disk has no queue 0" else
  if max <? NUM then panic "virtio disk max queue too short" else
  queue_init;;
  upd_disk (fun d => d <| d_free := replicate (Z.to_nat NUM) 1 |>);;
  let status := Z.lor status VIRTIO_CONFIG_S_DRIVER_OK in
  vwrite VIRTIO_MMIO_STATUS status.

(** ** Descriptors *)

Definition alloc_desc : M Z :=
  r ← for_find (seqZ 0 NUM) (fun i =>
        d ← get_disk;
        f ← index (d_free d) i;
        if truthy f then
          upd_disk (fun d => d <| d_free := <[Z.to_nat i := 0]> (d_free d) |>);;
          ret (Some i)
        else ret None);
  ret (default (-1) r).

Definition set_desc (i : Z) (x : virtq_desc) : M unit :=
  d ← get_disk;
  l ← store_at (d_desc d) i x;
  upd_disk (fun d => d <| d_desc := l |>).

Definition free_desc (i : Z) : M unit :=
  if NUM <=? i then panic "free_desc 1" else
  d ← get_disk;
  f ← index (d_free d) i;
  if truthy f then panic "free_desc 2" else
  set_desc i desc_zero;;
  upd_disk (fun d => d <| d_free := <[Z.to_nat i := 1]> (d_free d) |>);;
  wakeup (Some ChDiskFree).

Fixpoint free_chain_loop (n : nat) (i : Z) : M unit :=
  match n with
  | O => stop_ SFuel
  | S n =>
      d ← get_disk;
      x ← index (d_desc d) i;
      free_desc i;;
      if truthy (Z.land (vd_flags x) VRING_DESC_F_NEXT)
      then free_chain_loop n (vd_next x) else ret tt
  end.

(** A chain has at most [NUM] descriptors: freeing one twice panics. *)
Definition free_chain (i : Z) : M unit := free_chain_loop (S (Z.to_nat NUM)) i.

(** [alloc3_desc]: the three indices, or [None] for -1. *)
Fixpoint alloc_descs (n : nat) (got : list Z) : M (option (list Z)) :=
  match n with
  | O => ret (Some got)
  | S n =>
      i ← alloc_desc;
      if i <? 0 then for_each got free_desc;; ret None
      else alloc_descs n (got ++ [i])
  end.

Definition alloc3_desc : M (option (list Z)) := alloc_descs 3 [].

(** ** Transfers *)

(** [while(1){ if(alloc3_desc(idx) == 0) break; sleep(...); }] *)
Fixpoint get_descs (n : nat) : M (list Z) :=
  match n with
  | O => stop_ SFuel
  | S n =>
      r ← alloc3_desc;
      match r with
      | Some idx => ret idx
      | None => sleep (Some ChDiskFree) LkDisk;; get_descs n
      end
  end.

(** [while(b->disk == 1) sleep(b, &disk.vdisk_lock);] *)
Fixpoint wait_done (n : nat) (b : nat) : M unit :=
  match n with
  | O => stop_ SFuel
  | S n =>
      x ← get_buf b;
      if b_disk x =? 1 then sleep (Some (ChBuf (Z.of_nat b))) LkDisk;; wait_done n b
      else ret tt
  end.

(** The three descriptors of a request. *)
Definition format_descs (b : nat) (write : bool) (sector i0 i1 i2 : Z) : M unit :=
  d ← get_disk;
  ops ← store_at (d_ops d) i0
          (BlkReq (if write then VIRTIO_BLK_T_OUT else VIRTIO_BLK_T_IN) 0 sector);
  upd_disk (fun d => d <| d_ops := ops |>);;
  set_desc i0 (VirtqDesc (DmaOps (Z.to_nat i0)) 16 VRING_DESC_F_NEXT i1);;
  set_desc i1 (VirtqDesc (DmaData b) BSIZE
                 (Z.lor (if write then 0 else VRING_DESC_F_WRITE) VRING_DESC_F_NEXT) i2);;
  set_desc i2 (VirtqDesc (DmaStatus (Z.to_nat i0)) 1 VRING_DESC_F_WRITE 0);;
  upd_disk (fun d => d <| d_info := <[Z.to_nat i0 := Vinfo (Some b) 0xff]> (d_info d) |>);;
  upd_buf b (fun x => x <| b_disk := 1 |>).

(** Put the chain on the available ring and notify the device. *)
Definition submit (i0 : Z) : M unit :=
  d ← get_disk;
  ring ← store_at (d_avail_ring d) (d_avail_idx d mod NUM) i0;
  upd_disk (fun d => d <| d_avail_ring := ring |>);;
  upd_disk (fun d => d <| d_avail_idx := u16 (d_avail_idx d + 1) |>);;
  vwrite VIRTIO_MMIO_QUEUE_NOTIFY 0.

Definition virtio_disk_rw (b : nat) (write : bool) : M unit :=
  x ← get_buf b;
  let sector := u32 (b_blockno x * (BSIZE / 512)) in
  acquire LkDisk;;
  idx ← get_descs fuel;
  match idx with
  | [i0; i1; i2] =>
      format_descs b write sector i0 i1 i2;;
      submit i0;;
      wait_done fuel b;;
      upd_disk (fun d => d <| d_info := alter (fun v => v <| vi_b := None |>) (Z.to_nat i0)
                                          (d_info d) |>);;
      free_chain i0;;
      release LkDisk
  | _ => fault
  end.

(** [while(disk.used_idx != disk.used->idx)]. *)
Fixpoint complete (n : nat) : M unit :=
  match n with
  | O => stop_ SFuel
  | S n =>
      d ← get_disk;
      if d_seen_idx d =? d_used_idx d then ret tt else
      id ← index (d_used_ring d) (d_seen_idx d mod NUM);
      v ← index (d_info d) id;
      if negb (vi_status v =? 0) then panic "virtio_disk_intr status" else
      b ← deref (vi_b v);
      upd_buf b (fun x => x <| b_disk := 0 |>);;
      wakeup (Some (ChBuf (Z.of_nat b)));;
      upd_disk (fun d => d <| d_seen_idx := u16 (d_seen_idx d + 1) |>);;
      complete n
  end.

Definition virtio_disk_intr : M unit :=
  acquire LkDisk;;
  st ← vread VIRTIO_MMIO_INTERRUPT_STATUS;
  vwrite VIRTIO_MMIO_INTERRUPT_ACK (Z.land st 0x3);;
  complete fuel;;
  release LkDisk.

Lemma pres_get_disk : pres mlfq_inv get_disk.
Proof. unfold get_disk. pres. Qed.
Lemma pres_upd_disk g : pres mlfq_inv (upd_disk g).
Proof. unfold upd_disk. pres. Qed.
#[local] Hint Resolve pres_get_disk pres_upd_disk : pres.
Lemma pres_alloc_desc : pres mlfq_inv alloc_desc.
Proof. unfold alloc_desc. pres. Qed.
Lemma pres_set_desc i x : pres mlfq_inv (set_desc i x).
Proof. unfold set_desc. pres. Qed.
#[local] Hint Resolve pres_alloc_desc pres_set_desc : pres.
Lemma pres_free_desc i : pres mlfq_inv (free_desc i).
Proof. unfold free_desc. pres. Qed.
#[local] Hint Resolve pres_free_desc : pres.
Lemma pres_free_chain_loop n i : pres mlfq_inv (free_chain_loop n i).
Proof. revert i. induction n; intros i; cbn [free_chain_loop]; pres. Qed.
Lemma pres_alloc_descs n got : pres mlfq_inv (alloc_descs n got).
Proof. revert got. induction n; intros got; cbn [alloc_descs]; pres. Qed.
#[local] Hint Resolve pres_free_chain_loop pres_alloc_descs : pres.
Lemma pres_get_descs n : pres mlfq_inv (get_descs n).
Proof. unfold alloc3_desc. induction n; cbn [get_descs]; unfold alloc3_desc; pres. Qed.
Lemma pres_wait_done n b : pres mlfq_inv (wait_done n b).
Proof. induction n; cbn [wait_done]; pres. Qed.
Lemma pres_format_descs b w se i0 i1 i2 : pres mlfq_inv (format_descs b w se i0 i1 i2).
Proof. unfold format_descs. pres. Qed.
Lemma pres_complete n : pres mlfq_inv (complete n).
Proof. induction n; cbn [complete]; pres. Qed.
#[local] Hint Resolve pres_get_descs pres_wait_done pres_format_descs pres_complete : pres.

Context `{!MmioLaws}.

Lemma pres_vread r : pres mlfq_inv (vread r).
Proof. unfold vread. pres. Qed.
Lemma pres_vwrite r v : pres mlfq_inv (vwrite r v).
Proof. unfold vwrite. pres. Qed.
#[local] Hint Resolve pres_vread pres_vwrite : pres.
Lemma pres_check_regs l : pres mlfq_inv (check_regs l).
Proof. induction l as [|[]]; cbn [check_regs]; pres. Qed.
#[local] Hint Resolve pres_check_regs : pres.
Lemma pres_virtio_disk_init : pres mlfq_inv virtio_disk_init.
Proof. unfold virtio_disk_init, negotiate, queue_init. pres. Qed.
Lemma pres_virtio_disk_rw_ b w : pres mlfq_inv (virtio_disk_rw b w).
Proof. unfold virtio_disk_rw, submit, free_chain. pres. Qed.
Lemma pres_virtio_disk_intr_ : pres mlfq_inv virtio_disk_intr.
Proof. unfold virtio_disk_intr. pres. Qed.
End virtio.

#[export] Hint Resolve pres_virtio_disk_init pres_virtio_disk_rw_ pres_virtio_disk_intr_ : pres.

(** The driver behind the interface of the buffer cache. *)
#[export] Instance virtio_ops `{Fuel} `{Mmio} : DiskOps := {| op_virtio_disk_rw := virtio_disk_rw |}.
#[export] Instance virtio_laws `{Fuel} `{MmioLaws} : DiskLaws.
Proof. constructor. apply pres_virtio_disk_rw_. Qed.
