(* ===== verification/Printf.v ===== *)
(** * Formatted output: [src/kernel/printf.c]

    [printf], [printint], [printptr] and [panic] down to the UART. The functions of
    the other files that print use [Machine.printf], which records the message. *)

From S2P Require Import Prelude Params FsTypes Machine Spinlock ProcCore Mem Pres PresVm Services.
From S2P Require Import Proc FsCore Uart Console.

(** The arguments of a call: machine words and C strings (or null pointers). *)
Inductive varg : Type := VInt (v : Z) | VStr (s : option (list Z)).

(** [digits[d]]. *)
Definition digit (d : Z) : Z := if d <? 10 then 48 + d else 87 + d.

(** [buf[i] = c] in [char buf[20]]. *)
Definition BUFLEN : Z := 20.
Definition push_char (c : Z) (buf : list Z) : option (list Z) :=
  if Z.of_nat (length buf) <? BUFLEN then Some (buf ++ [c]) else None.

(** [do { buf[i++] = digits[x % base]; } while((x /= base) != 0);] *)
Fixpoint put_digits (k : nat) (x base : Z) (buf : list Z) : option (list Z) :=
  match k with
  | O => None
  | S k =>
      match push_char (digit (x mod base)) buf with
      | None => None
      | Some buf =>
          let x := x / base in
          if negb (x =? 0) then put_digits k x base buf else Some buf
      end
  end.

(** The characters that [printint(xx, base, sign)] writes, in order; [None] when it
    would leave its buffer. *)
Definition printint_chars (xx base : Z) (sign : bool) : option (list Z) :=
  let neg := sign && (xx <? 0) in
  let x := if neg then u64 (- xx) else u64 xx in
  match put_digits 64 x base [] with
  | None => None
  | Some buf => reverse <$> (if neg then push_char 45 buf else Some buf)
  end.

(** The sixteen digits of [printptr(x)]. *)
Fixpoint ptr_digits (k : nat) (x : Z) : list Z :=
  match k with
  | O => []
  | S k => digit (Z.shiftr x 60) :: ptr_digits k (u64 (Z.shiftl x 4))
  end.

Section printf.
Context `{Fuel} `{Mmio}.

Definition printint (xx base : Z) (sign : bool) : M unit :=
  l ← in_bounds (printint_chars xx base sign);
  for_each l consputc.

Definition printptr (x : Z) : M unit :=
  consputc 48;;
  consputc 120;;
  for_each (ptr_digits 16 x) consputc.

(** [va_arg]: the next argument, as a word or as a string. *)
Definition arg_int (args : list varg) : M (Z * list varg) :=
  match args with VInt v :: args => ret (v, args) | _ => fault end.
Definition arg_str (args : list varg) : M (option (list Z) * list varg) :=
  match args with VStr s :: args => ret (s, args) | _ => fault end.

(** ["(null)"] *)
Definition null_str : list Z := [40; 110; 117; 108; 108; 41; 0].

(** [for(; *s; s++) consputc( *s);] *)
Fixpoint puts (s : list Z) : M unit :=
  match s with
  | [] => fault
  | c :: s => if c =? 0 then ret tt else consputc c;; puts s
  end.

(** The conversion after a [%]: how many characters it takes ([None] at the end of
    the format) and the arguments left. *)
Definition conversion (c0 c1 c2 : Z) (args : list varg) : M (option nat * list varg) :=
  let int32s (v : Z) := printint (s32 v) 10 true in
  let int64s (v : Z) := printint (s64 v) 10 true in
  let go (n : nat) (pr : Z -> M unit) : M (option nat * list varg) :=
    ' (v, args) ← arg_int args; pr v;; ret (Some n, args) in
  if c0 =? 100 then go 1%nat int32s
  else if (c0 =? 108) && (c1 =? 100) then go 2%nat int64s
  else if (c0 =? 108) && (c1 =? 108) && (c2 =? 100) then go 3%nat int64s
  else if c0 =? 117 then go 1%nat (fun v => printint (u32 v) 10 false)
  else if (c0 =? 108) && (c1 =? 117) then go 2%nat (fun v => printint (s64 v) 10 false)
  else if (c0 =? 108) && (c1 =? 108) && (c2 =? 117) then go 3%nat (fun v => printint (s64 v) 10 false)
  else if c0 =? 120 then go 1%nat (fun v => printint (u32 v) 16 false)
  else if (c0 =? 108) && (c1 =? 120) then go 2%nat (fun v => printint (s64 v) 16 false)
  else if (c0 =? 108) && (c1 =? 108) && (c2 =? 120) then go 3%nat (fun v => printint (s64 v) 16 false)
  else if c0 =? 112 then go 1%nat (fun v => printptr (u64 v))
  else if c0 =? 99 then go 1%nat (fun v => consputc (s32 v))
  else if c0 =? 115 then
    ' (s, args) ← arg_str args;
    puts (default null_str s);;
    ret (Some 1%nat, args)
  else if c0 =? 37 then consputc 37;; ret (Some 1%nat, args)
  else if c0 =? 0 then ret (None, args)
  else consputc 37;; consputc c0;; ret (Some 1%nat, args).

(** [fmt[i] & 0xff]. *)
Definition char_at (fmt : list Z) (i : nat) : M Z := c ← in_bounds (fmt !! i); ret (u8 c).

Fixpoint printf_loop (k : nat) (fmt : list Z) (args : list varg) : M unit :=
  match k with
  | O => stop_ SFuel
  | S k =>
      cx ← char_at fmt 0;
      if cx =? 0 then ret tt else
      if negb (cx =? 37) then consputc cx;; printf_loop k (drop 1 fmt) args else
      let fmt := drop 1 fmt in
      c0 ← char_at fmt 0;
      c1 ← (if truthy c0 then char_at fmt 1 else ret 0);
      c2 ← (if truthy c1 then char_at fmt 2 else ret 0);
      ' (n, args) ← conversion c0 c1 c2 args;
      match n with
      | None => ret tt
      | Some n => printf_loop k (drop n fmt) args
      end
  end.

Definition kprintf (fmt : list Z) (args : list varg) : M Z :=
  pk ← panicking;
  when (pk =? 0) (acquire LkPr);;
  printf_loop (S (length fmt)) fmt args;;
  pk ← panicking;
  when (pk =? 0) (release LkPr);;
  ret 0.

(** ["panic: "] and ["%s\n"]. *)
Definition panic_prefix : list Z := [112; 97; 110; 105; 99; 58; 32; 0].
Definition panic_fmt : list Z := [37; 115; 10; 0].

Definition kpanic (s : list Z) : M unit :=
  upd_dev (fun d => d <| dev_panicking := 1 |>);;
  kprintf panic_prefix [];;
  kprintf panic_fmt [VStr (Some s)];;
  upd_dev (fun d => d <| dev_panicked := 1 |>);;
  stop_ SHang.

Definition printfinit : M unit := initlock LkPr "pr".
End printf.

(** ** printint() stays in its buffer and prints the number *)

(** The value of a numeral in base [base], most significant digit first. *)
Definition digit_value (c : Z) : Z := if c <? 58 then c - 48 else c - 87.
Definition numeral (base : Z) (l : list Z) : Z :=
  foldl (fun acc c => acc * base + digit_value c) 0 l.

Definition signed_numeral (base : Z) (l : list Z) : Z :=
  match l with
  | c :: r => if c =? 45 then - numeral base r else numeral base l
  | [] => 0
  end.

Lemma digit_value_digit d : 0 <= d < 16 -> digit_value (digit d) = d.
Proof. intros. unfold digit_value, digit. repeat case_if; bool_to_prop; lia. Qed.

Lemma digit_not_minus d : 0 <= d < 16 -> digit d <> 45.
Proof. intros. unfold digit. case_if; bool_to_prop; lia. Qed.

(** [n] digits are enough below [base ^ n]. *)
Lemma put_digits_spec k n x base buf :
  2 <= base <= 16 -> 0 <= x < base ^ Z.of_nat (S n) -> (n < k)%nat ->
  Z.of_nat (length buf) + Z.of_nat (S n) <= BUFLEN ->
  exists ds, put_digits k x base buf = Some (buf ++ ds) /\ (1 <= length ds <= S n)%nat
    /\ numeral base (reverse ds) = x /\ Forall (fun c => c <> 45) ds.
Proof.
  intros Hb. revert n x buf. induction k as [|k IH]; intros n x buf Hx Hn Hl; [lia|].
  cbn [put_digits]. unfold push_char at 1. rewrite (proj2 (Z.ltb_lt _ _)) by lia.
  assert (Hm : 0 <= x mod base < 16) by (pose proof (Z.mod_pos_bound x base); lia).
  destruct (Z.eqb_spec (x / base) 0) as [E|E]; cbn [negb].
  - exists [digit (x mod base)]. split; [done|]. split; [simpl; lia|]. split.
    + unfold numeral. simpl. rewrite digit_value_digit by done.
      pose proof (Z.div_mod x base). lia.
    + by repeat constructor; apply digit_not_minus.
  - destruct n as [|n].
    { exfalso. apply E. apply Z.div_small. change (base ^ Z.of_nat 1) with (base ^ 1) in Hx.
      rewrite Z.pow_1_r in Hx. lia. }
    rewrite Nat2Z.inj_succ, Z.pow_succ_r in Hx by lia.
    destruct (IH n (x / base) (buf ++ [digit (x mod base)])) as (ds & -> & Hlen & Hv & Hf).
    + split; [apply Z.div_pos; lia|]. apply Z.div_lt_upper_bound; lia.
    + lia.
    + rewrite length_app. simpl. lia.
    + exists (digit (x mod base) :: ds). rewrite <- app_assoc. split; [done|].
      split; [simpl; lia|]. split.
      * unfold numeral in *. rewrite reverse_cons, foldl_app. simpl.
        rewrite Hv, digit_value_digit by done. pose proof (Z.div_mod x base). lia.
      * constructor; [by apply digit_not_minus|done].
Qed.

Lemma signed_numeral_plain base ds :
  Forall (fun c => c <> 45) ds -> (1 <= length ds)%nat ->
  signed_numeral base (reverse ds) = numeral base (reverse ds).
Proof.
  intros Hf Hl. assert (Hr : Forall (fun c => c <> 45) (reverse ds)) by by apply Forall_reverse.
  destruct (reverse ds) as [|c r] eqn:E; [done|]. inversion_clear Hr. simpl.
  by rewrite (proj2 (Z.eqb_neq c 45)).
Qed.

(** The digits of a number below [2 ^ 64], and of one up to [2 ^ 63]. *)
Lemma put_digits_fits n x base :
  base = 10 \/ base = 16 ->
  (n = 18%nat /\ 0 <= x <= 2 ^ 63) \/ (n = 19%nat /\ 0 <= x < 2 ^ 64) ->
  exists ds, put_digits 64 x base [] = Some ds /\ (1 <= length ds <= S n)%nat
    /\ numeral base (reverse ds) = x /\ Forall (fun c => c <> 45) ds.
Proof.
  intros Hb Hn. apply (put_digits_spec 64 n x base []).
  - lia.
  - destruct Hb as [-> | ->], Hn as [[-> ?]|[-> ?]]; simpl Z.of_nat;
      split; try lia; (eapply Z.le_lt_trans; [|reflexivity]); lia.
  - lia.
  - unfold BUFLEN. simpl length. lia.
Qed.

(** C40. [printint(xx, base, sign)] in base 10 or 16 never writes outside its 20-byte
    buffer, the longest case being [-9223372036854775808], and what it prints reads
    back as the number: as a signed numeral when [sign] is set and as the unsigned
    64-bit value otherwise. *)
Theorem printint_spec xx base sign :
  base = 10 \/ base = 16 -> - 2 ^ 63 <= xx < 2 ^ 63 ->
  exists l, printint_chars xx base sign = Some l /\ Z.of_nat (length l) <= BUFLEN
    /\ (if sign then signed_numeral base l else numeral base l) = if sign then xx else u64 xx.
Proof.
  intros Hb Hx. unfold printint_chars. destruct (sign && (xx <? 0)) eqn:E.
  - bool_to_prop. subst sign. assert (Hu : u64 (- xx) = - xx) by (apply u64_small; lia).
    rewrite Hu. destruct (put_digits_fits 18 (- xx) base) as (ds & -> & Hl & Hv & _); [done|lia|].
    unfold push_char, BUFLEN. rewrite (proj2 (Z.ltb_lt _ _)) by lia.
    eexists. split; [done|]. rewrite length_reverse, length_app. split; [simpl; lia|].
    rewrite reverse_snoc. simpl. lia.
  - destruct (put_digits_fits 19 (u64 xx) base) as (ds & -> & Hl & Hv & Hf);
      [done|right; split; [done|apply u64_range]|].
    eexists. split; [done|]. rewrite length_reverse. unfold BUFLEN. split; [lia|].
    destruct sign; [|done]. rewrite signed_numeral_plain by (done || lia). rewrite Hv.
    simpl in E. bool_to_prop. apply u64_small. lia.
Qed.

Lemma printint_spec_witness :
  exists l, printint_chars (- 2 ^ 63) 10 true = Some l /\ Z.of_nat (length l) <= BUFLEN
    /\ signed_numeral 10 l = - 2 ^ 63.
Proof. apply (printint_spec (- 2 ^ 63) 10 true); lia. Defined.
