(* ===== verification/Kernel.v ===== *)
(** * The kernel: [src/kernel/main.c], and the components put together

    The file system, the drivers and the file system calls take the places that
    [proc.c], [trap.c] and [syscall.c] call them in. The kernel runs as threads that
    switch among themselves: [reachable] lists the states between their steps. *)

From stdpp Require Import pretty.
From S2P Require Import Prelude Params FsTypes Machine Spinlock ProcCore Sched Mem Kalloc Vm Pres.
From S2P Require Import PresVm Services Proc Syscall Trap FsCore Sleeplock Bio Log Fs Dir Uart.
From S2P Require Import Console Pipe FileTable Exec Sysfile Virtio.

(** ** The interfaces, implemented *)

#[export] Instance fs_ops `{Fuel} `{Mmio} `{StatPad} : FsOps := {|
  op_filedup := filedup;
  op_fileclose := fileclose;
  op_idup := idup;
  op_iput := iput;
  op_begin_op := begin_op;
  op_end_op := end_op;
  op_namei := namei;
  op_fsinit := fsinit;
  op_kexec := kexec;
|}.

#[export] Instance fs_laws `{Fuel} `{MmioLaws} `{StatPad} : FsLaws.
Proof.
  constructor; simpl; intros.
  - apply pres_filedup_. - apply pres_fileclose_. - apply pres_idup_. - apply pres_iput_.
  - apply pres_begin_op_. - apply pres_end_op_. - apply pres_namei_. - apply pres_fsinit_.
  - apply pres_kexec_.
Qed.

#[export] Instance dev_ops `{Fuel} `{Mmio} : DevOps := {|
  op_plic_claim := plic_claim;
  op_plic_complete := plic_complete;
  op_uartintr := uartintr;
  op_virtio_disk_intr := virtio_disk_intr;
|}.

#[export] Instance dev_laws `{Fuel} `{MmioLaws} : DevLaws.
Proof. constructor; simpl; intros; pres. Qed.

#[export] Instance file_calls `{Fuel} `{Mmio} `{StatPad} : FileCalls := {|
  op_sys_dup := sys_dup;
  op_sys_read := sys_read;
  op_sys_write := sys_write;
  op_sys_close := sys_close;
  op_sys_fstat := sys_fstat;
  op_sys_link := sys_link;
  op_sys_unlink := sys_unlink;
  op_sys_open := sys_open;
  op_sys_mkdir := sys_mkdir;
  op_sys_mknod := sys_mknod;
  op_sys_chdir := sys_chdir;
  op_sys_exec := sys_exec;
  op_sys_pipe := sys_pipe;
|}.

#[export] Instance file_call_laws `{Fuel} `{MmioLaws} `{StatPad} : FileCallLaws.
Proof.
  constructor; simpl; intros.
  - apply pres_sys_dup_. - apply pres_sys_read_. - apply pres_sys_write_.
  - apply pres_sys_close_. - apply pres_sys_fstat_. - apply pres_sys_link_.
  - apply pres_sys_unlink_. - apply pres_sys_open_. - apply pres_sys_mkdir_.
  - apply pres_sys_mknod_. - apply pres_sys_chdir_. - apply pres_sys_exec_.
  - apply pres_sys_pipe_.
Qed.

(** ** main() *)

Section kernel.
Context `{Fuel} `{Mmio} `{StatPad}.

(** [while(started == 0);] *)
Fixpoint wait_started (n : nat) : M unit :=
  match n with
  | O => stop_ SFuel
  | S n =>
      st ← gets (fun s => dev_started (k_dev s));
      if st =? 0 then wait_started n else ret tt
  end.

(** [main()] with [n] passes of the scheduler. *)
Definition main (n : nat) : M unit :=
  c ← cpuid;
  (if decide (c = 0%nat) then
     consoleinit;;
     initlock LkPr "pr";;
     printf newline;;
     printf ("xv6 kernel is booting" +:+ newline);;
     printf newline;;
     kinit;;
     kvminit;;
     kvminithart;;
     procinit;;
     trapinit;;
     trapinithart;;
     plicinit;;
     plicinithart;;
     binit;;
     iinit;;
     fileinit;;
     virtio_disk_init;;
     userinit;;
     upd_dev (fun d => d <| dev_started := 1 |>)
   else
     wait_started fuel;;
     c ← cpuid;
     printf ("hart " +:+ pretty c +:+ " starting" +:+ newline);;
     kvminithart;;
     trapinithart;;
     plicinithart);;
  scheduler n.
End kernel.

(** ** The scheduler and the boot code keep the MLFQ levels *)

Lemma mlfq_ok_promote r : mlfq_ok r -> mlfq_ok (promote_proc r).
Proof.
  intros [Hl Hp]. unfold promote_proc. case_if; bool_to_prop; simpl in *; [|by split].
  unfold mlfq_ok. simpl. rewrite s32_small by (params; lia). params. lia.
Qed.

Lemma mlfq_ok_demote r : mlfq_ok r -> mlfq_ok (demote_proc r).
Proof.
  intros [Hl Hp]. unfold demote_proc. case_if; bool_to_prop; simpl in *; [|by split].
  unfold mlfq_ok. simpl. rewrite s32_small by (params; lia). params. lia.
Qed.
#[local] Hint Resolve mlfq_ok_promote mlfq_ok_demote : pres.

Lemma pres_get_rr c q : pres mlfq_inv (get_rr c q).
Proof. intros s Hs. unfold get_rr. repeat case_match; done. Qed.
#[local] Hint Resolve pres_get_rr : pres.

Lemma pres_promotion_pass : pres mlfq_inv promotion_pass.
Proof. unfold promotion_pass. pres. by apply mlfq_ok_promote. Qed.
Lemma pres_select_proc c : pres mlfq_inv (select_proc c).
Proof. unfold select_proc, select_at, select_slot. pres. Qed.
Lemma pres_run_chosen c p : pres mlfq_inv (run_chosen c p).
Proof. unfold run_chosen. pres. by apply mlfq_ok_demote. Qed.
#[local] Hint Resolve pres_promotion_pass pres_select_proc pres_run_chosen : pres.

Lemma pres_scheduler_loop n c : pres mlfq_inv (scheduler_loop n c).
Proof. induction n; cbn [scheduler_loop]; unfold scheduler_iter, wfi; pres. Qed.
#[local] Hint Resolve pres_scheduler_loop : pres.
Lemma pres_scheduler n : pres mlfq_inv (scheduler n).
Proof. unfold scheduler, mycpu, cpuid, r_tp. pres. Qed.

Lemma pres_procinit : pres mlfq_inv procinit.
Proof. unfold procinit. pres. Qed.
Lemma pres_freerange_loop n p e : pres mlfq_inv (freerange_loop n p e).
Proof. revert p. induction n; intros p; cbn [freerange_loop]; pres. Qed.
#[local] Hint Resolve pres_freerange_loop : pres.
Lemma pres_kinit : pres mlfq_inv kinit.
Proof. unfold kinit, freerange. pres. Qed.
Lemma pres_kvmmap k va pa sz perm : pres mlfq_inv (kvmmap k va pa sz perm).
Proof. unfold kvmmap. pres. Qed.
#[local] Hint Resolve pres_kvmmap : pres.
Lemma pres_kvminit : pres mlfq_inv kvminit.
Proof. unfold kvminit, kvmmake, proc_mapstacks. pres. Qed.
Lemma pres_kvminithart : pres mlfq_inv kvminithart.
Proof. unfold kvminithart. pres. Qed.
Lemma pres_wait_started n : pres mlfq_inv (wait_started n).
Proof. induction n; cbn [wait_started]; pres. Qed.
#[local] Hint Resolve pres_scheduler pres_procinit pres_kinit pres_kvminit pres_kvminithart
  pres_wait_started : pres.

#[local] Hint Resolve fs_laws dev_laws file_call_laws virtio_laws : pres.

Lemma pres_main `{Fuel} `{MmioLaws} `{StatPad} n : pres mlfq_inv (main n).
Proof. unfold main, fileinit, cpuid, r_tp. pres. Qed.

(** ** Every reachable state *)

Section reachable.
Context `{Fuel} `{MmioLaws} `{StatPad} (stack : pstat).

(** The ways into the kernel: boot, a trap from user space, a trap from the kernel
    and the first run of a process. *)
Inductive entry : Type := EMain (n : nat) | EUsertrap | EKerneltrap | EForkret.

Definition run_entry (e : entry) : M unit :=
  match e with
  | EMain n => main n
  | EUsertrap => usertrap fuel stack;; ret tt
  | EKerneltrap => kerneltrap
  | EForkret => forkret;; ret tt
  end.

(** The rest of a kernel thread, suspended in [swtch]. *)
Notation thread := (kstate -> outcome unit).

(** The state after a thread ran, and the threads that wait then. *)
Definition park (o : outcome unit) (ks : list thread) : option (kstate * list thread) :=
  match o with
  | Ret _ s => Some (s, ks)
  | Swtch _ s k => Some (s, k :: ks)
  | Stop _ => None
  end.

(** A thread enters the kernel, a suspended one goes on, or something outside the
    kernel's process table changes: another hart, a device, user memory. *)
Inductive reachable (s0 : kstate) : kstate -> list thread -> Prop :=
| reach_boot : reachable s0 s0 []
| reach_enter e s ks s' ks' :
    reachable s0 s ks -> park (run_entry e s) ks = Some (s', ks') -> reachable s0 s' ks'
| reach_resume s ks1 k ks2 s' ks' :
    reachable s0 s (ks1 ++ k :: ks2) -> park (k s) (ks1 ++ ks2) = Some (s', ks') ->
    reachable s0 s' ks'
| reach_env s s' ks :
    reachable s0 s ks -> k_procs s' = k_procs s -> reachable s0 s' ks.

#[local] Hint Resolve pres_main : pres.

Lemma pres_run_entry e : pres mlfq_inv (run_entry e).
Proof. destruct e; cbn [run_entry]; pres. Qed.

Definition safe_thread (k : thread) : Prop :=
  forall s, mlfq_inv s -> okay mlfq_inv (fun _ => True) (k s).

Lemma park_safe o ks s ks' :
  okay mlfq_inv (fun _ => True) o -> Forall safe_thread ks -> park o ks = Some (s, ks') ->
  mlfq_inv s /\ Forall safe_thread ks'.
Proof.
  destruct o as [[] s1|w|t s1 k]; simpl; intros Ho Hks [= <- <-].
  - by destruct Ho.
  - destruct Ho as [Hs Hk]. split; [done|]. by constructor.
Qed.

Lemma reachable_safe s0 s ks :
  mlfq_inv s0 -> reachable s0 s ks -> mlfq_inv s /\ Forall safe_thread ks.
Proof.
  intros Hi. induction 1 as [|e s ks s' ks' _ [Hs Hks] Hp|s ks1 k ks2 s' ks' _ [Hs Hks] Hp
    |s s' ks _ [Hs Hks] He].
  - by split.
  - eapply park_safe; [|done|exact Hp]. by apply pres_run_entry.
  - rewrite Forall_app, Forall_cons in Hks. destruct Hks as (H1' & Hk & H2').
    eapply park_safe; [by apply Hk| |exact Hp]. by apply Forall_app.
  - split; [|done]. unfold mlfq_inv. by rewrite He.
Qed.

(** C10. In every state that the kernel reaches from a boot state by running its
    entry points and its suspended threads in any order, every slot of the process
    table has a queue level that exists and that equals its priority: no path of the
    scheduler, of the system calls, of fork, exit and wait, of the file system or of
    the drivers takes a process out of the four queues. *)
Theorem mlfq_levels_invariant s0 s ks p r :
  mlfq_inv s0 -> reachable s0 s ks -> k_procs s !! p = Some r ->
  0 <= queue_level r < NQUEUES /\ priority r = queue_level r.
Proof.
  intros Hi Hr Hp. destruct (reachable_safe s0 s ks Hi Hr) as [Hs _].
  unfold mlfq_inv in Hs. rewrite Forall_lookup in Hs. by apply Hs in Hp.
Qed.
End reachable.

(** Hardware that is not there: reads give 0, and a written value is lost. *)
#[local] Instance no_device : Mmio :=
  {| mmio_read := fun _ => ret 0; mmio_write := fun _ _ => ret tt |}.
#[local] Instance no_device_laws : MmioLaws.
Proof. constructor; intros; simpl; pres. Qed.

(** The second hart boots while two processes wait at levels 2 and 1. *)
Definition two_waiting : kstate :=
  (table 1 [runnable_at 1 2; runnable_at 2 1]) <| k_dev := devst_zero <| dev_started := 1 |> |>.

Definition no_stack : pstat := Pstat [] [] [] [] [] [] [].

#[local] Notation second_hart := (@run_entry 5%nat no_device [] no_stack (EMain 1) two_waiting).

Lemma two_waiting_levels : mlfq_inv two_waiting.
Proof.
  unfold mlfq_inv, two_waiting, table. cbn [k_procs set_field eta_kstate]. simpl k_procs.
  apply Forall_app. split; [|apply Forall_replicate; split; simpl; params; lia].
  repeat constructor; simpl; params; lia.
Qed.

Lemma mlfq_levels_invariant_witness :
  exists s k r, second_hart = Swtch (ToProc 1) s k /\ k_procs s !! 1%nat = Some r
    /\ 0 <= queue_level r < NQUEUES /\ priority r = queue_level r.
Proof.
  assert (E : match second_hart with
              | Swtch (ToProc 1) s _ => match k_procs s !! 1%nat with Some _ => True | _ => False end
              | _ => False end) by (vm_compute; exact I).
  destruct second_hart as [| |[|[|[|]]] s k] eqn:Hs; try contradiction.
  destruct (k_procs s !! 1%nat) as [r|] eqn:Hr; [|contradiction].
  exists s, k, r. split; [exact eq_refl|]. split; [exact Hr|].
  apply (@mlfq_levels_invariant 5%nat no_device no_device_laws [] no_stack two_waiting s [k] 1 r).
  - exact two_waiting_levels.
  - apply (reach_enter no_stack _ (EMain 1) two_waiting []); [apply reach_boot|].
    rewrite Hs. exact eq_refl.
  - exact Hr.
Defined.
