(* ===== verification/Start.v ===== *)
(** * Booting a hart: [src/kernel/start.c]

    [entry.S] jumps to [start()] in machine mode; it sets the control registers up
    and enters [main()] in supervisor mode. The control registers are those of
    [src/kernel/riscv.h] that it uses. *)

From S2P Require Import Prelude Params.

Inductive csr : Type :=
| mhartid | mstatus | mepc | satp | medeleg | mideleg | sie | mie | pmpaddr0 | pmpcfg0
| menvcfg | mcounteren | stimecmp | time.

#[export] Instance csr_eq_dec : EqDecision csr.
Proof. solve_decision. Defined.

Inductive privilege : Type := MMode | SMode | UMode.

(** A hart: its control registers, its thread pointer, the mode it runs in and where
    it executes. *)
Record hart : Type := Hart { csrs : csr -> Z; tp : Z; priv : privilege; pc : Z }.

(** [mstatus]'s previous privilege. *)
Definition MSTATUS_MPP_MASK : Z := Z.shiftl 3 11.
Definition MSTATUS_MPP_S : Z := Z.shiftl 1 11.
Definition SIE_SEIE : Z := Z.shiftl 1 9.
Definition SIE_STIE : Z := Z.shiftl 1 5.
Definition MIE_STIE : Z := Z.shiftl 1 5.

Section hart.
(** What a write to a control register leaves in it: the hardware keeps the bits and
    values that it implements. *)
Context (legal : csr -> Z -> Z).

Definition csrr (r : csr) (h : hart) : Z := csrs h r.
Definition csrw (r : csr) (x : Z) (h : hart) : hart :=
  Hart (fun q => if decide (q = r) then legal r (u64 x) else csrs h q) (tp h) (priv h) (pc h).

Definition r_mhartid : hart -> Z := csrr mhartid.
Definition r_mstatus : hart -> Z := csrr mstatus.
Definition w_mstatus : Z -> hart -> hart := csrw mstatus.
Definition w_mepc : Z -> hart -> hart := csrw mepc.
Definition w_satp : Z -> hart -> hart := csrw satp.
Definition w_medeleg : Z -> hart -> hart := csrw medeleg.
Definition w_mideleg : Z -> hart -> hart := csrw mideleg.
Definition r_sie : hart -> Z := csrr sie.
Definition w_sie : Z -> hart -> hart := csrw sie.
Definition r_mie : hart -> Z := csrr mie.
Definition w_mie : Z -> hart -> hart := csrw mie.
Definition w_pmpaddr0 : Z -> hart -> hart := csrw pmpaddr0.
Definition w_pmpcfg0 : Z -> hart -> hart := csrw pmpcfg0.
Definition r_menvcfg : hart -> Z := csrr menvcfg.
Definition w_menvcfg : Z -> hart -> hart := csrw menvcfg.
Definition r_mcounteren : hart -> Z := csrr mcounteren.
Definition w_mcounteren : Z -> hart -> hart := csrw mcounteren.
Definition w_stimecmp : Z -> hart -> hart := csrw stimecmp.
Definition r_time : hart -> Z := csrr time.
Definition w_tp (x : Z) (h : hart) : hart := Hart (csrs h) (u64 x) (priv h) (pc h).

(** [mret]: the mode in [mstatus.MPP], at [mepc]. *)
Definition mret (h : hart) : hart :=
  let mpp := Z.land (Z.shiftr (csrs h mstatus) 11) 3 in
  Hart (csrs h) (tp h)
    (if mpp =? 3 then MMode else if mpp =? 1 then SMode else UMode) (csrs h mepc).

Definition timerinit (h : hart) : hart :=
  let h := w_mie (Z.lor (r_mie h) MIE_STIE) h in
  let h := w_menvcfg (Z.lor (r_menvcfg h) (Z.shiftl 1 63)) h in
  let h := w_mcounteren (Z.lor (r_mcounteren h) 2) h in
  w_stimecmp (r_time h + 1000000) h.

Definition start (main : Z) (h : hart) : hart :=
  let x := r_mstatus h in
  let x := Z.land x (u64 (Z.lnot MSTATUS_MPP_MASK)) in
  let x := Z.lor x MSTATUS_MPP_S in
  let h := w_mstatus x h in
  let h := w_mepc main h in
  let h := w_satp 0 h in
  let h := w_medeleg 0xffff h in
  let h := w_mideleg 0xffff h in
  let h := w_sie (Z.lor (Z.lor (r_sie h) SIE_SEIE) SIE_STIE) h in
  let h := w_pmpaddr0 0x3fffffffffffff h in
  let h := w_pmpcfg0 0xf h in
  let h := timerinit h in
  let id := s32 (r_mhartid h) in
  let h := w_tp id h in
  mret h.

(** ** The state in which main() begins *)

(** The hardware: supervisor mode exists and can be returned to, [mepc] takes aligned
    addresses, the bare translation mode exists, and the interrupts and exceptions
    that xv6 handles can be enabled and delegated. *)
Record hart_laws : Prop := {
  legal_mpp x : Z.land (Z.shiftr x 11) 3 = 1 -> Z.land (Z.shiftr (legal mstatus x) 11) 3 = 1;
  legal_mepc x : x mod 4 = 0 -> legal mepc x = x;
  legal_satp : legal satp 0 = 0;
  legal_mideleg x i : i = 5 \/ i = 9 -> Z.testbit (legal mideleg x) i = Z.testbit x i;
  legal_medeleg x i : i ∈ [2; 8; 12; 13; 15] -> Z.testbit (legal medeleg x) i = Z.testbit x i;
  legal_sie x i : i = 5 \/ i = 9 -> Z.testbit (legal sie x) i = Z.testbit x i;
  legal_mie x : Z.testbit (legal mie x) 5 = Z.testbit x 5;
  legal_menvcfg x : Z.testbit (legal menvcfg x) 63 = Z.testbit x 63;
  legal_mcounteren x : Z.testbit (legal mcounteren x) 1 = Z.testbit x 1;
  legal_stimecmp x : legal stimecmp x = x;
  legal_pmp : legal pmpaddr0 0x3fffffffffffff = 0x3fffffffffffff /\ legal pmpcfg0 0xf = 0xf;
}.

Definition booted (main : Z) (h h' : hart) : Prop :=
  priv h' = SMode /\ pc h' = main /\ csrs h' satp = 0 /\ tp h' = csrs h mhartid
  /\ (forall i, i = 5 \/ i = 9 -> Z.testbit (csrs h' mideleg) i = true /\ Z.testbit (csrs h' sie) i = true)
  /\ (forall i, i ∈ [2; 8; 12; 13; 15] -> Z.testbit (csrs h' medeleg) i = true)
  /\ Z.testbit (csrs h' mie) 5 = true /\ Z.testbit (csrs h' menvcfg) 63 = true
  /\ Z.testbit (csrs h' mcounteren) 1 = true
  /\ csrs h' stimecmp = u64 (csrs h time + 1000000)
  /\ csrs h' pmpaddr0 = 0x3fffffffffffff /\ csrs h' pmpcfg0 = 0xf.

(** [x &= ~MSTATUS_MPP_MASK; x |= MSTATUS_MPP_S] makes the previous mode supervisor. *)
Lemma mpp_supervisor x :
  0 <= x < 2 ^ 64 ->
  let y := Z.lor (Z.land x (u64 (Z.lnot MSTATUS_MPP_MASK))) MSTATUS_MPP_S in
  Z.land (Z.shiftr (u64 y) 11) 3 = 1.
Proof.
  intros Hx y. apply Z.bits_inj'. intros n Hn. rewrite Z.land_spec, Z.shiftr_spec by done.
  change 3 with (Z.ones 2). destruct (decide (n < 2)) as [Hlt|Hge].
  - rewrite Z.ones_spec_low, andb_true_r by lia. unfold u64 at 1. rewrite Z.mod_pow2_bits_low by lia.
    unfold y. rewrite Z.lor_spec, Z.land_spec.
    assert (n = 0 \/ n = 1) as [-> | ->] by lia.
    + change (Z.testbit (u64 (Z.lnot MSTATUS_MPP_MASK)) (0 + 11)) with false.
      rewrite andb_false_r. reflexivity.
    + change (Z.testbit (u64 (Z.lnot MSTATUS_MPP_MASK)) (1 + 11)) with false.
      rewrite andb_false_r. reflexivity.
  - rewrite Z.ones_spec_high, andb_false_r by lia. symmetry. apply Z.bits_above_log2; simpl; lia.
Qed.

Lemma testbit_lor_u64 x b i :
  0 <= i < 64 -> Z.testbit b i = true -> Z.testbit (u64 (Z.lor x b)) i = true.
Proof.
  intros Hi Hb. unfold u64. rewrite Z.mod_pow2_bits_low by lia. rewrite Z.lor_spec, Hb. apply orb_true_r.
Qed.

Lemma csrw_eq r x h : csrs (csrw r x h) r = legal r (u64 x).
Proof. unfold csrw. simpl. by rewrite decide_True. Qed.

Lemma csrw_ne r q x h : q <> r -> csrs (csrw r x h) q = csrs h q.
Proof. intros Hne. unfold csrw. simpl. by rewrite decide_False. Qed.

(** The registers after [timerinit()]. *)
Lemma timerinit_csr h :
  csrs (timerinit h) mie = legal mie (u64 (Z.lor (csrs h mie) MIE_STIE))
  /\ csrs (timerinit h) menvcfg = legal menvcfg (u64 (Z.lor (csrs h menvcfg) (Z.shiftl 1 63)))
  /\ csrs (timerinit h) mcounteren = legal mcounteren (u64 (Z.lor (csrs h mcounteren) 2))
  /\ csrs (timerinit h) stimecmp = legal stimecmp (u64 (csrs h time + 1000000))
  /\ forall q, q ∉ [mie; menvcfg; mcounteren; stimecmp] -> csrs (timerinit h) q = csrs h q.
Proof.
  unfold timerinit, w_stimecmp, w_mcounteren, w_menvcfg, w_mie, r_time, r_mcounteren, r_menvcfg, r_mie, csrr.
  split_and!; try (intros q Hq); repeat (rewrite csrw_eq || rewrite csrw_ne by (discriminate || set_solver)); done.
Qed.

(** C36. [start()] leaves each hart in supervisor mode at the first instruction of
    [main()], with address translation off, [tp] holding the hart number that [cpuid()]
    reads, all of physical memory open to supervisor mode, the timer and external
    interrupts enabled and delegated, system calls and page faults delegated, and the
    first timer interrupt a million cycles away. *)
Theorem start_boots main h :
  hart_laws -> main mod 4 = 0 -> 0 <= main < 2 ^ 64 -> 0 <= csrs h mhartid < 2 ^ 31 ->
  0 <= csrs h mstatus < 2 ^ 64 -> booted main h (start main h).
Proof.
  intros L Hmain Hm64 Hid Hst.
  unfold booted, start, mret, w_tp, r_mhartid, csrr. cbn [csrs tp priv pc].
  match goal with |- context [timerinit ?x] => set (h1 := x) end.
  destruct (timerinit_csr h1) as (-> & -> & -> & -> & Hq). rewrite !Hq by set_solver.
  unfold h1, w_pmpcfg0, w_pmpaddr0, w_sie, w_mideleg, w_medeleg, w_satp, w_mepc, w_mstatus, r_sie, r_mstatus, csrr.
  repeat (rewrite csrw_eq || rewrite csrw_ne by discriminate).
  split_and!.
  - by rewrite (legal_mpp L) by by apply mpp_supervisor.
  - rewrite u64_small by done. by apply legal_mepc.
  - apply (legal_satp L).
  - rewrite s32_small by lia. apply u64_small. lia.
  - intros i Hi. rewrite (legal_mideleg L), (legal_sie L) by done. split.
    + destruct Hi as [-> | ->]; reflexivity.
    + destruct Hi as [-> | ->]; [by apply testbit_lor_u64|].
      rewrite <- Z.lor_assoc. by apply testbit_lor_u64.
  - intros i Hi. rewrite (legal_medeleg L) by done.
    repeat (apply elem_of_cons in Hi as [->|Hi]; [reflexivity|]). by apply elem_of_nil in Hi.
  - rewrite (legal_mie L). by apply testbit_lor_u64.
  - rewrite (legal_menvcfg L). by apply testbit_lor_u64.
  - rewrite (legal_mcounteren L). by apply testbit_lor_u64.
  - apply (legal_stimecmp L).
  - apply (legal_pmp L).
  - apply (legal_pmp L).
Qed.
End hart.

(** A hart that implements every bit, out of reset. *)
Definition full_hart (r : csr) (x : Z) : Z := x.
Definition reset_hart : hart := Hart (fun r => if decide (r = mhartid) then 2 else 0) 0 MMode KERNBASE.

Lemma start_boots_witness :
  booted 0x80000e00 reset_hart (start full_hart 0x80000e00 reset_hart).
Proof.
  apply (start_boots full_hart); [by constructor|reflexivity|lia|vm_compute; split; [discriminate|reflexivity]|].
  vm_compute. split; [discriminate|reflexivity].
Defined.
