(* ===== verification/Asm.v ===== *)
(** * The assembly code of the kernel

    [src/kernel/trampoline.S], [kernelvec.S], [swtch.S] and [entry.S] as sequences of
    instructions on the registers of a hart and physical memory. The C code of the
    kernel relies on them: a trap saves every user register in the trap frame and the
    return restores it, [swtch] exchanges the callee-saved registers, and [kernelvec]
    is transparent for the code that it interrupts. *)

From S2P Require Import Prelude Params Machine Mem Proc.

(** ** The machine *)

Inductive reg : Type :=
| ra | sp | gp | tp | t0 | t1 | t2 | s0 | s1 | a0 | a1 | a2 | a3 | a4 | a5 | a6 | a7
| s2 | s3 | s4 | s5 | s6 | s7 | s8 | s9 | s10 | s11 | t3 | t4 | t5 | t6.
#[export] Instance reg_eq_dec : EqDecision reg.
Proof. solve_decision. Defined.

Inductive csr : Type := sscratch | satp | mhartid.
#[export] Instance csr_eq_dec : EqDecision csr.
Proof. solve_decision. Defined.

(** The registers, the control registers, and the bytes of physical memory. *)
Record regfile : Type := RegFile { xr : reg -> Z; cr : csr -> Z; pm : gmap Z Z }.
#[export] Instance eta_regfile : Eta regfile := fun r => RegFile r.(xr) r.(cr) r.(pm).

Definition upd {K} `{EqDecision K} (f : K -> Z) (k : K) (v : Z) : K -> Z :=
  fun k' => if decide (k' = k) then v else f k'.

(** The instructions that the files use, in the order of their operands. *)
Inductive instr : Type :=
| sd (rs : reg) (off : Z) (b : reg)
| ld (rd : reg) (off : Z) (b : reg)
| addi (rd rs : reg) (imm : Z)
| add (rd rs1 rs2 : reg)
| mul (rd rs1 rs2 : reg)
| li (rd : reg) (v : Z)
| la (rd : reg) (sym : Z)
| csrw (c : csr) (rs : reg)
| csrr (rd : reg) (c : csr)
| sfence_vma.

(** How a sequence ends: [jalr rs] and [call f] leave the address that follows in
    [ra]; [sret] resumes what the trap interrupted. *)
Inductive transfer : Type := jalr (rs : reg) | call (f : Z) | ret | sret.
Inductive target : Type := At (pc : Z) | Resume.

Record routine : Type := Routine { body : list instr; last : transfer }.

Section machine.
(** The translation of addresses under a value of [satp], and the address of the
    instruction that follows. *)
Context (mmu : Z -> Z -> option Z) (link : Z).

Definition physical (s : regfile) (va : Z) : option Z :=
  if negb (va mod 8 =? 0) then None else
  match mmu (cr s satp) va with
  | Some pa => if (KERNBASE <=? pa) && (pa + 8 <=? PHYSTOP) then Some pa else None
  | None => None
  end.

Definition step (i : instr) (s : regfile) : option regfile :=
  match i with
  | sd rs off b =>
      match physical s (u64 (xr s b + off)) with
      | Some pa => Some (s <| pm := put64 (pm s) pa (xr s rs) |>)
      | None => None
      end
  | ld rd off b =>
      match physical s (u64 (xr s b + off)) with
      | Some pa => Some (s <| xr := upd (xr s) rd (get64 (pm s) pa) |>)
      | None => None
      end
  | addi rd rs imm => Some (s <| xr := upd (xr s) rd (u64 (xr s rs + imm)) |>)
  | add rd rs1 rs2 => Some (s <| xr := upd (xr s) rd (u64 (xr s rs1 + xr s rs2)) |>)
  | mul rd rs1 rs2 => Some (s <| xr := upd (xr s) rd (u64 (xr s rs1 * xr s rs2)) |>)
  | li rd v => Some (s <| xr := upd (xr s) rd (u64 v) |>)
  | la rd sym => Some (s <| xr := upd (xr s) rd (u64 sym) |>)
  | csrw c rs => Some (s <| cr := upd (cr s) c (xr s rs) |>)
  | csrr rd c => Some (s <| xr := upd (xr s) rd (cr s c) |>)
  | sfence_vma => Some s
  end.

Fixpoint execute (l : list instr) (s : regfile) : option regfile :=
  match l with
  | [] => Some s
  | i :: l => match step i s with Some s => execute l s | None => None end
  end.

Definition leave (t : transfer) (s : regfile) : target * regfile :=
  match t with
  | jalr rs => (At (xr s rs), s <| xr := upd (xr s) ra link |>)
  | call f => (At f, s <| xr := upd (xr s) ra link |>)
  | ret => (At (xr s ra), s)
  | sret => (Resume, s)
  end.

Definition run_routine (r : routine) (s : regfile) : option (target * regfile) :=
  leave (last r) <$> execute (body r) s.
End machine.

(** ** trampoline.S *)

Definition uservec : routine := Routine [
  csrw sscratch a0; li a0 TRAPFRAME; sd ra 40 a0; sd sp 48 a0; sd gp 56 a0; sd tp 64 a0;
  sd t0 72 a0; sd t1 80 a0; sd t2 88 a0; sd s0 96 a0; sd s1 104 a0; sd a1 120 a0; sd a2 128 a0;
  sd a3 136 a0; sd a4 144 a0; sd a5 152 a0; sd a6 160 a0; sd a7 168 a0; sd s2 176 a0; sd s3 184 a0;
  sd s4 192 a0; sd s5 200 a0; sd s6 208 a0; sd s7 216 a0; sd s8 224 a0; sd s9 232 a0;
  sd s10 240 a0; sd s11 248 a0; sd t3 256 a0; sd t4 264 a0; sd t5 272 a0; sd t6 280 a0;
  csrr t0 sscratch; sd t0 112 a0; ld sp 8 a0; ld tp 32 a0; ld t0 16 a0; ld t1 0 a0; sfence_vma;
  csrw satp t1; sfence_vma
  ] (jalr t0).

Definition userret : routine := Routine [
  sfence_vma; csrw satp a0; sfence_vma; li a0 TRAPFRAME; ld ra 40 a0; ld sp 48 a0; ld gp 56 a0;
  ld tp 64 a0; ld t0 72 a0; ld t1 80 a0; ld t2 88 a0; ld s0 96 a0; ld s1 104 a0; ld a1 120 a0;
  ld a2 128 a0; ld a3 136 a0; ld a4 144 a0; ld a5 152 a0; ld a6 160 a0; ld a7 168 a0; ld s2 176 a0;
  ld s3 184 a0; ld s4 192 a0; ld s5 200 a0; ld s6 208 a0; ld s7 216 a0; ld s8 224 a0; ld s9 232 a0;
  ld s10 240 a0; ld s11 248 a0; ld t3 256 a0; ld t4 264 a0; ld t5 272 a0; ld t6 280 a0;
  ld a0 112 a0
  ] sret.

(** ** kernelvec.S: before and after the call of [kerneltrap] *)

Definition kernelvec (kerneltrap : Z) : routine := Routine [
  addi sp sp (-256); sd ra 0 sp; sd gp 16 sp; sd tp 24 sp; sd t0 32 sp; sd t1 40 sp; sd t2 48 sp;
  sd a0 72 sp; sd a1 80 sp; sd a2 88 sp; sd a3 96 sp; sd a4 104 sp; sd a5 112 sp; sd a6 120 sp;
  sd a7 128 sp; sd t3 216 sp; sd t4 224 sp; sd t5 232 sp; sd t6 240 sp
  ] (call kerneltrap).

Definition kernelvec_return : routine := Routine [
  ld ra 0 sp; ld gp 16 sp; ld t0 32 sp; ld t1 40 sp; ld t2 48 sp; ld a0 72 sp; ld a1 80 sp;
  ld a2 88 sp; ld a3 96 sp; ld a4 104 sp; ld a5 112 sp; ld a6 120 sp; ld a7 128 sp; ld t3 216 sp;
  ld t4 224 sp; ld t5 232 sp; ld t6 240 sp; addi sp sp 256
  ] sret.

(** ** swtch.S *)

Definition swtch_code : routine := Routine [
  sd ra 0 a0; sd sp 8 a0; sd s0 16 a0; sd s1 24 a0; sd s2 32 a0; sd s3 40 a0; sd s4 48 a0;
  sd s5 56 a0; sd s6 64 a0; sd s7 72 a0; sd s8 80 a0; sd s9 88 a0; sd s10 96 a0; sd s11 104 a0;
  ld ra 0 a1; ld sp 8 a1; ld s0 16 a1; ld s1 24 a1; ld s2 32 a1; ld s3 40 a1; ld s4 48 a1;
  ld s5 56 a1; ld s6 64 a1; ld s7 72 a1; ld s8 80 a1; ld s9 88 a1; ld s10 96 a1; ld s11 104 a1
  ] ret.

(** ** entry.S *)

Definition entry (stack0 start : Z) : routine := Routine [
  la sp stack0; li a0 (1024 * 4); csrr a1 mhartid; addi a1 a1 1; mul a0 a0 a1; add sp sp a0
  ] (call start).

(** ** Saving and restoring registers *)

(** The words of the registers in [l] at their offsets from [base], and the
    registers loaded from there. *)
Definition saves (b : reg) (l : list (reg * Z)) : list instr := map (fun e => sd e.1 e.2 b) l.
Definition loads (b : reg) (l : list (reg * Z)) : list instr := map (fun e => ld e.1 e.2 b) l.
Definition saved (l : list (reg * Z)) (base : Z) (x : reg -> Z) (m : gmap Z Z) : gmap Z Z :=
  foldl (fun m e => put64 m (base + e.2) (x e.1)) m l.
Definition restored (l : list (reg * Z)) (base : Z) (m : gmap Z Z) (x : reg -> Z) : reg -> Z :=
  foldl (fun x e => upd x e.1 (get64 m (base + e.2))) x l.

(** Offsets of different words inside [size] bytes. *)
Definition offsets_ok (size : Z) (l : list (reg * Z)) : Prop :=
  NoDup l.*2 /\ Forall (fun e => 0 <= e.2 /\ e.2 + 8 <= size /\ e.2 mod 8 = 0) l.

Lemma offsets_cons size e l : offsets_ok size (e :: l) -> offsets_ok size l.
Proof. intros [Hn Hf]. inversion Hn; inversion Hf; subst. done. Qed.

Lemma saved_cons r o l base x m : saved ((r, o) :: l) base x m = saved l base x (put64 m (base + o) (x r)).
Proof. done. Qed.

Lemma restored_cons r o l base m x :
  restored ((r, o) :: l) base m x = restored l base m (upd x r (get64 m (base + o))).
Proof. done. Qed.

Lemma saved_other l base x m a :
  (forall e, e ∈ l -> a + 8 <= base + e.2 \/ base + e.2 + 8 <= a) -> get64 (saved l base x m) a = get64 m a.
Proof.
  revert m. induction l as [|[r o] l IH]; intros m H; [done|]. rewrite saved_cons.
  rewrite IH by (intros; apply H; set_solver). apply get64_put64_ne. apply (H (r, o)). set_solver.
Qed.

Lemma saved_byte l base x m a :
  (forall e, e ∈ l -> a < base + e.2 \/ base + e.2 + 8 <= a) -> mget (saved l base x m) a = mget m a.
Proof.
  revert m. induction l as [|[r o] l IH]; intros m H; [done|]. rewrite saved_cons.
  rewrite IH by (intros; apply H; set_solver). apply mget_put64_ne. apply (H (r, o)). set_solver.
Qed.

Lemma words_apart (o o' : Z) : o mod 8 = 0 -> o' mod 8 = 0 -> o <> o' -> o + 8 <= o' \/ o' + 8 <= o.
Proof. intros. Z.to_euclidean_division_equations. lia. Qed.

Lemma saved_get size l base x m r o :
  offsets_ok size l -> (r, o) ∈ l -> get64 (saved l base x m) (base + o) = u64 (x r).
Proof.
  revert m. induction l as [|[r' o'] l IH]; intros m Hl Hr; [set_solver|]. rewrite saved_cons.
  apply elem_of_cons in Hr as [[= <- <-]|Hr]; [|apply IH; [by eapply offsets_cons|done]]. rewrite saved_other, get64_put64_eq; [done|].
  intros e He. destruct Hl as [Hn Hf]. cbn in Hn, Hf. inversion Hn as [|?? Hni]; inversion Hf as [|?? Ho Hf']; subst.
  rewrite Forall_forall in Hf'. destruct (Hf' e He) as (_ & _ & H2), Ho as (_ & _ & H1). cbn in H1.
  destruct (words_apart o e.2 H1 H2); [|lia..]. intros ->. apply Hni. by apply list_elem_of_fmap_2.
Qed.

Lemma upd_eq {K} `{EqDecision K} (f : K -> Z) k v : upd f k v k = v.
Proof. unfold upd. by rewrite decide_True. Qed.

Lemma upd_ne {K} `{EqDecision K} (f : K -> Z) k v k' : k' <> k -> upd f k v k' = f k'.
Proof. intros. unfold upd. by rewrite decide_False. Qed.

Lemma restored_other l base m x r : r ∉ l.*1 -> restored l base m x r = x r.
Proof.
  revert x. induction l as [|[r' o] l IH]; intros x Hr; [done|]. cbn in Hr. apply not_elem_of_cons in Hr as [H1 H2].
  rewrite restored_cons, IH by done. by apply upd_ne.
Qed.

Lemma restored_get l base m x r o : NoDup l.*1 -> (r, o) ∈ l -> restored l base m x r = get64 m (base + o).
Proof.
  revert x. induction l as [|[r' o'] l IH]; intros x Hn Hr; [set_solver|]. inversion Hn as [|?? Hni Hn']; subst.
  rewrite restored_cons. apply elem_of_cons in Hr as [[= <- <-]|Hr]; [|by apply IH]. rewrite restored_other by done. apply upd_eq.
Qed.

Section machine.
Context (mmu : Z -> Z -> option Z).

Lemma execute_app l l' s s' : execute mmu l s = Some s' -> execute mmu (l ++ l') s = execute mmu l' s'.
Proof. revert s. induction l as [|i l IH]; cbn; intros s E; [congruence|]. destruct (step mmu i s); [by apply IH|done]. Qed.

(** [size] bytes at the virtual address [va] are the physical bytes at [pa]. *)
Definition maps (table va pa size : Z) : Prop :=
  va mod 8 = 0 /\ 0 <= va /\ va + size <= 2 ^ 64 /\ ram_range pa size
  /\ forall o, 0 <= o < size -> mmu table (va + o) = Some (pa + o).

Lemma physical_maps s va pa size o :
  maps (cr s satp) va pa size -> 0 <= o -> o + 8 <= size -> o mod 8 = 0 ->
  physical mmu s (u64 (va + o)) = Some (pa + o).
Proof.
  intros (Ha & Hv & Hs & Hr & Hm) H0 H8 Hmod. unfold physical. rewrite u64_small by lia.
  rewrite (proj2 (Z.eqb_eq _ _)) by (Z.to_euclidean_division_equations; lia). cbn [negb].
  rewrite Hm by lia. unfold ram_range in Hr. by rewrite (proj2 (Z.leb_le _ _)), (proj2 (Z.leb_le _ _)) by lia.
Qed.

Lemma saves_run b l s pa size :
  maps (cr s satp) (xr s b) pa size -> offsets_ok size l ->
  execute mmu (saves b l) s = Some (s <| pm := saved l pa (xr s) (pm s) |>).
Proof.
  revert s. induction l as [|[r o] l IH]; intros s Hm Hl; [by destruct s|].
  pose proof (offsets_cons _ _ _ Hl) as Hl'. destruct Hl as [_ Hf]. inversion Hf as [|?? (H0 & H8 & Hmod) _]; subst. cbn in *.
  rewrite (physical_maps s _ _ _ _ Hm H0 H8 Hmod). rewrite IH; [by destruct s|by destruct s|done].
Qed.

Lemma loads_run b l s pa size :
  maps (cr s satp) (xr s b) pa size -> offsets_ok size l -> b ∉ l.*1 ->
  execute mmu (loads b l) s = Some (s <| xr := restored l pa (pm s) (xr s) |>).
Proof.
  revert s. induction l as [|[r o] l IH]; intros s Hm Hl Hb; [by destruct s|].
  pose proof (offsets_cons _ _ _ Hl) as Hl'. destruct Hl as [_ Hf]. inversion Hf as [|?? (H0 & H8 & Hmod) _]; subst. cbn in *.
  apply not_elem_of_cons in Hb as [Hb1 Hb2]. rewrite (physical_maps s _ _ _ _ Hm H0 H8 Hmod).
  rewrite IH; [by destruct s| |done|done]. destruct s. cbn in *. by rewrite upd_ne.
Qed.
End machine.

(** ** Traps from user space *)

(** The word of the trap frame for a register. *)
Definition tf_of (r : reg) : tfreg :=
  match r with
  | ra => Tra | sp => Tsp | gp => Tgp | tp => Ttp | t0 => Tt0 | t1 => Tt1 | t2 => Tt2 | s0 => Ts0 | s1 => Ts1
  | a0 => Ta0 | a1 => Ta1 | a2 => Ta2 | a3 => Ta3 | a4 => Ta4 | a5 => Ta5 | a6 => Ta6 | a7 => Ta7
  | s2 => Ts2 | s3 => Ts3 | s4 => Ts4 | s5 => Ts5 | s6 => Ts6 | s7 => Ts7 | s8 => Ts8 | s9 => Ts9
  | s10 => Ts10 | s11 => Ts11 | t3 => Tt3 | t4 => Tt4 | t5 => Tt5 | t6 => Tt6
  end.

Definition with_offset (r : reg) : reg * Z := (r, tf_offset (tf_of r)).

(** Every register but [a0], in the order of the code. *)
Definition user_regs : list reg :=
  [ra; sp; gp; tp; t0; t1; t2; s0; s1; a1; a2; a3; a4; a5; a6; a7;
   s2; s3; s4; s5; s6; s7; s8; s9; s10; s11; t3; t4; t5; t6].
Definition user_frame : list (reg * Z) := map with_offset user_regs.
Definition kernel_words : list (reg * Z) :=
  [(sp, tf_offset Tkernel_sp); (tp, tf_offset Tkernel_hartid); (t0, tf_offset Tkernel_trap); (t1, tf_offset Tkernel_satp)].

Lemma user_regs_all r : r <> a0 -> r ∈ user_regs.
Proof. destruct r; intros Hr; try done; apply (bool_decide_unpack _); by vm_compute. Qed.

Lemma user_frame_all r : r <> a0 -> with_offset r ∈ user_frame.
Proof. intros Hr. apply list_elem_of_fmap_2. by apply user_regs_all. Qed.

Lemma frame_offsets size : PGSIZE <= size -> offsets_ok size user_frame.
Proof.
  intros Hs. split; [by apply (bool_decide_unpack _); vm_compute|].
  apply (Forall_impl (fun e => 0 <= e.2 /\ e.2 + 8 <= 288 /\ e.2 mod 8 = 0)).
  - by repeat constructor.
  - change PGSIZE with 4096 in Hs. intros e He. lia.
Qed.

Lemma kernel_offsets size : PGSIZE <= size -> offsets_ok size kernel_words.
Proof.
  intros Hs. change PGSIZE with 4096 in Hs. split; [by apply (bool_decide_unpack _); vm_compute|].
  apply (Forall_impl (fun e => 0 <= e.2 /\ e.2 + 8 <= 40 /\ e.2 mod 8 = 0)); [by repeat constructor|].
  intros e He. lia.
Qed.

Lemma one_offset size r w : PGSIZE <= size -> offsets_ok size [(r, tf_offset w)].
Proof.
  intros Hs. change PGSIZE with 4096 in Hs. split; [by repeat constructor; set_solver|].
  assert (0 <= tf_offset w /\ tf_offset w + 8 <= 288 /\ tf_offset w mod 8 = 0) by by destruct w.
  constructor; [|done]. cbn [snd]. lia.
Qed.

Lemma uservec_parts : body uservec =
  [csrw sscratch a0; li a0 TRAPFRAME] ++ saves a0 user_frame ++ [csrr t0 sscratch]
  ++ saves a0 [(t0, tf_offset Ta0)] ++ loads a0 kernel_words ++ [sfence_vma; csrw satp t1; sfence_vma].
Proof. reflexivity. Qed.

Lemma userret_parts : body userret =
  [sfence_vma; csrw satp a0; sfence_vma; li a0 TRAPFRAME] ++ loads a0 user_frame ++ [ld a0 (tf_offset Ta0) a0].
Proof. reflexivity. Qed.

Section traps.
Context (mmu : Z -> Z -> option Z).

(** The page of the trap frame is at [TRAPFRAME] under [table]. *)
Definition frame_at (table tf : Z) : Prop := maps mmu table TRAPFRAME tf PGSIZE.

Definition frame_word (m : gmap Z Z) (tf : Z) (w : tfreg) : Z := get64 m (tf + tf_offset w).

Lemma uservec_exec s tf :
  frame_at (cr s satp) tf ->
  let m' := saved [(t0, tf_offset Ta0)] tf (upd (xr s) t0 (xr s a0)) (saved user_frame tf (xr s) (pm s)) in
  exists s', execute mmu (body uservec) s = Some s' /\ pm s' = m'
    /\ xr s' sp = frame_word m' tf Tkernel_sp /\ xr s' tp = frame_word m' tf Tkernel_hartid
    /\ xr s' t0 = frame_word m' tf Tkernel_trap /\ cr s' satp = frame_word m' tf Tkernel_satp.
Proof.
  intros Hm m'. destruct s as [x c m]. cbn [xr cr pm] in *. rewrite uservec_parts.
  set (x1 := upd x a0 TRAPFRAME). set (c1 := upd c sscratch (x a0)).
  rewrite (execute_app mmu _ _ _ (RegFile x1 c1 m)) by done.
  assert (Hm1 : forall x' m', x' a0 = TRAPFRAME -> maps mmu (cr (RegFile x' c1 m') satp) (xr (RegFile x' c1 m') a0) tf PGSIZE).
  { intros x' m0 E. cbn [cr xr]. rewrite E. exact Hm. }
  erewrite execute_app by (apply (saves_run mmu a0 _ (RegFile x1 c1 m) tf PGSIZE); [by apply Hm1|by apply frame_offsets]).
  assert (E1 : saved user_frame tf x1 m = saved user_frame tf x m) by done.
  cbn [xr pm]. change ((RegFile x1 c1 m) <| pm := saved user_frame tf x1 m |>) with (RegFile x1 c1 (saved user_frame tf x1 m)).
  rewrite E1. clear E1. set (m1 := saved user_frame tf x m) in *. set (x2 := upd x1 t0 (x a0)).
  rewrite (execute_app mmu [csrr t0 sscratch] _ _ (RegFile x2 c1 m1)) by done.
  erewrite execute_app by (apply (saves_run mmu a0 _ (RegFile x2 c1 m1) tf PGSIZE); [by apply Hm1|by apply one_offset]).
  change ((RegFile x2 c1 m1) <| pm := saved [(t0, tf_offset Ta0)] tf (xr (RegFile x2 c1 m1)) (pm (RegFile x2 c1 m1)) |>)
    with (RegFile x2 c1 m').
  erewrite execute_app by (apply (loads_run mmu a0 _ (RegFile x2 c1 m') tf PGSIZE);
    [by apply Hm1|by apply kernel_offsets|by apply (bool_decide_unpack _)]).
  eexists. split; [reflexivity|]. split_and!; reflexivity.
Qed.

(** What [uservec] leaves: the kernel's stack, hart, page table and return address, and
    every user register in the trap frame; no other memory has changed. *)
Record entered (link : Z) (s : regfile) (tf : Z) (s' : regfile) : Prop := Entered {
  e_sp : xr s' sp = frame_word (pm s) tf Tkernel_sp;
  e_tp : xr s' tp = frame_word (pm s) tf Tkernel_hartid;
  e_ra : xr s' ra = link;
  e_satp : cr s' satp = frame_word (pm s) tf Tkernel_satp;
  e_regs : forall r, frame_word (pm s') tf (tf_of r) = xr s r;
  e_mem : forall a, a < tf + tf_offset Tra \/ tf + sizeof_trapframe <= a -> mget (pm s') a = mget (pm s) a;
}.

Definition words (s : regfile) : Prop := forall r, 0 <= xr s r < 2 ^ 64.

(** The offsets of the user registers. *)
Lemma user_frame_bounds e : e ∈ user_frame -> 40 <= e.2 /\ e.2 + 8 <= 288 /\ e.2 mod 8 = 0 /\ e.2 <> 112.
Proof.
  revert e. apply Forall_forall. unfold user_frame, user_regs. by repeat constructor.
Qed.

Lemma kernel_word_kept x m tf w :
  tf_offset w < 40 ->
  frame_word (saved [(t0, tf_offset Ta0)] tf (upd x t0 (x a0)) (saved user_frame tf x m)) tf w = frame_word m tf w.
Proof.
  intros Hw. unfold frame_word. assert (tf_offset w + 8 <= 40) by (destruct w; cbn in *; lia). rewrite !saved_other; [done| |].
  - intros e He%user_frame_bounds. lia.
  - intros e ->%list_elem_of_singleton. cbn. lia.
Qed.

Lemma user_word_saved x m tf r :
  0 <= x r < 2 ^ 64 ->
  frame_word (saved [(t0, tf_offset Ta0)] tf (upd x t0 (x a0)) (saved user_frame tf x m)) tf (tf_of r) = x r.
Proof.
  intros Hx. unfold frame_word. destruct (decide (r = a0)) as [->|Hr].
  - rewrite (saved_get PGSIZE _ _ _ _ t0 (tf_offset Ta0)); [|by apply one_offset|set_solver].
    rewrite upd_eq. by apply u64_small.
  - pose proof (user_frame_all r Hr) as Hin. rewrite saved_other.
    + rewrite (saved_get PGSIZE _ _ _ _ r); [by apply u64_small|by apply frame_offsets|done].
    + apply user_frame_bounds in Hin. intros e ->%list_elem_of_singleton. cbn in *.
      destruct (words_apart (tf_offset (tf_of r)) 112) as [?|?]; [apply Hin|done|apply Hin|lia..].
Qed.

Lemma uservec_run link s tf :
  frame_at (cr s satp) tf -> words s ->
  exists s', run_routine mmu link uservec s = Some (At (frame_word (pm s) tf Tkernel_trap), s') /\ entered link s tf s'.
Proof.
  intros Hm Hw. destruct (uservec_exec s tf Hm) as (s' & E & Ep & Esp & Etp & Et0 & Esa).
  unfold run_routine. rewrite E. rewrite kernel_word_kept in Esp, Etp, Et0, Esa by done.
  exists (RegFile (upd (xr s') ra link) (cr s') (pm s')). split.
  { cbn [fmap option_fmap option_map leave last uservec]. rewrite Et0. by destruct s'. }
  split; cbn [xr cr pm]; rewrite ?upd_eq, ?upd_ne by done; try done.
  - intros r. rewrite Ep. by apply user_word_saved.
  - intros a Ha. change (tf_offset Tra) with 40 in Ha. change sizeof_trapframe with 288 in Ha. rewrite Ep, !saved_byte; [done| |].
    + intros e He%user_frame_bounds. lia.
    + intros e ->%list_elem_of_singleton. cbn. lia.
Qed.

Lemma userret_run link s tf :
  frame_at (xr s a0) tf ->
  exists s', run_routine mmu link userret s = Some (Resume, s')
    /\ (forall r, xr s' r = frame_word (pm s) tf (tf_of r)) /\ cr s' satp = xr s a0 /\ pm s' = pm s.
Proof.
  intros Hm. destruct s as [x c m]. cbn [xr cr pm] in *. unfold run_routine. rewrite userret_parts.
  set (x1 := upd x a0 TRAPFRAME). set (c1 := upd c satp (x a0)).
  rewrite (execute_app mmu _ _ _ (RegFile x1 c1 m)) by done.
  erewrite execute_app by (apply (loads_run mmu a0 _ (RegFile x1 c1 m) tf PGSIZE);
    [exact Hm|by apply frame_offsets|by apply (bool_decide_unpack _); vm_compute]).
  set (x2 := restored user_frame tf m x1). change ((RegFile x1 c1 m) <| xr := _ |>) with (RegFile x2 c1 m).
  assert (Ea : x2 a0 = TRAPFRAME).
  { unfold x2. rewrite restored_other by (by apply (bool_decide_unpack _); vm_compute). done. }
  assert (Er : forall r, r <> a0 -> x2 r = frame_word m tf (tf_of r)).
  { intros r Hr. apply restored_get; [by apply (bool_decide_unpack _); vm_compute|by apply user_frame_all]. }
  clearbody x2. cbn [execute step]. cbn [xr]. rewrite Ea.
  rewrite (physical_maps mmu (RegFile x2 c1 m) _ tf PGSIZE) by (done || exact Hm).
  eexists. split; [reflexivity|]. cbn. split; [|done]. intros r.
  destruct (decide (r = a0)) as [->|Hr]; [by rewrite upd_eq|]. rewrite upd_ne by done. by apply Er.
Qed.
End traps.

(** C11. A trap is transparent for the user program. [uservec] enters the kernel at
    [kernel_trap] with the kernel's stack, hart number, page table and the address of
    [userret] as the return address, and with every user register in its word of the
    trap frame; whatever the kernel does then, if it keeps the words of the registers
    other than a0, [userret] resumes the program with every register as it was, except
    that a0 is the word that the kernel left for it. *)
Theorem trap_roundtrip mmu link s tf :
  frame_at mmu (cr s satp) tf -> words s ->
  exists s1, run_routine mmu link uservec s = Some (At (frame_word (pm s) tf Tkernel_trap), s1)
    /\ entered link s tf s1
    /\ forall s2, frame_at mmu (xr s2 a0) tf ->
       (forall r, r <> a0 -> frame_word (pm s2) tf (tf_of r) = frame_word (pm s1) tf (tf_of r)) ->
       exists s3, run_routine mmu link userret s2 = Some (Resume, s3)
         /\ (forall r, r <> a0 -> xr s3 r = xr s r) /\ xr s3 a0 = frame_word (pm s2) tf Ta0
         /\ cr s3 satp = xr s2 a0 /\ pm s3 = pm s2.
Proof.
  intros Hm Hw. destruct (uservec_run mmu link s tf Hm Hw) as (s1 & E1 & H1). exists s1. split_and!; [done|done|].
  intros s2 Hm2 Hk. destruct (userret_run mmu link s2 tf Hm2) as (s3 & E3 & Hr & Hc & Hp). exists s3.
  split_and!; [done| |apply (Hr a0)|done|done]. intros r Hne. by rewrite Hr, Hk, (e_regs _ _ _ _ H1).
Qed.

(** A page table with a trap frame, under any value of [satp]. *)
Definition one_page (satp va : Z) : option Z :=
  if (TRAPFRAME <=? va) && (va <? TRAPFRAME + PGSIZE) then Some (0x80200000 + (va - TRAPFRAME)) else None.

Lemma one_page_frame table : frame_at one_page table 0x80200000.
Proof.
  split_and!; try done. intros o Ho. unfold one_page.
  rewrite (proj2 (Z.leb_le _ _)), (proj2 (Z.ltb_lt _ _)) by lia. cbn. f_equal. lia.
Qed.

Lemma trap_roundtrip_witness :
  let s := RegFile (fun _ => 7) (fun _ => 0) ∅ in
  exists s1, run_routine one_page 0x8000709a uservec s = Some (At 0, s1)
    /\ exists s3, run_routine one_page 0x8000709a userret s1 = Some (Resume, s3) /\ xr s3 sp = 7.
Proof.
  intros s. destruct (trap_roundtrip one_page 0x8000709a s 0x80200000) as (s1 & E & _ & H).
  - apply one_page_frame.
  - intros r. cbn. lia.
  - exists s1. split; [exact E|]. destruct (H s1) as (s3 & E3 & Hr & _); [apply one_page_frame|done|].
    exists s3. split; [exact E3|]. by apply Hr.
Defined.

(** ** Context switches *)

(** [struct context]: the words of a saved context. *)
Definition context_frame : list (reg * Z) :=
  [(ra, 0); (sp, 8); (s0, 16); (s1, 24); (s2, 32); (s3, 40); (s4, 48); (s5, 56); (s6, 64); (s7, 72); (s8, 80);
   (s9, 88); (s10, 96); (s11, 104)].
Definition sizeof_context : Z := 112.

Lemma context_offsets : offsets_ok sizeof_context context_frame.
Proof. split; [by apply (bool_decide_unpack _); vm_compute|by repeat constructor]. Qed.

Lemma swtch_parts : body swtch_code = saves a0 context_frame ++ loads a1 context_frame.
Proof. reflexivity. Qed.

(** [swtch(old, new)] puts the return address, the stack pointer and the callee-saved
    registers into [old] and takes them from [new], to whose return address it goes;
    every other register and byte of memory stays. *)
Theorem swtch_spec mmu link s old new :
  maps mmu (cr s satp) (xr s a0) old sizeof_context -> maps mmu (cr s satp) (xr s a1) new sizeof_context ->
  (old + sizeof_context <= new \/ new + sizeof_context <= old) -> words s ->
  exists s', run_routine mmu link swtch_code s = Some (At (get64 (pm s) new), s')
    /\ (forall r o, (r, o) ∈ context_frame -> xr s' r = get64 (pm s) (new + o) /\ get64 (pm s') (old + o) = xr s r)
    /\ (forall r, r ∉ context_frame.*1 -> xr s' r = xr s r) /\ cr s' = cr s
    /\ (forall a, a < old \/ old + sizeof_context <= a -> mget (pm s') a = mget (pm s) a).
Proof.
  intros Ho Hn Hd Hw. destruct s as [x c m]. cbn [xr cr pm] in *. unfold run_routine. rewrite swtch_parts.
  erewrite execute_app by (apply (saves_run mmu a0 _ (RegFile x c m) old sizeof_context); [done|apply context_offsets]).
  change ((RegFile x c m) <| pm := _ |>) with (RegFile x c (saved context_frame old x m)).
  set (m' := saved context_frame old x m).
  rewrite (loads_run mmu a1 _ (RegFile x c m') new sizeof_context);
    [|done|apply context_offsets|by apply (bool_decide_unpack _); vm_compute].
  change ((RegFile x c m') <| xr := _ |>) with (RegFile (restored context_frame new m' x) c m').
  destruct context_offsets as [Hnd Hfo]. rewrite Forall_forall in Hfo.
  assert (Hg : forall r o, (r, o) ∈ context_frame -> restored context_frame new m' x r = get64 m (new + o)).
  { intros r o Hin. rewrite (restored_get _ _ _ _ r o) by (done || by apply (bool_decide_unpack _); vm_compute).
    apply saved_other. intros e He. pose proof (Hfo _ Hin). pose proof (Hfo _ He). cbn in *. lia. }
  exists (RegFile (restored context_frame new m' x) c m'). split_and!.
  - cbn [fmap option_fmap option_map leave last swtch_code xr]. rewrite (Hg ra 0) by (by apply (bool_decide_unpack _); vm_compute).
    by rewrite Z.add_0_r.
  - intros r o Hin. split; [by apply Hg|]. cbn [pm]. unfold m'.
    rewrite (saved_get sizeof_context _ _ _ _ r o); [by apply u64_small|apply context_offsets|done].
  - intros r Hr. cbn [xr]. by apply restored_other.
  - done.
  - intros a Ha. apply saved_byte. intros e He. pose proof (Hfo _ He). cbn in *. lia.
Qed.

(** ** Traps in the kernel *)

(** The caller-saved registers, [gp] and [tp], on the stack. *)
Definition kernel_frame : list (reg * Z) :=
  [(ra, 0); (gp, 16); (tp, 24); (t0, 32); (t1, 40); (t2, 48); (a0, 72); (a1, 80); (a2, 88); (a3, 96); (a4, 104);
   (a5, 112); (a6, 120); (a7, 128); (t3, 216); (t4, 224); (t5, 232); (t6, 240)].

Lemma kernel_frame_offsets : offsets_ok 256 kernel_frame.
Proof. split; [by apply (bool_decide_unpack _); vm_compute|by repeat constructor]. Qed.

Definition kernel_loads : list (reg * Z) := filter (fun e => e.1 <> tp) kernel_frame.

Lemma kernel_loads_offsets : offsets_ok 256 kernel_loads.
Proof. split; [by apply (bool_decide_unpack _); vm_compute|by repeat constructor]. Qed.

Lemma kernelvec_parts kerneltrap :
  body (kernelvec kerneltrap) = [addi sp sp (-256)] ++ saves sp kernel_frame
  /\ body kernelvec_return = loads sp kernel_loads ++ [addi sp sp 256].
Proof. split; reflexivity. Qed.

(** What a C function keeps for its caller, and the stack frame of [kernelvec]. *)
Record keeps_abi (frame : Z) (s s' : regfile) : Prop := KeepsAbi {
  k_saved : forall r, r ∈ [sp; s0; s1; s2; s3; s4; s5; s6; s7; s8; s9; s10; s11] -> xr s' r = xr s r;
  k_satp : cr s' satp = cr s satp;
  k_frame : forall o, 0 <= o < 256 -> mget (pm s') (frame + o) = mget (pm s) (frame + o);
}.

Lemma kernelvec_run mmu link kerneltrap s frame :
  maps mmu (cr s satp) (u64 (xr s sp + -256)) frame 256 ->
  exists s', run_routine mmu link (kernelvec kerneltrap) s = Some (At kerneltrap, s')
    /\ pm s' = saved kernel_frame frame (upd (xr s) sp (u64 (xr s sp + -256))) (pm s) /\ cr s' = cr s
    /\ xr s' sp = u64 (xr s sp + -256) /\ forall r, r <> sp -> r <> ra -> xr s' r = xr s r.
Proof.
  intros Hm. destruct s as [x c m]. cbn [xr cr pm] in *. unfold run_routine.
  rewrite (proj1 (kernelvec_parts kerneltrap)). set (x1 := upd x sp (u64 (x sp + -256))).
  rewrite (execute_app mmu _ _ _ (RegFile x1 c m)) by done.
  rewrite (saves_run mmu sp _ (RegFile x1 c m) frame 256); [|exact Hm|apply kernel_frame_offsets].
  eexists. split; [reflexivity|]. cbn. split_and!; try done. intros r H1 H2. unfold x1. by rewrite !upd_ne by done.
Qed.

Lemma kernelvec_return_run mmu link s frame :
  maps mmu (cr s satp) (xr s sp) frame 256 ->
  exists s', run_routine mmu link kernelvec_return s = Some (Resume, s')
    /\ (forall r o, (r, o) ∈ kernel_loads -> xr s' r = get64 (pm s) (frame + o))
    /\ (forall r, r ∉ kernel_loads.*1 -> r <> sp -> xr s' r = xr s r)
    /\ xr s' sp = u64 (xr s sp + 256) /\ pm s' = pm s.
Proof.
  intros Hm. destruct s as [x c m]. cbn [xr cr pm] in *. unfold run_routine.
  rewrite (proj2 (kernelvec_parts 0)).
  erewrite execute_app by (apply (loads_run mmu sp _ (RegFile x c m) frame 256);
    [exact Hm|apply kernel_loads_offsets|by apply (bool_decide_unpack _); vm_compute]).
  assert (Hsp : restored kernel_loads frame m x sp = x sp).
  { apply restored_other. by apply (bool_decide_unpack _); vm_compute. }
  assert (Hr : forall r o, (r, o) ∈ kernel_loads -> restored kernel_loads frame m x r = get64 m (frame + o)).
  { intros r o Hin. apply restored_get; [by apply (bool_decide_unpack _); vm_compute|done]. }
  assert (Ho : forall r, r ∉ kernel_loads.*1 -> restored kernel_loads frame m x r = x r).
  { intros r Hr'. by apply restored_other. }
  cbn [xr pm]. change ((RegFile x c m) <| xr := _ |>) with (RegFile (restored kernel_loads frame m x) c m).
  set (x' := restored kernel_loads frame m x) in *. clearbody x'.
  exists (RegFile (upd x' sp (u64 (x' sp + 256))) c m). split; [reflexivity|]. cbn [xr pm]. split_and!; [| | |reflexivity].
  - intros r o Hin. rewrite upd_ne; [by apply Hr|]. intros ->. apply (list_elem_of_fmap_2 fst) in Hin.
    revert Hin. by apply (bool_decide_unpack (sp ∉ kernel_loads.*1)); vm_compute.
  - intros r Hn Hs. rewrite upd_ne by done. by apply Ho.
  - by rewrite upd_eq, Hsp.
Qed.

(** A trap in the kernel is transparent for the code that it interrupts, if
    [kerneltrap] keeps what a C function has to keep: every register comes back except
    [tp], which the kernel may have changed on the way to another hart. *)
Theorem kernelvec_transparent mmu link kerneltrap s frame :
  maps mmu (cr s satp) (u64 (xr s sp + -256)) frame 256 -> words s ->
  exists s1, run_routine mmu link (kernelvec kerneltrap) s = Some (At kerneltrap, s1)
    /\ (forall a, a < frame \/ frame + 256 <= a -> mget (pm s1) a = mget (pm s) a)
    /\ forall s2, keeps_abi frame s1 s2 ->
       exists s3, run_routine mmu link kernelvec_return s2 = Some (Resume, s3)
         /\ (forall r, r <> tp -> xr s3 r = xr s r) /\ xr s3 tp = xr s2 tp /\ pm s3 = pm s2.
Proof.
  intros Hm Hw. destruct (kernelvec_run mmu link kerneltrap s frame Hm) as (s1 & E1 & Hp1 & Hc1 & Hs1 & Hr1).
  destruct kernel_frame_offsets as [_ Hfo]. rewrite Forall_forall in Hfo.
  exists s1. split_and!; [done| |].
  { intros a Ha. rewrite Hp1. apply saved_byte. intros e He. pose proof (Hfo _ He). cbn in *. lia. }
  intros s2 [Hk Hsa Hf]. assert (Hsp : xr s2 sp = u64 (xr s sp + -256)) by (rewrite <- Hs1; apply Hk; set_solver).
  destruct (kernelvec_return_run mmu link s2 frame) as (s3 & E3 & Hl & Ho & Hs & Hp); [by rewrite Hsa, Hc1, Hsp|].
  exists s3. split_and!; [done| |apply Ho; [by apply (bool_decide_unpack _); vm_compute|done]|done].
  intros r Hne. destruct (decide (r = sp)) as [->|Hnsp].
  { rewrite Hs, Hsp. unfold u64. rewrite Z.add_mod_idemp_l by done. replace (_ + -256 + 256) with (xr s sp) by lia.
    apply Z.mod_small, Hw. }
  destruct (decide (r ∈ kernel_loads.*1)) as [Hin|Hnin].
  - apply list_elem_of_fmap_1 in Hin as ([r' o] & -> & Hin). cbn [fst] in *. rewrite (Hl _ _ Hin).
    apply list_elem_of_filter in Hin as [_ Hin]. pose proof (Hfo _ Hin) as Hb. cbn [snd] in Hb.
    rewrite (get64_ext (pm s1)) by (intros a Ha; replace a with (frame + (a - frame)) by lia; apply Hf; lia).
    rewrite Hp1, (saved_get 256 _ _ _ _ r' o) by (done || apply kernel_frame_offsets). rewrite upd_ne by done. by apply u64_small.
  - rewrite Ho by done. rewrite (Hk r), Hr1; try done; [by intros ->; apply Hnin, (bool_decide_unpack _); vm_compute|].
    destruct r; try done; try (exfalso; apply Hnin; by apply (bool_decide_unpack _); vm_compute);
      apply (bool_decide_unpack _); by vm_compute.
Qed.

(** ** Boot *)

(** Hart [h] enters [start] with a stack of 4096 bytes of its own. *)
Theorem entry_stack mmu link stack0 start s :
  0 <= cr s mhartid < 2 ^ 32 -> 0 <= stack0 < 2 ^ 32 ->
  exists s', run_routine mmu link (entry stack0 start) s = Some (At start, s')
    /\ xr s' sp = stack0 + (cr s mhartid + 1) * 4096.
Proof.
  intros Hh Hs. destruct s as [x c m]. cbn [cr] in *.
  set (x1 := upd (upd (upd x sp (u64 stack0)) a0 (u64 (1024 * 4))) a1 (c mhartid)).
  set (x2 := upd x1 a1 (u64 (x1 a1 + 1))). set (x3 := upd x2 a0 (u64 (x2 a0 * x2 a1))).
  exists (RegFile (upd (upd x3 sp (u64 (x3 sp + x3 a0))) ra link) c m). split; [reflexivity|].
  change (u64 (u64 stack0 + u64 (u64 (1024 * 4) * u64 (c mhartid + 1))) = stack0 + (c mhartid + 1) * 4096).
  rewrite (u64_small (_ + 1)), (u64_small stack0), (u64_small (1024 * 4)) by lia. rewrite !u64_small; rewrite ?u64_small; lia.
Qed.
