(* ===== verification/ProcSpec.v ===== *)
(** * What the process calls do

    Properties of [kkill()] and [wakeup()] of [src/kernel/proc.c], of the clock
    interrupt of [src/kernel/trap.c] and of [sys_getpinfo()] of
    [src/kernel/sysproc.c], in terms of the process table. *)

From S2P Require Import Prelude Bytes Params Machine Spinlock ProcCore Sched Mem Kalloc Vm Kstring.
From S2P Require Import Pres PresVm Services Proc Syscall Trap FsTypes FsCore Sleeplock Calm.
From S2P Require Import Uart FileTable Kernel.

(** ** kill and wakeup *)

(** [kkill(pid)] acts on the first slot whose pid field is [pid], whatever the
    state of the slot: it sets [killed], makes the process runnable when it sleeps,
    changes nothing else and returns 0; without such a slot it changes nothing and
    returns -1. *)
Theorem kkill_spec d pid s :
  kok d s ->
  kkill pid s =
  match list_find (fun r => p_pid r = pid) (k_procs s) with
  | Some (p, _) => Ret 0 (ksync settle (at_proc p (fun r =>
      if bool_decide (p_state r = SLEEPING)
      then r <| p_killed := 1 |> <| p_state := RUNNABLE |> else r <| p_killed := 1 |>) s))
  | None => Ret (-1) (ksync settle s)
  end.
Proof.
  intros H. destruct (list_find _ _) as [[p r]|] eqn:E.
  - by apply (kkill_run_found d pid s p r H E).
  - by apply (kkill_run_none d).
Qed.

(** [find_unused] finds the first UNUSED slot. *)
Lemma find_unused_run d s p r :
  kok d s -> list_find (fun r => p_state r = UNUSED) (k_procs s) = Some (p, r) ->
  find_unused s = Ret (Some p) (ksync (acquired (LkProc p)) (passed (seq 0 p) s)).
Proof.
  intros H Hf. apply list_find_Some in Hf as (Hr & Hst & Hmin).
  assert (Hp : (p < Z.to_nat NPROC)%nat).
  { rewrite <- (kok_procs _ _ H). by eapply lookup_lt_Some. }
  unfold find_unused. rewrite (proc_ids_split p Hp), for_find_skip.
  - assert (Hok : kok d (passed (seq 0 p) s)) by by apply kok_passed.
    assert (Hr' : k_procs (passed (seq 0 p) s) !! p = Some r).
    { by rewrite (ksync_settle_eq _ _ (settle_passed (seq 0 p) s)). }
    simpl. unfold bind at 1. erewrite bind_Ret by by eapply kok_acquire.
    erewrite bind_Ret by by apply get_proc_run. by rewrite bool_decide_true by done.
  - intros q s' Hq%elem_of_seq Hs'.
    assert (Hok : kok d s') by (destruct Hs' as [->| ->]; auto with xv6).
    assert (He : ksync settle s' = ksync settle s)
      by (destruct Hs' as [->| ->]; [done|apply ksync_settle_settle]).
    destruct (kok_lookup _ _ q Hok) as [rq Hrq]; [lia|].
    erewrite bind_Ret by (eapply kok_acquire; [done|lia]).
    erewrite bind_Ret by by apply get_proc_run.
    rewrite bool_decide_false.
    + erewrite bind_Ret by (eapply kok_release; [done|lia|done]). f_equal. exact He.
    + rewrite (ksync_settle_eq _ _ He) in Hrq. apply (Hmin q); [done|lia].
Qed.

(** C35. [kkill(0)] poisons the next process: an UNUSED slot has pid 0, so [kkill(0)]
    returns 0 and sets [killed] of the first such slot; allocproc() then takes that
    slot, and the fields it initialises leave the new process killed from birth. *)
Theorem kill_zero_poisons d s p r :
  kok d s -> list_find (fun r => p_pid r = 0) (k_procs s) = Some (p, r) ->
  list_find (fun r => p_state r = UNUSED) (k_procs s) = Some (p, r) ->
  exists s' r', kkill 0 s = Ret 0 s' /\ k_procs s' !! p = Some r' /\ p_state r' = UNUSED
    /\ find_unused s' = Ret (Some p) (ksync (acquired (LkProc p)) (passed (seq 0 p) s'))
    /\ forall pid, p_killed (init_proc pid r') = 1.
Proof.
  intros H Hf Hu. assert (Hu' := Hu). apply list_find_Some in Hu' as (Hr & Hst & Hmin).
  assert (Hkp : k_procs (ksync settle (at_proc p kill_proc s)) !! p = Some (kill_proc r)).
  { change (k_procs (at_proc p kill_proc s) !! p = Some (kill_proc r)).
    by rewrite at_proc_lookup, Hr. }
  assert (Hks : p_state (kill_proc r) = UNUSED).
  { unfold kill_proc. simpl. by rewrite bool_decide_false by (rewrite Hst; discriminate). }
  exists (ksync settle (at_proc p kill_proc s)), (kill_proc r). split_and!; try done.
  - by apply (kkill_run_found d 0 s p r).
  - apply (find_unused_run d _ _ (kill_proc r)); [auto with xv6|].
    apply list_find_Some. split_and!; [done|done|]. intros q rq Hq Hlt.
    change (k_procs (at_proc p kill_proc s) !! q = Some rq) in Hq. simpl in Hq.
    rewrite list_lookup_alter_ne in Hq by lia. by apply (Hmin q).
  - intros pid. unfold kill_proc. simpl. by rewrite bool_decide_false by (rewrite Hst; discriminate).
Qed.

(** [wakeup(chan)] makes runnable exactly the processes that sleep on [chan], the
    calling process excepted, and changes no other field of any process. *)
Theorem wakeup_spec d chan s :
  kok d s ->
  exists s', wakeup chan s = Ret tt s' /\ k_procs s' = imap (fun p r =>
      if negb (bool_decide (curproc (k_sync s) = Some p)) && bool_decide (p_state r = SLEEPING)
           && bool_decide (p_chan r = chan)
      then r <| p_state := RUNNABLE |> else r) (k_procs s)
    /\ s' = ksync settle (s <| k_procs := k_procs s' |>).
Proof.
  intros H. eexists. split; [by apply (wakeup_run d)|]. split; [|done]. simpl.
  apply imap_ext. intros p r _. unfold wake. by case_bool_decide.
Qed.

(** ** Timer interrupts *)

Section ticks.
Context `{FsOps, DevOps, FileCalls} (fuel : nat) (stack : pstat).

(** Every process is as before, or slept and has been woken up. *)
Definition only_woken (s s' : kstate) : Prop :=
  exists g, k_procs s' = imap g (k_procs s)
    /\ forall p r, g p r = r \/ p_state r = SLEEPING /\ g p r = r <| p_state := RUNNABLE |>.

Lemma kok_acquired_other d s l :
  kok d s -> d < 999 -> (forall p, l <> LkProc p) -> kok (d + 1) (ksync (acquired l) s).
Proof.
  intros [Hs Hd Hl Hp] Hlt Hne. split; [|lia| |done].
  - apply acquired_sync_at; [done|lia].
  - intros p Hlp. destruct (Hl p Hlp) as [nm E]. exists nm. simpl. by rewrite acquired_other.
Qed.

Lemma clock_ticks d s :
  kok d s -> d < 999 -> lock_free LkTicks (k_sync s) ->
  exists s', (acquire LkTicks;;
     modify (fun s => s <| k_ticks := u32 (k_ticks s + 1) |>);;
     wakeup (Some ChTicks);;
     release LkTicks) s = Ret tt s' /\ k_sync s' = settle (k_sync s)
    /\ k_ticks s' = u32 (k_ticks s + 1) /\ only_woken s s'.
Proof.
  intros Hk Hd Hl.
  assert (Hcl : can_lock d LkTicks (k_sync s)).
  { split; [apply Hk|]. split; [|done]. pose proof (kok_depth _ _ Hk). lia. }
  pose proof (kok_acquired_other d s LkTicks Hk Hd ltac:(done)) as Hk1.
  set (s2 := (ksync (acquired LkTicks) s) <| k_ticks := u32 (k_ticks s + 1) |>).
  assert (Hk2 : kok (d + 1) s2) by (destruct Hk1; by split).
  erewrite bind_Ret by by apply (can_lock_acquire d).
  rewrite (bind_Ret (modify _) _ _ tt s2) by done.
  erewrite bind_Ret by by apply (wakeup_run (d + 1)).
  eexists. split; [apply (can_lock_release d LkTicks (k_sync s)); [done|]|].
  - simpl. apply (settle_deep (d + 1)); [apply Hk1|]. pose proof (kok_depth _ _ Hk). lia.
  - split; [done|]. split; [done|]. eexists. split; [reflexivity|].
    intros p r. simpl. case_bool_decide; [by left|]. unfold wake. case_match; bool_to_prop; naive_solver.
Qed.

Lemma only_woken_refl s : only_woken s s.
Proof.
  exists (fun _ r => r). split; [|by left]. apply list_eq. intros i.
  rewrite list_lookup_imap. by destruct (k_procs s !! i).
Qed.

(** A wake-up changes no counter. *)
Lemma only_woken_field {B} (fld : proc -> B) s s' :
  (forall r, fld (r <| p_state := RUNNABLE |>) = fld r) -> only_woken s s' ->
  forall p, fld <$> k_procs s' !! p = fld <$> k_procs s !! p.
Proof.
  intros Hf (g & E & Hg) p. rewrite E, list_lookup_imap. destruct (k_procs s !! p) as [r|]; [|done].
  simpl. destruct (Hg p r) as [-> | [_ ->]]; [done|]. by rewrite Hf.
Qed.

Lemma only_woken_awake s s' p r :
  only_woken s s' -> k_procs s !! p = Some r -> p_state r <> SLEEPING -> k_procs s' !! p = Some r.
Proof.
  intros (g & E & Hg) Hr Hst. rewrite E, list_lookup_imap, Hr. simpl. by destruct (Hg p r) as [-> | [? _]].
Qed.

Lemma settle_harts y : s_harts (settle y) = s_harts y.
Proof. unfold settle. by repeat case_match. Qed.

(** Program the next timer interrupt. *)
Definition rearmed (y : syncst) : syncst :=
  match s_harts y !! s_hart y with
  | Some h => put_hart (h <| stimecmp := u64 (time h + 1000000) |>) y
  | None => y
  end.

Lemma clockintr_run d s :
  kok d s -> d < 999 -> lock_free LkTicks (k_sync s) ->
  exists s', clockintr s = Ret tt s' /\ only_woken s s'
    /\ k_ticks s' = (if decide (s_hart (k_sync s) = 0%nat) then u32 (k_ticks s + 1) else k_ticks s)
    /\ k_sync s' = rearmed (if decide (s_hart (k_sync s) = 0%nat) then settle (k_sync s) else k_sync s).
Proof.
  intros Hk Hd Hl. unfold clockintr, cpuid, r_tp. erewrite bind_Ret by reflexivity.
  assert (Hfin : forall s1, sync_at d (k_sync s1) ->
    (t ← r_time; w_stimecmp (t + 1000000)) s1 = Ret tt (ksync rearmed s1)).
  { intros s1 (h & c & Hh & _). unfold r_time. erewrite bind_Ret
      by (erewrite bind_Ret by (by apply get_hart_run); reflexivity).
    unfold w_stimecmp. erewrite upd_hart_run by exact Hh. unfold ksync, rearmed. by rewrite Hh. }
  destruct (decide (s_hart (k_sync s) = 0%nat)) as [E|E].
  - rewrite bool_decide_true by done. cbn [when].
    destruct (clock_ticks d s Hk Hd Hl) as (s1 & E1 & Y1 & T1 & W1).
    erewrite bind_Ret by exact E1. eexists. split.
    + apply Hfin. rewrite Y1. apply settle_sync_at, Hk.
    + split; [exact W1|]. split; [exact T1|]. simpl. by rewrite Y1.
  - rewrite bool_decide_false by done. erewrite bind_Ret by reflexivity.
    eexists. split; [apply Hfin, Hk|]. split; [exact (only_woken_refl s)|]. done.
Qed.

(** A write to the registers of the hart. *)
Lemma put_hart_sync_at d h y : sync_at d y -> (0 < d -> sie h = false) -> sync_at d (put_hart h y).
Proof.
  intros (h0 & c & Hh & Hc & Hd & _) Hi. exists h, c. split_and!; [|done|done|done].
  simpl. apply list_lookup_insert_eq. by eapply lookup_lt_Some.
Qed.

Lemma kok_put_hart d h s : kok d s -> (0 < d -> sie h = false) -> kok d (ksync (put_hart h) s).
Proof. intros [Hs Hd Hl Hp] Hi. split; [by apply put_hart_sync_at|done|exact Hl|done]. Qed.

Lemma kok_ext d s s' :
  kok d s -> k_sync s' = k_sync s -> length (k_procs s') = length (k_procs s) -> kok d s'.
Proof. intros [Hs Hd Hl Hp] E El. split; rewrite ?E, ?El; done. Qed.

Lemma devintr_timer d s h :
  kok d s -> d < 999 -> lock_free LkTicks (k_sync s) ->
  s_harts (k_sync s) !! s_hart (k_sync s) = Some h -> scause h = SCAUSE_TIMER ->
  exists s', devintr s = Ret 2 s' /\ only_woken s s' /\ kok d s' /\ curproc (k_sync s') = curproc (k_sync s).
Proof.
  intros Hk Hd Hl Hh Hsc. destruct (clockintr_run d s Hk Hd Hl) as (s' & E & W & _ & Y).
  exists s'. split_and!; [|done| |].
  - unfold devintr, r_scause.
    erewrite bind_Ret by (erewrite bind_Ret by (by apply get_hart_run); reflexivity).
    rewrite Hsc. change (SCAUSE_TIMER =? SCAUSE_EXT) with false. rewrite Z.eqb_refl.
    by erewrite bind_Ret by exact E.
  - set (y := if decide _ then _ else _) in Y.
    assert (Hky : kok d (s <| k_sync := y |>)).
    { subst y. case_decide; [by apply kok_settle|by eapply kok_ext]. }
    assert (Hhy : s_harts y !! s_hart y = Some h).
    { subst y. case_decide; [by rewrite settle_hart, settle_harts|done]. }
    apply (kok_ext _ (ksync rearmed (s <| k_sync := y |>))); [|by rewrite Y|].
    + replace (ksync rearmed (s <| k_sync := y |>))
        with (ksync (put_hart (h <| stimecmp := u64 (time h + 1000000) |>)) (s <| k_sync := y |>))
        by (unfold ksync, rearmed; simpl; by rewrite Hhy).
      apply kok_put_hart; [done|]. simpl.
      destruct (kok_sync _ _ Hky) as (h' & c & Hh' & _ & _ & Hi). simpl in Hh'. by simplify_eq.
    + destruct W as (g & -> & _). apply length_imap.
  - rewrite Y. assert (Hr : forall y, curproc (rearmed y) = curproc y).
    { intros y. unfold rearmed. by destruct (s_harts y !! s_hart y). }
    rewrite Hr. case_decide; [apply curproc_settle|done].
Qed.

(** [clockintr()]: on hart 0 the tick counter advances (modulo 2^32) and the
    sleepers on it wake up; on every hart the next timer interrupt is programmed
    1000000 cycles ahead; nothing else of any process changes. *)
Theorem clockintr_spec d s h :
  kok d s -> d < 999 -> lock_free LkTicks (k_sync s) ->
  s_harts (k_sync s) !! s_hart (k_sync s) = Some h ->
  exists s' h', clockintr s = Ret tt s'
    /\ k_ticks s' = (if decide (s_hart (k_sync s) = 0%nat) then (k_ticks s + 1) mod 2 ^ 32 else k_ticks s)
    /\ s_harts (k_sync s') !! s_hart (k_sync s) = Some h'
    /\ h' = h <| stimecmp := (time h + 1000000) mod 2 ^ 64 |> /\ only_woken s s'.
Proof.
  intros Hk Hd Hl Hh. destruct (clockintr_run d s Hk Hd Hl) as (s' & E & W & T & Y).
  eexists s', _. split_and!; [done|done| |done|done]. rewrite Y.
  assert (Hg : forall y, s_hart y = s_hart (k_sync s) -> s_harts y !! s_hart y = Some h ->
    s_harts (rearmed y) !! s_hart (k_sync s) = Some (h <| stimecmp := (time h + 1000000) mod 2 ^ 64 |>)).
  { intros y Ey Hy. unfold rearmed. rewrite Hy. unfold put_hart. simpl. rewrite Ey.
    apply list_lookup_insert_eq. rewrite <- Ey. by eapply lookup_lt_Some. }
  case_decide; [|by apply Hg].
  apply Hg; [apply settle_hart|]. by rewrite settle_hart, settle_harts.
Qed.

(** Functions that return and keep [G]. *)
Definition stays {A : Type} (G : kstate -> Prop) (m : M A) : Prop :=
  forall s, G s -> exists a s', m s = Ret a s' /\ G s'.

Lemma stays_bind {A B} G (m : M A) (f : A -> M B) : stays G m -> (forall a, stays G (f a)) -> stays G (bind m f).
Proof.
  intros Hm Hf s HG. destruct (Hm s HG) as (a & s1 & E1 & G1). destruct (Hf a s1 G1) as (b & s2 & E2 & G2).
  exists b, s2. by erewrite bind_Ret by exact E1.
Qed.

Lemma stays_ret {A} G (a : A) : stays G (ret a).
Proof. intros s HG. by exists a, s. Qed.

(** In the kernel for process [p], with interrupts of nesting 0: the process table is
    [ps], in which [p] has a trapframe in memory. *)
Section returning.
Context (p : nat) (r : proc) (ps : list proc) (Hr : ps !! p = Some r) (Hram : ram_range (p_trapframe r) PGSIZE).

Let G (s : kstate) : Prop := sync_at 0 (k_sync s) /\ curproc (k_sync s) = Some p /\ k_procs s = ps.

Lemma tf_range reg : ram_range (p_trapframe r + tf_offset reg) 8.
Proof using Hram.
  destruct Hram as [H1' H2']. change PGSIZE with 4096 in H2'. destruct reg; unfold ram_range; simpl; lia.
Qed.

Lemma stays_tf_set reg v : stays G (tf_set p reg v).
Proof using Hr Hram.
  intros s (Hs & Hc & Hp). eexists tt, _. unfold tf_set. split.
  - erewrite bind_Ret by (apply get_proc_run; by rewrite Hp). apply store64_run, tf_range.
  - done.
Qed.

Lemma stays_tf_get reg : stays G (tf_get p reg).
Proof using Hr Hram.
  intros s (Hs & Hc & Hp). eexists _, s. unfold tf_get. split; [|done].
  erewrite bind_Ret by (apply get_proc_run; by rewrite Hp). apply load64_run, tf_range.
Qed.

Lemma stays_get_hart : stays G get_hart.
Proof. intros s HG. pose proof HG as ((h & c & Hh & _) & _). exists h, s. split; [by apply get_hart_run|done]. Qed.

Lemma stays_upd_hart f : stays G (upd_hart f).
Proof.
  intros s ((h & c & Hh & Hc & Hd & Hi) & Hcur & Hp). eexists tt, _. split; [by apply upd_hart_run|].
  split_and!; [|done|done]. apply put_hart_sync_at; [by exists h, c|lia].
Qed.

Lemma stays_get_proc : stays G (get_proc p).
Proof using Hr. intros s HG. pose proof HG as (_ & _ & Hp). exists r, s. split; [apply get_proc_run; by rewrite Hp|done]. Qed.

Lemma stays_gets {A} (f : kstate -> A) : stays G (gets f).
Proof. intros s HG. by exists (f s), s. Qed.

Lemma stays_myproc {A} (f : nat -> M A) : stays G (f p) -> stays G (bind myproc_deref f).
Proof.
  intros Hf s (Hs & Hc & Hp). unfold myproc_deref.
  erewrite bind_Ret by (erewrite bind_Ret by (apply (myproc_run 0); [done|lia]); rewrite Hc; reflexivity).
  apply Hf. split_and!; [by apply settle_sync_at|by rewrite <- Hc; apply curproc_settle|done].
Qed.

Lemma stays_prepare_return : stays G prepare_return.
Proof using Hr Hram.
  unfold prepare_return, intr_off, w_stvec, w_sstatus, w_sepc, r_satp, r_sstatus, r_tp. apply stays_myproc.
  repeat first [apply stays_tf_set|apply stays_tf_get|apply stays_upd_hart|apply stays_get_hart|apply stays_get_proc
    |apply stays_gets|apply stays_ret|apply stays_bind; [|intros]].
Qed.
End returning.

Lemma killed_kok d s p r :
  kok d s -> (p < Z.to_nat NPROC)%nat -> k_procs s !! p = Some r -> killed p s = Ret (p_killed r) (ksync settle s).
Proof.
  intros Hk Hp Hr. unfold killed. erewrite bind_Ret by by eapply kok_acquire.
  erewrite bind_Ret by by apply get_proc_run. by erewrite bind_Ret by (eapply kok_release; done).
Qed.

(** A timer interrupt is all that [usertrap_cause] finds. *)
Lemma usertrap_cause_timer s h p :
  kok 0 s -> lock_free LkTicks (k_sync s) ->
  s_harts (k_sync s) !! s_hart (k_sync s) = Some h -> scause h = SCAUSE_TIMER ->
  exists s', usertrap_cause fuel stack p s = Ret 2 s' /\ only_woken s s' /\ kok 0 s'
    /\ curproc (k_sync s') = curproc (k_sync s).
Proof.
  intros Hk Hl Hh Hsc. destruct (devintr_timer 0 s h Hk ltac:(lia) Hl Hh Hsc) as (s' & E & W & Hk' & Hc').
  exists s'. split_and!; try done. unfold usertrap_cause, r_scause.
  erewrite bind_Ret by (erewrite bind_Ret by (by apply get_hart_run); reflexivity).
  rewrite Hsc. change (SCAUSE_TIMER =? 8) with false. cbn match. by erewrite bind_Ret by exact E.
Qed.

(** A timer interrupt in user mode: [usertrap()] gives up the CPU and, when the process
    is switched to again, returns to user space. *)
Lemma usertrap_timer s h p r :
  kok 0 s -> lock_free LkTicks (k_sync s) ->
  s_harts (k_sync s) !! s_hart (k_sync s) = Some h -> scause h = SCAUSE_TIMER -> spp h = false ->
  curproc (k_sync s) = Some p -> k_procs s !! p = Some r -> p_state r = RUNNING -> p_killed r = 0 ->
  ram_range (p_trapframe r) PGSIZE ->
  exists s0 s1 k, usertrap fuel stack s = Swtch ToScheduler s1 k /\ only_woken s s0
    /\ k_procs s1 = alter yielded p (k_procs s0)
    /\ forall s2 r2, sync_at 1 (k_sync s2) -> lock_held (LkProc p) (k_sync s2) ->
         curproc (k_sync s2) = Some p -> k_procs s2 !! p = Some r2 -> ram_range (p_trapframe r2) PGSIZE ->
         exists satp s3, k s2 = Ret satp s3 /\ k_procs s3 = k_procs s2.
Proof.
  intros Hk Hl Hh Hsc Hspp Hc Hr Hst Hkl Hram. unfold usertrap, myproc_deref, w_stvec.
  assert (Hp : (p < Z.to_nat NPROC)%nat) by (rewrite <- (kok_procs _ _ Hk); by eapply lookup_lt_Some).
  erewrite bind_Ret by (unfold r_sstatus; erewrite bind_Ret by (by apply get_hart_run); reflexivity).
  cbn [snd fst]. rewrite Hspp. erewrite bind_Ret by reflexivity.
  set (h1 := h <| stvec := sym_kernelvec (k_syms s) |>). set (s1 := ksync (put_hart h1) s).
  erewrite (bind_Ret (upd_hart _) _ s tt s1) by by apply upd_hart_run.
  assert (Hk1 : kok 0 s1) by (apply kok_put_hart; [done|lia]).
  assert (Hc1 : curproc (k_sync s1) = Some p) by exact Hc.
  erewrite bind_Ret by (erewrite bind_Ret by (by apply (kok_myproc 0)); rewrite Hc1; reflexivity).
  assert (Hh1 : s_harts (settle (k_sync s1)) !! s_hart (settle (k_sync s1)) = Some h1).
  { rewrite settle_hart, settle_harts. apply list_lookup_insert_eq. by eapply lookup_lt_Some. }
  erewrite bind_Ret by (unfold r_sepc; erewrite bind_Ret by (by apply get_hart_run); reflexivity).
  erewrite bind_Ret by (unfold tf_set; erewrite bind_Ret by (by apply get_proc_run); by apply store64_run, tf_range).
  match goal with |- context [bind (usertrap_cause _ _ _) _ ?s] => set (s2 := s) end.
  assert (Hk2 : kok 0 s2) by (apply (kok_ext 0 (ksync settle s1)); [by apply kok_settle|done|done]).
  destruct (usertrap_cause_timer s2 h1 p Hk2) as (s3 & E3 & W3 & Hk3 & Hc3); [by apply settle_lock_free|done|done|].
  erewrite bind_Ret by exact E3.
  assert (Hr3 : k_procs s3 !! p = Some r) by (apply (only_woken_awake s2); [done|done|by rewrite Hst]).
  erewrite bind_Ret by by eapply killed_kok. rewrite Hkl. erewrite bind_Ret by reflexivity.
  change (2 =? 2) with true. cbn [when].
  destruct (yield_run (ksync settle s3) p) as (k & Ek & Hk'); [by apply kok_settle| |done|].
  { simpl. rewrite curproc_settle, Hc3. change (curproc (settle (k_sync s1)) = Some p). by rewrite curproc_settle. }
  erewrite bind_Swtch by exact Ek. eexists s3, _, _. split; [reflexivity|]. split_and!; [exact W3|done|].
  intros s4 r4 Hs4 Hl4 Hc4 Hr4 Hram4. destruct (Hk' s4 Hs4 Hl4) as (y & -> & Hy & _ & Hcy). cbn [obind].
  destruct (stays_bind _ _ (fun _ => pr ← get_proc p; ret (MAKE_SATP (p_pagetable pr)))
    (stays_prepare_return p r4 (k_procs s4) Hr4 Hram4)) with (s := s4 <| k_sync := y |>)
    as (satp & s5 & E5 & _ & _ & Hp5).
  - intros _. apply stays_bind; [by eapply stays_get_proc|]. intros. apply stays_ret.
  - split_and!; [done|by rewrite <- Hc4|done].
  - exists satp, s5. by split.
Qed.

Lemma count_tick_run d s p r :
  kok d s -> curproc (k_sync s) = Some p -> (p < Z.to_nat NPROC)%nat ->
  k_procs s !! p = Some r -> p_state r = RUNNING ->
  count_tick s = Ret tt (ksync settle (at_proc p (fun r => r <| timer_ticks_used := s32 (timer_ticks_used r + 1) |>) s)).
Proof.
  intros Hk Hq Hlt Hr Hst. unfold curproc in Hq.
  destruct (s_cpus (k_sync s) !! s_hart (k_sync s)) as [c|] eqn:Hc; [|done].
  unfold count_tick, mycpu, cpuid, r_tp. erewrite bind_Ret by reflexivity.
  erewrite bind_Ret by by apply get_cpu_run. rewrite Hq.
  erewrite bind_Ret by by apply get_proc_run. rewrite bool_decide_true by done. cbn [when].
  erewrite bind_Ret by by eapply kok_acquire.
  erewrite bind_Ret by (eapply upd_proc_at; exact Hr).
  erewrite kok_release by done. done.
Qed.

(** A timer interrupt in the kernel: [kerneltrap()] counts it and returns. *)
Lemma kerneltrap_timer d s h p r :
  kok d s -> d < 999 -> lock_free LkTicks (k_sync s) ->
  s_harts (k_sync s) !! s_hart (k_sync s) = Some h -> scause h = SCAUSE_TIMER -> spp h = true -> sie h = false ->
  curproc (k_sync s) = Some p -> k_procs s !! p = Some r -> p_state r = RUNNING ->
  exists s0 s1, kerneltrap s = Ret tt s1 /\ only_woken s s0
    /\ k_procs s1 = alter (fun r => r <| timer_ticks_used := s32 (timer_ticks_used r + 1) |>) p (k_procs s0).
Proof.
  intros Hk Hd Hl Hh Hsc Hspp Hsie Hc Hr Hst.
  assert (Hp : (p < Z.to_nat NPROC)%nat) by (rewrite <- (kok_procs _ _ Hk); by eapply lookup_lt_Some).
  destruct (devintr_timer d s h Hk Hd Hl Hh Hsc) as (s' & E & W & Hk' & Hc').
  assert (Hr' : k_procs s' !! p = Some r) by (apply (only_woken_awake s); [done|done|by rewrite Hst]).
  unfold kerneltrap, r_sepc, r_sstatus, r_scause, intr_get, w_sepc, w_sstatus.
  do 3 erewrite bind_Ret by (erewrite bind_Ret by (by apply get_hart_run); reflexivity).
  cbn [snd fst]. rewrite Hspp. cbn [negb].
  erewrite bind_Ret by (erewrite bind_Ret by (by apply get_hart_run); reflexivity). rewrite Hsie.
  erewrite bind_Ret by exact E. change (2 =? 0) with false. change (2 =? 2) with true. cbn [when].
  erewrite bind_Ret by (eapply count_tick_run; [done|by rewrite Hc'|done|done|done]).
  destruct (settle_sync_at _ _ (kok_sync _ _ Hk')) as (h' & c' & Hh' & _).
  erewrite bind_Ret by by apply upd_hart_run. eexists s', _. split; [apply upd_hart_run|done].
  simpl. apply list_lookup_insert_eq. by eapply lookup_lt_Some.
Qed.

Lemma ticks_alter f p q s s' :
  only_woken s s' -> (forall r, timer_ticks_used (f r) = timer_ticks_used r) ->
  timer_ticks_used <$> alter f p (k_procs s') !! q = timer_ticks_used <$> k_procs s !! q.
Proof.
  intros W Hf. rewrite <- (only_woken_field timer_ticks_used s s') by done.
  destruct (decide (p = q)) as [->|Hne]; [|by rewrite list_lookup_alter_ne].
  rewrite list_lookup_alter_eq. destruct (k_procs s' !! q); [|done]. simpl. by rewrite Hf.
Qed.

(** C34. A timer interrupt that arrives in user mode is not counted. For a process that
    runs in user mode, [usertrap()] takes the interrupt, gives up the CPU through
    [yield()] and, when the process is switched to again, returns to user space; nowhere
    on the way does [timer_ticks_used] of any process change. For a process that is
    interrupted in the kernel, [kerneltrap()] returns with one tick more for this
    process and none for the others. *)
Theorem user_ticks_not_counted d s h p r :
  kok d s -> d < 999 -> lock_free LkTicks (k_sync s) ->
  s_harts (k_sync s) !! s_hart (k_sync s) = Some h -> scause h = SCAUSE_TIMER ->
  curproc (k_sync s) = Some p -> k_procs s !! p = Some r -> p_state r = RUNNING ->
  (d = 0 -> spp h = false -> p_killed r = 0 -> ram_range (p_trapframe r) PGSIZE ->
   exists s1 k, usertrap fuel stack s = Swtch ToScheduler s1 k
     /\ k_procs s1 !! p = Some (r <| p_state := RUNNABLE |> <| voluntarily_yielded := 1 |>)
     /\ (forall q, timer_ticks_used <$> k_procs s1 !! q = timer_ticks_used <$> k_procs s !! q)
     /\ forall s2 r2, sync_at 1 (k_sync s2) -> lock_held (LkProc p) (k_sync s2) ->
          curproc (k_sync s2) = Some p -> k_procs s2 !! p = Some r2 -> ram_range (p_trapframe r2) PGSIZE ->
          exists satp s3, k s2 = Ret satp s3 /\ k_procs s3 = k_procs s2)
  /\ (spp h = true -> sie h = false ->
      exists s1, kerneltrap s = Ret tt s1
        /\ k_procs s1 !! p = Some (r <| timer_ticks_used := s32 (timer_ticks_used r + 1) |>)
        /\ forall q, q <> p -> timer_ticks_used <$> k_procs s1 !! q = timer_ticks_used <$> k_procs s !! q).
Proof.
  intros Hk Hd Hl Hh Hsc Hc Hr Hst. split.
  - intros -> Hspp Hkl Hram.
    destruct (usertrap_timer s h p r) as (s0 & s1 & k & E & W & Ep & Hres); try done. exists s1, k.
    split_and!; [done| | |exact Hres].
    + rewrite Ep, list_lookup_alter_eq, (only_woken_awake s s0 p r); [done..|by rewrite Hst].
    + intros q. rewrite Ep. by apply ticks_alter.
  - intros Hspp Hsie. destruct (kerneltrap_timer d s h p r) as (s0 & s1 & E & W & Ep); try done. exists s1.
    split_and!; [done| |].
    + rewrite Ep, list_lookup_alter_eq, (only_woken_awake s s0 p r); [done..|by rewrite Hst].
    + intros q Hq. rewrite Ep, list_lookup_alter_ne by done. by apply only_woken_field.
Qed.
End ticks.

(** ** getpinfo *)

(** What a [struct pstat] says about slot [i]. *)
Definition entry (ps : pstat) (i : nat) :=
  (isused ps !! i, ps_pid ps !! i, ps_ppid ps !! i, pname ps !! i,
   ps_priority ps !! i, pstate ps !! i, memsize ps !! i).

(** The arrays of the structure have NPROC elements, and a name has 16 bytes. *)
Definition pstat_ok (ps : pstat) : Prop :=
  let n := Z.to_nat NPROC in
  length (isused ps) = n /\ length (ps_pid ps) = n /\ length (ps_ppid ps) = n
  /\ length (pname ps) = n /\ length (ps_priority ps) = n /\ length (pstate ps) = n
  /\ length (memsize ps) = n /\ Forall (fun row => length row = 16%nat) (pname ps).

(** The pid of the parent, 0 for a process without one. *)
Definition ppid_of (s : kstate) (r : proc) : Z :=
  match p_parent r with
  | Some q => match k_procs s !! q with Some qr => p_pid qr | None => 0 end
  | None => 0
  end.

(** The process table [getpinfo] can read: its names end and its parents exist. *)
Definition readable (s : kstate) : Prop :=
  Forall (fun r => terminated (p_name r) /\ (forall q, p_parent r = Some q -> (q < Z.to_nat NPROC)%nat))
    (k_procs s).

(** What the entry of [r] is to be, [row] being the bytes of its name before. *)
Definition reports (s : kstate) (r : proc) (row name : list Z) : Prop :=
  if bool_decide (p_state r = UNUSED) then name = <[0%nat := 0]> row
  else length name = 16%nat /\ terminated name /\ cstr name = take 15 (cstr (p_name r)).

Definition reported (s : kstate) (r : proc) (name : list Z) :=
  if bool_decide (p_state r = UNUSED)
  then (Some 0, Some 0, Some 0, Some name, Some 0, Some 0, Some 0)
  else (Some 1, Some (p_pid r), Some (ppid_of s r), Some name, Some (priority r),
        Some (procstate_code (p_state r)), Some (s32 (p_sz r))).

Lemma entry_used_eq i r ppid name ps :
  pstat_ok ps -> (i < Z.to_nat NPROC)%nat ->
  entry (pstat_used i r ppid name ps) i = (Some 1, Some (p_pid r), Some ppid, Some name,
    Some (priority r), Some (procstate_code (p_state r)), Some (s32 (p_sz r))).
Proof.
  intros (? & ? & ? & ? & ? & ? & ? & _) Hi. unfold entry, pstat_used. simpl.
  by rewrite !list_lookup_insert_eq by lia.
Qed.

Lemma entry_used_ne i j r ppid name ps :
  i <> j -> entry (pstat_used i r ppid name ps) j = entry ps j.
Proof. intros Hne. unfold entry, pstat_used. simpl. by rewrite !list_lookup_insert_ne. Qed.

Lemma entry_unused_eq i row ps :
  pstat_ok ps -> (i < Z.to_nat NPROC)%nat -> pname ps !! i = Some row ->
  entry (pstat_unused i ps) i
  = (Some 0, Some 0, Some 0, Some (<[0%nat := 0]> row), Some 0, Some 0, Some 0).
Proof.
  intros (? & ? & ? & ? & ? & ? & ? & _) Hi Hrow. unfold entry, pstat_unused. simpl.
  rewrite !list_lookup_insert_eq by lia. by rewrite list_lookup_alter_eq, Hrow.
Qed.

Lemma entry_unused_ne i j ps : i <> j -> entry (pstat_unused i ps) j = entry ps j.
Proof.
  intros Hne. unfold entry, pstat_unused. simpl.
  by rewrite !list_lookup_insert_ne, list_lookup_alter_ne.
Qed.

Lemma pstat_ok_used i r ppid name ps :
  pstat_ok ps -> length name = 16%nat -> pstat_ok (pstat_used i r ppid name ps).
Proof.
  intros (? & ? & ? & ? & ? & ? & ? & Hn) Hl. unfold pstat_ok, pstat_used. simpl.
  rewrite !length_insert. split_and!; try done. by apply Forall_insert.
Qed.

Lemma pstat_ok_unused i ps : pstat_ok ps -> pstat_ok (pstat_unused i ps).
Proof.
  intros (? & ? & ? & ? & ? & ? & ? & Hn). unfold pstat_ok, pstat_unused. simpl.
  rewrite !length_insert, length_alter. split_and!; try done.
  apply Forall_lookup. intros j x Hx. rewrite Forall_lookup in Hn. destruct (decide (i = j)) as [->|].
  - rewrite list_lookup_alter_eq in Hx. destruct (pname ps !! j) as [row|] eqn:E; [|done].
    injection Hx as <-. rewrite length_insert. by eapply Hn.
  - rewrite list_lookup_alter_ne in Hx by done. by eapply Hn.
Qed.

Lemma copy_name_run dst src s :
  length dst = 16%nat -> terminated src ->
  exists l, copy_name dst src s = Ret l s /\ length l = 16%nat /\ terminated l
    /\ cstr l = take 15 (cstr src).
Proof.
  intros Hd Ht. unfold copy_name, safestrcpy. change (16 <=? 0) with false. cbn match.
  destruct (safestrcpy_loop_spec 15 dst src) as (l & E & Hc & Hz & Hl & _); [lia|done|].
  exists l. change (Z.to_nat (16 - 1)) with 15%nat. rewrite E. split_and!; [done|lia| |done].
  rewrite take_ge in Hz by lia. done.
Qed.

Section getpinfo.
Context (d : Z) (s : kstate) (Hread : readable s).

Lemma getpinfo_slot_run s1 i r row ps :
  kok d s1 -> k_procs s1 = k_procs s -> (i < Z.to_nat NPROC)%nat -> k_procs s !! i = Some r ->
  pstat_ok ps -> pname ps !! i = Some row ->
  exists ps' name, getpinfo_slot i ps s1 = Ret ps' (ksync settle s1) /\ pstat_ok ps'
    /\ reports s r row name /\ entry ps' i = reported s r name
    /\ forall j, j <> i -> entry ps' j = entry ps j.
Proof.
  intros Hk Hps Hi Hr Hok Hrow.
  assert (Hr1 : k_procs s1 !! i = Some r) by by rewrite Hps.
  assert (Hn : length row = 16%nat).
  { destruct Hok as (_ & _ & _ & _ & _ & _ & _ & Hn). rewrite Forall_lookup in Hn. by eapply Hn. }
  unfold readable in Hread. rewrite Forall_lookup in Hread. destruct (Hread i r Hr) as [Ht Hpar].
  unfold getpinfo_slot. erewrite bind_Ret by by eapply kok_acquire.
  erewrite bind_Ret by (apply get_proc_run; exact Hr1).
  unfold reports, reported. case_bool_decide as Hst; simpl.
  - exists (pstat_unused i ps), (<[0%nat := 0]> row). split_and!.
    + erewrite bind_Ret by reflexivity. by erewrite bind_Ret by by eapply kok_release.
    + by apply pstat_ok_unused.
    + done.
    + by apply entry_unused_eq.
    + intros j Hj. by apply entry_unused_ne.
  - destruct (copy_name_run row (p_name r) (ksync (acquired (LkProc i)) s1) Hn Ht)
      as (name & En & Hl & Hz & Hc).
    assert (Epp : match p_parent r with
                  | Some q => qr ← get_proc q; ret (p_pid qr)
                  | None => ret 0
                  end (ksync (acquired (LkProc i)) s1) = Ret (ppid_of s r) (ksync (acquired (LkProc i)) s1)).
    { unfold ppid_of. destruct (p_parent r) as [q|] eqn:Eq; [|reflexivity].
      destruct (kok_lookup _ _ q Hk (Hpar q eq_refl)) as [qr Hqr].
      erewrite bind_Ret by (apply get_proc_run; exact Hqr). by rewrite <- Hps, Hqr. }
    exists (pstat_used i r (ppid_of s r) name ps), name. split_and!; try done.
    + erewrite bind_Ret; [|erewrite bind_Ret by exact Epp; rewrite Hrow;
        by erewrite bind_Ret by exact En]. by erewrite bind_Ret by by eapply kok_release.
    + by apply pstat_ok_used.
    + by apply entry_used_eq.
    + intros j Hj. by apply entry_used_ne.
Qed.

Lemma getpinfo_loop_run l s1 ps :
  kok d s1 -> k_procs s1 = k_procs s -> NoDup l -> (forall i, i ∈ l -> (i < Z.to_nat NPROC)%nat) ->
  pstat_ok ps ->
  exists ps' s2, getpinfo_loop l ps s1 = Ret ps' s2 /\ ksync settle s2 = ksync settle s1 /\ pstat_ok ps'
    /\ (forall i, i ∉ l -> entry ps' i = entry ps i)
    /\ (forall i r row, i ∈ l -> k_procs s !! i = Some r -> pname ps !! i = Some row ->
          exists name, reports s r row name /\ entry ps' i = reported s r name).
Proof.
  revert s1 ps. induction l as [|i l IH]; intros s1 ps Hk Hps Hnd Hl Hok.
  - exists ps, s1. split_and!; try done. intros i r row Hi. by apply not_elem_of_nil in Hi.
  - apply NoDup_cons in Hnd as [Hil Hnd]. assert (Hi : (i < Z.to_nat NPROC)%nat) by (apply Hl; by left).
    destruct (kok_lookup _ _ i Hk Hi) as [r Hr]. rewrite Hps in Hr.
    destruct (lookup_lt_is_Some_2 (pname ps) i) as [row Hrow].
    { destruct Hok as (_ & _ & _ & -> & _). done. }
    destruct (getpinfo_slot_run s1 i r row ps Hk Hps Hi Hr Hok Hrow)
      as (ps1 & name & E1 & Hok1 & Hrep & He & Hne).
    destruct (IH (ksync settle s1) ps1) as (ps2 & s2 & E2 & Hs2 & Hok2 & Hout & Hin);
      [auto with xv6|done|done|intros; apply Hl; by right|done|].
    exists ps2, s2. simpl. erewrite bind_Ret by exact E1. split_and!; [exact E2| |done| |].
    + rewrite Hs2. apply ksync_settle_settle.
    + intros j Hj. apply not_elem_of_cons in Hj as [Hji Hjl]. rewrite Hout by done. by apply Hne.
    + intros j rj rowj Hj Hrj Hrowj. rewrite elem_of_cons in Hj.
      destruct (decide (j = i)) as [->|Hji].
      * assert (rj = r) as -> by congruence. assert (rowj = row) as -> by congruence.
        exists name. split; [done|]. by rewrite Hout.
      * destruct Hj as [|Hj]; [done|]. apply (Hin j rj rowj Hj Hrj).
        pose proof (f_equal (fun e => e.1.1.1.2) (Hne j Hji)) as E. simpl in E. congruence.
Qed.
End getpinfo.

(** C33. The loop of [sys_getpinfo()]: for every slot of the process table the entry
    says whether it is used, and if so gives its pid, the pid of its parent or 0, its
    priority, its state, its size cut to 32 bits, and its name up to 15 characters.
    Of the name of an unused slot only the first byte is set: the other 15 bytes are
    those that were on the kernel stack. *)
Theorem getpinfo_spec d s ps :
  kok d s -> readable s -> pstat_ok ps ->
  exists ps' s', getpinfo_loop proc_ids ps s = Ret ps' s' /\ ksync settle s' = ksync settle s
    /\ forall i r row, k_procs s !! i = Some r -> pname ps !! i = Some row ->
         if bool_decide (p_state r = UNUSED)
         then entry ps' i = (Some 0, Some 0, Some 0, Some (<[0%nat := 0]> row), Some 0, Some 0, Some 0)
         else exists name, terminated name /\ cstr name = take 15 (cstr (p_name r))
           /\ entry ps' i = (Some 1, Some (p_pid r), Some (ppid_of s r), Some name,
                Some (priority r), Some (procstate_code (p_state r)), Some (s32 (p_sz r))).
Proof.
  intros Hk Hread Hok.
  destruct (getpinfo_loop_run d s Hread proc_ids s ps Hk eq_refl) as (ps' & s' & E & Hs & _ & _ & Hin).
  - apply NoDup_seq.
  - by intros i ?%elem_of_proc_ids.
  - done.
  - exists ps', s'. split_and!; [done|done|]. intros i r row Hr Hrow.
    destruct (Hin i r row) as (name & Hrep & He); [|done..|].
    + apply elem_of_proc_ids. rewrite <- (kok_procs _ _ Hk). by eapply lookup_lt_Some.
    + unfold reports, reported in *. case_bool_decide; [by rewrite He, Hrep|].
      exists name. by destruct Hrep as (_ & ? & ?).
Qed.

(** ** Witnesses: the state in which the first process runs and the other slots are free *)

Lemma calm_kok : kok 0 calm_state.
Proof. apply calm_state_calm. Qed.

Lemma kkill_spec_witness : exists s', kkill 7 calm_state = Ret (-1) s'.
Proof.
  exists (ksync settle calm_state). rewrite (kkill_spec 0 7 calm_state calm_kok).
  assert (E : list_find (fun r => p_pid r = 7) (k_procs calm_state) = None) by (vm_compute; reflexivity).
  rewrite E. reflexivity.
Defined.

Lemma kill_zero_poisons_witness : exists s', kkill 0 calm_state = Ret 0 s'.
Proof.
  destruct (kill_zero_poisons 0 calm_state 1 proc_zero calm_kok) as (s' & r' & E & _).
  - vm_compute. reflexivity.
  - vm_compute. reflexivity.
  - exists s'. exact E.
Defined.

Lemma wakeup_spec_witness : exists s', wakeup (Some ChTicks) calm_state = Ret tt s'.
Proof.
  destruct (wakeup_spec 0 (Some ChTicks) calm_state calm_kok) as (s' & E & _). exists s'. exact E.
Defined.

Lemma calm_ticks : lock_free LkTicks (k_sync calm_state).
Proof. apply calm_state_free. unfold all_locks. apply elem_of_app. left. set_solver. Qed.

Lemma clockintr_spec_witness : exists s', clockintr calm_state = Ret tt s' /\ k_ticks s' = 1.
Proof.
  destruct (clockintr_spec 0 calm_state hart_zero calm_kok ltac:(lia) calm_ticks eq_refl)
    as (s' & h' & E & T & _). exists s'. split; [exact E|exact T].
Defined.

(** The first process interrupted by the timer, in user mode and in the kernel. *)
Definition timer_hart (b : bool) : hart := hart_zero <| scause := SCAUSE_TIMER |> <| spp := b |>.
Definition timer_proc : proc := proc_zero <| p_pid := 1 |> <| p_state := RUNNING |> <| p_trapframe := 0x80100000 |>.
Definition timer_state (b : bool) : kstate :=
  (ksync (put_hart (timer_hart b)) calm_state) <| k_procs := <[0%nat := timer_proc]> (k_procs calm_state) |>.

Lemma timer_kok b : kok 0 (timer_state b).
Proof.
  apply (kok_ext 0 (ksync (put_hart (timer_hart b)) calm_state)); [|done|apply length_insert].
  apply kok_put_hart; [apply calm_kok|lia].
Qed.

#[local] Instance witness_fuel : Fuel := 5%nat.
#[local] Existing Instance no_device.
#[local] Instance witness_pad : StatPad := [].

Lemma user_ticks_not_counted_witness :
  (exists s1 k, usertrap 5 no_stack (timer_state false) = Swtch ToScheduler s1 k
     /\ timer_ticks_used <$> k_procs s1 !! 0%nat = Some 0)
  /\ exists s1, kerneltrap (timer_state true) = Ret tt s1
     /\ timer_ticks_used <$> k_procs s1 !! 0%nat = Some 1.
Proof.
  split.
  - destruct (user_ticks_not_counted 5 no_stack 0 (timer_state false) (timer_hart false) 0 timer_proc
      (timer_kok false) ltac:(lia) calm_ticks eq_refl eq_refl eq_refl eq_refl eq_refl) as [Hu _].
    destruct Hu as (s1 & k & E & Hp & _); [reflexivity|reflexivity|reflexivity|split; layout; simpl; lia|].
    exists s1, k. split; [exact E|]. rewrite Hp. reflexivity.
  - destruct (user_ticks_not_counted 5 no_stack 0 (timer_state true) (timer_hart true) 0 timer_proc
      (timer_kok true) ltac:(lia) calm_ticks eq_refl eq_refl eq_refl eq_refl eq_refl) as [_ Hu].
    destruct Hu as (s1 & E & Hp & _); [reflexivity|reflexivity|].
    exists s1. split; [exact E|]. rewrite Hp. reflexivity.
Defined.

Definition stack_bytes : pstat :=
  let zs := replicate (Z.to_nat NPROC) 0 in
  Pstat zs zs zs (replicate (Z.to_nat NPROC) (replicate 16 170)) zs zs zs.

Lemma calm_readable : readable calm_state.
Proof.
  unfold readable. apply Forall_insert; [apply Forall_replicate|]; split; try done; left.
Qed.

(** The entry of the free slot 5 ends with 15 bytes of the stack. *)
Lemma getpinfo_spec_witness :
  exists ps s, getpinfo_loop proc_ids stack_bytes calm_state = Ret ps s
    /\ pname ps !! 5%nat = Some (0 :: replicate 15 170).
Proof.
  destruct (getpinfo_spec 0 calm_state stack_bytes calm_kok calm_readable) as (ps & s & E & _ & He).
  - unfold pstat_ok. split_and!; try reflexivity. apply Forall_replicate. reflexivity.
  - exists ps, s. split; [exact E|].
    specialize (He 5%nat proc_zero (replicate 16 170) ltac:(reflexivity) ltac:(reflexivity)).
    simpl in He. injection He as _ _ _ He _ _ _. exact He.
Defined.
