(* ===== verification/PipeSpec.v ===== *)
(** * A pipe is a queue

    [pipewrite()] and [piperead()] of [src/kernel/pipe.c] implement a queue of at most
    [PIPESIZE] bytes: the circular buffer and its two counters, which wrap around at
    32 bits, are related to a list of bytes that is written at one end and read at
    the other. *)

From S2P Require Import Prelude Bytes Params FsTypes Machine Spinlock ProcCore Mem Kalloc Vm PageTable VmMap VmCopy.
From S2P Require Import Pres PresVm Services Proc FsCore Sleeplock Calm Pipe.

(** ** The buffer and the queue *)

(** The pipe [x] holds the bytes [q], oldest first. *)
Record holds (x : pipe) (q : list Z) : Prop := {
  ho_size : length (pi_data x) = Z.to_nat PIPESIZE;
  ho_room : Z.of_nat (length q) <= PIPESIZE;
  ho_read : 0 <= pi_nread x < 2 ^ 32;
  ho_write : pi_nwrite x = u32 (pi_nread x + Z.of_nat (length q));
  ho_data j b : q !! j = Some b ->
    pi_data x !! Z.to_nat ((pi_nread x + Z.of_nat j) mod PIPESIZE) = Some b;
}.

Lemma pipe_mod a : u32 a mod PIPESIZE = a mod PIPESIZE.
Proof.
  unfold u32, PIPESIZE. rewrite <- (Z.mod_mod_divide a (2 ^ 32) 512); [done|]. by exists (2 ^ 23).
Qed.

(** The tests of the code. *)
Lemma holds_full x q :
  holds x q -> (pi_nwrite x =? u32 (pi_nread x + PIPESIZE)) = bool_decide (Z.of_nat (length q) = PIPESIZE).
Proof.
  intros [_ Hr Hn -> _]. unfold u32, PIPESIZE in *. case_bool_decide as E.
  - rewrite E. apply Z.eqb_refl.
  - apply Z.eqb_neq. Z.div_mod_to_equations. lia.
Qed.

Lemma holds_empty x q : holds x q -> (pi_nread x =? pi_nwrite x) = bool_decide (q = []).
Proof.
  intros [_ Hr Hn -> _]. unfold u32, PIPESIZE in *. case_bool_decide as E.
  - subst q. apply Z.eqb_eq. simpl. rewrite Z.add_0_r, Z.mod_small; lia.
  - apply Z.eqb_neq. assert (0 < length q)%nat by (destruct q; [done|simpl; lia]).
    Z.div_mod_to_equations. lia.
Qed.

Lemma holds_push x q ch :
  holds x q -> Z.of_nat (length q) < PIPESIZE -> holds (push_byte ch x) (q ++ [ch]).
Proof.
  intros [Hs Hr Hn Hw Hd] Hlt. assert (Hp : 0 < PIPESIZE) by (unfold PIPESIZE; lia).
  unfold push_byte. split; simpl.
  - by rewrite length_insert.
  - rewrite length_app. simpl. lia.
  - done.
  - rewrite Hw, length_app. simpl. unfold u32. rewrite Zplus_mod_idemp_l. f_equal. lia.
  - intros j b Hj. rewrite Hw, pipe_mod.
    pose proof (Z.mod_pos_bound (pi_nread x + Z.of_nat (length q)) PIPESIZE Hp).
    rewrite list_lookup_insert_if by lia. apply lookup_app_Some in Hj as [Hj|[Hge Hj]].
    + rewrite decide_False; [by apply Hd|]. apply lookup_lt_Some in Hj. intros E.
      apply Z2Nat.inj in E; [|lia|apply Z.mod_pos_bound; lia]. unfold PIPESIZE in *.
      Z.div_mod_to_equations. lia.
    + apply list_lookup_singleton_Some in Hj as [Hj ->]. rewrite decide_True; [done|].
      do 3 f_equal. lia.
Qed.

Lemma holds_pop x b q :
  holds x (b :: q) -> holds (x <| pi_nread := u32 (pi_nread x + 1) |>) q.
Proof.
  intros [Hs Hr Hn Hw Hd]. split; simpl in *.
  - done.
  - lia.
  - apply u32_range.
  - rewrite Hw. unfold u32. rewrite Zplus_mod_idemp_l. f_equal. lia.
  - intros j c Hj. specialize (Hd (S j) c Hj).
    replace ((u32 (pi_nread x + 1) + Z.of_nat j) mod PIPESIZE)
      with ((pi_nread x + Z.of_nat (S j)) mod PIPESIZE); [done|].
    rewrite <- (Zplus_mod_idemp_l (u32 (pi_nread x + 1))), pipe_mod, Zplus_mod_idemp_l. f_equal. lia.
Qed.

Lemma holds_head x b q : holds x (b :: q) -> pi_data x !! Z.to_nat (pi_nread x mod PIPESIZE) = Some b.
Proof. intros H. rewrite <- (Z.add_0_r (pi_nread x)). by apply (ho_data _ _ H 0 b). Qed.

(** ** Bytes written one by one *)

(** Different user addresses are at different places. *)
Lemma upa_inj free T y m va n x x' :
  user_range y T m free va n -> va <= x < va + n -> va <= x' < va + n -> x <> x' ->
  upa T m x <> upa T m x'.
Proof.
  intros Hur Hx Hx' Hne. destruct (decide (x / PGSIZE = x' / PGSIZE)) as [E|E].
  - rewrite (upa_page T m x' x E). lia.
  - by apply (upa_apart free T y m va n).
Qed.

Lemma written_cons free T y m m1 m' va b l :
  user_range y T m free va (Z.of_nat (S (length l))) -> (forall x, pte_of T m1 x = pte_of T m x) ->
  written T m m1 va [b] -> written T m1 m' (va + 1) l -> written T m m' va (b :: l).
Proof.
  intros Hur He [W1 F1] [W2 F2]. assert (Hu : forall x, upa T m1 x = upa T m x) by (intros; by apply upa_ext).
  split.
  - intros [|i] c Hi.
    + injection Hi as <-. rewrite F2; [by apply (W1 0%nat)|]. intros j Hj. rewrite Hu.
      apply (upa_inj free T y m va _ _ _ Hur); lia.
    + replace (va + Z.of_nat (S i)) with (va + 1 + Z.of_nat i) by lia. rewrite <- Hu. by apply W2.
  - intros a Ha. rewrite F2, F1; [done| |].
    + intros i Hi. apply Ha. simpl in *. lia.
    + intros i Hi. rewrite Hu. replace (va + 1 + Z.of_nat i) with (va + Z.of_nat (S i)) by lia.
      apply Ha. simpl. lia.
Qed.

(** ** A process at a pipe *)

(** The process [p] runs in the kernel with the page table [T] and nobody holds the
    lock of the pipe. *)
Record at_pipe (pi : Z) (p : nat) (r : proc) (free : list Z) (T : tabs) (s : kstate) : Prop := {
  ap_kok : kok 0 s;
  ap_settled : settle (k_sync s) = k_sync s;
  ap_lock : lock_free (LkPipe pi) (k_sync s);
  ap_cur : curproc (k_sync s) = Some p;
  ap_proc : k_procs s !! p = Some r;
  ap_alive : p_killed r = 0;
  ap_vm : vm_state 0 s free T;
  ap_root : T !! (2%nat, 0) = Some (p_pagetable r);
}.

(** The processes after [wakeup(chan)]. *)
Definition woken (chan : option chanid) (s : kstate) : list proc :=
  imap (fun p r => if bool_decide (curproc (k_sync s) = Some p) then r else wake chan r) (k_procs s).

Section pipe.
Context `{Fuel} (pi : Z) (p : nat) (r : proc) (free : list Z) (T : tabs) (s : kstate).
Context (Hat : at_pipe pi p r free T s).

Notation s1 := (ksync (acquired (LkPipe pi)) s).

Lemma in_pipe : kok 1 s1 /\ settle (k_sync s1) = k_sync s1 /\ vm_state 1 s1 free T.
Proof using Hat.
  destruct Hat as [[Hs Hd Hl Hp] Hset Hlk _ _ _ [Hf (Hsy & _ & Hkm) Hpt] _].
  assert (Hs1 : sync_at 1 (acquired (LkPipe pi) (k_sync s))) by (apply (acquired_sync_at 0); [done|lia]).
  split_and!.
  - split; [done|lia| |done]. intros i Hi. destruct (Hl i Hi) as [nm Hn]. exists nm. simpl.
    by rewrite acquired_other.
  - by apply (settle_deep 1); [|lia].
  - split; [by destruct Hf|split; [done|]|done]. split; [lia|]. destruct Hkm as [nm Hn]. exists nm. simpl.
    by rewrite acquired_other.
Qed.

(** The state inside, with other memory, processes and pipes. *)
Notation inside m f := (on_fs (s1 <| k_mem := m |>) f).

Lemma proc_lt : (p < Z.to_nat NPROC)%nat.
Proof using Hat.
  rewrite <- (kok_procs 0 s) by apply Hat. eapply lookup_lt_Some. apply Hat.
Qed.

Lemma alive_run m f : killed p (inside m f) = Ret 0 (inside m f).
Proof using Hat.
  destruct in_pipe as (Hk & Hset & _).
  rewrite (killed_run 1 p _ r); [|by destruct Hk as [? ? ? ?]|apply proc_lt|apply Hat].
  rewrite (ap_alive _ _ _ _ _ _ Hat). f_equal. unfold ksync at 1. simpl in *. by rewrite Hset.
Qed.

Lemma my_proc_run m f : get_proc p (inside m f) = Ret r (inside m f).
Proof using Hat. unfold get_proc. simpl. by rewrite (ap_proc _ _ _ _ _ _ Hat). Qed.

Lemma get_pipe_run m f x : fs_pipes f !! pi = Some x -> get_pipe pi (inside m f) = Ret x (inside m f).
Proof using Type. intros Hx. unfold get_pipe, fetch. simpl. by rewrite Hx. Qed.

Definition with_pipe (x : pipe) (f : fsst) : fsst := f <| fs_pipes := <[pi := x]> (fs_pipes f) |>.

Lemma upd_pipe_run m f g x :
  fs_pipes f !! pi = Some x -> upd_pipe pi g (inside m f) = Ret tt (inside m (with_pipe (g x) f)).
Proof using Type. intros Hx. unfold upd_pipe, bind. rewrite (get_pipe_run _ _ _ Hx). done. Qed.

Lemma with_with x y f : with_pipe y (with_pipe x f) = with_pipe y f.
Proof using Type. unfold with_pipe. destruct f. simpl. by rewrite insert_insert_eq. Qed.

(** The end of both functions: waking the other side and leaving. *)
Lemma leave_run m f chan {A} (a : A) :
  (wakeup chan;; release (LkPipe pi);; ret a) (inside m f)
  = Ret a (on_fs (s <| k_procs := woken chan s |> <| k_mem := m |>) f).
Proof using Hat.
  destruct in_pipe as (Hk & Hset & _).
  erewrite bind_Ret by (apply (wakeup_run 1); by destruct Hk as [? ? ? ?]).
  erewrite bind_Ret.
  2:{ apply (can_lock_release 0 (LkPipe pi) (k_sync s)); [split; [apply Hat|]; split; [lia|apply Hat]|].
      unfold ksync at 1. simpl in *. by rewrite Hset. }
  simpl. rewrite (ap_settled _ _ _ _ _ _ Hat). unfold woken. simpl. rewrite curproc_acquired.
  by destruct s.
Qed.

Lemma enter_run {A} (k : nat -> M A) :
  (pr ← myproc_deref; acquire (LkPipe pi);; k pr) s = k p (inside (k_mem s) (k_fs s)).
Proof using Hat.
  erewrite bind_Ret.
  2:{ unfold myproc_deref, bind. rewrite (kok_myproc 0) by apply Hat. simpl.
      rewrite (ap_cur _ _ _ _ _ _ Hat). done. }
  erewrite bind_Ret.
  2:{ apply (can_lock_acquire 0). split; [|split; [lia|]].
      - simpl. rewrite (ap_settled _ _ _ _ _ _ Hat). apply Hat.
      - simpl. rewrite (ap_settled _ _ _ _ _ _ Hat). apply Hat. }
  f_equal. unfold ksync. simpl. rewrite (ap_settled _ _ _ _ _ _ Hat). by destruct s.
Qed.

Lemma vm_inside m f : vm_state 1 (s1 <| k_mem := m |>) free T -> vm_state 1 (inside m f) free T.
Proof using Type. intros [[? ? ? ?] ? ?]. by split. Qed.

Lemma vm_inside_same f : vm_state 1 (inside (k_mem s) f) free T.
Proof using Hat. destruct in_pipe as (_ & _ & Hvm). apply vm_inside. destruct Hvm as [[? ? ? ?] ? ?]. by split. Qed.

(** ** Writing *)

Section write.
Context (addr n : Z) (Hur : user_range (k_syms s) T (k_mem s) free addr n).

Lemma u64_user x : addr <= x < addr + n -> u64 x = x.
Proof using Hur.
  intros Hx. apply u64_small. destruct (ur_page _ _ _ _ _ _ Hur x Hx) as [Hr _ _ _]. revert Hr. layout. lia.
Qed.

Lemma pipewrite_loop_run j k f x q :
  Z.of_nat j <= n -> (j < k)%nat -> fs_pipes f !! pi = Some x -> holds x q -> pi_readopen x <> 0 ->
  Z.of_nat (length q) + Z.of_nat j <= PIPESIZE ->
  exists x', pipewrite_loop k pi p addr (n - Z.of_nat j) n (inside (k_mem s) f)
      = Ret (Some n) (inside (k_mem s) (with_pipe x' f))
    /\ holds x' (q ++ (user_byte T (k_mem s) <$> seqZ (addr + n - Z.of_nat j) (Z.of_nat j)))
    /\ pi_readopen x' = pi_readopen x /\ pi_writeopen x' = pi_writeopen x.
Proof using Hat Hur.
  revert k f x q. induction j as [|j IH]; intros [|k] f x q Hj Hk Hx Hq Hro Hroom; try lia; cbn [pipewrite_loop].
  - rewrite (proj2 (Z.ltb_ge _ _)) by lia. exists x. rewrite Z.sub_0_r. split_and!; try done.
    + unfold with_pipe. rewrite insert_id by done. by destruct f.
    + simpl. by rewrite app_nil_r.
  - rewrite (proj2 (Z.ltb_lt _ _)) by lia. erewrite bind_Ret by by apply get_pipe_run.
    rewrite (proj2 (Z.eqb_neq _ 0)) by done.
    erewrite bind_Ret by (erewrite bind_Ret by apply alive_run; reflexivity). change (truthy 0) with false. cbv iota.
    erewrite bind_Ret by by apply get_pipe_run.
    rewrite (holds_full _ _ Hq), bool_decide_false by lia.
    erewrite bind_Ret by apply my_proc_run. rewrite u64_user by lia.
    erewrite bind_Ret.
    2:{ apply (copyin_run 1 _ free T); [apply Hat|apply vm_inside_same|lia|].
        eapply user_range_sub; [exact Hur|lia|lia]. }
    cbv beta iota. change (0 =? -1) with false. cbv iota.
    replace (addr + (n - Z.of_nat (S j))) with (addr + n - Z.of_nat (S j)) by lia.
    set (b := user_byte T (k_mem s) (addr + n - Z.of_nat (S j))).
    erewrite bind_Ret by reflexivity.
    erewrite bind_Ret by (apply upd_pipe_run; exact Hx).
    replace (n - Z.of_nat (S j) + 1) with (n - Z.of_nat j) by lia.
    destruct (IH k (with_pipe (push_byte b x) f) (push_byte b x) (q ++ [b])) as (x' & E & Hh & Hr & Hw).
    { lia. } { lia. } { apply lookup_insert_eq. } { apply holds_push; [done|lia]. } { done. }
    { rewrite length_app. simpl. lia. }
    exists x'. rewrite with_with in E. split; [exact E|]. split_and!; [|done|done].
    rewrite seqZ_cons by lia. rewrite <- app_assoc in Hh. simpl in Hh |- *. unfold b in Hh.
    replace (Z.succ (addr + n - Z.of_nat (S j))) with (addr + n - Z.of_nat j) by lia.
    replace (Z.pred (Z.of_nat (S j))) with (Z.of_nat j) by lia. exact Hh.
Qed.
End write.

(** C15. pipewrite() puts the bytes of the user's buffer at the end of the pipe's queue, in
    order, returns their number and wakes the readers; nothing else of the kernel
    state changes. The pipe has room for them; its counters may wrap around. *)
Theorem pipewrite_refines addr n x q :
  user_range (k_syms s) T (k_mem s) free addr n -> 0 <= n ->
  fs_pipes (k_fs s) !! pi = Some x -> holds x q -> pi_readopen x <> 0 ->
  Z.of_nat (length q) + n <= PIPESIZE ->
  exists x', pipewrite pi addr n s
      = Ret n (on_fs (s <| k_procs := woken (Some (ChNread pi)) s |>) (with_pipe x' (k_fs s)))
    /\ holds x' (q ++ (user_byte T (k_mem s) <$> seqZ addr n))
    /\ pi_readopen x' = pi_readopen x /\ pi_writeopen x' = pi_writeopen x.
Proof using Hat.
  intros Hur Hn Hx Hq Hro Hroom. unfold pipewrite.
  rewrite (enter_run (fun pr => r ← pipewrite_loop (fuel + Z.to_nat n + 1) pi pr addr 0 n; _)).
  destruct (pipewrite_loop_run addr n Hur (Z.to_nat n) (fuel + Z.to_nat n + 1) (k_fs s) x q)
    as (x' & E & Hh & Hr & Hw); try done; try lia.
  rewrite Z2Nat.id in E, Hh by done. rewrite Z.sub_diag in E. replace (addr + n - n) with addr in Hh by lia.
  erewrite bind_Ret by exact E. exists x'. split; [|done].
  rewrite (leave_run (k_mem s) (with_pipe x' (k_fs s)) (Some (ChNread pi)) n). by destruct s.
Qed.

(** ** Reading *)

Section read.
Context (addr : Z) (len : Z) (Hur : user_range (k_syms s) T (k_mem s) free addr len).
Context (Hwr : forall x, addr <= x < addr + len -> writable T (k_mem s) x = true).

Lemma piperead_loop_run k i m f x q :
  0 <= i -> i + Z.of_nat (length (take k q)) <= len ->
  vm_state 1 (s1 <| k_mem := m |>) free T -> (forall x, pte_of T m x = pte_of T (k_mem s) x) ->
  fs_pipes f !! pi = Some x -> holds x q ->
  exists m' x', piperead_loop k pi p addr i (inside m f)
      = Ret (i + Z.of_nat (length (take k q))) (inside m' (with_pipe x' f))
    /\ holds x' (drop k q) /\ written T m m' (addr + i) (take k q)
    /\ pi_readopen x' = pi_readopen x /\ pi_writeopen x' = pi_writeopen x.
Proof using Hat Hur Hwr.
  revert i m f x q. induction k as [|k IH]; intros i m f x q Hi Hlen Hvm Hpte Hx Hq; cbn [piperead_loop].
  { exists m, x. simpl. rewrite Z.add_0_r. split_and!; try done.
    unfold with_pipe. rewrite insert_id by done. by destruct f. }
  erewrite bind_Ret by by apply get_pipe_run. rewrite (holds_empty _ _ Hq).
  destruct q as [|b q]; cbn [take drop length].
  { rewrite bool_decide_true by done. exists m, x. simpl. rewrite Z.add_0_r. split_and!; try done.
    unfold with_pipe. rewrite insert_id by done. by destruct f. }
  rewrite bool_decide_false by done. simpl in Hlen.
  erewrite bind_Ret by (unfold index; rewrite (proj2 (Z.ltb_ge _ 0)), (holds_head _ _ _ Hq)
    by (apply Z.mod_pos_bound; unfold PIPESIZE; lia); reflexivity).
  erewrite bind_Ret by apply my_proc_run.
  rewrite (u64_user addr len Hur) by lia.
  destruct (copyout_run 1 (p_pagetable r) free T (addr + i) [b] (inside m f)) as (m1 & E & Hw1 & Hvm1 & Hp1).
  { apply Hat. } { by apply vm_inside. }
  { apply (user_range_ext free T _ (k_mem s)); [done|]. eapply user_range_sub; [exact Hur|lia|simpl; lia]. }
  { intros y Hy. unfold writable. simpl k_mem. rewrite Hpte. apply Hwr. simpl in Hy. lia. }
  erewrite bind_Ret by exact E. change (0 =? -1) with false. cbv iota.
  erewrite bind_Ret by (apply (upd_pipe_run m1); exact Hx).
  assert (Hpte1 : forall y, pte_of T m1 y = pte_of T (k_mem s) y) by (intros y; rewrite Hp1; apply Hpte).
  destruct (IH (i + 1) m1 (with_pipe (x <| pi_nread := u32 (pi_nread x + 1) |>) f)
    (x <| pi_nread := u32 (pi_nread x + 1) |>) q) as (m' & x' & E' & Hh & Hw' & Hr & Hwo).
  { lia. } { lia. } { destruct Hvm1 as [[? ? ? ?] ? ?]. by split. } { done. }
  { apply lookup_insert_eq. } { by eapply holds_pop. }
  rewrite with_with in E'. exists m', x'. split_and!.
  - etrans; [exact E'|]. f_equal. lia.
  - done.
  - replace (addr + (i + 1)) with (addr + i + 1) in Hw' by lia.
    eapply (written_cons free T (k_syms s) m m1); [|exact Hp1|exact Hw1|exact Hw'].
    apply (user_range_ext free T _ (k_mem s)); [done|]. eapply user_range_sub; [exact Hur|lia|lia].
  - done.
  - done.
Qed.
End read.

(** C16. piperead() takes the oldest bytes of the pipe's queue, as many as there are and were
    asked for, stores them in order in the user's buffer and nowhere else, returns
    their number (0 at the end of file) and wakes the writers. *)
Theorem piperead_refines addr n x q :
  let got := take (Z.to_nat n) q in
  user_range (k_syms s) T (k_mem s) free addr (Z.of_nat (length got)) ->
  (forall a, addr <= a < addr + Z.of_nat (length got) -> writable T (k_mem s) a = true) ->
  fs_pipes (k_fs s) !! pi = Some x -> holds x q -> q <> [] \/ pi_writeopen x = 0 -> (0 < fuel)%nat ->
  exists m' x', piperead pi addr n s
      = Ret (Z.of_nat (length got)) (on_fs (s <| k_procs := woken (Some (ChNwrite pi)) s |> <| k_mem := m' |>)
                                      (with_pipe x' (k_fs s)))
    /\ holds x' (drop (Z.to_nat n) q) /\ written T (k_mem s) m' addr got
    /\ pi_readopen x' = pi_readopen x /\ pi_writeopen x' = pi_writeopen x.
Proof using Hat.
  intros got Hur Hwr Hx Hq Hready Hf. unfold piperead.
  rewrite (enter_run (fun pr => ready ← wait_data fuel pi pr; _)).
  assert (Ew : wait_data fuel pi p (inside (k_mem s) (k_fs s)) = Ret true (inside (k_mem s) (k_fs s))).
  { destruct fuel as [|k]; [lia|]. cbn [wait_data]. erewrite bind_Ret by by apply get_pipe_run.
    rewrite (holds_empty _ _ Hq). case_bool_decide as Eq; [|done]. destruct Hready as [? | ->]; [done|]. done. }
  erewrite bind_Ret by exact Ew. cbn [negb].
  destruct (piperead_loop_run addr _ Hur Hwr (Z.to_nat n) 0 (k_mem s) (k_fs s) x q)
    as (m' & x' & E & Hh & Hw & Hr & Hwo); try done; try lia.
  { destruct in_pipe as (_ & _ & [[? ? ? ?] ? ?]). by split. }
  rewrite Z.add_0_l in E. rewrite Z.add_0_r in Hw. erewrite bind_Ret by exact E. exists m', x'.
  split; [|done]. apply (leave_run m' (with_pipe x' (k_fs s)) (Some (ChNwrite pi))).
Qed.
End pipe.

(** ** An example: process 0 at a pipe whose counters are about to wrap around *)

Definition pipe_sync : syncst :=
  calm_sync <| s_locks := <[LkPipe 0 := Spinlock 0 "pipe" None]>
    (<[LkKmem := Spinlock 0 "kmem" None]> (s_locks calm_sync)) |>.

Definition pipe_proc : proc :=
  proc_zero <| p_pid := 1 |> <| p_state := RUNNING |> <| p_pagetable := page_root |>.

Definition empty_pipe : pipe := Pipe (replicate 512 0) (2 ^ 32 - 1) (2 ^ 32 - 1) 1 1.

(** The state [s] with that process at the pipe [x]. *)
Definition pipe_state (x : pipe) (s : kstate) : kstate :=
  s <| k_sync := pipe_sync |> <| k_procs := <[0%nat := pipe_proc]> (replicate (Z.to_nat NPROC) proc_zero) |>
    <| k_fs := with_pipe 0 x (k_fs s) |>.

Lemma pipe_state_at x s free T :
  T !! (2%nat, 0) = Some page_root -> vm_state 0 s free T ->
  at_pipe 0 0 pipe_proc free T (pipe_state x s).
Proof.
  intros Hr [[Hf1 Hf2 Hf3 Hf4] _ Hpt].
  destruct calm_state_calm as [[[Hs Hd Hl _] Hset _ _] _].
  assert (Hsy : sync_at 0 pipe_sync).
  { destruct Hs as (h & c & H1 & H2 & H3 & H4). exists h, c. exact (conj H1 (conj H2 (conj H3 H4))). }
  assert (Hkm : lock_free LkKmem pipe_sync).
  { exists "kmem". unfold pipe_sync. cbn [s_locks set_field].
    rewrite lookup_insert_ne by discriminate. apply lookup_insert_eq. }
  split.
  - split; [exact Hsy|lia| |unfold pipe_state; cbn [k_procs set_field]; by rewrite length_insert, length_replicate].
    intros p Hp. destruct (Hl p Hp) as [nm Hn]. exists nm. unfold pipe_state, pipe_sync. cbn [k_sync s_locks set_field].
    rewrite !lookup_insert_ne by discriminate. exact Hn.
  - reflexivity.
  - exists "pipe". unfold pipe_state, pipe_sync. cbn [k_sync s_locks set_field]. apply lookup_insert_eq.
  - reflexivity.
  - reflexivity.
  - reflexivity.
  - split; [split; assumption| |exact Hpt]. split; [exact Hsy|]. split; [lia|exact Hkm].
  - exact Hr.
Qed.

Lemma empty_pipe_holds : holds empty_pipe [].
Proof.
  split; simpl; [reflexivity|unfold PIPESIZE; lia|lia|reflexivity|].
  intros j b Hj. by rewrite lookup_nil in Hj.
Qed.

Lemma pipewrite_refines_witness :
  exists s x', pipewrite (H := 1%nat) 0 0x5ffe 2 (pipe_state empty_pipe s)
      = Ret 2 (on_fs ((pipe_state empty_pipe s) <| k_procs := woken (Some (ChNread 0)) (pipe_state empty_pipe s) |>)
          (with_pipe 0 x' (k_fs (pipe_state empty_pipe s)))).
Proof.
  destruct example_writable as (s & free & T & Hr & Hvm & Hur & Hw). exists s.
  destruct (@pipewrite_refines 1%nat 0 0%nat pipe_proc free T (pipe_state empty_pipe s)
    (pipe_state_at empty_pipe s free T Hr Hvm) 0x5ffe 2 empty_pipe []) as (x' & E & _).
  - exact Hur.
  - lia.
  - apply lookup_insert_eq.
  - exact empty_pipe_holds.
  - discriminate.
  - unfold PIPESIZE. simpl. lia.
  - exists x'. exact E.
Defined.

Definition full_pipe : pipe := push_byte 66 (push_byte 65 empty_pipe).

Lemma piperead_refines_witness :
  exists s m' x', piperead (H := 1%nat) 0 0x5ffe 10 (pipe_state full_pipe s)
      = Ret 2 (on_fs ((pipe_state full_pipe s) <| k_procs := woken (Some (ChNwrite 0)) (pipe_state full_pipe s) |>
                        <| k_mem := m' |>)
          (with_pipe 0 x' (k_fs (pipe_state full_pipe s)))) /\ holds x' [].
Proof.
  destruct example_writable as (s & free & T & Hr & Hvm & Hur & Hw). exists s.
  destruct (@piperead_refines 1%nat 0 0%nat pipe_proc free T (pipe_state full_pipe s)
    (pipe_state_at full_pipe s free T Hr Hvm) 0x5ffe 10 full_pipe [65; 66]) as (m' & x' & E & Hh & _).
  - exact Hur.
  - exact Hw.
  - apply lookup_insert_eq.
  - apply (holds_push _ [65]); [apply (holds_push _ []); [exact empty_pipe_holds|]|]; unfold PIPESIZE; simpl; lia.
  - left. discriminate.
  - unfold fuel; lia.
  - exists m', x'. split; [exact E|exact Hh].
Defined.
