(* ===== verification/User.v ===== *)
(** * User programs: [src/user/user.h] and [src/user/usys.pl]

    A user program is the tree of the system calls it makes: at each call the
    kernel's answer chooses the branch on which the program goes on. The calls are
    the stubs that [usys.pl] generates; a pointer argument is what the kernel reads
    at the pointer, and the answer carries what it stores there. Where a program
    passes or uses an address that it computed itself, the address is explicit. *)

From S2P Require Import Prelude Params FsTypes Kstring.

(** The argument of a call through an address: a machine word, which may be any
    address, a pointer to a string, or to a null-terminated array of pointers. *)
Inductive warg : Type := WInt (v : Z) | WStr (s : list Z) | WArgv (l : list warg).

(** The system calls, with the type of their answers: an [int], or [option] of the
    data stored with [None] for a return value of -1. The answer of [wait] is its
    return value and the exit status, which the caller may ignore. The last three are
    for computed addresses: the call with the number [num] of [syscall.h], and a load
    and a store of [n] bytes, which the machine does not answer when they fault. *)
Inductive ucall : Type -> Type :=
| Ufork : ucall Z
| Uwait : ucall (Z * Z)
| Upipe : ucall (option (Z * Z))
| Uwrite (fd : Z) (buf : list Z) : ucall Z
| Uread (fd n : Z) : ucall (option (list Z))
| Uclose (fd : Z) : ucall Z
| Ukill (pid : Z) : ucall Z
| Uexec (path : list Z) (argv : list (list Z)) : ucall Z
| Uopen (path : list Z) (omode : Z) : ucall Z
| Umknod (path : list Z) (major minor : Z) : ucall Z
| Uunlink (path : list Z) : ucall Z
| Ufstat (fd : Z) : ucall (option stat)
| Ulink (old new : list Z) : ucall Z
| Umkdir (path : list Z) : ucall Z
| Uchdir (path : list Z) : ucall Z
| Udup (fd : Z) : ucall Z
| Ugetpid : ucall Z
| Usbrk (n mode : Z) : ucall Z
| Upause (n : Z) : ucall Z
| Uuptime : ucall Z
| Ugetpinfo : ucall (option pstat)
| Usys (num : Z) (args : list warg) : ucall Z
| Uload (addr n : Z) : ucall Z
| Ustore (addr n v : Z) : ucall unit.

(** A program: it returns, exits, leaves an array, runs out of the bound on the
    turns of a loop, or makes a call and goes on with its answer. *)
Inductive prog (A : Type) : Type :=
| Pret (a : A)
| Pexit (status : Z)
| Pfault
| Pfuel
| Pcall {X : Type} (c : ucall X) (k : X -> prog A).
Arguments Pret {A} a.
Arguments Pexit {A} status.
Arguments Pfault {A}.
Arguments Pfuel {A}.
Arguments Pcall {A X} c k.

Fixpoint pbind {A B : Type} (m : prog A) (f : A -> prog B) : prog B :=
  match m with
  | Pret a => f a
  | Pexit status => Pexit status
  | Pfault => Pfault
  | Pfuel => Pfuel
  | Pcall c k => Pcall c (fun x => pbind (k x) f)
  end.

Declare Scope user_scope.
Delimit Scope user_scope with user.

Notation "x ← y ; z" := (pbind y (fun x => z))
  (at level 20, y at level 100, z at level 200, only parsing) : user_scope.
Notation "' x ← y ; z" := (pbind y (fun x => z))
  (at level 20, x pattern, y at level 100, z at level 200, only parsing) : user_scope.
Notation "y ;; z" := (pbind y (fun _ => z))
  (at level 100, z at level 200, only parsing, right associativity) : user_scope.

Definition call {X : Type} (c : ucall X) : prog X := Pcall c Pret.

(** An access that [None] says is outside its array. *)
Definition inside {A : Type} (x : option A) : prog A :=
  match x with Some a => Pret a | None => Pfault end.

Definition pwhen (b : bool) (m : prog unit) : prog unit := if b then m else Pret tt.

(** [for(...) body] over the elements of a list. *)
Fixpoint pfor {A : Type} (l : list A) (body : A -> prog unit) : prog unit :=
  match l with
  | [] => Pret tt
  | x :: l => pbind (body x) (fun _ => pfor l body)
  end.

(** ** String literals

    The array of a C literal: the escapes of the source, then the NUL. *)
Definition byte_of (a : Ascii.ascii) : Z := Z.of_N (Ascii.N_of_ascii a).

Definition escape (a : Ascii.ascii) : Z :=
  match byte_of a with
  | 110 => 10 | 116 => 9 | 114 => 13 | 118 => 11 | 48 => 0
  | c => c
  end.

Fixpoint chars (s : String.string) : list Z :=
  match s with
  | String.EmptyString => []
  | String.String a s' =>
      match s' with
      | String.String b s'' => if byte_of a =? 92 then escape b :: chars s'' else byte_of a :: chars s'
      | String.EmptyString => [byte_of a]
      end
  end.

Definition lit (s : String.string) : list Z := chars s ++ [0].

(** ** Running a program

    A handler answers the calls from a state of its own; [None] is a call it does
    not answer. *)
Definition handler (W : Type) : Type := forall X : Type, ucall X -> W -> option (X * W).

Inductive uresult (A W : Type) : Type :=
| UReturn (a : A) (w : W)
| UExit (status : Z) (w : W)
| UFault (w : W)
| UFuel (w : W)
| UStuck (w : W).
Arguments UReturn {A W} a w.
Arguments UExit {A W} status w.
Arguments UFault {A W} w.
Arguments UFuel {A W} w.
Arguments UStuck {A W} w.

Fixpoint urun {A W : Type} (h : handler W) (m : prog A) (w : W) : uresult A W :=
  match m with
  | Pret a => UReturn a w
  | Pexit status => UExit status w
  | Pfault => UFault w
  | Pfuel => UFuel w
  | Pcall c k =>
      match h _ c w with
      | Some (x, w') => urun h (k x) w'
      | None => UStuck w
      end
  end.

Definition ubind {A B W : Type} (r : uresult A W) (f : A -> W -> uresult B W) : uresult B W :=
  match r with
  | UReturn a w => f a w
  | UExit status w => UExit status w
  | UFault w => UFault w
  | UFuel w => UFuel w
  | UStuck w => UStuck w
  end.

Lemma urun_bind {A B W} (h : handler W) (m : prog A) (f : A -> prog B) w :
  urun h (pbind m f) w = ubind (urun h m w) (fun a w => urun h (f a) w).
Proof.
  revert w. induction m as [a|z| | |X c k IH]; intros w; try reflexivity. simpl.
  destruct (h _ c w) as [[x w']|]; [apply IH|reflexivity].
Qed.

(** Stepping over the first part of a program that returns. *)
Lemma urun_step {A B W} (h : handler W) (m : prog A) (f : A -> prog B) w a w' :
  urun h m w = UReturn a w' -> urun h (pbind m f) w = urun h (f a) w'.
Proof. intros E. by rewrite urun_bind, E. Qed.

(** The bytes that a call writes to the descriptor [fd]. *)
Definition written {X : Type} (fd : Z) (c : ucall X) : option (list Z) :=
  match c with
  | Uwrite fd' buf => if fd' =? fd then Some buf else None
  | _ => None
  end.

(** Whatever the kernel answers, the program does not leave its arrays nor run out of
    fuel and makes no call other than writes to [fd]; [P] holds of what it has written
    and what it returns, or [E] of its exit status and what it has written. [out] is
    what was written before. *)
Fixpoint reports {A : Type} (fd : Z) (out : list Z) (m : prog A)
    (P : list Z -> A -> Prop) (E : Z -> list Z -> Prop) : Prop :=
  match m with
  | Pret a => P out a
  | Pexit status => E status out
  | Pfault => False
  | Pfuel => False
  | Pcall c k =>
      match written fd c with
      | Some buf => forall x, reports fd (out ++ buf) (k x) P E
      | None => False
      end
  end.

Lemma reports_bind {A B} fd out (m : prog A) (f : A -> prog B) P E :
  reports fd out m (fun out a => reports fd out (f a) P E) E -> reports fd out (pbind m f) P E.
Proof. revert out. induction m; intros out; simpl; auto. case_match; auto. Qed.

Lemma reports_mono {A} fd out (m : prog A) (P Q : list Z -> A -> Prop) E :
  reports fd out m P E -> (forall out a, P out a -> Q out a) -> reports fd out m Q E.
Proof. intros Hm HPQ. revert out Hm. induction m; intros out; simpl in *; auto. case_match; auto. Qed.

(** A program that returns without a word, [P] being what it returns, or exits with
    a status and a message on descriptor 2 that [E] allows. *)
Definition psafe {A : Type} (E : Z -> list Z -> Prop) (m : prog A) (P : A -> Prop) : Prop :=
  reports 2 [] m (fun out a => out = [] /\ P a) E.

Lemma psafe_ret {A} E (a : A) (P : A -> Prop) : P a -> psafe E (Pret a) P.
Proof. by intros HP. Qed.

Lemma psafe_mono {A} E (m : prog A) (P Q : A -> Prop) :
  psafe E m P -> (forall a, P a -> Q a) -> psafe E m Q.
Proof. intros Hm HPQ. eapply reports_mono; [exact Hm|]. intros out a [-> Ha]. auto. Qed.

(** Stepping over a part that is known to be safe. *)
Lemma psafe_step {A B} E (m : prog A) (f : A -> prog B) Q P :
  psafe E m Q -> (forall a, Q a -> psafe E (f a) P) -> psafe E (pbind m f) P.
Proof. intros Hm Hf. apply reports_bind. eapply reports_mono; [exact Hm|]. intros out a [-> Ha]. by apply Hf. Qed.

(** The handler of a program that reads one descriptor and writes others:
    [in_left] is what the descriptor still has to give, cut in the pieces that the
    reads return (a file, a pipe or the console, at whatever pace), and [out_log] the
    writes, oldest first. *)
Record streams : Type := Streams { in_left : list (list Z); out_log : list (Z * list Z) }.

(** A read of at most [n] bytes: the next piece, or its first [n] bytes; nothing
    at the end of the input. *)
Definition take_piece (n : Z) (l : list (list Z)) : list Z * list (list Z) :=
  match l with
  | [] => ([], [])
  | p :: l =>
      if Z.of_nat (length p) <=? n then (p, l)
      else (take (Z.to_nat n) p, drop (Z.to_nat n) p :: l)
  end.

Definition stream_handler (fd : Z) : handler streams :=
  fun X c =>
    match c in ucall X return streams -> option (X * streams) with
    | Uwrite o buf => fun w =>
        Some (Z.of_nat (length buf), Streams (in_left w) (out_log w ++ [(o, buf)]))
    | Uread i n => fun w =>
        if i =? fd then
          let '(p, l) := take_piece n (in_left w) in Some (Some p, Streams l (out_log w))
        else None
    | _ => fun _ => None
    end.

(** A read that has room for a byte returns some of what is left, or nothing when
    nothing is left. *)
Lemma take_piece_cons n p l :
  0 < n -> p <> [] ->
  exists x p', take_piece n (p :: l) = (x, p') /\ x <> [] /\ x ++ mjoin p' = p ++ mjoin l
    /\ Z.of_nat (length x) <= n /\ (Forall (fun y => y <> []) l -> Forall (fun y => y <> []) p').
Proof.
  intros Hn Hp. unfold take_piece. destruct (_ <=? n) eqn:E; bool_to_prop; do 2 eexists.
  - by split_and!.
  - split; [done|]. split_and!.
    + destruct p; [done|]. by destruct (Z.to_nat n) eqn:?; [lia|].
    + change (mjoin (?a :: ?b)) with (a ++ mjoin b). by rewrite app_assoc, take_drop.
    + rewrite length_take. lia.
    + intros Hl. constructor; [|done]. intros Hd%(f_equal length). rewrite length_drop in Hd.
      simpl in Hd. lia.
Qed.
