(* ===== verification/Ulib.v ===== *)
(** * The user library: [src/user/ulib.c] and [src/user/printf.c]

    The string functions, on arrays as in [Kstring] ([None] is an access outside
    an array), the functions that make system calls, and formatted output, one
    [write] per character. *)

From S2P Require Import Prelude Params FsTypes Kstring User.

Open Scope user_scope.

(** ** ulib.c *)

(** [start(argc, argv)] of a program with main function [main]. *)
Definition start (main : prog Z) : prog unit := r ← main; Pexit r.

(** [while(( *s++ = *t++) != 0) ;] *)
Fixpoint strcpy (s t : list Z) : option (list Z) :=
  match s, t with
  | _ :: s, c :: t => if c =? 0 then Some (c :: s) else cons c <$> strcpy s t
  | _, _ => None
  end.

Fixpoint strcmp (p q : list Z) : option Z :=
  match p, q with
  | a :: p, b :: q => if truthy a && (a =? b) then strcmp p q else Some (u8 a - u8 b)
  | _, _ => None
  end.

Fixpoint strlen_loop (n : Z) (s : list Z) : option Z :=
  match s with
  | [] => None
  | c :: s => if truthy c then strlen_loop (s32 (n + 1)) s else Some (u32 n)
  end.
Definition strlen (s : list Z) : option Z := strlen_loop 0 s.

Definition memset (dst : list Z) (c n : Z) : option (list Z) :=
  if n <=? Z.of_nat (length dst)
  then Some (replicate (Z.to_nat n) (u8 c) ++ drop (Z.to_nat n) dst) else None.

(** The offset of the first [c] in the string [s], [None] for a null pointer. *)
Fixpoint strchr (s : list Z) (c : Z) : option (option nat) :=
  match s with
  | [] => None
  | a :: s =>
      if a =? 0 then Some None
      else if a =? c then Some (Some O)
      else option_map (option_map S) (strchr s c)
  end.

(** [buf[i] = c;] *)
Definition set_char (buf : list Z) (i : nat) (c : Z) : option (list Z) :=
  if (i <? length buf)%nat then Some (<[i := c]> buf) else None.

(** The loop of [gets]; [k] is [max - 1 - i]. *)
Fixpoint gets_loop (k : nat) (i : nat) (buf : list Z) : prog (list Z) :=
  match k with
  | O => inside (set_char buf i 0)
  | S k =>
      r ← call (Uread 0 1);
      match r with
      | Some (c :: _) =>
          buf ← inside (set_char buf i c);
          if (c =? 10) || (c =? 13) then inside (set_char buf (S i) 0)
          else gets_loop k (S i) buf
      | _ => inside (set_char buf i 0)
      end
  end.
Definition gets (buf : list Z) (max : Z) : prog (list Z) := gets_loop (Z.to_nat (max - 1)) 0 buf.

(** [open(n, omode)] and the other calls that take a string. *)
Definition uopen (n : list Z) (omode : Z) : prog Z := call (Uopen (cstr n) omode).

Definition ustat (n : list Z) : prog (option stat) :=
  fd ← uopen n O_RDONLY;
  if fd <? 0 then Pret None else
  r ← call (Ufstat fd);
  call (Uclose fd);;
  Pret r.

Fixpoint atoi_loop (n : Z) (s : list Z) : option Z :=
  match s with
  | [] => None
  | c :: s => if (48 <=? c) && (c <=? 57) then atoi_loop (s32 (n * 10 + c - 48)) s else Some n
  end.
Definition atoi (s : list Z) : option Z := atoi_loop 0 s.

(** The two loops of [memmove] in a memory [mem]. *)
Fixpoint copy_up (k : nat) (mem : list Z) (dst src : nat) : option (list Z) :=
  match k with
  | O => Some mem
  | S k =>
      match mem !! src with
      | Some c =>
          match set_char mem dst c with
          | Some mem => copy_up k mem (S dst) (S src)
          | None => None
          end
      | None => None
      end
  end.

Fixpoint copy_down (k : nat) (mem : list Z) (dst src : nat) : option (list Z) :=
  match k with
  | O => Some mem
  | S k =>
      match mem !! (src + k)%nat with
      | Some c =>
          match set_char mem (dst + k) c with
          | Some mem => copy_down k mem dst src
          | None => None
          end
      | None => None
      end
  end.

Definition memmove (mem : list Z) (vdst vsrc : nat) (n : Z) : option (list Z) :=
  if (vdst <? vsrc)%nat then copy_up (Z.to_nat n) mem vdst vsrc
  else copy_down (Z.to_nat n) mem vdst vsrc.

Fixpoint memcmp (p1 p2 : list Z) (n : nat) : option Z :=
  match n with
  | O => Some 0
  | S n =>
      match p1, p2 with
      | a :: p1, b :: p2 => if negb (a =? b) then Some (a - b) else memcmp p1 p2 n
      | _, _ => None
      end
  end.

(** [memcpy(dst, src, n)]: the [uint n] becomes the [int] of [memmove]. *)
Definition memcpy (mem : list Z) (dst src : nat) (n : Z) : option (list Z) :=
  memmove mem dst src (s32 n).

Definition sbrk (n : Z) : prog Z := call (Usbrk n SBRK_EAGER).
Definition sbrklazy (n : Z) : prog Z := call (Usbrk n SBRK_LAZY).

(** ** printf.c *)

(** [digits[d]]: ["0123456789ABCDEF"]. *)
Definition udigit (d : Z) : Z := if d <? 10 then 48 + d else 55 + d.

Definition putc (fd c : Z) : prog unit := call (Uwrite fd [u8 c]);; Pret tt.

(** [do { buf[i++] = digits[x % base]; } while((x /= base) != 0);] in [char buf[20]]. *)
Fixpoint udigits (k : nat) (x base : Z) (buf : list Z) : option (list Z) :=
  match k with
  | O => None
  | S k =>
      if Z.of_nat (length buf) <? 20 then
        let buf := buf ++ [udigit (x mod base)] in
        let x := x / base in
        if negb (x =? 0) then udigits k x base buf else Some buf
      else None
  end.

(** The characters that [printint] writes, in order. *)
Definition uprintint_chars (xx base : Z) (sgn : bool) : option (list Z) :=
  let neg := sgn && (xx <? 0) in
  let x := if neg then u64 (- xx) else u64 xx in
  match udigits 64 x base [] with
  | None => None
  | Some buf =>
      if neg then
        if Z.of_nat (length buf) <? 20 then Some (reverse (buf ++ [45])) else None
      else Some (reverse buf)
  end.

Definition printint (fd xx base : Z) (sgn : bool) : prog unit :=
  l ← inside (uprintint_chars xx base sgn);
  pfor l (putc fd).

Fixpoint printptr_loop (k : nat) (fd x : Z) : prog unit :=
  match k with
  | O => Pret tt
  | S k => putc fd (udigit (Z.shiftr x 60));; printptr_loop k fd (u64 (Z.shiftl x 4))
  end.
Definition printptr (fd x : Z) : prog unit :=
  putc fd 48;; putc fd 120;; printptr_loop 16 fd x.

(** The variable arguments: machine words and C strings or null pointers. *)
Inductive uarg : Type := UInt (v : Z) | UStr (s : option (list Z)).

(** [for(; *s; s++) putc(fd, *s);] *)
Fixpoint uputs (fd : Z) (s : list Z) : prog unit :=
  match s with
  | [] => Pfault
  | c :: s => if c =? 0 then Pret tt else putc fd c;; uputs fd s
  end.

(** The conversion of [c0], [c1] and [c2]: how much it adds to [i], and the
    arguments left. *)
Definition uconversion (fd c0 c1 c2 : Z) (args : list uarg) : prog (nat * list uarg) :=
  let go (n : nat) (pr : Z -> prog unit) : prog (nat * list uarg) :=
    match args with
    | UInt v :: args => pr v;; Pret (n, args)
    | _ => Pfault
    end in
  if c0 =? 100 then go 0%nat (fun v => printint fd (s32 v) 10 true)
  else if (c0 =? 108) && (c1 =? 100) then go 1%nat (fun v => printint fd (s64 v) 10 true)
  else if (c0 =? 108) && (c1 =? 108) && (c2 =? 100) then go 2%nat (fun v => printint fd (s64 v) 10 true)
  else if c0 =? 117 then go 0%nat (fun v => printint fd (u32 v) 10 false)
  else if (c0 =? 108) && (c1 =? 117) then go 1%nat (fun v => printint fd (s64 v) 10 false)
  else if (c0 =? 108) && (c1 =? 108) && (c2 =? 117) then go 2%nat (fun v => printint fd (s64 v) 10 false)
  else if c0 =? 120 then go 0%nat (fun v => printint fd (u32 v) 16 false)
  else if (c0 =? 108) && (c1 =? 120) then go 1%nat (fun v => printint fd (s64 v) 16 false)
  else if (c0 =? 108) && (c1 =? 108) && (c2 =? 120) then go 2%nat (fun v => printint fd (s64 v) 16 false)
  else if c0 =? 112 then go 0%nat (fun v => printptr fd (u64 v))
  else if c0 =? 99 then go 0%nat (putc fd)
  else if c0 =? 115 then
    match args with
    | UStr s :: args => uputs fd (default (lit "(null)") s);; Pret (0%nat, args)
    | _ => Pfault
    end
  else if c0 =? 37 then putc fd 37;; Pret (0%nat, args)
  else putc fd 37;; putc fd c0;; Pret (0%nat, args).

(** The loop of [vprintf] at [fmt + i]; [pct] is [state == '%']. *)
Fixpoint vprintf_loop (k : nat) (fd : Z) (pct : bool) (fmt : list Z) (args : list uarg) : prog unit :=
  match k, fmt with
  | O, _ => Pfuel
  | _, [] => Pfault
  | S k, c :: fmt' =>
      if c =? 0 then Pret tt else
      let c0 := u8 c in
      if negb pct then
        if c0 =? 37 then vprintf_loop k fd true fmt' args
        else putc fd c0;; vprintf_loop k fd false fmt' args
      else
        c1 ← (if truthy c0 then c ← inside (fmt' !! 0%nat); Pret (u8 c) else Pret 0);
        c2 ← (if truthy c1 then c ← inside (fmt' !! 1%nat); Pret (u8 c) else Pret 0);
        ' (n, args) ← uconversion fd c0 c1 c2 args;
        vprintf_loop k fd false (drop n fmt') args
  end.

Definition vprintf (fd : Z) (fmt : list Z) (ap : list uarg) : prog unit :=
  vprintf_loop (S (length fmt)) fd false fmt ap.

Definition fprintf (fd : Z) (fmt : string) (ap : list uarg) : prog unit := vprintf fd (lit fmt) ap.
Definition printf (fmt : string) (ap : list uarg) : prog unit := vprintf 1 (lit fmt) ap.

Close Scope user_scope.

(** ** memmove() copies as if through a buffer *)

(** [mem'] is [mem] with the [k] bytes at [src] copied to [dst]. *)
Definition moved (k dst src : nat) (mem mem' : list Z) : Prop :=
  length mem' = length mem /\
  forall i, mem' !! i =
    if decide (dst <= i < dst + k)%nat then mem !! (src + (i - dst))%nat else mem !! i.

Lemma set_char_Some buf i c : (i < length buf)%nat -> set_char buf i c = Some (<[i := c]> buf).
Proof. intros Hi. unfold set_char. by rewrite (proj2 (Nat.ltb_lt _ _)). Qed.

Lemma copy_up_spec k mem dst src :
  (dst <= src)%nat -> (src + k <= length mem)%nat ->
  exists mem', copy_up k mem dst src = Some mem' /\ moved k dst src mem mem'.
Proof.
  revert mem dst src. induction k as [|k IH]; intros mem dst src Hd Hs; simpl.
  - exists mem. split; [done|]. split; [done|]. intros i. by rewrite decide_False by lia.
  - destruct (lookup_lt_is_Some_2 mem src) as [c Hc]; [lia|]. rewrite Hc, set_char_Some by lia.
    destruct (IH (<[dst := c]> mem) (S dst) (S src)) as (mem' & -> & Hlen & Hi);
      [lia|rewrite length_insert; lia|]. exists mem'. split; [done|].
    split; [by rewrite Hlen, length_insert|]. intros i. rewrite Hi.
    rewrite !list_lookup_insert_if by lia. repeat case_decide; try lia; try done.
    + f_equal. lia.
    + subst. rewrite Nat.sub_diag, Nat.add_0_r. done.
Qed.

Lemma copy_down_spec k mem dst src :
  (src <= dst)%nat -> (dst + k <= length mem)%nat ->
  exists mem', copy_down k mem dst src = Some mem' /\ moved k dst src mem mem'.
Proof.
  revert mem. induction k as [|k IH]; intros mem Hd Hs; simpl.
  - exists mem. split; [done|]. split; [done|]. intros i. by rewrite decide_False by lia.
  - destruct (lookup_lt_is_Some_2 mem (src + k)) as [c Hc]; [lia|]. rewrite Hc, set_char_Some by lia.
    destruct (IH (<[(dst + k)%nat := c]> mem)) as (mem' & -> & Hlen & Hi);
      [done|rewrite length_insert; lia|]. exists mem'. split; [done|].
    split; [by rewrite Hlen, length_insert|]. intros i. rewrite Hi.
    rewrite !list_lookup_insert_if by lia. repeat case_decide; try lia; try done.
    subst. rewrite <- Hc. f_equal. lia.
Qed.

Lemma memmove_moved mem dst src n :
  (dst + Z.to_nat n <= length mem)%nat -> (src + Z.to_nat n <= length mem)%nat ->
  exists mem', memmove mem dst src n = Some mem' /\ moved (Z.to_nat n) dst src mem mem'.
Proof.
  intros Hd Hs. unfold memmove. destruct (dst <? src)%nat eqn:E.
  - apply Nat.ltb_lt in E. apply copy_up_spec; lia.
  - apply Nat.ltb_ge in E. apply copy_down_spec; lia.
Qed.

Lemma moved_splice k dst src mem mem' :
  moved k dst src mem mem' -> (dst + k <= length mem)%nat -> (src + k <= length mem)%nat ->
  mem' = take dst mem ++ take k (drop src mem) ++ drop (dst + k) mem.
Proof.
  intros [Hl Hi] Hd Hs. apply list_eq. intros i. rewrite Hi.
  case_decide as Hc; [rewrite lookup_app_r, lookup_app_l, lookup_take_lt, lookup_drop|];
    rewrite ?length_take, ?length_drop; try lia.
  - f_equal. lia.
  - destruct (decide (i < dst)%nat).
    + by rewrite lookup_app_l, lookup_take_lt by (rewrite ?length_take; lia).
    + rewrite lookup_app_r, lookup_app_r, lookup_drop by (rewrite ?length_take, ?length_drop; lia).
      f_equal. rewrite ?length_take, ?length_drop. lia.
Qed.

(** The two directions of [memmove] agree with a copy through a buffer. *)
Lemma memmove_splice mem dst src n :
  (dst + Z.to_nat n <= length mem)%nat -> (src + Z.to_nat n <= length mem)%nat ->
  memmove mem dst src n
  = Some (take dst mem ++ take (Z.to_nat n) (drop src mem) ++ drop (dst + Z.to_nat n) mem).
Proof.
  intros Hd Hs. destruct (memmove_moved mem dst src n Hd Hs) as (mem' & -> & Hm). f_equal.
  by apply moved_splice.
Qed.
