(* ===== verification/Grep.v ===== *)
(** * grep: [src/user/grep.c]

    The regular expression matcher and the program around it, against the language
    that a pattern denotes and against the lines of the input. *)

From S2P Require Import Prelude Params FsTypes Kstring User Ulib.

Open Scope user_scope.

(** ** The matcher *)

(** The loop of [matchstar(c, re, text)], with [matchhere] at [re]. *)
Fixpoint matchstar (matchhere_re : list Z -> option bool) (c : Z) (text : list Z) : option bool :=
  match matchhere_re text with
  | None => None
  | Some true => Some true
  | Some false =>
      match text with
      | [] => None
      | t :: text => if negb (t =? 0) && ((t =? c) || (c =? 46)) then matchstar matchhere_re c text
                     else Some false
      end
  end.

Fixpoint matchhere (re text : list Z) : option bool :=
  match re with
  | [] => None
  | r0 :: re1 =>
      if r0 =? 0 then Some true else
      match re1 with
      | [] => None
      | r1 :: re2 =>
          if r1 =? 42 then matchstar (matchhere re2) r0 text
          else match text with
          | [] => None
          | t :: text =>
              if (r0 =? 36) && (r1 =? 0) then Some (t =? 0)
              else if negb (t =? 0) && ((r0 =? 46) || (r0 =? t)) then matchhere re1 text
              else Some false
          end
      end
  end.

(** [do { if(matchhere(re, text)) return 1; } while( *text++ != 0);] *)
Fixpoint match_loop (re text : list Z) : option bool :=
  match matchhere re text with
  | None => None
  | Some true => Some true
  | Some false =>
      match text with
      | [] => None
      | t :: text => if t =? 0 then Some false else match_loop re text
      end
  end.

Definition match_ (re text : list Z) : option bool :=
  match re with
  | [] => None
  | r0 :: re1 => if r0 =? 94 then matchhere re1 text else match_loop re text
  end.

(** ** The program *)

Definition GREP_BUF : nat := 1024.

(** [buf[at .. at + n)] *)
Definition slice (at_ n : nat) (buf : list Z) : list Z := take n (drop at_ buf).

(** What [read] stores at [buf + m]. *)
Definition store_at (buf : list Z) (m : nat) (bs : list Z) : option (list Z) :=
  if (m + length bs <=? length buf)%nat
  then Some (take m buf ++ bs ++ drop (m + length bs) buf) else None.

(** [while((q = strchr(p, '\n')) != 0) ...]: the buffer and [p] at the end. *)
Fixpoint grep_lines (k : nat) (pattern buf : list Z) (p : nat) : prog (list Z * nat) :=
  match k with
  | O => Pfuel
  | S k =>
      d ← inside (strchr (drop p buf) 10);
      match d with
      | None => Pret (buf, p)
      | Some d =>
          let q := (p + d)%nat in
          buf ← inside (set_char buf q 0);
          b ← inside (match_ pattern (drop p buf));
          buf ← (if b : bool then
                   buf ← inside (set_char buf q 10);
                   call (Uwrite 1 (slice p (q + 1 - p) buf));;
                   Pret buf
                 else Pret buf);
          grep_lines k pattern buf (q + 1)
      end
  end.

(** [while((n = read(fd, buf+m, sizeof(buf)-m-1)) > 0) ...] *)
Fixpoint grep_loop (k : nat) (pattern : list Z) (fd : Z) (buf : list Z) (m : nat) : prog (list Z) :=
  match k with
  | O => Pfuel
  | S k =>
      r ← call (Uread fd (Z.of_nat GREP_BUF - Z.of_nat m - 1));
      match r with
      | Some (c :: bs) =>
          buf ← inside (store_at buf m (c :: bs));
          let m := (m + length (c :: bs))%nat in
          buf ← inside (set_char buf m 0);
          ' (buf, p) ← grep_lines (S GREP_BUF) pattern buf 0;
          if (0 <? m)%nat then
            let m := (m - p)%nat in
            buf ← inside (memmove buf 0 p (Z.of_nat m));
            grep_loop k pattern fd buf m
          else grep_loop k pattern fd buf m
      | _ => Pret buf
      end
  end.

Definition grep `{Fuel} (pattern : list Z) (fd : Z) (buf : list Z) : prog (list Z) :=
  grep_loop fuel pattern fd buf 0.

(** [for(i = 2; i < argc; i++) ...] *)
Fixpoint grep_files `{Fuel} (pattern : list Z) (files : list (list Z)) (buf : list Z) : prog Z :=
  match files with
  | [] => Pexit 0
  | f :: files =>
      fd ← uopen f O_RDONLY;
      if fd <? 0 then printf "grep: cannot open %s\n" [UStr (Some f)];; Pexit 1 else
      buf ← grep pattern fd buf;
      call (Uclose fd);;
      grep_files pattern files buf
  end.

Definition grep_main `{Fuel} (argv : list (list Z)) : prog Z :=
  let buf := replicate GREP_BUF 0 in
  match argv with
  | _ :: pattern :: files =>
      match files with
      | [] => grep pattern 0 buf;; Pexit 0
      | _ => grep_files pattern files buf
      end
  | _ => fprintf 2 "usage: grep pattern [file ...]\n" [];; Pexit 1
  end.

Close Scope user_scope.

(** ** The language of a pattern *)

(** A character of a pattern matches itself, or anything when it is a dot. *)
Definition accepts (e c : Z) : Prop := e = 46 \/ e = c.

Inductive item : Type := One (e : Z) | Star (e : Z).

(** The items of the characters of a pattern, and whether it ends in [$]. *)
Fixpoint items (re : list Z) : list item * bool :=
  match re with
  | [] => ([], false)
  | r0 :: re1 =>
      match re1 with
      | [] => if r0 =? 36 then ([], true) else ([One r0], false)
      | r1 :: re2 =>
          if r1 =? 42 then let '(l, e) := items re2 in (Star r0 :: l, e)
          else let '(l, e) := items re1 in (One r0 :: l, e)
      end
  end.

(** The strings that a sequence of items denotes. *)
Inductive denotes : list item -> list Z -> Prop :=
| denotes_nil : denotes [] []
| denotes_one e c l s : accepts e c -> denotes l s -> denotes (One e :: l) (c :: s)
| denotes_star e l u s :
    Forall (accepts e) u -> denotes l s -> denotes (Star e :: l) (u ++ s).

(** A pattern holds at the beginning of a text. *)
Definition holds_at (re text : list Z) : Prop :=
  exists u v, text = u ++ v /\ denotes (items re).1 u /\ ((items re).2 = true -> v = []).

(** A pattern is found in a text: at its beginning after [^], somewhere otherwise. *)
Definition somewhere (re text : list Z) : Prop := exists v, v `suffix_of` text /\ holds_at re v.

Definition found (re text : list Z) : Prop :=
  match re with
  | r0 :: re1 => if r0 =? 94 then holds_at re1 text else somewhere re text
  | [] => somewhere re text
  end.

(** The text as the matcher sees it. *)
Definition nul_free (l : list Z) : Prop := Forall (fun c => c <> 0) l.

(** ** The matcher decides the language *)

Lemma nul_free_cons c l : nul_free (c :: l) <-> c <> 0 /\ nul_free l.
Proof. unfold nul_free. by rewrite Forall_cons. Qed.

Lemma holds_nil text : holds_at [] text.
Proof. exists [], text. split_and!; [done|constructor|done]. Qed.

Lemma holds_end text : holds_at [36] text <-> text = [].
Proof.
  split.
  - intros (u & v & -> & Hu & Hv). inversion Hu; subst. by apply Hv.
  - intros ->. exists [], []. split_and!; [done|constructor|done].
Qed.

(** A first item that is not starred. *)
Lemma holds_one r0 re text :
  match re with [] => r0 <> 36 | r1 :: _ => r1 <> 42 end ->
  holds_at (r0 :: re) text <-> exists c t, text = c :: t /\ accepts r0 c /\ holds_at re t.
Proof.
  intros Hre. assert (E : items (r0 :: re) = (One r0 :: (items re).1, (items re).2)).
  { destruct re as [|r1 re]; cbn [items]; apply Z.eqb_neq in Hre as ->; [done|].
    match goal with |- (let '(_, _) := ?x in _) = _ => by destruct x end. }
  unfold holds_at. rewrite E. simpl. split.
  - intros (u & v & -> & Hu & Hv). inversion Hu; subst. simpl. by eauto 10.
  - intros (c & t & -> & Ha & u & v & -> & Hu & Hv). exists (c :: u), v.
    split_and!; [done|by constructor|done].
Qed.

Lemma holds_star r0 re text :
  holds_at (r0 :: 42 :: re) text
  <-> exists u v, text = u ++ v /\ Forall (accepts r0) u /\ holds_at re v.
Proof.
  unfold holds_at. cbn [items Z.eqb Pos.eqb]. destruct (items re) as [l e]. simpl. split.
  - intros (u & v & -> & Hu & Hv). inversion Hu; subst. rewrite <- app_assoc. by eauto 10.
  - intros (u & v & -> & Hu & w & v' & -> & Hw & Hv). exists (u ++ w), v'.
    split_and!; [by rewrite app_assoc|by constructor|done].
Qed.

Lemma accepts_test e c : (e =? 46) || (e =? c) = true <-> accepts e c.
Proof. rewrite orb_true_iff, !Z.eqb_eq. done. Qed.

Lemma matchstar_spec mh (P : list Z -> Prop) c text ts :
  (forall text, nul_free text ->
     exists b, mh (text ++ 0 :: ts) = Some b /\ (b = true <-> P text)) ->
  nul_free text ->
  exists b, matchstar mh c (text ++ 0 :: ts) = Some b
    /\ (b = true <-> exists u v, text = u ++ v /\ Forall (accepts c) u /\ P v).
Proof.
  intros Hmh. induction text as [|t text IH]; intros Hn;
    destruct (Hmh _ Hn) as ([|] & E & Hb); cbn [matchstar app] in *; rewrite E.
  - exists true. split; [done|]. split; [|done]. intros _. exists [], []. naive_solver.
  - exists false. split; [done|]. split; [done|]. intros (u & v & Huv & _ & HP).
    symmetry in Huv. apply app_eq_nil in Huv as [-> ->]. naive_solver.
  - exists true. split; [done|]. split; [|done]. intros _. exists [], (t :: text). naive_solver.
  - apply nul_free_cons in Hn as [Ht Hn]. apply Z.eqb_neq in Ht as ->. cbn [negb andb].
    assert (Hskip : forall u v, t :: text = u ++ v -> P v -> exists u', u = t :: u' /\ text = u' ++ v).
    { intros [|x u] v Huv HP; [|by inversion Huv; eauto]. simpl in Huv. subst v. naive_solver. }
    destruct ((t =? c) || (c =? 46)) eqn:Ea.
    + destruct (IH Hn) as (b & -> & Hb'). exists b. split; [done|]. rewrite Hb'.
      assert (Hac : accepts c t) by (apply accepts_test; rewrite orb_comm, (Z.eqb_sym c t); done).
      split.
      * intros (u & v & -> & Hu & HP). exists (t :: u), v. split_and!; [done|by constructor|done].
      * intros (u & v & Huv & Hu & HP). destruct (Hskip _ _ Huv HP) as (u' & -> & ->).
        apply Forall_cons in Hu as [_ Hu]. by eauto.
    + exists false. split; [done|]. split; [done|]. intros (u & v & Huv & Hu & HP).
      destruct (Hskip _ _ Huv HP) as (u' & -> & ->). apply Forall_cons in Hu as [Hac _].
      apply accepts_test in Hac. rewrite orb_comm, (Z.eqb_sym c t) in Hac. congruence.
Qed.

Lemma matchhere_eq r0 r1 re text :
  r0 <> 0 ->
  matchhere (r0 :: r1 :: re) text =
  if r1 =? 42 then matchstar (matchhere re) r0 text
  else match text with
  | [] => None
  | t :: text =>
      if (r0 =? 36) && (r1 =? 0) then Some (t =? 0)
      else if negb (t =? 0) && ((r0 =? 46) || (r0 =? t)) then matchhere (r1 :: re) text
      else Some false
  end.
Proof. intros H%Z.eqb_neq. cbn [matchhere]. by rewrite H. Qed.

Lemma matchhere_spec n re rs text ts :
  (length re <= n)%nat -> nul_free re -> nul_free text ->
  exists b, matchhere (re ++ 0 :: rs) (text ++ 0 :: ts) = Some b /\ (b = true <-> holds_at re text).
Proof.
  revert re text. induction n as [|n IH]; intros [|r0 re] text Hl Hre Htx; simpl in Hl; try lia;
    try by (exists true; split; [done|]; split; [intros _; apply holds_nil|done]).
  apply nul_free_cons in Hre as [Hr0 Hre].
  assert (Hone : match re with [] => r0 <> 36 | r1 :: _ => r1 <> 42 end ->
    exists b, match text ++ 0 :: ts with
      | [] => None
      | t :: text => if negb (t =? 0) && ((r0 =? 46) || (r0 =? t))
                     then matchhere (re ++ 0 :: rs) text else Some false
      end = Some b /\ (b = true <-> holds_at (r0 :: re) text)).
  { intros Hc. setoid_rewrite (holds_one r0 re text Hc). destruct text as [|t text]; simpl.
    - exists false. split; [done|]. split; [done|]. by intros (c & t & ? & _).
    - apply nul_free_cons in Htx as [Ht Htx]. apply Z.eqb_neq in Ht as ->. cbn [negb andb].
      destruct ((r0 =? 46) || (r0 =? t)) eqn:Ea.
      + destruct (IH re text) as (b & -> & Hb); [lia|done|done|]. exists b. split; [done|].
        rewrite Hb. apply accepts_test in Ea. split; [by eauto|]. by intros (? & ? & [= <- <-] & _ & ?).
      + exists false. split; [done|]. split; [done|]. intros (c & t' & [= <- <-] & Ha & _).
        apply accepts_test in Ha. congruence. }
  destruct re as [|r1 re].
  - cbn [app] in *. rewrite matchhere_eq by done. change (0 =? 42) with false.
    change (0 =? 0) with true. rewrite andb_true_r. destruct (r0 =? 36) eqn:E36; bool_to_prop.
    + subst r0. setoid_rewrite holds_end. destruct text as [|t text]; simpl.
      * by exists true.
      * apply nul_free_cons in Htx as [Ht _]. apply Z.eqb_neq in Ht as ->. by exists false.
    + by apply Hone.
  - apply nul_free_cons in Hre as [Hr1 Hre]. cbn [app] in *.
    rewrite matchhere_eq by done. destruct (r1 =? 42) eqn:E42; bool_to_prop.
    + subst r1. setoid_rewrite holds_star. apply (matchstar_spec _ (holds_at re)); [|done].
      intros text' Htx'. apply IH; [simpl in Hl; lia|done|done].
    + destruct (Hone E42) as (b & E & Hb). exists b. split; [|done]. rewrite <- E.
      apply Z.eqb_neq in Hr1 as ->. rewrite andb_false_r. reflexivity.
Qed.

Lemma match_loop_spec re rs text ts :
  nul_free re -> nul_free text ->
  exists b, match_loop (re ++ 0 :: rs) (text ++ 0 :: ts) = Some b
    /\ (b = true <-> somewhere re text).
Proof.
  intros Hre. induction text as [|t text IH]; intros Hn;
    destruct (matchhere_spec (length re) re rs _ ts (Nat.le_refl _) Hre Hn) as ([|] & E & Hb);
    cbn [match_loop app] in *; rewrite E.
  - exists true. split; [done|]. split; [|done]. intros _. exists []. naive_solver.
  - exists false. split; [done|]. split; [done|]. intros (v & Hv & HP).
    apply suffix_nil_inv in Hv as ->. naive_solver.
  - exists true. split; [done|]. split; [|done]. intros _. exists (t :: text). naive_solver.
  - apply nul_free_cons in Hn as [Ht Hn]. apply Z.eqb_neq in Ht as ->.
    destruct (IH Hn) as (b & -> & Hb'). exists b. split; [done|]. rewrite Hb'. split.
    + intros (v & Hv & HP). exists v. split; [by apply suffix_cons_r|done].
    + intros ([|x v] & Hv & HP); [exists []; by split; [apply suffix_nil|]|].
      apply suffix_cons_inv in Hv as [Hv|Hv]; [rewrite Hv in HP; naive_solver|by exists (x :: v)].
Qed.

Lemma match_correct re rs text ts :
  nul_free re -> nul_free text ->
  exists b, match_ (re ++ 0 :: rs) (text ++ 0 :: ts) = Some b /\ (b = true <-> found re text).
Proof.
  intros Hre Htx. destruct re as [|r0 re]; [by apply (match_loop_spec [])|].
  unfold match_, found. cbn [app]. destruct (r0 =? 94).
  - apply nul_free_cons in Hre as [_ Hre]. by apply (matchhere_spec (length re)).
  - by apply (match_loop_spec (r0 :: re)).
Qed.

(** C22. The matcher of grep never leaves its two strings, terminates on every pattern
    and every text, and answers whether the text contains a string of the language
    that the pattern denotes: from its beginning when the pattern starts with [^] and
    up to its end when it ends in [$]. The search that [matchstar] does character by
    character is complete: it finds a match whenever there is one. *)
Theorem match_decides re rs text ts :
  nul_free re -> nul_free text ->
  exists b, match_ (re ++ 0 :: rs) (text ++ 0 :: ts) = Some b /\ (b = true <-> found re text).
Proof. apply match_correct. Qed.

Lemma match_decides_witness :
  match_ (lit "^a*b.$") (lit "aabc") = Some true /\ found (chars "^a*b.$") (chars "aabc").
Proof.
  destruct (match_decides (chars "^a*b.$") [] (chars "aabc") []) as (b & E & Hb).
  - repeat constructor; discriminate.
  - repeat constructor; discriminate.
  - assert (Hm : match_ (lit "^a*b.$") (lit "aabc") = Some true) by reflexivity.
    split; [exact Hm|]. apply Hb. change (match_ (lit "^a*b.$") (lit "aabc") = Some b) in E.
    congruence.
Defined.

(** ** The lines of the input *)

(** The complete lines of a text, without their newlines, and what follows the last
    newline. *)
Fixpoint split_lines (l : list Z) : list (list Z) * list Z :=
  match l with
  | [] => ([], [])
  | c :: l =>
      let '(ls, r) := split_lines l in
      if c =? 10 then ([] :: ls, r)
      else match ls with
      | [] => ([], c :: r)
      | x :: ls => ((c :: x) :: ls, r)
      end
  end.

(** The lines in which the pattern is found. *)
Inductive selected (re : list Z) : list (list Z) -> list (list Z) -> Prop :=
| selected_nil : selected re [] []
| selected_yes l ls out : found re l -> selected re ls out -> selected re (l :: ls) (l :: out)
| selected_no l ls out : ~ found re l -> selected re ls out -> selected re (l :: ls) out.

Lemma selected_app re l1 l2 o1 o2 :
  selected re l1 o1 -> selected re l2 o2 -> selected re (l1 ++ l2) (o1 ++ o2).
Proof. induction 1; intros; [done|constructor; auto|constructor; auto]. Qed.

Lemma first_newline (text : list Z) :
  10 ∉ text \/ exists x t, text = x ++ 10 :: t /\ 10 ∉ x.
Proof.
  induction text as [|c text IH]; [left; set_solver|]. destruct (decide (c = 10)) as [->|Hc].
  - right. exists [], text. split; [done|set_solver].
  - destruct IH as [IH|(x & t & -> & Hx)]; [left; set_solver|]. right. exists (c :: x), t.
    split; [done|set_solver].
Qed.

Lemma split_lines_none r : 10 ∉ r -> split_lines r = ([], r).
Proof.
  induction r as [|c r IH]; intros Hr; [done|]. simpl. rewrite IH by set_solver.
  rewrite (proj2 (Z.eqb_neq c 10)) by set_solver. done.
Qed.

Lemma split_lines_cons x t :
  10 ∉ x -> split_lines (x ++ 10 :: t) = (x :: (split_lines t).1, (split_lines t).2).
Proof.
  induction x as [|c x IH]; intros Hx; simpl.
  - by destruct (split_lines t).
  - rewrite IH by set_solver. rewrite (proj2 (Z.eqb_neq c 10)) by set_solver. done.
Qed.

Lemma split_lines_app l1 l2 :
  split_lines (l1 ++ l2)
  = ((split_lines l1).1 ++ (split_lines ((split_lines l1).2 ++ l2)).1,
     (split_lines ((split_lines l1).2 ++ l2)).2).
Proof.
  remember (length l1) as n eqn:Hn. revert l1 Hn. induction n as [n IH] using lt_wf_ind.
  intros l1 ->. destruct (first_newline l1) as [H|(x & t & -> & Hx)].
  - rewrite (split_lines_none l1) by done. simpl. by destruct (split_lines (l1 ++ l2)).
  - rewrite <- app_assoc, <- app_comm_cons, !split_lines_cons by done. simpl.
    rewrite (IH (length t)); [done|rewrite length_app; simpl; lia|done].
Qed.

Lemma split_lines_rest l : 10 ∉ (split_lines l).2.
Proof.
  remember (length l) as n eqn:Hn. revert l Hn. induction n as [n IH] using lt_wf_ind.
  intros l ->. destruct (first_newline l) as [H|(x & t & -> & Hx)].
  - by rewrite split_lines_none.
  - rewrite split_lines_cons by done. simpl. eapply IH; [|done]. rewrite length_app. simpl. lia.
Qed.

Lemma strchr_none r post : nul_free r -> 10 ∉ r -> strchr (r ++ 0 :: post) 10 = Some None.
Proof.
  induction r as [|c r IH]; intros Hn Hr; [done|]. apply nul_free_cons in Hn as [Hc Hn]. simpl.
  rewrite (proj2 (Z.eqb_neq c 0)), (proj2 (Z.eqb_neq c 10)) by set_solver.
  rewrite IH; [done|done|set_solver].
Qed.

Lemma strchr_some x t : nul_free x -> 10 ∉ x -> strchr (x ++ 10 :: t) 10 = Some (Some (length x)).
Proof.
  induction x as [|c x IH]; intros Hn Hr; [done|]. apply nul_free_cons in Hn as [Hc Hn]. simpl.
  rewrite (proj2 (Z.eqb_neq c 0)), (proj2 (Z.eqb_neq c 10)) by set_solver.
  rewrite IH; [done|done|set_solver].
Qed.

(** The buffer [pre ++ x ++ c0 :: rest] with the character after [x] changed, and
    what it holds from [p] to that character. *)
Lemma buf_set (pre x rest : list Z) c0 c :
  <[(length pre + length x)%nat := c]> (pre ++ x ++ c0 :: rest) = pre ++ x ++ c :: rest.
Proof. rewrite insert_app_r, insert_app_r_alt, Nat.sub_diag by lia. reflexivity. Qed.

Lemma buf_slice (pre x rest : list Z) c :
  slice (length pre) (length pre + length x + 1 - length pre) (pre ++ x ++ c :: rest) = x ++ [c].
Proof.
  unfold slice. rewrite drop_app_length. replace (_ - _)%nat with (length x + 1)%nat by lia.
  by rewrite take_app_add.
Qed.

(** A line that fits in the buffer with its newline and a NUL. *)
Definition short (l : list Z) : Prop := (length l <= GREP_BUF - 2)%nat.

(** The lines of a text and what follows the last of them are short. *)
Definition short_lines (l : list Z) : Prop :=
  Forall short (split_lines l).1 /\ short (split_lines l).2.

Lemma short_pending r t : 10 ∉ r -> short_lines (r ++ t) -> short r.
Proof.
  unfold short_lines, short. intros Hr [Hl Ht]. destruct (first_newline t) as [H|(x & t' & -> & Hx)].
  - rewrite split_lines_none in Ht by set_solver. cbn [snd] in Ht. rewrite length_app in Ht. lia.
  - rewrite app_assoc, split_lines_cons in Hl by set_solver. cbn [fst] in Hl. apply Forall_cons in Hl as [Hl _].
    rewrite length_app in Hl. lia.
Qed.

Lemma short_lines_app l1 l2 : short_lines (l1 ++ l2) -> short_lines ((split_lines l1).2 ++ l2).
Proof.
  unfold short_lines. rewrite split_lines_app. simpl. rewrite Forall_app. naive_solver.
Qed.

Lemma nul_free_rest l : nul_free l -> nul_free (split_lines l).2.
Proof.
  induction l as [|c l IH]; intros Hn; [done|]. apply nul_free_cons in Hn as [Hc Hn]. simpl.
  destruct (split_lines l) as [[|x ls] r]; destruct (c =? 10); simpl in *; auto.
  apply nul_free_cons. auto.
Qed.

(** What [read] and the NUL after it leave in the buffer. *)
Lemma fill_buffer (r junk x : list Z) :
  (length x < length junk)%nat ->
  store_at (r ++ junk) (length r) x = Some (r ++ x ++ drop (length x) junk)
  /\ set_char (r ++ x ++ drop (length x) junk) (length r + length x) 0
     = Some ([] ++ (r ++ x) ++ 0 :: drop (S (length x)) junk).
Proof.
  intros Hl. unfold store_at. rewrite (proj2 (Nat.leb_le _ _)) by (rewrite length_app; lia).
  rewrite take_app_length, drop_app_add. split; [done|].
  rewrite set_char_Some by (rewrite !length_app, length_drop; lia). f_equal.
  destruct (drop (length x) junk) as [|c j] eqn:E.
  { apply (f_equal length) in E. rewrite length_drop in E. simpl in E. lia. }
  rewrite buf_set. simpl. rewrite <- app_assoc. do 3 f_equal.
  change j with (drop 1 (c :: j)). rewrite <- E, drop_drop. f_equal. lia.
Qed.

Section grep_run.
Context (re rs : list Z) (Hre : nul_free re) (fd : Z).

Definition writes (out : list (list Z)) : list (Z * list Z) := (fun l => (1, l ++ [10])) <$> out.

(** One pass over the buffer: [text] is what it holds from [p] on. *)
Lemma grep_lines_run k pre text post w :
  nul_free text -> (length text < k)%nat ->
  exists pre' out,
    urun (stream_handler fd) (grep_lines k (re ++ 0 :: rs) (pre ++ text ++ 0 :: post) (length pre)) w
    = UReturn (pre' ++ (split_lines text).2 ++ 0 :: post, length pre')
        (Streams (in_left w) (out_log w ++ writes out))
    /\ length pre' = (length pre + length text - length (split_lines text).2)%nat
    /\ (length (split_lines text).2 <= length text)%nat
    /\ selected re (split_lines text).1 out.
Proof using Hre.
  revert pre text w. induction k as [|k IH]; intros pre text w Hn Hk; [lia|]. cbn [grep_lines].
  rewrite drop_app_length. destruct (first_newline text) as [Hno|(x & t & -> & Hx)].
  - rewrite strchr_none, split_lines_none by done. simpl. exists pre, [].
    rewrite app_nil_r. destruct w. split_and!; [done|lia|lia|constructor].
  - apply Forall_app in Hn as [Hnx Hn]. apply nul_free_cons in Hn as [_ Hn].
    rewrite <- (app_assoc x), <- app_comm_cons, strchr_some by done. cbn [inside pbind].
    rewrite set_char_Some by (rewrite !length_app; simpl; lia). cbn [inside pbind].
    rewrite buf_set, drop_app_length.
    destruct (match_correct re rs x (t ++ 0 :: post) Hre Hnx) as (b & -> & Hb). cbn [inside pbind].
    rewrite split_lines_cons by done. cbn [fst snd].
    rewrite length_app in *. simpl in Hk.
    assert (Enext : forall c w out', exists pre' out,
      urun (stream_handler fd) (grep_lines k (re ++ 0 :: rs) (pre ++ x ++ c :: t ++ 0 :: post)
        (length pre + length x + 1)) (Streams (in_left w) (out_log w ++ writes out'))
      = UReturn (pre' ++ (split_lines t).2 ++ 0 :: post, length pre')
          (Streams (in_left w) (out_log w ++ writes (out' ++ out)))
      /\ length pre' = (length pre + (length x + S (length t)) - length (split_lines t).2)%nat
      /\ (length (split_lines t).2 <= length x + S (length t))%nat
      /\ selected re (split_lines t).1 out).
    { intros c w' out'. destruct (IH (pre ++ x ++ [c]) t (Streams (in_left w') (out_log w' ++ writes out')))
        as (pre' & out & E & Hl & Hr & Hsel); [done|lia|]. exists pre', out.
      rewrite <- !app_assoc in E. simpl in E. rewrite !length_app in *. simpl in *.
      rewrite <- Nat.add_assoc, E. unfold writes. rewrite fmap_app, (app_assoc (out_log w')). split; [done|].
      split_and!; [lia|lia|done]. }
    destruct b.
    + rewrite set_char_Some by (rewrite !length_app; simpl; lia).
      cbn [inside pbind urun stream_handler call]. rewrite buf_set, buf_slice.
      destruct (Enext 10 w [x]) as (pre' & out & E & Hl & Hr & Hsel).
      exists pre', (x :: out). split_and!; [exact E|done|done|]. constructor; [by apply Hb|done].
    + destruct (Enext 0 w []) as (pre' & out & E & Hl & Hr & Hsel). exists pre', out.
      unfold writes in E at 1. simpl in E. rewrite app_nil_r in E. destruct w as [il ol]. simpl in E |- *.
      split_and!; [exact E|done|done|]. constructor; [by rewrite <- Hb|done].
Qed.

(** The reads: the buffer begins with the unfinished line [r]. *)
Lemma grep_loop_run k r junk ps log :
  nul_free (r ++ mjoin ps) -> 10 ∉ r -> Forall (fun p => p <> []) ps ->
  short_lines (r ++ mjoin ps) ->
  (length r + length junk = GREP_BUF)%nat -> (length (mjoin ps) < k)%nat ->
  exists buf out,
    urun (stream_handler fd) (grep_loop k (re ++ 0 :: rs) fd (r ++ junk) (length r)) (Streams ps log)
    = UReturn buf (Streams [] (log ++ writes out))
    /\ selected re (split_lines (r ++ mjoin ps)).1 out.
Proof using Hre.
  revert r junk ps log. induction k as [|k IH]; intros r junk ps log Hn Hr Hps Hsh Hlen Hk; [lia|].
  cbn [grep_loop pbind call urun stream_handler]. rewrite Z.eqb_refl. cbn [in_left out_log].
  destruct ps as [|p ps].
  { exists (r ++ junk), []. simpl. rewrite !app_nil_r, split_lines_none by done.
    split; [done|constructor]. }
  pose proof (short_pending _ _ Hr Hsh) as Hsr. unfold short, GREP_BUF in Hsr.
  apply Forall_cons in Hps as [Hp Hps]. change (mjoin (p :: ps)) with (p ++ mjoin ps) in *.
  destruct (take_piece_cons (Z.of_nat GREP_BUF - Z.of_nat (length r) - 1) p ps)
    as (x & ps2 & -> & Hx & Ex & Hlx & Hps2); [unfold GREP_BUF; lia|done|].
  assert (Hlx' : (length x < length junk)%nat) by (unfold GREP_BUF in *; lia).
  destruct (fill_buffer r junk x Hlx') as [E1 E2].
  destruct x as [|c bs]; [done|]. set (xx := c :: bs) in *. rewrite E1. cbn [inside pbind].
  rewrite E2. cbn [inside pbind]. rewrite urun_bind.
  rewrite <- Ex, (app_assoc r xx) in Hn, Hsh |- *. rewrite <- Ex, length_app in Hk.
  pose proof Hn as [Hnx Hns]%Forall_app.
  destruct (grep_lines_run (S GREP_BUF) [] (r ++ xx) (drop (S (length xx)) junk) (Streams ps2 log))
    as (pre' & out & E & Hl & Hl' & Hsel); [done|rewrite length_app; lia|].
  change (length []) with 0%nat in E. rewrite E. clear E.
  cbn [ubind in_left out_log]. rewrite (split_lines_app (r ++ xx)). cbn [fst].
  set (r' := (split_lines (r ++ xx)).2) in *.
  rewrite (proj2 (Nat.ltb_lt _ _)) by (unfold xx; simpl; lia).
  replace (length r + length xx - length pre')%nat with (length r')
    by (rewrite length_app in Hl, Hl'; change (length (@nil Z)) with 0%nat in Hl; lia).
  set (buf := pre' ++ r' ++ 0 :: drop (S (length xx)) junk) in *.
  assert (Hbuf : length buf = GREP_BUF).
  { unfold buf. rewrite !length_app, length_cons, length_drop. rewrite length_app in Hl, Hl'.
    change (length (@nil Z)) with 0%nat in Hl. lia. }
  assert (Hroom : (length pre' + length r' <= length buf)%nat)
    by (unfold buf; rewrite !length_app; lia).
  rewrite memmove_splice by (rewrite Nat2Z.id; lia).
  rewrite Nat2Z.id. cbn [inside pbind].
  replace (take (length r') (drop (length pre') buf)) with r'
    by (unfold buf; by rewrite drop_app_length, take_app_length).
  destruct (IH r' (drop (length r') buf) ps2 (log ++ writes out)) as (buf' & out' & E & Hsel').
  - apply Forall_app. split; [by apply nul_free_rest|done].
  - apply split_lines_rest.
  - by apply Hps2.
  - by apply short_lines_app.
  - rewrite length_drop. lia.
  - unfold xx in Hk. simpl in Hk. lia.
  - exists buf', (out ++ out'). unfold writes in *. rewrite fmap_app, (app_assoc log).
    split; [exact E|]. by apply selected_app.
Qed.
End grep_run.

(** C23. grep prints exactly the lines of its input in which the pattern is found, one
    write each and in order, however the reads cut the input: across the refills of
    its 1024-byte buffer no line is lost, repeated or split. The input has no NUL
    byte and no line of more than 1022 characters, which the loop needs; a last line
    without a newline is not looked at. *)
Theorem grep_prints_matches `{Fuel} re rs fd ps :
  nul_free re -> nul_free (mjoin ps) -> Forall (fun p => p <> []) ps -> short_lines (mjoin ps) ->
  (length (mjoin ps) < fuel)%nat ->
  exists buf out,
    urun (stream_handler fd) (grep (re ++ 0 :: rs) fd (replicate GREP_BUF 0)) (Streams ps [])
    = UReturn buf (Streams [] (writes out))
    /\ selected re (split_lines (mjoin ps)).1 out.
Proof.
  intros Hre Hn Hps Hsh Hf. apply (grep_loop_run re rs Hre fd fuel [] (replicate GREP_BUF 0) ps []);
    [done|set_solver|done|done|by rewrite length_replicate|done].
Qed.

Lemma grep_prints_matches_witness :
  exists buf out,
    urun (stream_handler 3) (@grep 100%nat (lit "b.$") 3 (replicate GREP_BUF 0))
      (Streams [chars "abc\nx"; chars "bd\nbcd\nb"] [])
    = UReturn buf (Streams [] (writes out)) /\ selected (chars "b.$")
        [chars "abc"; chars "xbd"; chars "bcd"] out.
Proof.
  apply (@grep_prints_matches 100%nat (chars "b.$") [] 3 [chars "abc\nx"; chars "bd\nbcd\nb"]).
  - repeat constructor; discriminate.
  - repeat constructor; discriminate.
  - repeat constructor; discriminate.
  - assert (Hb : forall l, (length l <=? GREP_BUF - 2)%nat = true -> short l)
      by (intros l; apply Nat.leb_le).
    unfold short_lines. match goal with |- context [split_lines ?x] =>
      let v := eval vm_compute in (split_lines x) in change (split_lines x) with v end.
    cbn [fst snd]. split; [repeat (apply Forall_cons; split; [by apply Hb|]); by apply Forall_nil|].
    by apply Hb.
  - apply Nat.ltb_lt. reflexivity.
Defined.
