(* ===== verification/Umalloc.v ===== *)
(** * The user heap: [src/user/umalloc.c]

    Kernighan and Ritchie's allocator: a circular list of free blocks in the order of
    their addresses, each block beginning with a header. A pointer is a byte
    address; [cells] holds the headers stored in memory. *)

From S2P Require Import Prelude Params FsTypes User Ulib.

Open Scope user_scope.

(** [union header]: 16 bytes. *)
Record header : Type := Header { h_ptr : Z; h_size : Z }.
#[export] Instance eta_header : Eta header := fun r => Header r.(h_ptr) r.(h_size).

Definition sizeof_header : Z := 16.

(** The headers in memory and the static variable [freep]. *)
Record heap : Type := Heap { cells : gmap Z header; freep : Z }.
#[export] Instance eta_heap : Eta heap := fun r => Heap r.(cells) r.(freep).

Section umalloc.
Context `{Fuel} (base : Z).

(** [*p] and [*p = h]. *)
Definition hdr (s : heap) (p : Z) : prog header := inside (cells s !! p).
Definition set_hdr (s : heap) (p : Z) (h : header) : heap := s <| cells := <[p := h]> (cells s) |>.

(** [p + n] on [Header *]. *)
Definition hplus (p n : Z) : Z := u64 (p + n * sizeof_header).

(** [for(p = freep; !(bp > p && bp < p->s.ptr); p = p->s.ptr) if(...) break;] *)
Fixpoint free_loop (k : nat) (s : heap) (bp p : Z) : prog Z :=
  match k with
  | O => Pfuel
  | S k =>
      h ← hdr s p;
      if (p <? bp) && (bp <? h_ptr h) then Pret p
      else if (h_ptr h <=? p) && ((p <? bp) || (bp <? h_ptr h)) then Pret p
      else free_loop k s bp (h_ptr h)
  end.

Definition free (ap : Z) (s : heap) : prog heap :=
  let bp := hplus ap (-1) in
  p ← free_loop fuel s bp (freep s);
  hbp ← hdr s bp;
  hp ← hdr s p;
  s ← (if hplus bp (h_size hbp) =? h_ptr hp then
         hn ← hdr s (h_ptr hp);
         Pret (set_hdr s bp (Header (h_ptr hn) (u32 (h_size hbp + h_size hn))))
       else Pret (set_hdr s bp (hbp <| h_ptr := h_ptr hp |>)));
  hp ← hdr s p;
  hbp ← hdr s bp;
  let s := if hplus p (h_size hp) =? bp then
             set_hdr s p (Header (h_ptr hbp) (u32 (h_size hp + h_size hbp)))
           else set_hdr s p (hp <| h_ptr := bp |>) in
  Pret (s <| freep := p |>).

(** [SBRK_ERROR] *)
Definition SBRK_ERROR : Z := u64 (-1).

Definition morecore (nu : Z) (s : heap) : prog (Z * heap) :=
  let nu := if nu <? 4096 then 4096 else nu in
  p ← sbrk (s32 (nu * sizeof_header));
  if p =? SBRK_ERROR then Pret (0, s) else
  let old := default (Header 0 0) (cells s !! p) in
  let s := set_hdr s p (old <| h_size := nu |>) in
  s ← free (hplus p 1) s;
  Pret (freep s, s).

(** The loop of [malloc]. *)
Fixpoint malloc_loop (k : nat) (nunits prevp p : Z) (s : heap) : prog (Z * heap) :=
  match k with
  | O => Pfuel
  | S k =>
      h ← hdr s p;
      if nunits <=? h_size h then
        ' (p, s) ← (if h_size h =? nunits then
                      hprev ← hdr s prevp;
                      Pret (p, set_hdr s prevp (hprev <| h_ptr := h_ptr h |>))
                    else
                      let s := set_hdr s p (h <| h_size := u32 (h_size h - nunits) |>) in
                      let p := hplus p (u32 (h_size h - nunits)) in
                      let old := default (Header 0 0) (cells s !! p) in
                      Pret (p, set_hdr s p (old <| h_size := nunits |>)));
        Pret (hplus p 1, s <| freep := prevp |>)
      else
        let next (p : Z) (s : heap) := h ← hdr s p; malloc_loop k nunits p (h_ptr h) s in
        if p =? freep s then
          ' (p, s) ← morecore nunits s;
          if p =? 0 then Pret (0, s) else next p s
        else next p s
  end.

Definition malloc (nbytes : Z) (s : heap) : prog (Z * heap) :=
  let nunits := u32 ((nbytes + sizeof_header - 1) / sizeof_header + 1) in
  let s := if freep s =? 0 then (set_hdr s base (Header base 0)) <| freep := base |> else s in
  let prevp := freep s in
  h ← hdr s prevp;
  malloc_loop fuel nunits prevp (h_ptr h) s.
End umalloc.

Close Scope user_scope.

(** ** The ring of free blocks

    A block is its address and its size in headers. *)
Notation block := (Z * Z)%type.

Definition block_end (b : block) : Z := b.1 + b.2 * sizeof_header.

(** Blocks in the order of their addresses, with a gap between two of them. *)
Fixpoint spaced (l : list block) : Prop :=
  match l with
  | [] => True
  | b :: l => 0 <= b.2 /\ Forall (fun b' => block_end b < b'.1) l /\ spaced l
  end.

(** The address of the first block of [l], or [e]. *)
Definition first_of (e : Z) (l : list block) : Z := match l with b :: _ => b.1 | [] => e end.

(** The headers of the blocks of [l], each pointing to the next one and the last to [e]. *)
Fixpoint linked (c : gmap Z header) (l : list block) (e : Z) : Prop :=
  match l with
  | [] => True
  | b :: l => c !! b.1 = Some (Header (first_of e l) b.2) /\ linked c l e
  end.

(** Two blocks have no byte in common; an address lies in a block of [l]. *)
Definition apart (b b' : block) : Prop := block_end b <= b'.1 \/ block_end b' <= b.1.
Definition covers (l : list block) (u : Z) : Prop := exists b, b ∈ l /\ b.1 <= u < block_end b.

(** The bound on the addresses of the heap, below which sizes fit in a [uint]. *)
Definition HEAPMAX : Z := 2 ^ 36.

Record ring (base : Z) (s : heap) (fl : list block) : Prop := {
  ring_base : exists l, fl = (base, 0) :: l;
  ring_linked : linked (cells s) fl base;
  ring_spaced : spaced fl;
  ring_sizes : Forall (fun b => 1 <= b.2) (tail fl);
  ring_freep : freep s ∈ fl.*1;
  ring_pos : 0 < base;
  ring_max : Forall (fun b => block_end b <= HEAPMAX) fl;
}.

(** [b] joined to the first block of [l] when they touch. *)
Definition join (b : block) (l : list block) : list block :=
  match l with
  | b' :: l' => if block_end b =? b'.1 then (b.1, b.2 + b'.2) :: l' else b :: l
  | [] => [b]
  end.

Lemma spaced_app l1 l2 :
  spaced (l1 ++ l2) <-> spaced l1 /\ spaced l2 /\
    forall b b', b ∈ l1 -> b' ∈ l2 -> block_end b < b'.1.
Proof.
  induction l1 as [|b l1 IH]; simpl; [set_solver|]. rewrite IH, Forall_app, !Forall_forall.
  set_solver.
Qed.

Lemma spaced_nonneg l b : spaced l -> b ∈ l -> 0 <= b.2.
Proof. induction l; simpl; set_solver. Qed.

Lemma linked_app c l1 l2 e :
  linked c (l1 ++ l2) e <-> linked c l1 (first_of e l2) /\ linked c l2 e.
Proof.
  induction l1 as [|b l1 IH]; simpl; [tauto|]. rewrite IH.
  replace (first_of e (l1 ++ l2)) with (first_of (first_of e l2) l1) by by destruct l1. tauto.
Qed.

(** A header written outside the list. *)
Lemma linked_frame c l e p h : p ∉ l.*1 -> linked c l e -> linked (<[p := h]> c) l e.
Proof.
  induction l as [|b l IH]; simpl; [done|]. intros Hp [Hb Hl].
  rewrite lookup_insert_ne by set_solver. split; [done|]. apply IH; [set_solver|done].
Qed.

(** The header of a block of the list. *)
Lemma linked_at c l1 b l2 e :
  linked c (l1 ++ b :: l2) e -> c !! b.1 = Some (Header (first_of e l2) b.2).
Proof. rewrite linked_app. simpl. naive_solver. Qed.

Lemma spaced_not_in l1 b l2 :
  spaced (l1 ++ b :: l2) -> b.1 ∉ l1.*1 /\ b.1 ∉ l2.*1.
Proof.
  rewrite spaced_app. intros (H1 & H2 & H12). simpl in H2. destruct H2 as (Hb & H2 & _).
  rewrite Forall_forall in H2.
  split; intros ((a & z) & Ea & Hin)%list_elem_of_fmap; simpl in Ea; subst.
  - specialize (H12 _ b Hin ltac:(set_solver)). pose proof (spaced_nonneg _ _ H1 Hin).
    unfold block_end, sizeof_header in *. simpl in *. lia.
  - specialize (H2 _ Hin). unfold block_end, sizeof_header in *. simpl in *. lia.
Qed.

(** ** The place of a block in the ring *)

Lemma split_at fl bp base l :
  fl = (base, 0) :: l -> spaced fl -> base < bp -> bp ∉ fl.*1 ->
  exists m1 b m2, fl = m1 ++ b :: m2 /\ b.1 < bp /\ Forall (fun b' => bp < b'.1) m2.
Proof.
  intros -> Hsp Hbp Hnot.
  assert (Hgen : forall l b, spaced (b :: l) -> bp ∉ (b :: l).*1 -> b.1 < bp ->
    exists m1 b' m2, b :: l = m1 ++ b' :: m2 /\ b'.1 < bp /\ Forall (fun b' => bp < b'.1) m2).
  { clear. induction l as [|b2 l IH]; intros b Hsp Hnot Hb.
    - exists [], b, []. by split_and!.
    - destruct (decide (b2.1 < bp)) as [H2|H2].
      + destruct (IH b2) as (m1 & b' & m2 & -> & ? & ?); [apply Hsp|set_solver|done|].
        exists (b :: m1), b', m2. by split_and!.
      + exists [], b, (b2 :: l). split_and!; [done|done|]. destruct Hsp as (_ & _ & H0 & Hf & _).
        assert (bp < b2.1) by (assert (bp <> b2.1) by set_solver; lia).
        constructor; [done|]. eapply Forall_impl; [exact Hf|]. intros x Hx.
        unfold block_end, sizeof_header in *. lia. }
  by apply Hgen.
Qed.

(** Forward from a block before the place to the place. *)
Lemma free_forward k s bp seg b m2 e :
  linked (cells s) (seg ++ b :: m2) e -> spaced (seg ++ b :: m2) ->
  b.1 < bp -> Forall (fun b' => bp < b'.1) m2 -> e <= b.1 ->
  (length seg < k)%nat ->
  free_loop k s bp (first_of b.1 seg) = Pret b.1.
Proof.
  revert k. induction seg as [|x seg IH]; intros [|k] Hl Hs Hb Hm He Hk; simpl in Hk; try lia.
  - destruct Hl as [Hl _]. cbn [free_loop first_of]. unfold hdr. rewrite Hl. cbn [inside pbind h_ptr].
    destruct m2 as [|b2 m2]; simpl.
    + rewrite (proj2 (Z.ltb_lt b.1 bp)), (proj2 (Z.leb_le e b.1)) by done.
      by destruct (bp <? e).
    + apply Forall_cons in Hm as [Hm _].
      by rewrite (proj2 (Z.ltb_lt b.1 bp)), (proj2 (Z.ltb_lt bp b2.1)).
  - destruct Hl as [Hx Hl]. destruct Hs as (H0 & Hf & Hs). cbn [free_loop first_of]. unfold hdr.
    rewrite Hx. cbn [inside pbind h_ptr].
    replace (first_of e (seg ++ b :: m2)) with (first_of b.1 seg) in * by by destruct seg.
    assert (Hn : x.1 < first_of b.1 seg <= b.1).
    { rewrite Forall_app, Forall_cons in Hf. destruct Hf as (Hf1 & Hf2 & _).
      unfold block_end, sizeof_header in *. destruct seg as [|y seg]; simpl; [lia|].
      rewrite Forall_cons in Hf1. destruct Hf1 as [Hf1 _].
      destruct Hs as (Hy0 & Hy & _). rewrite Forall_app, Forall_cons in Hy.
      unfold block_end, sizeof_header in *. lia. }
    rewrite (proj2 (Z.ltb_ge bp (first_of b.1 seg))) by lia. rewrite andb_false_r.
    rewrite (proj2 (Z.leb_gt _ x.1)) by lia. cbn [andb]. apply IH; [done|done|done|done|done|lia].
Qed.

(** From a block after the place around the end of the ring. *)
Lemma free_wrap k s bp l e :
  linked (cells s) l e -> spaced l -> Forall (fun b => bp < b.1) l -> e < bp ->
  free_loop (length l + k) s bp (first_of e l) = free_loop k s bp e.
Proof.
  induction l as [|x l IH]; intros Hl Hs Hb He; [done|]. destruct Hl as [Hx Hl].
  destruct Hs as (H0 & Hf & Hs). apply Forall_cons in Hb as [Hx1 Hb].
  change (length (x :: l) + k)%nat with (S (length l + k)). cbn [free_loop first_of].
  unfold hdr at 1. rewrite Hx. cbn [inside pbind h_ptr].
  rewrite (proj2 (Z.ltb_ge x.1 bp)) by lia. cbn [andb orb].
  assert (Hst : (first_of e l <=? x.1) && (bp <? first_of e l) = false).
  { destruct l as [|y l]; simpl.
    - rewrite (proj2 (Z.ltb_ge bp e)) by lia. apply andb_false_r.
    - apply Forall_cons in Hf as [Hf _]. unfold block_end, sizeof_header in *.
      by rewrite (proj2 (Z.leb_gt _ _)) by lia. }
  rewrite Hst. by apply IH.
Qed.

Lemma free_loop_finds k base s m1 b m2 bp :
  ring base s (m1 ++ b :: m2) -> b.1 < bp -> Forall (fun b' => bp < b'.1) m2 ->
  (length (m1 ++ b :: m2) <= k)%nat -> free_loop k s bp (freep s) = Pret b.1.
Proof.
  intros R Hb Hm Hk. destruct (ring_base _ _ _ R) as [l0 El].
  assert (Hbase : base <= b.1).
  { pose proof (ring_spaced _ _ _ R) as Hs. destruct m1 as [|x m1]; simpl in El; [inversion El; subst; simpl; lia|].
    inversion El; subst x. destruct Hs as (_ & Hf & _). rewrite Forall_app, Forall_cons in Hf.
    unfold block_end, sizeof_header in Hf. simpl in Hf. lia. }
  pose proof (ring_linked _ _ _ R) as Hl. pose proof (ring_spaced _ _ _ R) as Hs.
  pose proof (ring_freep _ _ _ R) as Hfp. rewrite length_app in Hk. simpl in Hk.
  apply list_elem_of_fmap in Hfp as (x & -> & Hx). apply elem_of_app in Hx as [Hx|Hx].
  - apply list_elem_of_split in Hx as (l1 & l2 & ->). rewrite <- app_assoc in Hl, Hs.
    apply linked_app in Hl as [_ Hl]. apply spaced_app in Hs as (_ & Hs & _).
    rewrite length_app in Hk. simpl in Hk.
    apply (free_forward k s bp (x :: l2) b m2 base); try done. simpl. lia.
  - apply elem_of_cons in Hx as [->|Hx].
    + apply linked_app in Hl as [_ Hl]. apply spaced_app in Hs as (_ & Hs & _).
      apply (free_forward k s bp [] b m2 base); try done. simpl. lia.
    + apply list_elem_of_split in Hx as (l1 & l2 & ->). rewrite length_app in Hk. simpl in Hk.
      replace k with (length (x :: l2) + (k - length (x :: l2)))%nat by (simpl; lia).
      rewrite app_comm_cons, app_assoc in Hl, Hs.
      pose proof Hl as [_ Hlx]%linked_app. pose proof Hs as (_ & Hsx & _)%spaced_app.
      apply Forall_app in Hm as [Hm1 Hm2].
      rewrite (free_wrap _ s bp (x :: l2) base) by (done || lia).
      rewrite <- app_assoc, <- app_comm_cons in Hl, Hs.
      replace base with (first_of b.1 m1).
      2:{ destruct m1; simpl in *; by inversion El. }
      apply (free_forward _ s bp m1 b (l1 ++ x :: l2) base); try done; [by apply Forall_app|].
      simpl. lia.
Qed.

(** ** Joining neighbours *)

Lemma covers_cons b l u : covers (b :: l) u <-> b.1 <= u < block_end b \/ covers l u.
Proof. unfold covers. set_solver. Qed.

Lemma covers_app l1 l2 u : covers (l1 ++ l2) u <-> covers l1 u \/ covers l2 u.
Proof. unfold covers. set_solver. Qed.

(** [b] can stand before the blocks of [l]. *)
Definition fits (b : block) (l : list block) : Prop :=
  0 <= b.2 /\ 0 < b.1 /\ Forall (fun b' => block_end b <= b'.1) l /\ spaced l
  /\ Forall (fun b' => 1 <= b'.2) l /\ Forall (fun b' => block_end b' <= HEAPMAX) (b :: l).

Lemma join_spec b l :
  fits b l ->
  exists n l', join b l = (b.1, n) :: l' /\ b.2 <= n /\ l' `suffix_of` l
    /\ spaced ((b.1, n) :: l') /\ Forall (fun b' => 1 <= b'.2) l'
    /\ Forall (fun b' => block_end b' <= HEAPMAX) ((b.1, n) :: l')
    /\ forall u, covers ((b.1, n) :: l') u <-> covers (b :: l) u.
Proof.
  intros (H1 & H0 & Hle & Hs & Hz & Hmax). apply Forall_cons in Hmax as [Hmb Hmax].
  destruct l as [|b' l]; simpl.
  { exists b.2, []. destruct b. simpl in *. split_and!; try done; by repeat constructor. }
  destruct Hs as (Hs0 & Hsf & Hs). apply Forall_cons in Hle as [Hlb Hle].
  apply Forall_cons in Hz as [Hzb Hz]. apply Forall_cons in Hmax as [Hmb' Hmax].
  destruct (Z.eqb_spec (block_end b) b'.1) as [E|E].
  - exists (b.2 + b'.2), l. unfold block_end, sizeof_header in *. simpl. split_and!; try done; try lia.
    + by apply suffix_cons_r.
    + eapply Forall_impl; [exact Hsf|]. simpl. intros. lia.
    + constructor; [simpl; lia|done].
    + intros u. rewrite !covers_cons. unfold block_end, sizeof_header. simpl.
      destruct (decide (u < b'.1)); naive_solver lia.
  - exists b.2, (b' :: l). destruct b as [a n]. simpl in *. unfold block_end, sizeof_header in *. simpl in *.
    split_and!; try done; try lia.
    + constructor; [simpl; lia|]. eapply Forall_impl; [exact Hsf|]. simpl. intros. lia.
    + by constructor.
    + constructor; [simpl; lia|]. by constructor.
Qed.

Lemma hplus_end b : 0 < b.1 -> 0 <= b.2 -> block_end b <= HEAPMAX -> hplus b.1 b.2 = block_end b.
Proof.
  unfold hplus, block_end, HEAPMAX. intros. apply u64_small. unfold sizeof_header in *. lia.
Qed.

(** What [free] writes in the header of the block [b] placed before [l]. *)
Lemma free_join s b l e n l' :
  fits b l -> linked (cells s) l e -> (l = [] -> e < b.1) -> join b l = (b.1, n) :: l' ->
  (if hplus b.1 b.2 =? first_of e l
   then pbind (hdr s (first_of e l)) (fun hn =>
     Pret (set_hdr s b.1 (Header (h_ptr hn) (u32 (b.2 + h_size hn)))))
   else Pret (set_hdr s b.1 (Header (first_of e l) b.2)))
  = Pret (set_hdr s b.1 (Header (first_of e l') n)).
Proof.
  intros (H0 & Hp & Hle & Hs & Hz & Hmax) Hl He Hj. apply Forall_cons in Hmax as [Hmb Hmax].
  rewrite hplus_end by done. destruct b as [a z]. destruct l as [|b' l]; simpl in *.
  - inversion Hj; subst. rewrite (proj2 (Z.eqb_neq _ _)); [done|].
    specialize (He eq_refl). unfold block_end, sizeof_header. simpl. lia.
  - destruct Hl as [Hb' Hl]. destruct (block_end (a, z) =? b'.1) eqn:E; inversion Hj; subst; [|done].
    unfold hdr. rewrite Hb'. cbn [inside pbind h_ptr h_size].
    apply Forall_cons in Hmax as [Hmb' _]. apply Forall_cons in Hz as [Hz _]. bool_to_prop.
    rewrite u32_small; [done|]. unfold block_end, sizeof_header, HEAPMAX in *. simpl in *. lia.
Qed.

Lemma join_linked c b l e n l' :
  join b l = (b.1, n) :: l' -> linked c l e -> b.1 ∉ l.*1 ->
  linked (<[b.1 := Header (first_of e l') n]> c) ((b.1, n) :: l') e.
Proof.
  intros Hj Hl Hb. split; [apply lookup_insert_eq|]. destruct b as [a z]. simpl in *.
  destruct l as [|b' l]; simpl in *.
  - by inversion Hj; subst.
  - destruct (_ =? _); inversion Hj; subst; apply linked_frame; simpl; [set_solver|apply Hl|set_solver|done].
Qed.

(** ** free() *)

Lemma ring_member base s fl b : ring base s fl -> b ∈ fl -> b = (base, 0) \/ (base < b.1 /\ 1 <= b.2).
Proof.
  intros R Hb. destruct (ring_base _ _ _ R) as [l ->]. pose proof (ring_sizes _ _ _ R) as Hz.
  destruct (ring_spaced _ _ _ R) as (_ & Hf & _). simpl in *.
  apply elem_of_cons in Hb as [->|Hb]; [by left|]. rewrite Forall_forall in Hz, Hf.
  right. specialize (Hf _ Hb). unfold block_end in Hf. simpl in Hf. split; [lia|by apply Hz].
Qed.

(** A block that is not in the ring, and where it goes. *)
Lemma free_place base s fl bp n :
  ring base s fl -> base < bp -> 1 <= n -> block_end (bp, n) <= HEAPMAX ->
  Forall (apart (bp, n)) fl ->
  exists m1 b m2, fl = m1 ++ b :: m2 /\ bp ∉ fl.*1 /\ b.1 < bp /\ block_end b <= bp
    /\ Forall (fun b' => bp < b'.1) m2 /\ fits (bp, n) m2.
Proof.
  intros R Hbp Hn Hmax Hap. rewrite Forall_forall in Hap.
  assert (Hnot : bp ∉ fl.*1).
  { intros (b & -> & Hb)%list_elem_of_fmap. specialize (Hap _ Hb).
    destruct (ring_member _ _ _ _ R Hb) as [->|[]]; unfold apart, block_end, sizeof_header in Hap; simpl in *; lia. }
  destruct (ring_base _ _ _ R) as [l0 El].
  destruct (split_at fl bp base l0 El (ring_spaced _ _ _ R) Hbp Hnot) as (m1 & b & m2 & -> & Hb & Hm).
  exists m1, b, m2. pose proof (ring_spaced _ _ _ R) as (_ & (Hb0 & Hbm & Hs2) & _)%spaced_app.
  pose proof (ring_max _ _ _ R) as [_ [_ Hmm]%Forall_cons]%Forall_app.
  pose proof (ring_pos _ _ _ R) as Hpos.
  split_and!; try done.
  - specialize (Hap b ltac:(set_solver)). unfold apart, block_end, sizeof_header in *. simpl in *. lia.
  - unfold fits. simpl. split_and!; try done; try lia.
    + apply Forall_forall. intros b' Hb'. specialize (Hap b' ltac:(set_solver)).
      rewrite Forall_forall in Hm. specialize (Hm _ Hb'). pose proof (spaced_nonneg _ _ Hs2 Hb').
      unfold apart, block_end, sizeof_header in *. simpl in *. lia.
    + apply Forall_forall. intros b' Hb'. rewrite Forall_forall in Hm. specialize (Hm _ Hb').
      destruct (ring_member _ _ _ b' R) as [->|[_ ?]]; [set_solver|simpl in *; lia|done].
    + by constructor.
Qed.

(** The second neighbour: [b] before the block [(bp, n)] already joined to what follows. *)
Lemma fits_before base s m1 b m2 bp n n1 l1 :
  ring base s (m1 ++ b :: m2) -> block_end b <= bp -> base < bp -> fits (bp, n) m2 -> 1 <= n ->
  join (bp, n) m2 = (bp, n1) :: l1 -> fits b ((bp, n1) :: l1) /\ 1 <= n1.
Proof.
  intros R Hb Hbp Hf Hn Hj. destruct (join_spec _ _ Hf) as (n' & l' & E & Hle & [k Hk] & Hs & Hz & Hm & _).
  rewrite Hj in E. inversion E; subst n' l'. simpl in Hle.
  pose proof (ring_spaced _ _ _ R) as (_ & (Hb0 & Hbm & _) & _)%spaced_app.
  pose proof (ring_max _ _ _ R) as [_ [Hmb _]%Forall_cons]%Forall_app. pose proof (ring_pos _ _ _ R).
  split; [|lia]. unfold fits. split_and!; try done.
  - destruct (ring_member _ _ _ b R) as [->|[? _]]; [set_solver|done|lia].
  - constructor; [done|]. rewrite Hk in Hbm. apply Forall_app in Hbm as [_ Hbm].
    eapply Forall_impl; [exact Hbm|]. simpl. lia.
  - constructor; [simpl; lia|done].
  - by constructor.
Qed.

(** The ring with the block in it. *)
Lemma ring_put base s m1 b m2 bp n n1 l1 n2 l2 :
  ring base s (m1 ++ b :: m2) -> b.1 < bp -> block_end b <= bp -> bp ∉ (m1 ++ b :: m2).*1 ->
  base < bp -> fits (bp, n) m2 -> 1 <= n ->
  join (bp, n) m2 = (bp, n1) :: l1 -> join b ((bp, n1) :: l1) = (b.1, n2) :: l2 ->
  ring base (Heap (<[b.1 := Header (first_of base l2) n2]>
                    (<[bp := Header (first_of base l1) n1]> (cells s))) b.1)
    (m1 ++ (b.1, n2) :: l2).
Proof.
  intros R Hlow Hb Hnot Hbp Hf Hn Hj1 Hj2.
  destruct (fits_before _ _ _ _ _ _ _ _ _ R Hb Hbp Hf Hn Hj1) as [Hf2 Hn1].
  destruct (join_spec _ _ Hf) as (n1' & l1' & E1 & _ & [k Hk] & _ & _ & _ & _).
  rewrite Hj1 in E1. inversion E1; subst n1' l1'. clear E1.
  destruct (join_spec _ _ Hf2) as (n2' & l2' & E2 & Hn2 & Hsuf & Hs2 & Hz2 & Hm2 & _).
  rewrite Hj2 in E2. inversion E2; subst n2' l2'. clear E2.
  pose proof (ring_linked _ _ _ R) as [Hl1 [_ Hl2]]%linked_app.
  pose proof (ring_spaced _ _ _ R) as Hsp. pose proof (spaced_not_in _ _ _ Hsp) as [Hb1 Hb2].
  apply spaced_app in Hsp as (Hs1 & (Hb0 & Hbm & _) & H1).
  assert (Hlt : Forall (fun b' => b.1 < b'.1) ((bp, n1) :: l1)).
  { constructor; [done|]. rewrite Hk in Hbm. apply Forall_app in Hbm as [_ Hbm].
    eapply Forall_impl; [exact Hbm|]. unfold block_end, sizeof_header in *. simpl. lia. }
  constructor; simpl.
  - destruct (ring_base _ _ _ R) as [l0 El]. destruct m1 as [|x m1]; simpl in *; inversion El; subst; [|by eauto].
    simpl in Hj2. unfold block_end in Hj2. simpl in Hj2. rewrite (proj2 (Z.eqb_neq _ _)) in Hj2 by lia.
    inversion Hj2; subst. by eauto.
  - apply linked_app. split.
    + simpl. apply linked_frame; [done|]. apply linked_frame; [set_solver|done].
    + apply (join_linked _ b ((bp, n1) :: l1)); [done|apply (join_linked _ (bp, n) m2); [done|done|simpl; set_solver]|].
      intros (b' & Eb & Hb')%list_elem_of_fmap. rewrite Forall_forall in Hlt. specialize (Hlt _ Hb'). lia.
  - apply spaced_app. split_and!; [done|done|]. intros x y Hx Hy.
    specialize (H1 x b Hx ltac:(set_solver)). apply elem_of_cons in Hy as [->|Hy]; [done|].
    destruct Hsuf as [k2 Hk2]. rewrite Hk2 in Hlt. apply Forall_app in Hlt as [_ Hlt].
    rewrite Forall_forall in Hlt. specialize (Hlt _ Hy). lia.
  - pose proof (ring_sizes _ _ _ R) as Hz. destruct m1 as [|x m1]; simpl in *; [done|].
    apply Forall_app in Hz as [Hz1 [Hzb _]%Forall_cons]. apply Forall_app. split; [done|].
    constructor; [simpl; lia|done].
  - rewrite fmap_app. set_solver.
  - apply (ring_pos _ _ _ R).
  - pose proof (ring_max _ _ _ R) as [Hm _]%Forall_app. by apply Forall_app.
Qed.

Section free.
Context `{Fuel}.

(** The code of [free] after its loop. *)
Lemma free_code base s m1 b m2 bp n x n1 l1 n2 l2 :
  ring base s (m1 ++ b :: m2) -> bp ∉ (m1 ++ b :: m2).*1 -> base < bp ->
  cells s !! bp = Some (Header x n) -> fits (bp, n) m2 -> fits b ((bp, n1) :: l1) ->
  join (bp, n) m2 = (bp, n1) :: l1 -> join b ((bp, n1) :: l1) = (b.1, n2) :: l2 ->
  (length (m1 ++ b :: m2) <= fuel)%nat -> b.1 < bp -> Forall (fun b' => bp < b'.1) m2 ->
  block_end (bp, n) <= HEAPMAX ->
  free (bp + sizeof_header) s
  = Pret (Heap (<[b.1 := Header (first_of base l2) n2]>
                 (<[bp := Header (first_of base l1) n1]> (cells s))) b.1).
Proof.
  intros R Hnot Hbp Hc Hfit Hfit2 Hj1 Hj2 Hf Hb Hm Hmax.
  pose proof (ring_linked _ _ _ R) as Hl. apply linked_at in Hl as Hcb.
  apply linked_app in Hl as [_ [_ Hl2]]. unfold free.
  assert (Ebp : hplus (bp + sizeof_header) (-1) = bp).
  { unfold hplus. rewrite u64_small; [lia|]. pose proof (ring_pos _ _ _ R). destruct Hfit as (Hn & _).
    unfold block_end, HEAPMAX, sizeof_header in *. simpl in *. lia. }
  rewrite Ebp, (free_loop_finds _ _ _ _ _ _ _ R Hb Hm Hf). cbn [pbind].
  unfold hdr at 1 2. rewrite Hc, Hcb. cbn [inside pbind h_ptr h_size set_field].
  pose proof (free_join s (bp, n) m2 base n1 l1 Hfit Hl2 (fun _ => Hbp) Hj1) as E1. cbn [fst snd] in E1.
  rewrite E1. cbn [pbind]. set (s1 := set_hdr s bp _).
  assert (Hs1 : cells s1 !! b.1 = cells s !! b.1) by (apply lookup_insert_ne; lia).
  assert (Hs1' : cells s1 !! bp = Some (Header (first_of base l1) n1)) by apply lookup_insert_eq.
  unfold hdr. rewrite Hs1, Hcb, Hs1'. cbn [inside pbind h_ptr h_size].
  assert (Hl1 : linked (cells s1) ((bp, n1) :: l1) base).
  { apply (join_linked _ (bp, n) m2); [done|done|]. simpl. rewrite fmap_app in Hnot. set_solver. }
  pose proof (free_join s1 b _ base n2 l2 Hfit2 Hl1 ltac:(done) Hj2) as E2.
  unfold hdr in E2. cbn [first_of fst] in E2. rewrite Hs1' in E2. cbn [inside pbind h_ptr h_size] in E2.
  destruct (hplus b.1 b.2 =? bp); injection E2 as E2; simpl; do 2 f_equal; exact E2.
Qed.

Lemma free_run base s fl bp n x :
  ring base s fl -> base < bp -> 1 <= n -> block_end (bp, n) <= HEAPMAX ->
  Forall (apart (bp, n)) fl -> cells s !! bp = Some (Header x n) -> (length fl <= fuel)%nat ->
  exists s' fl', free (bp + sizeof_header) s = Pret s' /\ ring base s' fl'
    /\ (length fl' <= S (length fl))%nat
    /\ (forall u, covers fl' u <-> covers ((bp, n) :: fl) u)
    /\ (exists b, b ∈ fl' /\ n <= b.2)
    /\ forall q, q <> base -> ~ covers fl' q -> cells s' !! q = cells s !! q.
Proof.
  intros R Hbp Hn Hmax Hap Hc Hf.
  destruct (free_place _ _ _ _ _ R Hbp Hn Hmax Hap) as (m1 & b & m2 & -> & Hnot & Hb & Hbe & Hm & Hfit).
  destruct (join_spec _ _ Hfit) as (n1 & l1 & Hj1 & Hn1 & Hsf1 & _ & _ & _ & Hcov1).
  destruct (fits_before _ _ _ _ _ _ _ _ _ R Hbe Hbp Hfit Hn Hj1) as [Hfit2 _].
  destruct (join_spec _ _ Hfit2) as (n2 & l2 & Hj2 & Hn2 & Hsf2 & _ & _ & _ & Hcov2).
  eexists _, _. split; [by eapply free_code|]. split; [by eapply ring_put|].
  assert (Hcov : forall u, covers (m1 ++ (b.1, n2) :: l2) u <-> covers ((bp, n) :: m1 ++ b :: m2) u).
  { intros u. rewrite covers_app, Hcov2, !covers_cons, covers_app, covers_cons.
    specialize (Hcov1 u). rewrite !covers_cons in Hcov1. simpl in *. tauto. }
  simpl in Hn1. split_and!.
  - apply suffix_length in Hsf1, Hsf2. rewrite !length_app. simpl in *. lia.
  - exact Hcov.
  - simpl in Hj2. destruct (_ =? _); inversion Hj2; subst.
    + exists (b.1, b.2 + n1). destruct Hfit2 as (Hb0 & _). split; [set_solver|simpl; lia].
    + exists (bp, n1). split; [|done]. destruct b. set_solver.
  - intros q Hq Hncov. simpl. rewrite !lookup_insert_ne; [done|..]; intros <-; apply Hncov.
    + apply Hcov, covers_cons. left. unfold block_end, sizeof_header. simpl. lia.
    + apply covers_app. right. apply covers_cons. left.
      destruct (ring_member _ _ _ b R) as [->|[_ ?]]; [set_solver|simpl in *; lia|].
      unfold block_end, sizeof_header. simpl. lia.
Qed.
End free.

(** ** malloc() *)

(** [q] is in the ring and points to [p]. *)
Definition points (s : heap) (fl : list block) (q p : Z) : Prop :=
  q ∈ fl.*1 /\ exists z, cells s !! q = Some (Header p z).

Lemma points_split base s fl q p z :
  ring base s fl -> points s fl q p -> (p, z) ∈ fl -> 1 <= z ->
  exists m1 zq m2, fl = m1 ++ (q, zq) :: (p, z) :: m2.
Proof.
  intros R [Hq [zz Hc]] Hp Hz. apply list_elem_of_fmap in Hq as ([q' zq] & -> & Hq).
  apply list_elem_of_split in Hq as (m1 & l & ->). pose proof (ring_linked _ _ _ R) as Hl.
  apply linked_at in Hl. simpl in *. rewrite Hl in Hc. injection Hc as Hp' _.
  pose proof (ring_spaced _ _ _ R) as Hs. exists m1, zq.
  assert (Hpl : p ∈ l.*1).
  { destruct l as [|b l]; simpl in *; [|set_solver]. destruct (ring_member _ _ _ _ R Hp) as [E|[? _]].
    - inversion E. lia.
    - simpl in *. lia. }
  destruct l as [|[a za] l]; [set_solver|]. simpl in Hp'. subst a. exists l.
  destruct (decide ((p, z) = (p, za))) as [->|Hne]; [done|exfalso].
  replace (m1 ++ (q', zq) :: (p, za) :: l) with ((m1 ++ [(q', zq)]) ++ (p, za) :: l) in *
    by by rewrite <- app_assoc.
  apply spaced_not_in in Hs as [H1 H2]. simpl in *.
  apply elem_of_app in Hp as [Hp|Hp]; [apply H1|].
  - apply list_elem_of_fmap. by exists (p, z).
  - apply elem_of_cons in Hp as [?|Hp]; [done|]. apply H2, list_elem_of_fmap. by exists (p, z).
Qed.

(** The ring without the block that [q] points to. *)
Lemma ring_unlink base s m1 q zq p z m2 :
  ring base s (m1 ++ (q, zq) :: (p, z) :: m2) ->
  ring base (Heap (<[q := Header (first_of base m2) zq]> (cells s)) q) (m1 ++ (q, zq) :: m2).
Proof.
  intros R. pose proof (ring_linked _ _ _ R) as [Hl1 [_ [_ Hl2]]]%linked_app.
  pose proof (ring_spaced _ _ _ R) as Hs. pose proof (spaced_not_in _ _ _ Hs) as [Hq1 Hq2].
  apply spaced_app in Hs as (Hs1 & (Hz & Hf & _ & _ & Hs2) & H12). constructor; simpl.
  - destruct (ring_base _ _ _ R) as [l0 El]. destruct m1; inversion El; subst; simpl; by eauto.
  - apply linked_app. split; [by apply linked_frame|]. split; [apply lookup_insert_eq|].
    apply linked_frame; [set_solver|done].
  - apply spaced_app. apply Forall_cons in Hf as [_ Hf]. split; [done|].
    split; [by split_and!|]. intros b b' Hb Hb'. apply H12; set_solver.
  - pose proof (ring_sizes _ _ _ R) as Hsz. destruct m1; simpl in *.
    + by apply Forall_cons in Hsz as [_ ?].
    + rewrite Forall_app, !Forall_cons in *. naive_solver.
  - rewrite fmap_app. set_solver.
  - apply (ring_pos _ _ _ R).
  - pose proof (ring_max _ _ _ R) as Hm. rewrite Forall_app, !Forall_cons in *. naive_solver.
Qed.

(** The ring with [n] headers cut off the end of a block. *)
Lemma ring_cut base s m1 q zq p z m2 n h :
  ring base s (m1 ++ (q, zq) :: (p, z) :: m2) -> 1 <= n < z ->
  ring base (Heap (<[p + (z - n) * sizeof_header := h]>
                    (<[p := Header (first_of base m2) (z - n)]> (cells s))) q)
    (m1 ++ (q, zq) :: (p, z - n) :: m2).
Proof.
  intros R Hn. pose proof (ring_linked _ _ _ R) as Hl.
  replace (m1 ++ (q, zq) :: (p, z) :: m2) with ((m1 ++ [(q, zq)]) ++ (p, z) :: m2) in *
    by by rewrite <- app_assoc.
  replace (m1 ++ (q, zq) :: (p, z - n) :: m2) with ((m1 ++ [(q, zq)]) ++ (p, z - n) :: m2)
    by by rewrite <- app_assoc.
  set (l := m1 ++ [(q, zq)]) in *. apply linked_app in Hl as [Hl1 [_ Hl2]].
  pose proof (ring_spaced _ _ _ R) as Hs. pose proof (spaced_not_in _ _ _ Hs) as [Hp1 Hp2].
  apply spaced_app in Hs as (Hs1 & (Hz & Hf & Hs2) & H12).
  assert (Hlow : forall b, b ∈ l -> b.1 < p).
  { intros b Hb. specialize (H12 b (p, z) Hb ltac:(set_solver)). pose proof (spaced_nonneg _ _ Hs1 Hb).
    unfold block_end, sizeof_header in H12. simpl in H12. lia. }
  assert (Hhigh : forall b, b ∈ m2 -> p + z * sizeof_header < b.1) by by apply Forall_forall.
  assert (Hcut : p < p + (z - n) * sizeof_header < p + z * sizeof_header) by (unfold sizeof_header; lia).
  constructor; simpl.
  - destruct (ring_base _ _ _ R) as [l0 El]. destruct l eqn:E; [by destruct m1|].
    simpl in El. inversion El; subst. simpl. by eauto.
  - apply linked_app. split.
    + apply linked_frame; [|by apply linked_frame].
      intros (b & E & Hb)%list_elem_of_fmap. specialize (Hlow _ Hb). lia.
    + apply linked_frame.
      * intros (b & E & Hb)%list_elem_of_fmap. apply elem_of_cons in Hb as [->|Hb]; simpl in *; [lia|].
        specialize (Hhigh _ Hb). lia.
      * split; [apply lookup_insert_eq|]. by apply linked_frame.
  - apply spaced_app. split; [done|]. split.
    + split; [simpl; lia|]. split; [|done]. eapply Forall_impl; [exact Hf|].
      unfold block_end, sizeof_header. simpl. lia.
    + intros b b' Hb Hb'. apply elem_of_cons in Hb' as [->|Hb']; [apply (H12 b (p, z)); set_solver|].
      apply H12; set_solver.
  - pose proof (ring_sizes _ _ _ R) as Hsz. destruct l; simpl in *; [done|].
    rewrite Forall_app, !Forall_cons in *. simpl in *. naive_solver lia.
  - unfold l. rewrite !fmap_app. set_solver.
  - apply (ring_pos _ _ _ R).
  - pose proof (ring_max _ _ _ R) as Hm. rewrite Forall_app, !Forall_cons in *.
    unfold block_end, sizeof_header in *. simpl in *. naive_solver lia.
Qed.

(** What an allocation of [n] headers at [a] does to a ring: the block comes out of
    the free blocks, and only headers of free blocks are written. *)
Record taken (base : Z) (s : heap) (fl : list block) (a n : Z) (s' : heap) (fl' : list block) : Prop := {
  tk_ring : ring base s' fl';
  tk_header : exists x, cells s' !! a = Some (Header x n);
  tk_low : base < a;
  tk_max : block_end (a, n) <= HEAPMAX;
  tk_apart : Forall (apart (a, n)) fl';
  tk_covers : forall u, covers fl u <-> covers ((a, n) :: fl') u;
  tk_end : exists b, b ∈ fl /\ n <= b.2 /\ block_end (a, n) = block_end b;
  tk_length : (length fl' <= length fl)%nat;
  tk_frame : forall r, r <> base -> ~ covers fl r -> cells s' !! r = cells s !! r;
}.

Lemma taken_exact base s m1 q zq p z m2 :
  ring base s (m1 ++ (q, zq) :: (p, z) :: m2) -> 1 <= z ->
  taken base s (m1 ++ (q, zq) :: (p, z) :: m2) p z
    (Heap (<[q := Header (first_of base m2) zq]> (cells s)) q) (m1 ++ (q, zq) :: m2).
Proof.
  intros R Hz. pose proof (ring_linked _ _ _ R) as Hl. pose proof (ring_spaced _ _ _ R) as Hs.
  pose proof (ring_max _ _ _ R) as Hm.
  assert (Hp : base < p).
  { destruct (ring_member _ _ _ (p, z) R) as [E|[? _]]; [set_solver|inversion E; lia|done]. }
  apply linked_app in Hl as [_ [_ [Hcp _]]]. pose proof (spaced_not_in _ _ _ Hs) as [_ Hq].
  apply spaced_app in Hs as (Hs1 & (Hzq & Hf & Hz0 & Hf2 & Hs2) & H12). simpl in *.
  apply Forall_cons in Hf as [Hqp Hf]. constructor.
  - by eapply ring_unlink.
  - simpl. rewrite lookup_insert_ne by set_solver. by eauto.
  - done.
  - rewrite Forall_app, !Forall_cons in Hm. naive_solver.
  - rewrite Forall_app, Forall_cons. split_and!.
    + apply Forall_forall. intros b Hb. right. apply Z.lt_le_incl, (H12 b (p, z)); set_solver.
    + right. apply Z.lt_le_incl. done.
    + eapply Forall_impl; [exact Hf2|]. intros b Hb. left. by apply Z.lt_le_incl.
  - intros u. rewrite covers_app, !covers_cons, covers_app, covers_cons. tauto.
  - exists (p, z). split_and!; [set_solver|simpl; lia|done].
  - rewrite !length_app. simpl. lia.
  - intros r Hr Hncov. simpl. rewrite lookup_insert_ne; [done|]. intros <-.
    destruct (ring_member _ _ _ (q, zq) R) as [E|[_ Hq1]]; [set_solver|by inversion E|].
    apply Hncov, covers_app. right. apply covers_cons. left. unfold block_end, sizeof_header. simpl in *. lia.
Qed.

Lemma taken_cut base s m1 q zq p z m2 n h :
  ring base s (m1 ++ (q, zq) :: (p, z) :: m2) -> 1 <= n < z -> h_size h = n ->
  taken base s (m1 ++ (q, zq) :: (p, z) :: m2) (p + (z - n) * sizeof_header) n
    (Heap (<[p + (z - n) * sizeof_header := h]>
            (<[p := Header (first_of base m2) (z - n)]> (cells s))) q)
    (m1 ++ (q, zq) :: (p, z - n) :: m2).
Proof.
  intros R Hn Hh. pose proof (ring_spaced _ _ _ R) as Hs. pose proof (ring_max _ _ _ R) as Hm.
  assert (Hp : base < p).
  { destruct (ring_member _ _ _ (p, z) R) as [E|[? _]]; [set_solver|inversion E; lia|done]. }
  assert (Hend : block_end (p + (z - n) * sizeof_header, n) = block_end (p, z))
    by (unfold block_end, sizeof_header; simpl; lia).
  apply spaced_app in Hs as (Hs1 & (Hzq & Hf & Hz0 & Hf2 & Hs2) & H12). simpl in *.
  apply Forall_cons in Hf as [Hqp Hf]. constructor.
  - by apply ring_cut.
  - simpl. rewrite lookup_insert_eq. destruct h. simpl in *. subst. by eauto.
  - unfold sizeof_header. lia.
  - rewrite Hend. rewrite Forall_app, !Forall_cons in Hm. naive_solver.
  - rewrite Forall_app, !Forall_cons. split_and!.
    + apply Forall_forall. intros b Hb. right. specialize (H12 b (p, z) Hb ltac:(set_solver)).
      unfold sizeof_header. simpl in *. lia.
    + right. unfold sizeof_header. simpl in *. lia.
    + right. unfold block_end. simpl. lia.
    + eapply Forall_impl; [exact Hf2|]. intros b Hb. left. rewrite Hend. by apply Z.lt_le_incl.
  - intros u. rewrite covers_app, !covers_cons, covers_app, !covers_cons, Hend.
    assert (Hsplit : p <= u < block_end (p, z)
      <-> p <= u < block_end (p, z - n) \/ p + (z - n) * sizeof_header <= u < block_end (p, z))
      by (unfold block_end, sizeof_header; simpl; lia).
    simpl in *. tauto.
  - exists (p, z). split_and!; [set_solver|simpl; lia|done].
  - rewrite !length_app. simpl. lia.
  - intros r Hr Hncov. simpl. rewrite !lookup_insert_ne; [done|..]; intros <-; apply Hncov, covers_app;
      right; rewrite !covers_cons; right; left; unfold block_end, sizeof_header; simpl; lia.
Qed.

(** The blocks after [freep] in the order in which [malloc] looks at them, [freep]
    last. *)
Lemma rotation base s fl :
  ring base s fl ->
  exists rot zf, linked (cells s) (rot ++ [(freep s, zf)]) (first_of (freep s) rot)
    /\ points s fl (freep s) (first_of (freep s) rot)
    /\ (forall b, b ∈ rot ++ [(freep s, zf)] <-> b ∈ fl)
    /\ freep s ∉ rot.*1 /\ length fl = S (length rot).
Proof.
  intros R. pose proof (ring_freep _ _ _ R) as Hf. pose proof (ring_linked _ _ _ R) as Hl.
  pose proof (ring_spaced _ _ _ R) as Hs. destruct (ring_base _ _ _ R) as [l0 El].
  apply list_elem_of_fmap in Hf as ([fp zf] & Ef & Hf). simpl in Ef. rewrite Ef in *. clear Ef.
  apply list_elem_of_split in Hf as (l1 & l2 & ->).
  apply spaced_not_in in Hs as [H1 H2]. apply linked_app in Hl as [Hl1 [Hc Hl2]]. simpl in *.
  assert (Hb : first_of fp l1 = base) by (destruct l1; by inversion El).
  assert (Hn : first_of fp (l2 ++ l1) = first_of base l2) by (destruct l2; simpl; congruence).
  exists (l2 ++ l1), zf. rewrite Hn. split_and!.
  - apply linked_app. split; [|done]. apply linked_app. simpl. by rewrite Hb.
  - split; [rewrite fmap_app; set_solver|by eauto].
  - set_solver.
  - rewrite fmap_app. set_solver.
  - rewrite !length_app. simpl. lia.
Qed.

Lemma first_fit (l : list block) n :
  Forall (fun b => b.2 < n) l
  \/ exists l1 b l2, l = l1 ++ b :: l2 /\ n <= b.2 /\ Forall (fun b => b.2 < n) l1.
Proof.
  induction l as [|b l IH]; [by left|]. destruct (decide (n <= b.2)).
  - right. by exists [], b, l.
  - destruct IH as [IH|(l1 & b' & l2 & -> & ? & ?)]; [left; constructor; [lia|done]|].
    right. exists (b :: l1), b', l2. split_and!; [done|done|]. constructor; [lia|done].
Qed.

Section malloc.
Context `{Fuel} (base : Z).

(** The loop at a block that is large enough. *)
Lemma malloc_take k s fl q p z n :
  ring base s fl -> points s fl q p -> (p, z) ∈ fl -> 1 <= n <= z ->
  exists a s' fl', malloc_loop (S k) n q p s = Pret (a + sizeof_header, s')
    /\ taken base s fl a n s' fl'.
Proof.
  intros R Hq Hp Hn. destruct (points_split _ _ _ _ _ _ R Hq Hp) as (m1 & zq & m2 & ->); [lia|].
  pose proof (ring_linked _ _ _ R) as Hl. apply linked_app in Hl as [_ [Hcq [Hcp _]]].
  pose proof (ring_max _ _ _ R) as Hm. rewrite Forall_app, !Forall_cons in Hm.
  destruct Hm as (_ & _ & Hm & _).
  assert (Hpos : 0 < p).
  { pose proof (ring_pos _ _ _ R). destruct (ring_member _ _ _ (p, z) R) as [E|[? _]];
      [set_solver|inversion E; lia|simpl in *; lia]. }
  assert (Hplus : forall j, 0 <= j <= z -> hplus p j = p + j * sizeof_header).
  { intros j Hj. apply u64_small. unfold block_end, HEAPMAX, sizeof_header in *. simpl in *. lia. }
  assert (Hz32 : 0 <= z < 2 ^ 32) by (unfold block_end, HEAPMAX, sizeof_header in *; simpl in *; lia).
  cbn [malloc_loop]. unfold hdr. simpl in Hcp, Hcq. rewrite Hcp. cbn [inside pbind h_size h_ptr].
  rewrite (proj2 (Z.leb_le n z)) by lia. destruct (Z.eqb_spec z n) as [->|Hne].
  - rewrite Hcq. cbn [inside pbind]. rewrite (Hplus 1) by lia. rewrite Z.mul_1_l.
    do 3 eexists. split; [reflexivity|]. apply taken_exact; [done|lia].
  - rewrite u32_small by lia. rewrite Hplus by lia. cbn [pbind].
    replace (hplus (p + (z - n) * sizeof_header) 1) with (p + (z - n) * sizeof_header + sizeof_header).
    2:{ symmetry. unfold hplus. rewrite Z.mul_1_l. apply u64_small.
        unfold block_end, HEAPMAX, sizeof_header in *. simpl in *. lia. }
    do 3 eexists. split; [reflexivity|]. apply taken_cut; [done|lia|done].
Qed.

(** The loop passes the blocks that are too small. *)
Lemma malloc_skip k n q seg e s fl :
  linked (cells s) seg e -> points s fl q (first_of e seg) ->
  Forall (fun b => b.2 < n) seg -> (forall b, b ∈ seg -> b ∈ fl) -> freep s ∉ seg.*1 ->
  exists q', malloc_loop (length seg + k) n q (first_of e seg) s = malloc_loop k n q' e s
    /\ points s fl q' e.
Proof.
  revert q. induction seg as [|b seg IH]; intros q Hl Hq Hsm Hin Hf; [by exists q|].
  destruct Hl as [Hc Hl]. apply Forall_cons in Hsm as [Hb Hsm].
  change (length (b :: seg) + k)%nat with (S (length seg + k)). cbn [malloc_loop first_of].
  unfold hdr at 1. rewrite Hc. cbn [inside pbind h_size]. rewrite (proj2 (Z.leb_gt _ _)) by done.
  rewrite (proj2 (Z.eqb_neq b.1 (freep s))) by set_solver.
  unfold hdr. rewrite Hc. cbn [inside pbind h_ptr]. apply IH; try done.
  - split; [|by eauto]. apply list_elem_of_fmap. exists b. split; [done|apply Hin; set_solver].
  - set_solver.
  - set_solver.
Qed.

(** One turn around the ring: the first block that is large enough, or more memory. *)
Lemma malloc_round k s fl n p :
  ring base s fl -> 1 <= n -> points s fl (freep s) p -> 
  (exists a s' fl', malloc_loop (length fl + k) n (freep s) p s = Pret (a + sizeof_header, s')
     /\ taken base s fl a n s' fl')
  \/ Forall (fun b => b.2 < n) fl /\
     malloc_loop (length fl + k) n (freep s) p s
     = pbind (morecore n s) (fun '(p, s) =>
         if p =? 0 then Pret (0, s)
         else pbind (hdr s p) (fun h => malloc_loop k n p (h_ptr h) s)).
Proof.
  intros R Hn [_ [zz Hp]]. destruct (rotation _ _ _ R) as (rot & zf & Hl & Hpt & Hin & Hf & Hlen).
  assert (p = first_of (freep s) rot) as ->.
  { destruct Hpt as [_ [z' Hpt]]. rewrite Hp in Hpt. by inversion Hpt. }
  rewrite Hlen. destruct (first_fit (rot ++ [(freep s, zf)]) n) as [Hno|(seg & b & rest & E & Hfit & Hsm)].
  - right. split; [apply Forall_forall; intros b Hb; rewrite Forall_forall in Hno; by apply Hno, Hin|].
    apply Forall_app in Hno as [Hno [Hz _]%Forall_cons]. simpl in Hz.
    apply linked_app in Hl as [Hl1 [Hl2 _]]. simpl in Hl1, Hl2.
    destruct (malloc_skip (S k) n (freep s) rot (freep s) s fl) as (q' & E & Hq'); try done; [set_solver|].
    replace (S (length rot) + k)%nat with (length rot + S k)%nat by lia. rewrite E. cbn [malloc_loop]. unfold hdr at 1. rewrite Hl2.
    cbn [inside pbind h_size]. rewrite (proj2 (Z.leb_gt _ _)) by done. by rewrite Z.eqb_refl.
  - left.
    assert (Hseg : freep s ∉ seg.*1 /\ (length seg <= length rot)%nat).
    { destruct rest as [|r rest] using rev_ind; [apply app_inj_tail in E as [<- _]; done|].
      clear IHrest. rewrite app_comm_cons, app_assoc in E. apply app_inj_tail in E as [-> _].
      rewrite fmap_app in Hf. rewrite length_app. split; [set_solver|lia]. }
    destruct Hseg as [Hseg Hls]. rewrite E in Hl. apply linked_app in Hl as [Hl1 _]. simpl in Hl1.
    assert (Ef : first_of (freep s) rot = first_of b.1 seg).
    { destruct rot as [|r rot], seg as [|x seg]; simpl in *; by inversion E. }
    rewrite Ef in *.
    destruct (malloc_skip (S (length rot - length seg + k)) n (freep s) seg b.1 s fl) as (q' & E' & Hq'); try done.
    { intros x Hx. apply Hin. rewrite E. set_solver. }
    replace (S (length rot) + k)%nat with (length seg + S (length rot - length seg + k))%nat by lia.
    rewrite E'. destruct b as [a z]. apply (malloc_take _ s fl q' a z n R Hq'); [apply Hin; rewrite E; set_solver|].
    simpl in *. lia.
Qed.
End malloc.

(** ** The heap as its users see it *)

Fixpoint all_apart (l : list block) : Prop :=
  match l with
  | [] => True
  | b :: l => Forall (apart b) l /\ all_apart l
  end.

(** [al] are the blocks handed out and not yet freed, [fl] the free ones, and [brk]
    is the end of the process memory. *)
Record heap_ok (base : Z) (s : heap) (fl al : list block) (brk : Z) : Prop := {
  hk_ring : ring base s fl \/ (freep s = 0 /\ fl = [] /\ al = []);
  hk_brk : 0 < base < brk /\ brk <= HEAPMAX;
  hk_free : forall u, covers fl u -> u < brk;
  hk_alloc : forall b, b ∈ al -> base < b.1 /\ 1 <= b.2 /\ block_end b <= brk
    /\ (exists x, cells s !! b.1 = Some (Header x b.2))
    /\ forall u, b.1 <= u < block_end b -> ~ covers fl u;
  hk_apart : all_apart al;
}.

Lemma all_apart_app l1 b l2 :
  all_apart (l1 ++ b :: l2) <-> all_apart (l1 ++ l2) /\ Forall (apart b) (l1 ++ l2).
Proof.
  induction l1 as [|x l1 IH]; simpl; [tauto|]. rewrite IH, !Forall_app, !Forall_cons, Forall_app.
  assert (apart x b <-> apart b x) by (unfold apart; tauto). tauto.
Qed.

(** Blocks with no byte in common. *)
Lemma apart_bytes b b' :
  1 <= b.2 -> 1 <= b'.2 ->
  apart b b' <-> forall u, b.1 <= u < block_end b -> ~ (b'.1 <= u < block_end b').
Proof.
  intros H1 H2. unfold apart, block_end, sizeof_header. split; [intros Ha u; lia|].
  intros Hu. specialize (Hu (Z.max b.1 b'.1)). lia.
Qed.

Lemma apart_ring base s fl b :
  ring base s fl -> base < b.1 -> 1 <= b.2 ->
  Forall (apart b) fl <-> forall u, b.1 <= u < block_end b -> ~ covers fl u.
Proof.
  intros R Hb H1. rewrite Forall_forall. split.
  - intros Ha u Hu (b' & Hin & Hu'). specialize (Ha _ Hin).
    unfold apart, block_end, sizeof_header in *. lia.
  - intros Hu b' Hin. destruct (ring_member _ _ _ _ R Hin) as [->|[_ H2]].
    + right. unfold block_end. simpl. lia.
    + apply apart_bytes; [done|done|]. intros u Hu1 Hu2. apply (Hu u Hu1). by exists b'.
Qed.

(** A block leaves the free ones. *)
Lemma heap_take base s fl al brk a n s' fl' :
  heap_ok base s fl al brk -> taken base s fl a n s' fl' -> 1 <= n ->
  heap_ok base s' fl' ((a, n) :: al) brk.
Proof.
  intros K T Hn.
  assert (Hsub : forall u, a <= u < block_end (a, n) \/ covers fl' u -> covers fl u).
  { intros u Hu. apply (tk_covers _ _ _ _ _ _ _ T), covers_cons. done. }
  constructor.
  - left. apply (tk_ring _ _ _ _ _ _ _ T).
  - apply K.
  - intros u Hu. apply (hk_free _ _ _ _ _ K). auto.
  - intros b [->|Hb]%elem_of_cons; split_and!.
    + apply T.
    + done.
    + destruct (decide (block_end (a, n) <= brk)) as [|Hbad]; [done|].
      pose proof (hk_free _ _ _ _ _ K (block_end (a, n) - 1)) as Hlt. exfalso.
      assert (block_end (a, n) - 1 < brk); [|lia]. apply Hlt, Hsub. left.
      unfold block_end, sizeof_header. simpl. lia.
    + apply T.
    + eapply apart_ring; [apply T|apply T|done|apply T].
    + by apply (hk_alloc _ _ _ _ _ K).
    + by apply (hk_alloc _ _ _ _ _ K).
    + by apply (hk_alloc _ _ _ _ _ K).
    + destruct (hk_alloc _ _ _ _ _ K _ Hb) as (Hlow & H1 & _ & Hx & Hdis).
      rewrite (tk_frame _ _ _ _ _ _ _ T); [done|lia|]. apply Hdis. unfold block_end, sizeof_header. lia.
    + destruct (hk_alloc _ _ _ _ _ K _ Hb) as (Hlow & H1 & _ & Hx & Hdis). intros u Hu Hc.
      apply (Hdis u Hu). auto.
  - split; [|apply K]. apply Forall_forall. intros b Hb.
    destruct (hk_alloc _ _ _ _ _ K _ Hb) as (Hlow & H1 & _ & Hx & Hdis).
    apply apart_bytes; [done|done|]. intros u Hu Hu'. apply (Hdis u Hu'). auto.
Qed.

(** A block joins the free ones. *)
Lemma heap_put base s fl al brk bp n s' fl' brk' :
  heap_ok base s fl al brk -> ring base s' fl' -> base < bp -> 1 <= n ->
  (forall u, covers fl' u <-> covers ((bp, n) :: fl) u) ->
  (forall q, q <> base -> ~ covers fl' q -> cells s' !! q = cells s !! q) ->
  Forall (apart (bp, n)) al -> block_end (bp, n) <= brk' -> brk <= brk' <= HEAPMAX ->
  heap_ok base s' fl' al brk'.
Proof.
  intros K R Hbp Hn Hcov Hfr Hap Hend Hbrk. pose proof (hk_brk _ _ _ _ _ K) as Hb. constructor.
  - by left.
  - lia.
  - intros u [Hu|Hu]%Hcov%covers_cons; [simpl in *; lia|]. pose proof (hk_free _ _ _ _ _ K u Hu). lia.
  - intros b Hb'. destruct (hk_alloc _ _ _ _ _ K _ Hb') as (Hlow & H1 & He & Hx & Hdis).
    assert (Hnc : forall u, b.1 <= u < block_end b -> ~ covers fl' u).
    { intros u Hu [Hc|Hc]%Hcov%covers_cons; [|by apply (Hdis u)].
      rewrite Forall_forall in Hap. specialize (Hap _ Hb').
      by apply (proj1 (apart_bytes (bp, n) b Hn H1) Hap u). }
    split_and!; try done; [lia|]. rewrite Hfr; [done|lia|]. apply Hnc. unfold block_end, sizeof_header. lia.
  - apply K.
Qed.

(** The kernel's side of [sbrk]: the break moves up if it stays below the limit, or
    down if it stays above 0, else stays, and the old one is returned. *)
Definition brk_handler (limit : Z) : handler Z :=
  fun X c =>
    match c in ucall X return Z -> option (X * Z) with
    | Usbrk n _ => fun brk =>
        if (0 <? n) && (limit <? brk + n) then Some (SBRK_ERROR, brk)
        else Some (brk, if brk + n <? 0 then brk else brk + n)
    | _ => fun _ => None
    end.

(** The headers that [malloc(nbytes)] takes, and what it asks of [sbrk]. *)
Definition units_for (nbytes : Z) : Z := (nbytes + 15) / 16 + 1.
Definition core_units (n : Z) : Z := Z.max n 4096.

Section heap.
Context `{Fuel} (base limit : Z) (Hlimit : limit <= HEAPMAX).

Lemma ring_points s fl : ring base s fl -> 0 < freep s /\ exists p, points s fl (freep s) p.
Proof.
  intros R. destruct (rotation _ _ _ R) as (rot & zf & _ & Hp & _). split; [|by eauto].
  pose proof (ring_freep _ _ _ R) as (b & -> & Hb)%list_elem_of_fmap. pose proof (ring_pos _ _ _ R).
  destruct (ring_member _ _ _ _ R Hb) as [->|[? _]]; simpl; lia.
Qed.

(** The new memory at [brk] becomes a free block. *)
Lemma grow_run s fl brk nu :
  ring base s fl -> (forall b, b ∈ fl -> block_end b <= brk /\ b.1 < brk) -> base < brk -> 1 <= nu ->
  block_end (brk, nu) <= HEAPMAX -> (length fl <= fuel)%nat ->
  exists s' fl',
    free (hplus brk 1) (set_hdr s brk ((default (Header 0 0) (cells s !! brk)) <| h_size := nu |>)) = Pret s'
    /\ ring base s' fl' /\ (length fl' <= S (length fl))%nat
    /\ (forall u, covers fl' u <-> covers ((brk, nu) :: fl) u)
    /\ (exists b, b ∈ fl' /\ nu <= b.2)
    /\ forall q, q <> base -> ~ covers fl' q -> cells s' !! q = cells s !! q.
Proof using Type.
  clear Hlimit limit. intros R Hends Hbrk Hnu Hmax Hf. set (s1 := set_hdr s brk _).
  pose proof (ring_pos _ _ _ R) as Hpos.
  assert (R1 : ring base s1 fl).
  { destruct R. constructor; try done. apply linked_frame; [|done].
    intros (b & -> & Hb)%list_elem_of_fmap. destruct (Hends _ Hb). lia. }
  replace (hplus brk 1) with (brk + sizeof_header).
  2:{ symmetry. unfold hplus. rewrite Z.mul_1_l. apply u64_small.
      unfold block_end, HEAPMAX, sizeof_header in *. simpl in Hmax. lia. }
  destruct (free_run base s1 fl brk nu (h_ptr (default (Header 0 0) (cells s !! brk))))
    as (s' & fl' & E & R' & Hlen & Hcov & Hb & Hfr); try done.
  { apply Forall_forall. intros b Hb. right. simpl. by apply Hends. }
  { unfold s1, set_hdr. simpl. by rewrite lookup_insert_eq. }
  exists s', fl'. split_and!; try done. intros q Hq Hnc. rewrite Hfr by done. unfold s1. simpl.
  apply lookup_insert_ne. intros <-. apply Hnc, Hcov, covers_cons. left.
  unfold block_end, sizeof_header. simpl. lia.
Qed.

(** [morecore] when the kernel gives the memory, and when it does not. *)
Lemma morecore_run s fl al brk n :
  heap_ok base s fl al brk -> ring base s fl -> 1 <= n -> core_units n * sizeof_header < 2 ^ 31 ->
  (length fl <= fuel)%nat ->
  (limit < brk + core_units n * sizeof_header
   /\ urun (brk_handler limit) (morecore n s) brk = UReturn (0, s) brk)
  \/ exists s' fl', let brk' := brk + core_units n * sizeof_header in
     urun (brk_handler limit) (morecore n s) brk = UReturn (freep s', s') brk'
     /\ heap_ok base s' fl' al brk' /\ ring base s' fl' /\ (length fl' <= S (length fl))%nat
     /\ (forall u, covers fl' u <-> covers fl u \/ brk <= u < brk')
     /\ exists b, b ∈ fl' /\ n <= b.2.
Proof.
  intros K R Hn H31 Hf. pose proof (hk_brk _ _ _ _ _ K) as Hbrk.
  unfold morecore. replace (if n <? 4096 then 4096 else n) with (core_units n)
    by (unfold core_units; case_if; bool_to_prop; lia).
  set (nu := core_units n) in *. assert (Hnu : n <= nu /\ 4096 <= nu) by (unfold nu, core_units; lia).
  rewrite s32_small by (unfold sizeof_header in *; lia).
  rewrite urun_bind. unfold sbrk, call. cbn [urun brk_handler].
  rewrite (proj2 (Z.ltb_lt 0 _)) by (unfold sizeof_header; lia). cbn [andb].
  destruct (limit <? brk + nu * sizeof_header) eqn:E; bool_to_prop.
  { left. split; [done|]. reflexivity. }
  rewrite (proj2 (Z.ltb_ge _ 0)) by (unfold sizeof_header; lia). right. cbn [ubind]. rewrite (proj2 (Z.eqb_neq brk _)).
  2:{ change SBRK_ERROR with (2 ^ 64 - 1). unfold HEAPMAX in *. lia. }
  assert (Hends : forall b, b ∈ fl -> block_end b <= brk /\ b.1 < brk).
  { intros b Hb. destruct (ring_member _ _ _ _ R Hb) as [->|[_ H1]]; [unfold block_end; simpl; lia|].
    assert (block_end b - 1 < brk); [|unfold block_end, sizeof_header in *; lia].
    apply (hk_free _ _ _ _ _ K). exists b. split; [done|]. unfold block_end, sizeof_header. lia. }
  destruct (grow_run s fl brk nu R Hends) as (s' & fl' & -> & R' & Hlen & Hcov & (b & Hb & Hbn) & Hfr);
    [lia|lia|unfold block_end; simpl; lia|done|].
  exists s', fl'. cbn [pbind urun]. split; [done|].
  split_and!; [|done|done| |exists b; split; [done|lia]]; cycle 1.
  { intros u. rewrite Hcov, covers_cons. unfold block_end. simpl. tauto. }
  eapply (heap_put base s fl al brk brk nu); try done; try lia.
  - apply Forall_forall. intros b' Hb'. right. simpl. by apply (hk_alloc _ _ _ _ _ K).
  - unfold block_end, sizeof_header in *. simpl. lia.
Qed.

(** The outcome of [malloc] from a heap: a block of [n] headers, or a null pointer
    when no free block has [n] headers and the kernel has no more memory. The bytes of
    the block and the free bytes are together the old free bytes and the new memory,
    and there is new memory only when no free block has [n] headers. *)
Definition allocated (nbytes : Z) (fl al : list block) (brk r : Z) (s' : heap) (fl' : list block)
    (brk' : Z) : Prop :=
  let n := units_for nbytes in
  (r = 0 /\ brk' = brk /\ heap_ok base s' fl' al brk /\ (forall u, covers fl' u <-> covers fl u)
   /\ Forall (fun b => b.2 < n) fl /\ limit < brk + core_units n * sizeof_header)
  \/ (r <> 0 /\ nbytes <= block_end (r - sizeof_header, n) - r
      /\ heap_ok base s' fl' ((r - sizeof_header, n) :: al) brk'
      /\ (forall u, covers ((r - sizeof_header, n) :: fl') u <-> covers fl u \/ brk <= u < brk')
      /\ (brk' = brk \/ Forall (fun b => b.2 < n) fl /\ brk' = brk + core_units n * sizeof_header)).

Lemma allocated_take nbytes s0 fl0 fl al brk0 brk a s fl' :
  0 <= nbytes -> heap_ok base s0 fl al brk ->
  (forall u, covers fl u <-> covers fl0 u \/ brk0 <= u < brk) ->
  (brk = brk0 \/ Forall (fun b => b.2 < units_for nbytes) fl0 /\ brk = brk0 + core_units (units_for nbytes) * sizeof_header) ->
  taken base s0 fl a (units_for nbytes) s fl' ->
  allocated nbytes fl0 al brk0 (a + sizeof_header) s fl' brk.
Proof.
  intros Hnb K Hcov Hbrk T. right. set (n := units_for nbytes) in *.
  assert (Hn : nbytes <= (n - 1) * 16 /\ 1 <= n).
  { unfold n, units_for. pose proof (Z.div_mod (nbytes + 15) 16). pose proof (Z.mod_pos_bound (nbytes + 15) 16). lia. }
  replace (a + sizeof_header - sizeof_header) with a by lia. pose proof (tk_low _ _ _ _ _ _ _ T).
  pose proof (hk_brk _ _ _ _ _ K). split_and!.
  - unfold sizeof_header. lia.
  - unfold block_end, sizeof_header in *. simpl. lia.
  - by eapply heap_take; [..|lia].
  - intros u. by rewrite <- (tk_covers _ _ _ _ _ _ _ T), Hcov.
  - done.
Qed.

Lemma malloc_run s fl al brk nbytes p :
  heap_ok base s fl al brk -> ring base s fl -> points s fl (freep s) p ->
  0 <= nbytes < 2 ^ 31 - 31 -> (2 * length fl + 1 <= fuel)%nat ->
  exists r s' fl' brk',
    urun (brk_handler limit) (malloc_loop fuel (units_for nbytes) (freep s) p s) brk = UReturn (r, s') brk'
    /\ (length fl' <= S (length fl))%nat /\ allocated nbytes fl al brk r s' fl' brk'.
Proof using Hlimit.
  intros K R Hp Hnb Hf. set (n := units_for nbytes).
  assert (Hn : 1 <= n /\ core_units n * sizeof_header < 2 ^ 31).
  { unfold n, units_for, core_units, sizeof_header. pose proof (Z.div_mod (nbytes + 15) 16).
    pose proof (Z.mod_pos_bound (nbytes + 15) 16). lia. }
  destruct Hn as [Hn H31].
  replace fuel with (length fl + (fuel - length fl))%nat by lia.
  destruct (malloc_round base (fuel - length fl) s fl n p R Hn Hp) as [(a & s' & fl' & -> & T)|[Hno ->]].
  { exists (a + sizeof_header), s', fl', brk. split; [done|]. split; [pose proof (tk_length _ _ _ _ _ _ _ T); lia|].
    apply (allocated_take nbytes s fl fl al brk brk); [lia|done| |by left|done]. intros u. naive_solver lia. }
  rewrite urun_bind. destruct (morecore_run s fl al brk n K R Hn H31) as
    [[Hlim ->]|(s1 & fl1 & -> & K1 & R1 & Hlen & Hcov1 & b & Hb & Hbn)]; [lia|..]; cbn [ubind].
  { exists 0, s, fl, brk. split; [done|]. split; [lia|]. left. by split_and!. }
  destruct (ring_points _ _ R1) as [Hpos (p1 & Hp1)]. rewrite (proj2 (Z.eqb_neq (freep s1) 0)) by lia.
  pose proof Hp1 as [_ [z1 Hz1]]. unfold hdr. rewrite Hz1. cbn [inside pbind h_ptr].
  replace (fuel - length fl)%nat with (length fl1 + (fuel - length fl - length fl1))%nat by lia.
  destruct (malloc_round base (fuel - length fl - length fl1) s1 fl1 n p1 R1 Hn Hp1)
    as [(a & s' & fl' & -> & T)|[Hno1 _]].
  - exists (a + sizeof_header), s', fl'. eexists. split; [done|].
    split; [pose proof (tk_length _ _ _ _ _ _ _ T); lia|].
    apply (allocated_take nbytes s1 fl fl1 al brk); [lia|done|done|by right|done].
  - rewrite Forall_forall in Hno1. specialize (Hno1 _ Hb). simpl in *. lia.
Qed.

Lemma ring_initial s : 0 < base -> base <= HEAPMAX ->
  ring base ((set_hdr s base (Header base 0)) <| freep := base |>) [(base, 0)].
Proof.
  intros Hb Hm. constructor; simpl; try done.
  - by eauto.
  - split; [apply lookup_insert_eq|done].
  - by repeat constructor.
  - constructor; [|done]. unfold block_end. simpl. lia.
Qed.

(** C12. malloc(nbytes) terminates and returns either the address of a block that holds
    [nbytes] bytes and has no byte in common with any block that is free or still in
    use, or a null pointer, and the latter only when no free block is large enough
    and the kernel refuses more memory. No byte is lost or made up: the block and the
    free blocks together are what was free before and the memory that the kernel gave,
    and the kernel is asked only when no free block is large enough. The free blocks
    stay an address-ordered ring, and no header of a block in use is written, from the
    first call on and through the growth of the heap by [morecore]. *)
Theorem malloc_spec s fl al brk nbytes :
  heap_ok base s fl al brk -> 0 <= nbytes < 2 ^ 31 - 31 -> (2 * length fl + 3 <= fuel)%nat ->
  exists r s' fl' brk',
    urun (brk_handler limit) (malloc base nbytes s) brk = UReturn (r, s') brk'
    /\ (length fl' <= length fl + 2)%nat /\ allocated nbytes fl al brk r s' fl' brk'.
Proof using Hlimit.
  intros K Hnb Hf. unfold malloc.
  replace (u32 ((nbytes + sizeof_header - 1) / sizeof_header + 1)) with (units_for nbytes).
  2:{ unfold units_for, sizeof_header. replace (nbytes + 16 - 1) with (nbytes + 15) by lia.
      symmetry. apply u32_small. pose proof (Z.div_mod (nbytes + 15) 16).
      pose proof (Z.mod_pos_bound (nbytes + 15) 16). lia. }
  destruct (hk_ring _ _ _ _ _ K) as [R|(Hz & -> & ->)].
  - destruct (ring_points _ _ R) as [Hpos (p & Hp)]. rewrite (proj2 (Z.eqb_neq (freep s) 0)) by lia.
    pose proof Hp as [_ [z Hc]]. unfold hdr. rewrite Hc. cbn [inside pbind h_ptr].
    destruct (malloc_run s fl al brk nbytes p K R Hp Hnb) as (r & s' & fl' & brk' & ? & ? & ?); [lia|].
    exists r, s', fl', brk'. split_and!; [done|lia|done].
  - rewrite Hz. cbn [Z.eqb]. pose proof (hk_brk _ _ _ _ _ K) as Hb.
    pose proof (ring_initial s ltac:(lia) ltac:(lia)) as R. set (s0 := _ <| freep := base |>) in *.
    assert (Hc : cells s0 !! base = Some (Header base 0)) by apply lookup_insert_eq.
    assert (Hnc : forall u, ~ covers [(base, 0)] u).
    { intros u (b & [->|Hb']%elem_of_cons & Hu); [|set_solver]. unfold block_end in Hu. simpl in Hu. lia. }
    assert (K0 : heap_ok base s0 [(base, 0)] [] brk).
    { constructor; [by left|done| |set_solver|done]. intros u Hu. by destruct (Hnc u). }
    change (freep s0) with base. unfold hdr. rewrite Hc. cbn [inside pbind h_ptr].
    destruct (malloc_run s0 [(base, 0)] [] brk nbytes base K0 R) as (r & s' & fl' & brk' & E & Hl & Hal);
      [split; [set_solver|by eauto]|done|simpl in *; lia|]. exists r, s', fl', brk'.
    split; [exact E|]. split; [simpl in *; lia|].
    assert (Hnc' : forall u, ~ covers [] u) by (intros u (b & Hb' & _); set_solver).
    destruct Hal as [(? & ? & ? & Hc1 & ? & ?)|(? & ? & ? & Hc1 & Hc2)]; [left|right]; split_and!; try done.
    + intros u. rewrite Hc1. split; intros Hu; [by destruct (Hnc u)|by destruct (Hnc' u)].
    + intros u. rewrite Hc1. split; (intros [Hu|Hu]; [|by right]); [by destruct (Hnc u)|by destruct (Hnc' u)].
    + destruct Hc2 as [|[_ ?]]; [by left|by right].
Qed.

(** C13. free() of a block in use terminates and gives its bytes, and no others, back to
    the free blocks: it finds the place of the block in the ring from wherever
    [freep] is, joins it to the neighbours it touches, and the other blocks in use
    keep their headers and stay disjoint from the free bytes. *)
Theorem free_spec s fl al1 b al2 brk :
  heap_ok base s fl (al1 ++ b :: al2) brk -> (length fl <= fuel)%nat ->
  exists s' fl', free (b.1 + sizeof_header) s = Pret s'
    /\ heap_ok base s' fl' (al1 ++ al2) brk /\ (length fl' <= S (length fl))%nat
    /\ forall u, covers fl' u <-> b.1 <= u < block_end b \/ covers fl u.
Proof using Type.
  clear Hlimit limit. intros K Hf. destruct (hk_alloc _ _ _ _ _ K b ltac:(set_solver)) as (Hlow & H1 & Hend & [x Hx] & Hdis).
  destruct (hk_ring _ _ _ _ _ K) as [R|(_ & _ & Hal)]; [|by destruct al1].
  pose proof (hk_apart _ _ _ _ _ K) as [Hap1 Hap2]%all_apart_app. pose proof (hk_brk _ _ _ _ _ K) as Hb.
  destruct b as [bp n]. simpl in *.
  destruct (free_run base s fl bp n x) as (s' & fl' & E & R' & Hlen & Hcov & _ & Hfr); try done; try lia.
  { by eapply (apart_ring _ _ _ (bp, n)). }
  exists s', fl'. split; [done|]. split_and!; [|done|intros u; rewrite Hcov, covers_cons; done].
  eapply (heap_put base s fl (al1 ++ al2) brk bp n); try done; try lia.
  destruct K. constructor; try done.
  - by left.
  - intros b Hb'. apply hk_alloc0. set_solver.
Qed.
End heap.

(** ** An example heap *)

Definition heap0 : heap := Heap ∅ 0.
Definition heap1 : heap := Heap (<[8192 := Header 0 7]> {[4096 := Header 4096 0]}) 4096.

Lemma heap0_ok : heap_ok 4096 heap0 [] [] 8192.
Proof.
  constructor; [by right|unfold HEAPMAX; lia| |set_solver|done]. intros u (b & Hb & _). set_solver.
Qed.

Lemma heap1_ok : heap_ok 4096 heap1 [(4096, 0)] ([] ++ (8192, 7) :: []) 65536.
Proof.
  assert (Hnc : forall u, ~ covers [(4096, 0)] u).
  { intros u (b & ->%list_elem_of_singleton & Hu). unfold block_end in Hu. simpl in Hu. lia. }
  constructor.
  - left. constructor; simpl; try done; [by eauto|left|].
    constructor; [|done]. unfold block_end, HEAPMAX. simpl. lia.
  - unfold HEAPMAX. lia.
  - intros u Hu. by destruct (Hnc u).
  - intros b ->%list_elem_of_singleton. unfold block_end, sizeof_header. simpl.
    split_and!; [lia|lia|lia|by eauto|]. intros u _. apply Hnc.
  - split; [constructor|done].
Qed.

Lemma malloc_spec_witness :
  exists r s' fl' brk',
    urun (brk_handler (2 ^ 27)) (@malloc 16%nat 4096 100 heap0) 8192 = UReturn (r, s') brk'
    /\ (length fl' <= 2)%nat /\ @allocated 4096 (2 ^ 27) 100 [] [] 8192 r s' fl' brk'.
Proof.
  apply (@malloc_spec 16%nat 4096 (2 ^ 27) ltac:(unfold HEAPMAX; lia) heap0 [] [] 8192 100 heap0_ok).
  - lia.
  - apply Nat.leb_le. reflexivity.
Defined.

Lemma free_spec_witness :
  exists s' fl', @free 16%nat 8208 heap1 = Pret s' /\ heap_ok 4096 s' fl' [] 65536
    /\ (length fl' <= 2)%nat
    /\ forall u, covers fl' u <-> 8192 <= u < block_end (8192, 7) \/ covers [(4096, 0)] u.
Proof.
  apply (@free_spec 16%nat 4096 heap1 [(4096, 0)] [] (8192, 7) [] 65536 heap1_ok).
  apply Nat.leb_le. reflexivity.
Defined.

(** ** Requests of 2 GB and more *)

Lemma huge_units nbytes :
  2 ^ 31 - 31 <= nbytes < 2 ^ 32 ->
  let n := units_for nbytes in
  2 ^ 27 <= n <= 2 ^ 28 + 1 /\ u32 ((nbytes + sizeof_header - 1) / sizeof_header + 1) = n
  /\ s32 (n * sizeof_header) = n * sizeof_header - 2 ^ 32.
Proof.
  intros Hnb n. assert (Hn : 2 ^ 27 <= n <= 2 ^ 28 + 1).
  { unfold n, units_for. Z.to_euclidean_division_equations. lia. }
  split; [done|]. split.
  - unfold sizeof_header. replace (nbytes + 16 - 1) with (nbytes + 15) by lia. apply u32_small. unfold n, units_for in *. lia.
  - unfold s32, sizeof_header. Z.to_euclidean_division_equations. lia.
Qed.

(** Blocks with gaps between them: two of them do not touch, so the byte after a block
    is not free, and bytes in a row lie in one block. *)
Lemma spaced_pair l b b' : spaced l -> b ∈ l -> b' ∈ l -> b = b' \/ block_end b < b'.1 \/ block_end b' < b.1.
Proof.
  induction l as [|x l IH]; intros Hs Hb Hb'; [set_solver|]. destruct Hs as (_ & Hf & Hs). rewrite Forall_forall in Hf.
  apply elem_of_cons in Hb as [->|Hb], Hb' as [->|Hb']; [by left| | |by apply IH].
  - right. left. by apply Hf.
  - right. right. by apply Hf.
Qed.

Lemma spaced_end l b : spaced l -> b ∈ l -> ~ covers l (block_end b).
Proof.
  intros Hs Hb (b' & Hb' & Hu). pose proof (spaced_nonneg _ _ Hs Hb) as H0.
  destruct (spaced_pair l b b' Hs Hb Hb') as [<-|[?|?]]; unfold block_end, sizeof_header in *; lia.
Qed.

Lemma run_in_block l b :
  spaced l -> 1 <= b.2 -> (forall u, b.1 <= u < block_end b -> covers l u) ->
  exists b', b' ∈ l /\ b.2 <= b'.2.
Proof.
  intros Hs H1 Hu. destruct (Hu b.1) as (b' & Hb' & Hlo); [unfold block_end, sizeof_header; lia|].
  exists b'. split; [done|]. destruct (decide (block_end b <= block_end b')) as [|Hlt].
  - unfold block_end, sizeof_header in *. lia.
  - destruct (spaced_end l b' Hs Hb'). apply Hu. lia.
Qed.

Section huge.
Context `{Fuel} (base limit : Z).

(** The break after a call of [sbrk] with the wrapped size of [n] headers. *)
Definition wrapped_break (brk n : Z) : Z :=
  let brk' := brk + (n * sizeof_header - 2 ^ 32) in if brk' <? 0 then brk else brk'.

Lemma huge_morecore s fl al brk n :
  heap_ok base s fl al brk -> ring base s fl -> 2 ^ 27 <= n <= 2 ^ 28 + 1 ->
  s32 (n * sizeof_header) = n * sizeof_header - 2 ^ 32 -> Forall (fun b => b.2 < n) fl ->
  brk + 16 <= limit -> brk + 2 ^ 32 + 16 <= HEAPMAX -> (length fl <= fuel)%nat ->
  exists s' fl', urun (brk_handler limit) (morecore n s) brk = UReturn (freep s', s') (wrapped_break brk n)
    /\ ring base s' fl' /\ (length fl' <= S (length fl))%nat
    /\ (forall u, covers fl' u <-> covers ((brk, n) :: fl) u) /\ exists b, b ∈ fl' /\ n <= b.2.
Proof.
  intros K R Hn Hs32 Hno Hl Hm Hf. pose proof (hk_brk _ _ _ _ _ K) as Hbrk. unfold morecore.
  rewrite (proj2 (Z.ltb_ge n 4096)) by lia. rewrite Hs32, urun_bind. unfold sbrk, call. cbn [urun brk_handler].
  replace ((0 <? _) && _) with false.
  2:{ symmetry. apply andb_false_iff. right. apply Z.ltb_ge. unfold sizeof_header. lia. }
  cbn [ubind]. rewrite (proj2 (Z.eqb_neq brk _)).
  2:{ change SBRK_ERROR with (2 ^ 64 - 1). unfold HEAPMAX in *. lia. }
  destruct (grow_run base s fl brk n R) as (s' & fl' & E & R' & Hlen & Hcov & Hbig & _).
  { intros b Hb. destruct (ring_member _ _ _ _ R Hb) as [->|[_ H1]]; [unfold block_end; simpl; lia|].
    assert (block_end b - 1 < brk); [|unfold block_end, sizeof_header in *; lia].
    apply (hk_free _ _ _ _ _ K). exists b. split; [done|]. unfold block_end, sizeof_header. lia. }
  { lia. } { lia. } { unfold block_end, sizeof_header. simpl. lia. } { done. }
  rewrite E. exists s', fl'. by split_and!.
Qed.

(** The block that is cut off the new memory is the new memory. *)
Lemma huge_place s fl al brk n s1 fl1 a s' fl' :
  heap_ok base s fl al brk -> ring base s fl -> 1 <= n -> Forall (fun b => b.2 < n) fl -> ring base s1 fl1 ->
  (forall u, covers fl1 u <-> covers ((brk, n) :: fl) u) -> taken base s1 fl1 a n s' fl' -> a = brk.
Proof.
  intros K R Hn Hno R1 Hcov T. destruct (tk_end _ _ _ _ _ _ _ T) as (b & Hb & Hbn & Hend).
  pose proof (spaced_end _ _ (ring_spaced _ _ _ R1) Hb) as Hlast.
  assert (Hin : covers fl1 (block_end b - 1)).
  { exists b. split; [done|]. unfold block_end, sizeof_header. lia. }
  assert (Hout : ~ (brk <= block_end b < block_end (brk, n))).
  { intros Hu. apply Hlast, Hcov, covers_cons. by left. }
  apply Hcov, covers_cons in Hin. destruct (decide (block_end b <= brk)) as [Hle|Hgt].
  - exfalso. destruct (run_in_block fl b) as (b' & Hb' & Hsz); [apply R|lia| |].
    + intros u Hu. assert (Hc : covers fl1 u) by (by exists b).
      apply Hcov, covers_cons in Hc as [Hc|Hc]; [simpl in Hc; lia|done].
    + rewrite Forall_forall in Hno. specialize (Hno _ Hb'). simpl in Hno. lia.
  - destruct Hin as [Hin|Hin%(hk_free _ _ _ _ _ K)]; [|lia].
    unfold block_end, sizeof_header in *. simpl in *. lia.
Qed.

Lemma huge_run s fl al brk n p :
  heap_ok base s fl al brk -> ring base s fl -> points s fl (freep s) p -> 2 ^ 27 <= n <= 2 ^ 28 + 1 ->
  s32 (n * sizeof_header) = n * sizeof_header - 2 ^ 32 -> Forall (fun b => b.2 < n) fl ->
  brk + 16 <= limit -> brk + 2 ^ 32 + 16 <= HEAPMAX -> (2 * length fl + 1 <= fuel)%nat ->
  exists s', urun (brk_handler limit) (malloc_loop fuel n (freep s) p s) brk
             = UReturn (brk + sizeof_header, s') (wrapped_break brk n)
    /\ exists x, cells s' !! brk = Some (Header x n).
Proof.
  intros K R Hp Hn Hs32 Hno Hl Hm Hf. replace fuel with (length fl + (fuel - length fl))%nat by lia.
  destruct (malloc_round base (fuel - length fl) s fl n p R) as [(a & s' & fl' & _ & T)|[_ ->]]; [lia|done|..].
  { exfalso. destruct (tk_end _ _ _ _ _ _ _ T) as (b & Hb & Hbn & _).
    rewrite Forall_forall in Hno. specialize (Hno _ Hb). simpl in Hno. lia. }
  destruct (huge_morecore s fl al brk n K R Hn Hs32 Hno Hl Hm) as (s1 & fl1 & E & R1 & Hlen & Hcov & b & Hb & Hbn); [lia|].
  rewrite urun_bind, E. cbn [ubind]. destruct (ring_points base s1 fl1 R1) as [Hpos (p1 & Hp1)].
  rewrite (proj2 (Z.eqb_neq (freep s1) 0)) by lia.
  pose proof Hp1 as [_ [z1 Hz1]]. unfold hdr. rewrite Hz1. cbn [inside pbind h_ptr].
  replace (fuel - length fl)%nat with (length fl1 + (fuel - length fl - length fl1))%nat by lia.
  destruct (malloc_round base (fuel - length fl - length fl1) s1 fl1 n p1 R1 ltac:(lia) Hp1)
    as [(a & s' & fl' & -> & T)|[Hno1 _]].
  - rewrite (huge_place s fl al brk n s1 fl1 a s' fl') in * by (done || lia). exists s'. split; [done|apply T].
  - rewrite Forall_forall in Hno1. specialize (Hno1 _ Hb). simpl in *. lia.
Qed.
End huge.


