(* ===== verification/Shell.v ===== *)
(** * The shell: [src/user/sh.c]

    The parser of a command line, the command that it builds and the program that
    runs it. The parser works in place: a word of the command is a pair of pointers
    into the line, and [nulterminate] ends the words afterwards. The structures of
    the command are taken to be allocated, as the code does without looking at what
    [malloc] returns. *)

From S2P Require Import Prelude Params FsTypes Kstring User Ulib.

Open Scope user_scope.

(** ** The parsed command

    [struct cmd] with words of type [W]: a pair [argv[i]], [eargv[i]] (or [file],
    [efile]) of offsets into the line while parsing, a string once the words are
    terminated. *)
Inductive cmd (W : Type) : Type :=
| EXEC (argv : list W)
| REDIR (c : cmd W) (file : W) (mode fd : Z)
| PIPE (left right : cmd W)
| LIST (left right : cmd W)
| BACK (c : cmd W).
Arguments EXEC {W} argv.
Arguments REDIR {W} c file mode fd.
Arguments PIPE {W} left right.
Arguments LIST {W} left right.
Arguments BACK {W} c.

Notation word := (nat * nat)%type.

Definition MAXARGS : nat := 10.

Definition panic {A : Type} (s : string) : prog A :=
  fprintf 2 "%s\n" [UStr (Some (lit s))];; Pexit 1.

Definition fork1 : prog Z :=
  pid ← call Ufork;
  if pid =? -1 then panic "fork" else Pret pid.

(** ** Parsing *)

(** [strchr(whitespace, c)] and [strchr(symbols, c)] on a character that is not NUL. *)
Definition whitespace : list Z := lit " \t\r\n\v".
Definition symbols : list Z := lit "<|>&;()".
Definition in_set (set : list Z) (c : Z) : bool :=
  match strchr set c with Some (Some _) => true | _ => false end.

(** [while(s < es && p( *s)) s++;] with [k = es - s]. *)
Fixpoint skip_while (p : Z -> bool) (k : nat) (buf : list Z) (s : nat) : prog nat :=
  match k with
  | O => Pret s
  | S k =>
      c ← inside (buf !! s);
      if p c then skip_while p k buf (S s) else Pret s
  end.

(** [gettoken(ps, es, q, eq)]: the token, [q], [eq] and the new [*ps]. *)
Definition gettoken (buf : list Z) (s es : nat) : prog (Z * word * nat) :=
  s ← skip_while (in_set whitespace) (es - s) buf s;
  let q := s in
  c ← inside (buf !! s);
  ' (ret, s) ←
    (if c =? 0 then Pret (c, s)
     else if in_set (lit "|();&<") c then Pret (c, S s)
     else if c =? 62 then
       c' ← inside (buf !! S s);
       if c' =? 62 then Pret (43, S (S s)) else Pret (62, S s)
     else
       s ← skip_while (fun c => negb (in_set whitespace c) && negb (in_set symbols c)) (es - s) buf s;
       Pret (97, s));
  let eq := s in
  s ← skip_while (in_set whitespace) (es - s) buf s;
  Pret (ret, (q, eq), s).

(** [peek(ps, es, toks)]: the answer and the new [*ps]. *)
Definition peek (buf : list Z) (s es : nat) (toks : list Z) : prog (bool * nat) :=
  s ← skip_while (in_set whitespace) (es - s) buf s;
  c ← inside (buf !! s);
  Pret (truthy c && in_set toks c, s).

(** One redirection, and the [redircmd]s of several around a command, the last one
    outermost. The node that they go around may still be filled in afterwards, as
    [parseexec] does. *)
Record redir (W : Type) : Type := Redir { r_file : W; r_mode : Z; r_fd : Z }.
Arguments Redir {W} r_file r_mode r_fd.
Arguments r_file {W} _.
Arguments r_mode {W} _.
Arguments r_fd {W} _.

Definition wrap {W : Type} (c : cmd W) (rs : list (redir W)) : cmd W :=
  fold_left (fun c r => REDIR c (r_file r) (r_mode r) (r_fd r)) rs c.

Fixpoint parseredirs (k : nat) (buf : list Z) (s es : nat) (rs : list (redir word)) :
    prog (list (redir word) * nat) :=
  match k with
  | O => Pfuel
  | S k =>
      ' (b, s) ← peek buf s es (lit "<>");
      if negb b then Pret (rs, s) else
      ' (tok, _, s) ← gettoken buf s es;
      ' (t, w, s) ← gettoken buf s es;
      if negb (t =? 97) then panic "missing file for redirection" else
      let rs :=
        if tok =? 60 then rs ++ [Redir w O_RDONLY 0]
        else if tok =? 62 then rs ++ [Redir w (Z.lor (Z.lor O_WRONLY O_CREATE) O_TRUNC) 1]
        else if tok =? 43 then rs ++ [Redir w (Z.lor O_WRONLY O_CREATE) 1]
        else rs in
      parseredirs k buf s es rs
  end.

(** The loop of [parseexec]: the words so far, the redirections so far. *)
Fixpoint parseargs (k : nat) (buf : list Z) (s es : nat) (argv : list word)
    (rs : list (redir word)) : prog (list word * list (redir word) * nat) :=
  match k with
  | O => Pfuel
  | S k =>
      ' (b, s) ← peek buf s es (lit "|)&;");
      if b : bool then Pret (argv, rs, s) else
      ' (tok, w, s) ← gettoken buf s es;
      if tok =? 0 then Pret (argv, rs, s) else
      if negb (tok =? 97) then panic "syntax" else
      let argv := argv ++ [w] in
      if (MAXARGS <=? length argv)%nat then panic "too many args" else
      ' (rs, s) ← parseredirs k buf s es rs;
      parseargs k buf s es argv rs
  end.

(** [while(peek(ps, es, "&")) { gettoken(ps, es, 0, 0); cmd = backcmd(cmd); }] *)
Fixpoint parseback (k : nat) (buf : list Z) (s es : nat) (c : cmd word) : prog (cmd word * nat) :=
  match k with
  | O => Pfuel
  | S k =>
      ' (b, s) ← peek buf s es (lit "&");
      if negb b then Pret (c, s) else
      ' (_, _, s) ← gettoken buf s es;
      parseback k buf s es (BACK c)
  end.

Fixpoint parseline (k : nat) (buf : list Z) (s es : nat) : prog (cmd word * nat) :=
  match k with
  | O => Pfuel
  | S k =>
      ' (c, s) ← parsepipe k buf s es;
      ' (c, s) ← parseback k buf s es c;
      ' (b, s) ← peek buf s es (lit ";");
      if b : bool then
        ' (_, _, s) ← gettoken buf s es;
        ' (r, s) ← parseline k buf s es;
        Pret (LIST c r, s)
      else Pret (c, s)
  end
with parsepipe (k : nat) (buf : list Z) (s es : nat) : prog (cmd word * nat) :=
  match k with
  | O => Pfuel
  | S k =>
      ' (c, s) ← parseexec k buf s es;
      ' (b, s) ← peek buf s es (lit "|");
      if b : bool then
        ' (_, _, s) ← gettoken buf s es;
        ' (r, s) ← parsepipe k buf s es;
        Pret (PIPE c r, s)
      else Pret (c, s)
  end
with parseexec (k : nat) (buf : list Z) (s es : nat) : prog (cmd word * nat) :=
  match k with
  | O => Pfuel
  | S k =>
      ' (b, s) ← peek buf s es (lit "(");
      if b : bool then parseblock k buf s es else
      ' (rs, s) ← parseredirs k buf s es [];
      ' (argv, rs, s) ← parseargs k buf s es [] rs;
      Pret (wrap (EXEC argv) rs, s)
  end
with parseblock (k : nat) (buf : list Z) (s es : nat) : prog (cmd word * nat) :=
  match k with
  | O => Pfuel
  | S k =>
      ' (b, s) ← peek buf s es (lit "(");
      if negb b then panic "parseblock" else
      ' (_, _, s) ← gettoken buf s es;
      ' (c, s) ← parseline k buf s es;
      ' (b, s) ← peek buf s es (lit ")");
      if negb b then panic "syntax - missing )" else
      ' (_, _, s) ← gettoken buf s es;
      ' (rs, s) ← parseredirs k buf s es [];
      Pret (wrap c rs, s)
  end.

(** NUL-terminate all the counted strings. *)
Fixpoint nulterminate (c : cmd word) (buf : list Z) : prog (list Z) :=
  match c with
  | EXEC argv =>
      (fix go (l : list word) (buf : list Z) : prog (list Z) :=
         match l with
         | [] => Pret buf
         | w :: l => buf ← inside (set_char buf w.2 0); go l buf
         end) argv buf
  | REDIR c file _ _ => buf ← nulterminate c buf; inside (set_char buf file.2 0)
  | PIPE l r => buf ← nulterminate l buf; nulterminate r buf
  | LIST l r => buf ← nulterminate l buf; nulterminate r buf
  | BACK c => nulterminate c buf
  end.

(** The bound on the calls that parsing a line of [n] characters makes. *)
Definition parse_fuel (n : nat) : nat := 4 * n + 4.

Definition parsecmd (buf : list Z) : prog (cmd word * list Z) :=
  n ← inside (strlen buf);
  let es := Z.to_nat n in
  ' (c, s) ← parseline (parse_fuel es) buf 0 es;
  ' (_, s) ← peek buf s es [0];
  if negb (s =? es)%nat then
    fprintf 2 "leftovers: %s\n" [UStr (Some (drop s buf))];; panic "syntax"
  else
    buf ← nulterminate c buf;
    Pret (c, buf).

(** ** Running a command *)

(** The strings that the words of a parsed command point to. *)
Fixpoint cmd_map {V W : Type} (f : V -> W) (c : cmd V) : cmd W :=
  match c with
  | EXEC argv => EXEC (f <$> argv)
  | REDIR c file mode fd => REDIR (cmd_map f c) (f file) mode fd
  | PIPE l r => PIPE (cmd_map f l) (cmd_map f r)
  | LIST l r => LIST (cmd_map f l) (cmd_map f r)
  | BACK c => BACK (cmd_map f c)
  end.

Definition strings (buf : list Z) (c : cmd word) : cmd (list Z) :=
  cmd_map (fun w => cstr (drop w.1 buf)) c.

(** [runcmd] never returns. *)
Fixpoint runcmd (c : cmd (list Z)) : prog unit :=
  match c with
  | EXEC argv =>
      match argv with
      | [] => Pexit 1
      | path :: _ =>
          call (Uexec path argv);;
          fprintf 2 "exec %s failed\n" [UStr (Some (path ++ [0]))];;
          Pexit 0
      end
  | REDIR c file mode fd =>
      call (Uclose fd);;
      r ← call (Uopen file mode);
      if r <? 0 then fprintf 2 "open %s failed\n" [UStr (Some (file ++ [0]))];; Pexit 1 else
      runcmd c;;
      Pexit 0
  | LIST l r =>
      pid ← fork1;
      pwhen (pid =? 0) (runcmd l);;
      call Uwait;;
      runcmd r;;
      Pexit 0
  | PIPE l r =>
      p ← call Upipe;
      match p with
      | None => panic "pipe"
      | Some (p0, p1) =>
          pid ← fork1;
          pwhen (pid =? 0) (call (Uclose 1);; call (Udup p1);; call (Uclose p0);; call (Uclose p1);; runcmd l);;
          pid ← fork1;
          pwhen (pid =? 0) (call (Uclose 0);; call (Udup p0);; call (Uclose p0);; call (Uclose p1);; runcmd r);;
          call (Uclose p0);;
          call (Uclose p1);;
          call Uwait;;
          call Uwait;;
          Pexit 0
      end
  | BACK c =>
      pid ← fork1;
      pwhen (pid =? 0) (runcmd c);;
      Pexit 0
  end.

(** ** The shell itself *)

Definition NBUF_SH : Z := 100.

(** [getcmd(buf, nbuf)]: the return value and the buffer. *)
Definition getcmd (buf : list Z) (nbuf : Z) : prog (Z * list Z) :=
  call (Uwrite 2 (chars "$ "));;
  buf ← inside (memset buf 0 nbuf);
  buf ← gets buf nbuf;
  c ← inside (buf !! 0%nat);
  Pret (if c =? 0 then -1 else 0, buf).

(** [while((fd = open("console", O_RDWR)) >= 0) ...] *)
Fixpoint open_console (k : nat) : prog unit :=
  match k with
  | O => Pfuel
  | S k =>
      fd ← uopen (lit "console") O_RDWR;
      if fd <? 0 then Pret tt
      else if 3 <=? fd then call (Uclose fd);; Pret tt
      else open_console k
  end.

(** The spaces and tabs at the beginning of the line. *)
Fixpoint skip_blanks (buf : list Z) : list Z :=
  match buf with
  | c :: l => if (c =? 32) || (c =? 9) then skip_blanks l else buf
  | [] => []
  end.

(** One command line, [cmd] being what follows the blanks. *)
Definition sh_line (c : list Z) : prog unit :=
  c0 ← inside (c !! 0%nat);
  if c0 =? 10 then Pret tt else
  if bool_decide (take 3 c = chars "cd ") then
    n ← inside (strlen c);
    c ← inside (set_char c (Z.to_nat (u32 (n - 1))) 0);
    r ← call (Uchdir (cstr (drop 3 c)));
    pwhen (r <? 0) (fprintf 2 "cannot cd %s\n" [UStr (Some (drop 3 c))])
  else
    pid ← fork1;
    pwhen (pid =? 0) (' (t, b) ← parsecmd c; runcmd (strings b t));;
    call Uwait;;
    Pret tt.

Fixpoint sh_loop (k : nat) (buf : list Z) : prog unit :=
  match k with
  | O => Pfuel
  | S k =>
      ' (r, buf) ← getcmd buf NBUF_SH;
      if r <? 0 then Pexit 0 else
      sh_line (skip_blanks buf);;
      sh_loop k buf
  end.

Definition sh_main `{Fuel} : prog unit :=
  open_console fuel;;
  sh_loop fuel (replicate (Z.to_nat NBUF_SH) 0).

Close Scope user_scope.

(** ** The parser is total

    On every line it either returns a well-formed command or reports an error. *)

(** The line of [es] characters at the beginning of [buf]. *)
Definition is_line (buf : list Z) (es : nat) : Prop :=
  buf !! es = Some 0 /\ forall i, (i < es)%nat -> exists c, buf !! i = Some c /\ c <> 0.

(** A command whose words are inside the line and whose argument vectors have room
    for their null pointer. *)
Fixpoint cmd_ok (es : nat) (c : cmd word) : Prop :=
  let word_ok (w : word) := (w.1 < w.2 <= es)%nat in
  match c with
  | EXEC argv => (length argv < MAXARGS)%nat /\ Forall word_ok argv
  | REDIR c file _ _ => cmd_ok es c /\ word_ok file
  | PIPE l r | LIST l r => cmd_ok es l /\ cmd_ok es r
  | BACK c => cmd_ok es c
  end.

Lemma in_set_cons a l c : a <> 0 -> in_set (a :: l) c = (a =? c) || in_set l c.
Proof.
  intros Ha. unfold in_set. cbn [strchr]. rewrite (proj2 (Z.eqb_neq a 0)) by done.
  destruct (a =? c); [done|]. by destruct (strchr l c) as [[|]|].
Qed.

(** [in_set] of a literal, character by character. *)
Ltac in_set_lit H :=
  repeat match type of H with
  | context [in_set (lit ?s) ?c] => let v := eval vm_compute in (lit s) in change (lit s) with v in H
  | context [in_set (_ :: _) _] => rewrite in_set_cons in H by discriminate
  | context [in_set [0] ?c] => change (in_set [0] c) with false in H
  end.

Lemma not_symbol c : c <> 62 -> in_set (lit "|();&<") c = false -> in_set symbols c = false.
Proof.
  intros Hc H. destruct (in_set symbols c) eqn:E; [|done]. unfold symbols in E.
  in_set_lit H. in_set_lit E. lia.
Qed.

Lemma uputs_reports fd out s P E :
  terminated s -> P (out ++ map u8 (cstr s)) tt -> reports fd out (uputs fd s) P E.
Proof.
  unfold terminated. revert out. induction s as [|c s IH]; intros out Hs HP; [by apply elem_of_nil in Hs|].
  simpl in *. destruct (c =? 0) eqn:Ec; [by rewrite app_nil_r in HP|]. simpl. rewrite Z.eqb_refl. intros _. simpl.
  apply IH; [bool_to_prop; set_solver|]. rewrite <- app_assoc. exact HP.
Qed.

(** The loop of [vprintf] at an ordinary character, and at a last [%s] and newline. *)
Lemma vprintf_char k fd out c fmt args P E :
  c <> 0 -> u8 c <> 37 -> reports fd (out ++ [u8 (u8 c)]) (vprintf_loop k fd false fmt args) P E ->
  reports fd out (vprintf_loop (S k) fd false (c :: fmt) args) P E.
Proof.
  intros Hc Hp Hk. cbn [vprintf_loop]. rewrite (proj2 (Z.eqb_neq c 0)), (proj2 (Z.eqb_neq _ 37)) by done.
  cbn [negb putc call pbind reports written]. rewrite Z.eqb_refl. intros _. exact Hk.
Qed.

Lemma vprintf_str k fd out s P E :
  terminated s -> P (out ++ map u8 (cstr s) ++ [10]) tt ->
  reports fd out (vprintf_loop (S (S (S (S k)))) fd false [37; 115; 10; 0] [UStr (Some s)]) P E.
Proof.
  intros Hs HP.
  change (reports fd out (pbind (pbind (uputs fd s) (fun _ => Pret (0%nat, @nil uarg)))
    (fun '(n, args) => vprintf_loop (S (S k)) fd false (drop n [10; 0]) args)) P E).
  apply reports_bind, reports_bind. apply uputs_reports; [done|]. cbn [reports drop].
  apply vprintf_char; [done|done|]. by rewrite <- app_assoc.
Qed.

(** The messages of [panic] in the parser, and the ways in which the parser gives up on
    the line [line]: status 1 after one of the messages, or after naming what is left of
    the line behind a complete command. *)
Definition parser_messages : list string :=
  ["missing file for redirection"; "syntax"; "too many args"; "parseblock"; "syntax - missing )"].

Definition diagnosed (line : list Z) (status : Z) (out : list Z) : Prop :=
  status = 1 /\
  ((exists msg, In msg parser_messages /\ out = chars msg ++ [10])
   \/ exists s, (s < length line)%nat
        /\ out = chars "leftovers: " ++ map u8 (drop s line) ++ [10] ++ chars "syntax" ++ [10]).

Lemma panic_reports {A} out msg (P : list Z -> A -> Prop) (E : Z -> list Z -> Prop) :
  In msg parser_messages -> E 1 (out ++ chars msg ++ [10]) -> reports 2 out (panic msg) P E.
Proof.
  intros Hin HE. unfold panic. apply reports_bind. apply (vprintf_str 1); [unfold terminated, lit; set_solver|].
  simpl reports. replace (map u8 (cstr (lit msg))) with (chars msg); [done|].
  unfold parser_messages in Hin. simpl in Hin. by decompose [or] Hin; subst.
Qed.

Lemma panic_safe {A} line msg (P : A -> Prop) : In msg parser_messages -> psafe (diagnosed line) (panic msg) P.
Proof. intros Hin. apply panic_reports; [done|]. split; [done|]. left. by exists msg. Qed.

Lemma leftovers_safe {A} line s (P : A -> Prop) :
  (s < length (cstr line))%nat -> terminated (drop s line) -> cstr (drop s line) = drop s (cstr line) ->
  psafe (diagnosed (cstr line))
    (pbind (fprintf 2 "leftovers: %s\n" [UStr (Some (drop s line))]) (fun _ => panic "syntax")) P.
Proof.
  intros Hlt Hs Hc. apply reports_bind. unfold fprintf, vprintf.
  change (lit "leftovers: %s\n") with (chars "leftovers: " ++ [37; 115; 10; 0]).
  change (S (length _)) with 16%nat. simpl app.
  do 11 (apply vprintf_char; [discriminate|discriminate|]). apply vprintf_str; [done|].
  apply panic_reports; [simpl; tauto|]. split; [done|]. right. exists s. split; [done|]. rewrite Hc.
  by rewrite <- !app_assoc.
Qed.

Section total.
Context (buf : list Z) (es : nat) (Hline : is_line buf es) (line : list Z).

Notation safe := (psafe (diagnosed line)).

Lemma line_char i : (i <= es)%nat -> exists c, buf !! i = Some c /\ (c = 0 <-> i = es).
Proof using Hline.
  intros Hi. destruct (decide (i = es)) as [->|Hne].
  - exists 0. by destruct Hline.
  - destruct (proj2 Hline i) as (c & ? & ?); [lia|]. by exists c.
Qed.

Lemma skip_while_spec p s :
  (s <= es)%nat ->
  exists s', skip_while p (es - s) buf s = Pret s' /\ (s <= s' <= es)%nat
    /\ (s' = es \/ exists c, buf !! s' = Some c /\ p c = false)
    /\ (forall c, buf !! s = Some c -> if p c then s = es \/ (s < s')%nat else s' = s).
Proof using Hline.
  remember (es - s)%nat as k eqn:Hk. revert s Hk. induction k as [|k IH]; intros s Hk Hs; simpl.
  - exists s. split_and!; [done|lia|lia|left; lia|]. intros c _. destruct (p c); lia.
  - destruct (line_char s Hs) as (c & Hc & _). rewrite Hc. cbn [inside pbind]. destruct (p c) eqn:E.
    + destruct (IH (S s)) as (s' & -> & Hs' & Hstop & _); [lia|lia|]. exists s'.
      split_and!; [done|lia|lia|done|]. intros c' Hc'. replace c' with c by congruence.
      rewrite E. lia.
    + exists s. split_and!; [done|lia|lia|by eauto|]. intros c' Hc'. replace c' with c by congruence.
      by rewrite E.
Qed.

(** The [switch] of [gettoken] at the character [c]. *)
Lemma token_spec q c :
  (q <= es)%nat -> buf !! q = Some c -> (q = es \/ in_set whitespace c = false) ->
  exists ret s,
    (if c =? 0 then Pret (c, q)
     else if in_set (lit "|();&<") c then Pret (c, S q)
     else if c =? 62 then
       pbind (inside (buf !! S q)) (fun c' => if c' =? 62 then Pret (43, S (S q)) else Pret (62, S q))
     else
       pbind (skip_while (fun c => negb (in_set whitespace c) && negb (in_set symbols c)) (es - q) buf q)
         (fun s => Pret (97, s))) = Pret (ret, s)
    /\ (q <= s <= es)%nat /\ (ret = 0 <-> c = 0) /\ (ret <> 0 -> (q < s)%nat).
Proof using Hline.
  intros Hq Hc Hws. destruct (line_char q Hq) as (c0 & Hc0 & Hz). replace c0 with c in * by congruence.
  destruct (Z.eqb_spec c 0) as [->|Hnz].
  { exists 0, q. split_and!; try done; lia. }
  assert (Hlt : (q < es)%nat) by (destruct (decide (q = es)); [tauto|lia]).
  destruct (in_set (lit "|();&<") c) eqn:E1; [|destruct (Z.eqb_spec c 62) as [->|H62]].
  - exists c, (S q). split_and!; try done; lia.
  - destruct (line_char (S q)) as (c' & -> & Hz'); [lia|]. cbn [inside pbind].
    destruct (Z.eqb_spec c' 62) as [->|_]; [exists 43, (S (S q))|exists 62, (S q)]; split_and!; try done; try lia.
  - destruct (skip_while_spec (fun c => negb (in_set whitespace c) && negb (in_set symbols c)) q Hq)
      as (s & -> & Hs & _ & Hadv). specialize (Hadv _ Hc). destruct Hws as [->|Hws]; [lia|].
    rewrite Hws, (not_symbol c H62 E1) in Hadv. simpl in Hadv. exists 97, s. split_and!; try done; lia.
Qed.

Lemma gettoken_spec s :
  (s <= es)%nat ->
  exists tok w s', gettoken buf s es = Pret (tok, w, s') /\ (s <= s' <= es)%nat
    /\ (w.1 <= w.2 <= es)%nat /\ (tok <> 0 -> (w.1 < w.2)%nat /\ (s < s')%nat)
    /\ (forall c, buf !! s = Some c -> c <> 0 -> in_set whitespace c = false -> tok <> 0).
Proof using Hline.
  intros Hs. unfold gettoken.
  destruct (skip_while_spec (in_set whitespace) s Hs) as (q & -> & Hq & Hstop & Hskip). cbn [pbind].
  destruct (line_char q) as (c & Hc & Hz); [lia|]. rewrite Hc. cbn [inside pbind].
  destruct (token_spec q c) as (tok & s1 & -> & Hs1 & Htok & Hadv); [lia|done| |].
  { destruct Hstop as [->|(c' & Hc' & E)]; [by left|]. right. by replace c with c' by congruence. }
  cbn [pbind].
  destruct (skip_while_spec (in_set whitespace) s1) as (s' & -> & Hs' & _); [lia|]. cbn [pbind].
  exists tok, (q, s1), s'. simpl. split_and!; try done; try lia.
  intros c' Hc' Hnz Hws. specialize (Hskip _ Hc'). rewrite Hws in Hskip. subst q.
  rewrite Htok. congruence.
Qed.

Lemma peek_spec s toks :
  (s <= es)%nat ->
  exists b s', peek buf s es toks = Pret (b, s') /\ (s <= s' <= es)%nat
    /\ (b = true -> exists c, buf !! s' = Some c /\ c <> 0 /\ in_set whitespace c = false).
Proof using Hline.
  intros Hs. unfold peek.
  destruct (skip_while_spec (in_set whitespace) s Hs) as (s' & -> & Hs' & Hstop & _). cbn [pbind].
  destruct (line_char s') as (c & Hc & Hz); [lia|]. rewrite Hc. cbn [inside pbind].
  eexists _, s'. split_and!; [done|lia|lia|]. intros Hb. bool_to_prop. exists c.
  split_and!; [done|done|]. destruct Hstop as [->|(c' & Hc' & E)]; [tauto|]. by replace c with c' by congruence.
Qed.

(** The token that [peek] has seen is consumed. *)
Lemma eat_spec s :
  (s <= es)%nat -> (exists c, buf !! s = Some c /\ c <> 0 /\ in_set whitespace c = false) ->
  exists tok w s', gettoken buf s es = Pret (tok, w, s') /\ (s < s' <= es)%nat.
Proof using Hline.
  intros Hs (c & Hc & Hnz & Hws).
  destruct (gettoken_spec s Hs) as (tok & w & s' & E & Hs' & _ & Hadv & Htok).
  exists tok, w, s'. split; [done|]. destruct (Hadv (Htok _ Hc Hnz Hws)). lia.
Qed.

Definition redir_ok (r : redir word) : Prop := ((r_file r).1 < (r_file r).2 <= es)%nat.

Lemma wrap_ok c rs : cmd_ok es c -> Forall redir_ok rs -> cmd_ok es (wrap c rs).
Proof.
  unfold wrap. revert c. induction rs as [|r rs IH]; intros c Hc Hrs; simpl; [done|].
  apply Forall_cons in Hrs as [Hr Hrs]. by apply IH.
Qed.

Lemma parseredirs_safe k s rs :
  (s <= es)%nat -> (es - s < k)%nat -> Forall redir_ok rs ->
  safe (parseredirs k buf s es rs) (fun '(rs', s') => (s <= s' <= es)%nat /\ Forall redir_ok rs').
Proof using Hline.
  revert s rs. induction k as [|k IH]; intros s rs Hs Hk Hrs; [lia|]. cbn [parseredirs].
  destruct (peek_spec s (lit "<>") Hs) as (b & s1 & -> & Hs1 & Hb). cbn [pbind].
  destruct b; cbn [negb]; [|apply psafe_ret; split; [lia|done]].
  destruct (eat_spec s1) as (tok & w1 & s2 & -> & Hs2); [lia|auto|]. cbn [pbind].
  destruct (gettoken_spec s2) as (t & w & s3 & -> & Hs3 & Hw & Hadv2 & _); [lia|]. cbn [pbind].
  destruct (Z.eqb_spec t 97) as [->|Ht]; cbn [negb]; [|apply panic_safe; simpl; tauto].
  destruct Hadv2 as [Hw2 _]; [done|].
  eapply psafe_mono; [apply IH; [lia|lia|]|].
  - assert (Hr : forall m fd, Forall redir_ok (rs ++ [Redir w m fd])).
    { intros m fd. apply Forall_app. split; [done|]. constructor; [|done]. unfold redir_ok. simpl. lia. }
    repeat case_if; auto.
  - intros [rs' s'] [? ?]. split; [lia|done].
Qed.

Lemma parseargs_safe k s argv rs :
  (s <= es)%nat -> (es - s < k)%nat -> Forall redir_ok rs -> cmd_ok es (EXEC argv) ->
  safe (parseargs k buf s es argv rs) (fun '(argv', rs', s') =>
    (s <= s' <= es)%nat /\ Forall redir_ok rs' /\ cmd_ok es (EXEC argv')).
Proof using Hline.
  revert s argv rs. induction k as [|k IH]; intros s argv rs Hs Hk Hrs Hav; [lia|]. cbn [parseargs].
  destruct (peek_spec s (lit "|)&;") Hs) as (b & s1 & -> & Hs1 & _). cbn [pbind].
  destruct b; [apply psafe_ret; split_and!; [lia|lia|done|done]|].
  destruct (gettoken_spec s1) as (tok & w & s2 & -> & Hs2 & Hw & Hadv & _); [lia|]. cbn [pbind].
  destruct (Z.eqb_spec tok 0) as [->|Hnz]; [apply psafe_ret; split_and!; [lia|lia|done|done]|].
  destruct (tok =? 97); cbn [negb]; [|apply panic_safe; simpl; tauto]. destruct (Hadv Hnz) as [Hw2 Hlt].
  destruct (MAXARGS <=? _)%nat eqn:Emax; [apply panic_safe; simpl; tauto|]. apply Nat.leb_gt in Emax.
  eapply psafe_step; [apply (parseredirs_safe k s2 rs); [lia|lia|done]|]. intros [rs' s3] [Hs3 Hrs'].
  eapply psafe_mono; [apply IH; [lia|lia|done|]|].
  - split; [done|]. apply Forall_app. split; [apply Hav|]. constructor; [lia|done].
  - intros [[av' rs''] s'] (? & ? & ?). split_and!; [lia|lia|done|done].
Qed.

Lemma parseback_safe k s c :
  (s <= es)%nat -> (es - s < k)%nat -> cmd_ok es c ->
  safe (parseback k buf s es c) (fun '(c', s') => (s <= s' <= es)%nat /\ cmd_ok es c').
Proof using Hline.
  revert s c. induction k as [|k IH]; intros s c Hs Hk Hc; [lia|]. cbn [parseback].
  destruct (peek_spec s (lit "&") Hs) as (b & s1 & -> & Hs1 & Hb). cbn [pbind].
  destruct b; cbn [negb]; [|apply psafe_ret; split; [lia|done]].
  destruct (eat_spec s1) as (tok & w1 & s2 & -> & Hs2); [lia|auto|]. cbn [pbind].
  eapply psafe_mono; [apply IH; [lia|lia|done]|]. intros [c' s'] [? ?]. split; [lia|done].
Qed.

(** What a function of the parser at [s] returns. *)
Definition parsed (s : nat) (r : cmd word * nat) : Prop := (s <= r.2 <= es)%nat /\ cmd_ok es r.1.

Lemma psafe_parsed s s' m : (s <= s')%nat -> safe m (parsed s') -> safe m (parsed s).
Proof. intros Hs Hm. eapply psafe_mono; [exact Hm|]. intros [c r] [H1 H2]. split; [simpl in *; lia|done]. Qed.

(** [parseline] and [parsepipe] after their first command: an operator, the rest and
    the node that joins the two. *)
Lemma parse_rest s s1 c toks (node : cmd word -> cmd word -> cmd word) rest :
  (s <= s1 <= es)%nat -> cmd_ok es c ->
  (forall l r, cmd_ok es l -> cmd_ok es r -> cmd_ok es (node l r)) ->
  (forall s2, (s1 < s2 <= es)%nat -> safe (rest s2) (parsed s2)) ->
  safe (pbind (peek buf s1 es toks) (fun '(b, s1) =>
    if b : bool then
      pbind (gettoken buf s1 es) (fun '(_, _, s2) =>
        pbind (rest s2) (fun '(r, s3) => Pret (node c r, s3)))
    else Pret (c, s1))) (parsed s).
Proof using Hline.
  intros Hs1 Hc Hnode Hrest.
  destruct (peek_spec s1 toks) as (b & s2 & -> & Hs2 & Hb); [lia|]. cbn [pbind].
  destruct b; [|apply psafe_ret; split; [simpl; lia|done]].
  destruct (eat_spec s2) as (tok & w & s3 & -> & Hs3); [lia|auto|]. cbn [pbind].
  eapply psafe_step; [apply Hrest; lia|]. intros [r s4] [H4 Hr]. apply psafe_ret. split; [simpl in *; lia|].
  by apply Hnode.
Qed.

Lemma parse_safe k :
  (forall s, (s <= es)%nat -> (4 * (es - s) + 4 <= k)%nat -> safe (parseline k buf s es) (parsed s))
  /\ (forall s, (s <= es)%nat -> (4 * (es - s) + 3 <= k)%nat -> safe (parsepipe k buf s es) (parsed s))
  /\ (forall s, (s <= es)%nat -> (4 * (es - s) + 2 <= k)%nat -> safe (parseexec k buf s es) (parsed s))
  /\ (forall s, (s <= es)%nat -> (4 * (es - s) + 1 <= k)%nat -> safe (parseblock k buf s es) (parsed s)).
Proof using Hline.
  induction k as [|k (IHl & IHp & IHe & IHb)]; [split_and!; intros; lia|].
  split_and!; intros s Hs Hk.
  - cbn [parseline]. eapply psafe_step; [apply IHp; lia|]. intros [c s1] [Hs1 Hc].
    eapply psafe_step; [apply (parseback_safe k s1 c); simpl in *; [lia|lia|done]|].
    intros [c2 s2] [Hs2 Hc2]. simpl in *. apply parse_rest; [lia|done|done|]. intros s3 Hs3. apply IHl; lia.
  - cbn [parsepipe]. eapply psafe_step; [apply IHe; lia|]. intros [c s1] [Hs1 Hc]. simpl in *.
    apply parse_rest; [lia|done|done|]. intros s3 Hs3. apply IHp; lia.
  - cbn [parseexec]. destruct (peek_spec s (lit "(") Hs) as (b & s1 & -> & Hs1 & _). cbn [pbind].
    destruct b; [apply (psafe_parsed s s1); [lia|apply IHb; lia]|].
    eapply psafe_step; [apply (parseredirs_safe k s1 []); [lia|lia|done]|]. intros [rs s2] [Hs2 Hrs].
    eapply psafe_step; [apply (parseargs_safe k s2 [] rs); [lia|lia|done|split; [unfold MAXARGS; simpl; lia|done]]|].
    intros [[argv rs'] s3] (Hs3 & Hrs' & Hav). apply psafe_ret. split; [simpl; lia|by apply wrap_ok].
  - cbn [parseblock]. destruct (peek_spec s (lit "(") Hs) as (b & s1 & -> & Hs1 & Hb). cbn [pbind].
    destruct b; cbn [negb]; [|apply panic_safe; simpl; tauto].
    destruct (eat_spec s1) as (tok & w & s2 & -> & Hs2); [lia|auto|]. cbn [pbind].
    eapply psafe_step; [apply IHl; lia|]. intros [c s3] [Hs3 Hc]. simpl in Hs3.
    destruct (peek_spec s3 (lit ")")) as (b' & s4 & -> & Hs4 & Hb'); [lia|]. cbn [pbind].
    destruct b'; cbn [negb]; [|apply panic_safe; simpl; tauto].
    destruct (eat_spec s4) as (tok' & w' & s5 & -> & Hs5); [lia|auto|]. cbn [pbind].
    eapply psafe_step; [apply (parseredirs_safe k s5 []); [lia|lia|done]|]. intros [rs s6] [Hs6 Hrs].
    apply psafe_ret. split; [simpl; lia|by apply wrap_ok].
Qed.

Lemma nulterminate_safe c b :
  cmd_ok es c -> (es < length b)%nat ->
  exists b', nulterminate c b = Pret b' /\ length b' = length b.
Proof.
  revert b. induction c as [argv|c IH f m fd|l IHl r IHr|l IHl r IHr|c IH]; intros b Hc Hb; simpl in *.
  - destruct Hc as [_ Hf]. revert b Hb. induction argv as [|w argv IH]; intros b Hb; [by exists b|].
    apply Forall_cons in Hf as [Hw Hf]. rewrite set_char_Some by lia. cbn [inside pbind].
    destruct (IH Hf (<[w.2 := 0]> b)) as (b' & -> & Hl); [by rewrite length_insert|].
    exists b'. by rewrite Hl, length_insert.
  - destruct Hc as [Hc Hf]. destruct (IH b Hc Hb) as (b' & -> & Hl). cbn [pbind].
    rewrite set_char_Some by lia. eexists. split; [done|]. by rewrite length_insert.
  - destruct Hc as [H1 H2]. destruct (IHl b H1 Hb) as (b' & -> & Hl'). cbn [pbind].
    destruct (IHr b' H2) as (b'' & -> & Hl''); [lia|]. exists b''. split; [done|lia].
  - destruct Hc as [H1 H2]. destruct (IHl b H1 Hb) as (b' & -> & Hl'). cbn [pbind].
    destruct (IHr b' H2) as (b'' & -> & Hl''); [lia|]. exists b''. split; [done|lia].
  - by apply IH.
Qed.
End total.

Lemma cstr_line buf : terminated buf -> is_line buf (length (cstr buf)).
Proof.
  unfold terminated, is_line. induction buf as [|c buf IH]; intros Ht; [by apply elem_of_nil in Ht|].
  simpl. destruct (Z.eqb_spec c 0) as [->|Hc]; simpl; [split; [done|lia]|].
  destruct IH as [H1 H2]; [set_solver|]. split; [done|]. intros [|i] Hi; [by exists c|]. apply H2. lia.
Qed.

Lemma strlen_loop_spec n buf :
  terminated buf -> 0 <= n -> n + Z.of_nat (length buf) < 2 ^ 31 ->
  strlen_loop n buf = Some (n + Z.of_nat (length (cstr buf))).
Proof.
  unfold terminated. revert n. induction buf as [|c buf IH]; intros n Ht Hn Hl; [by apply elem_of_nil in Ht|].
  simpl length in Hl. cbn [strlen_loop cstr]. unfold truthy. destruct (Z.eqb_spec c 0) as [->|Hc]; cbn [negb length].
  - rewrite u32_small by lia. f_equal. lia.
  - rewrite s32_small by lia. rewrite IH; [f_equal; lia|set_solver|lia|lia].
Qed.

Lemma cstr_drop s buf : (s <= length (cstr buf))%nat -> cstr (drop s buf) = drop s (cstr buf).
Proof.
  revert s. induction buf as [|c buf IH]; intros [|s] Hs; try done. simpl in *. destruct (c =? 0); simpl in *; [lia|].
  apply IH. lia.
Qed.

(** C24. The parser of the shell is total: on every line, whatever it holds, [parsecmd]
    terminates within the bound of four calls for each character, never reads or
    writes outside the line, and makes no system call unless it gives up. Either it
    exits with status 1 after one of its messages on descriptor 2, or it writes nothing
    and returns a command whose words all lie inside the line and whose argument vectors
    fit in [MAXARGS] with their null pointer. *)
Theorem parsecmd_total buf :
  terminated buf -> Z.of_nat (length buf) < 2 ^ 31 ->
  psafe (diagnosed (cstr buf)) (parsecmd buf) (fun '(c, buf') => cmd_ok (length (cstr buf)) c /\ length buf' = length buf).
Proof.
  intros Ht Hl. unfold parsecmd, strlen. rewrite strlen_loop_spec by (done || lia). cbn [inside pbind].
  rewrite Z.add_0_l, Nat2Z.id. pose proof (cstr_line buf Ht) as Hline. set (es := length (cstr buf)) in *.
  eapply psafe_step; [apply (parse_safe buf es Hline (cstr buf) (parse_fuel es)); [lia|unfold parse_fuel; lia]|].
  intros [c s] [Hs Hc]. simpl in *.
  destruct (peek_spec buf es Hline s [0]) as (b & s1 & -> & Hs1 & _); [lia|]. cbn [pbind].
  destruct (s1 =? es)%nat eqn:Ees; cbn [negb].
  - destruct (nulterminate_safe es c buf Hc) as (b' & -> & Hb'); [|done].
    apply lookup_lt_is_Some. destruct Hline as [-> _]. by eauto.
  - apply Nat.eqb_neq in Ees. apply leftovers_safe; [unfold es in *; lia| |apply cstr_drop; unfold es in *; lia].
    unfold terminated. apply list_elem_of_lookup. exists (es - s1)%nat.
    rewrite lookup_drop. replace (s1 + (es - s1))%nat with es by lia. apply Hline.
Qed.

Lemma parsecmd_total_witness :
  psafe (diagnosed (chars "(ls < ) & a|")) (parsecmd (lit "(ls < ) & a|")) (fun '(c, buf') => cmd_ok 12 c /\ length buf' = 13%nat).
Proof.
  apply (parsecmd_total (lit "(ls < ) & a|")).
  - unfold terminated, lit. set_solver.
  - reflexivity.
Defined.
