(* ===== verification/ShellSpec.v ===== *)
(** * The shell parses what it prints

    A printer for commands and the theorem that [parsecmd] reads its output back:
    the grammar that the parser of [src/user/sh.c] implements. *)

From S2P Require Import Prelude Params FsTypes Kstring User Ulib Shell.

(** ** The printer *)

Inductive token : Type := TWord (w : list Z) | TSym (c : Z) | TAppend.

Definition token_text (t : token) : list Z :=
  match t with TWord w => w | TSym c => [c] | TAppend => [62; 62] end.

(** The tokens of a line, each followed by a space. *)
Definition render (ts : list token) : list Z := mjoin ((fun t => token_text t ++ [32]) <$> ts).

Lemma render_cons t ts : render (t :: ts) = token_text t ++ 32 :: render ts.
Proof. unfold render. simpl. by rewrite <- app_assoc. Qed.

Lemma render_app l1 l2 : render (l1 ++ l2) = render l1 ++ render l2.
Proof. unfold render. by rewrite fmap_app, join_app. Qed.

(** The operator of a redirection. *)
Definition redir_token (mode : Z) : token :=
  if mode =? O_RDONLY then TSym 60
  else if mode =? Z.lor (Z.lor O_WRONLY O_CREATE) O_TRUNC then TSym 62
  else TAppend.

Definition redir_tokens (r : redir (list Z)) : list token :=
  [redir_token (r_mode r); TWord (r_file r)].

(** Where a command stands: at the top of a line or in parentheses, before [&] or
    [;], in a pipeline, or where only a simple command or a block may stand. *)
Inductive level : Type := LLine | LBack | LPipe | LExec.

Definition paren (b : bool) (l : list token) : list token :=
  if b then TSym 40 :: l ++ [TSym 41] else l.

Fixpoint tokens (lvl : level) (c : cmd (list Z)) : list token :=
  match c with
  | EXEC argv => TWord <$> argv
  | REDIR c file mode fd => tokens LExec c ++ redir_tokens (Redir file mode fd)
  | PIPE l r =>
      paren (match lvl with LExec => true | _ => false end)
        (tokens LExec l ++ TSym 124 :: tokens LPipe r)
  | LIST l r =>
      paren (match lvl with LLine => false | _ => true end)
        (tokens LBack l ++ TSym 59 :: tokens LLine r)
  | BACK c =>
      paren (match lvl with LLine | LBack => false | _ => true end)
        (tokens LBack c ++ [TSym 38])
  end.

Definition print_cmd (c : cmd (list Z)) : list Z := render (tokens LLine c).

(** The commands that can be typed: words without blanks and operators, fewer
    arguments than [MAXARGS], and the three kinds of redirection. *)
Definition plain_char (c : Z) : Prop := c <> 0 /\ in_set whitespace c = false /\ in_set symbols c = false.
Definition plain (w : list Z) : Prop := w <> [] /\ Forall plain_char w.

Definition redir_kind (mode fd : Z) : Prop :=
  (mode = O_RDONLY /\ fd = 0)
  \/ (mode = Z.lor (Z.lor O_WRONLY O_CREATE) O_TRUNC /\ fd = 1)
  \/ (mode = Z.lor O_WRONLY O_CREATE /\ fd = 1).

Fixpoint typeable (c : cmd (list Z)) : Prop :=
  match c with
  | EXEC argv => (length argv < MAXARGS)%nat /\ Forall plain argv
  | REDIR c file mode fd => typeable c /\ plain file /\ redir_kind mode fd
  | PIPE l r | LIST l r => typeable l /\ typeable r
  | BACK c => typeable c
  end.

(** ** Tokens in the line *)

Definition token_ok (t : token) : Prop :=
  match t with
  | TWord w => plain w
  | TSym c => c ∈ [124; 40; 41; 59; 38; 60; 62]
  | TAppend => True
  end.

(** What [gettoken] returns for a token, and what [peek] looks at. *)
Definition token_code (t : token) : Z :=
  match t with TWord _ => 97 | TSym c => c | TAppend => 43 end.
Definition token_head (t : token) : Z :=
  match t with TWord w => default 0 (head w) | TSym c => c | TAppend => 62 end.

Section tokens.
Context (buf : list Z) (es : nat).

(** The tokens [ts] are what is left at [s]. *)
Definition left_at (s : nat) (ts : list token) : Prop :=
  (exists post, drop s buf = render ts ++ 0 :: post) /\ (s + length (render ts) = es)%nat
  /\ Forall token_ok ts.

(** [skip_while] over the characters [l]. *)
Lemma skip_while_run p s l c r :
  drop s buf = l ++ c :: r -> (s + length l <= es)%nat -> Forall (fun c => p c = true) l ->
  (s + length l = es)%nat \/ p c = false ->
  skip_while p (es - s) buf s = Pret (s + length l)%nat.
Proof.
  revert s. induction l as [|a l IH]; intros s Hd Hle Hl Hstop; simpl in *.
  - rewrite Nat.add_0_r in *. destruct (es - s)%nat eqn:E; [done|]. simpl.
    assert (Hc : buf !! s = Some c).
    { rewrite <- (Nat.add_0_r s), <- lookup_drop, Hd. done. }
    rewrite Hc. cbn [inside pbind]. destruct Hstop as [? | ->]; [lia|done].
  - apply Forall_cons in Hl as [Ha Hl]. destruct (es - s)%nat as [|k] eqn:E; [lia|]. simpl.
    assert (Hc : buf !! s = Some a).
    { rewrite <- (Nat.add_0_r s), <- lookup_drop, Hd. done. }
    rewrite Hc. cbn [inside pbind]. rewrite Ha. replace k with (es - S s)%nat by lia.
    rewrite (IH (S s)); [f_equal; lia| |lia|done|].
    + change (S s) with (1 + s)%nat. rewrite Nat.add_comm, <- drop_drop, Hd. done.
    + destruct Hstop; [left; lia|by right].
Qed.

(** The first character of a token is not a blank. *)
Lemma token_text_cons t :
  token_ok t -> exists r, token_text t = token_head t :: r
    /\ token_head t <> 0 /\ in_set whitespace (token_head t) = false.
Proof.
  destruct t as [w|c|]; simpl.
  - intros [Hne Hp]. destruct w as [|a w]; [done|]. apply Forall_cons in Hp as [(? & ? & ?) _].
    exists w. by split_and!.
  - intros Hc. exists []. split; [done|]. repeat (apply elem_of_cons in Hc as [->|Hc]; [done|]).
    by apply elem_of_nil in Hc.
  - intros _. by exists [62].
Qed.

Definition next_in (toks : list Z) (ts : list token) : bool :=
  match ts with t :: _ => in_set toks (token_head t) | [] => false end.

(** The character at [s]. *)
Lemma left_char s ts :
  left_at s ts ->
  buf !! s = Some (match ts with t :: _ => token_head t | [] => 0 end) /\ (s <= es)%nat.
Proof.
  intros ((post & Hd) & Hlen & Hok). split; [|lia]. rewrite <- (Nat.add_0_r s), <- lookup_drop, Hd.
  destruct ts as [|t ts]; [done|]. apply Forall_cons in Hok as [Ht _].
  destruct (token_text_cons t Ht) as (r & E & _). unfold render. simpl. by rewrite E.
Qed.

(** No blank to skip at a token. *)
Lemma left_skip s ts :
  left_at s ts -> skip_while (in_set whitespace) (es - s) buf s = Pret s.
Proof.
  intros Hat. pose proof (left_char _ _ Hat) as [Hc Hs]. destruct Hat as ((post & Hd) & Hlen & Hok).
  pose proof (skip_while_run (in_set whitespace) s []) as H. simpl in H.
  rewrite Nat.add_0_r in H. destruct ts as [|t ts].
  - apply (H 0 post Hd); [lia|done|]. left. simpl in Hlen. lia.
  - apply Forall_cons in Hok as [Ht _]. destruct (token_text_cons t Ht) as (r & E & _ & Hw).
    eapply (H (token_head t)); [|lia|done|by right]. rewrite Hd. unfold render. simpl. by rewrite E.
Qed.

Lemma peek_at s ts toks : left_at s ts -> peek buf s es toks = Pret (next_in toks ts, s).
Proof.
  intros Hat. unfold peek. rewrite (left_skip _ _ Hat). cbn [pbind].
  pose proof (left_char _ _ Hat) as [-> _]. cbn [inside pbind]. destruct ts as [|t ts]; [done|].
  destruct Hat as (_ & _ & Hok). apply Forall_cons in Hok as [Ht _].
  destruct (token_text_cons t Ht) as (r & _ & Hnz & _). unfold truthy.
  by rewrite (proj2 (Z.eqb_neq _ 0)).
Qed.

Lemma left_next s t ts : left_at s (t :: ts) -> left_at (s + length (token_text t) + 1) ts.
Proof.
  intros ((post & Hd) & Hlen & Hok). apply Forall_cons in Hok as [_ Hok].
  rewrite render_cons in Hd, Hlen. rewrite length_app in Hlen. simpl in Hlen.
  split_and!; [|lia|done]. exists post. rewrite <- Nat.add_assoc, <- drop_drop, Hd.
  by rewrite <- app_assoc, drop_app_add.
Qed.

(** [gettoken] at a token and at the end of the line. *)
Lemma gettoken_end s : left_at s [] -> gettoken buf s es = Pret (0, (s, s), s).
Proof.
  intros Hat. unfold gettoken. rewrite (left_skip _ _ Hat). cbn [pbind].
  pose proof (left_char _ _ Hat) as [-> _]. cbn [inside pbind Z.eqb].
  rewrite (left_skip _ _ Hat). done.
Qed.

(** The space after a token. *)
Lemma skip_blank s t ts :
  left_at s (t :: ts) ->
  skip_while (in_set whitespace) (es - (s + length (token_text t))) buf (s + length (token_text t))
  = Pret (s + length (token_text t) + 1)%nat.
Proof.
  intros Hat. pose proof (left_next _ _ _ Hat) as Hnext. pose proof Hat as ((post & Hd) & Hlen & Hok).
  rewrite render_cons in Hd, Hlen. rewrite length_app in Hlen. simpl in Hlen.
  assert (Hd' : drop (s + length (token_text t)) buf = [32] ++ render ts ++ 0 :: post).
  { by rewrite <- drop_drop, Hd, <- app_assoc, drop_app_length. }
  pose proof (skip_while_run (in_set whitespace) (s + length (token_text t)) [32]) as H. simpl length in H.
  destruct ts as [|t' ts].
  - apply (H 0 post Hd'); [simpl in Hlen; lia|by repeat constructor|]. left. simpl in Hlen. lia.
  - apply Forall_cons in Hok as [_ [Ht' _]%Forall_cons].
    destruct (token_text_cons t' Ht') as (r & E & _ & Hw). rewrite render_cons, E in Hd'.
    eapply H; [exact Hd'|rewrite render_cons, length_app in Hlen; simpl in Hlen; lia|by repeat constructor|by right].
Qed.

Lemma plain_not_operator c : plain_char c -> in_set (lit "|();&<") c = false /\ c <> 62.
Proof.
  intros (Hnz & _ & Hs). split.
  - destruct (in_set (lit "|();&<") c) eqn:E; [|done]. unfold symbols in Hs. in_set_lit Hs. in_set_lit E. lia.
  - intros ->. by vm_compute in Hs.
Qed.

Lemma gettoken_at s t ts :
  left_at s (t :: ts) ->
  gettoken buf s es = Pret (token_code t, (s, s + length (token_text t))%nat, (s + length (token_text t) + 1)%nat).
Proof.
  intros Hat. unfold gettoken. rewrite (left_skip _ _ Hat). cbn [pbind].
  pose proof (left_char _ _ Hat) as [-> Hs]. cbn [inside pbind].
  pose proof (skip_blank _ _ _ Hat) as Hblank. pose proof Hat as ((post & Hd) & Hlen & Hok).
  rewrite render_cons in Hd, Hlen. rewrite length_app in Hlen. simpl in Hlen.
  apply Forall_cons in Hok as [Ht _].
  assert (Hch : forall i c, (token_text t ++ 32 :: render ts ++ 0 :: post) !! i = Some c -> buf !! (s + i)%nat = Some c).
  { intros i c Hi. rewrite <- lookup_drop, Hd, <- app_assoc. done. }
  destruct t as [w|c|].
  - destruct Ht as [Hne Hp]. destruct w as [|a w]; [done|].
    pose proof Hp as [Ha _]%Forall_cons. destruct (plain_not_operator a Ha) as [Hop H62].
    destruct Ha as (Hnz & Hws & Hsy). change (token_head (TWord (a :: w))) with a.
    rewrite (proj2 (Z.eqb_neq a 0)), Hop, (proj2 (Z.eqb_neq a 62)) by done.
    rewrite (skip_while_run _ s (a :: w) 32 (render ts ++ 0 :: post)).
    + cbn [pbind]. cbn [token_text] in Hblank. rewrite Hblank. done.
    + rewrite Hd, <- app_assoc. done.
    + simpl in *. lia.
    + eapply Forall_impl; [exact Hp|]. intros x (_ & -> & ->). done.
    + by right.
  - cbn [token_head]. assert (Hc62 : c = 62 \/ in_set (lit "|();&<") c = true /\ c <> 0).
    { simpl in Ht. repeat (apply elem_of_cons in Ht as [->|Ht]; [by auto|]). by apply elem_of_nil in Ht. }
    destruct Hc62 as [->|[E Hnz]].
    + assert (H32 : buf !! S s = Some 32) by (rewrite <- Nat.add_1_r; by apply Hch).
      change (in_set (lit "|();&<") 62) with false. cbn [Z.eqb Pos.eqb]. rewrite H32. cbn [inside pbind Z.eqb Pos.eqb].
      cbn [token_text length] in Hblank. rewrite <- Nat.add_1_r, Hblank. done.
    + rewrite (proj2 (Z.eqb_neq c 0)), E by done. cbn [pbind].
      cbn [token_text length] in Hblank. rewrite <- Nat.add_1_r, Hblank. done.
  - cbn [token_head]. change (in_set (lit "|();&<") 62) with false. cbn [Z.eqb Pos.eqb].
    assert (H62 : buf !! S s = Some 62) by (rewrite <- Nat.add_1_r; by apply Hch).
    rewrite H62. cbn [inside pbind Z.eqb Pos.eqb]. cbn [token_text length] in Hblank.
    replace (S (S s)) with (s + 2)%nat by lia. rewrite Hblank. done.
Qed.
End tokens.

(** ** Parsing the tokens of a command *)

Section parse.
Context (buf : list Z) (es : nat).
Notation left_at := (left_at buf es).

(** The word [w] of the line reads [txt]. *)
Definition word_at (w : word) (txt : list Z) : Prop :=
  plain txt /\ w.2 = (w.1 + length txt)%nat /\ exists rest, drop w.1 buf = txt ++ 32 :: rest.

Definition redir_at (r : redir word) (r' : redir (list Z)) : Prop :=
  word_at (r_file r) (r_file r') /\ r_mode r = r_mode r' /\ r_fd r = r_fd r'.

(** The command [r] of the parser reads [c]. *)
Inductive reads : cmd word -> cmd (list Z) -> Prop :=
| reads_exec ws txts : Forall2 word_at ws txts -> reads (EXEC ws) (EXEC txts)
| reads_redir r c w txt mode fd :
    reads r c -> word_at w txt -> reads (REDIR r w mode fd) (REDIR c txt mode fd)
| reads_pipe l r l' r' : reads l l' -> reads r r' -> reads (PIPE l r) (PIPE l' r')
| reads_list l r l' r' : reads l l' -> reads r r' -> reads (LIST l r) (LIST l' r')
| reads_back r c : reads r c -> reads (BACK r) (BACK c).

Lemma reads_wrap r c rs rs' :
  reads r c -> Forall2 redir_at rs rs' -> reads (wrap r rs) (wrap c rs').
Proof.
  unfold wrap. intros Hr Hrs. revert r c Hr.
  induction Hrs as [|x y rs rs' (Hw & Hm & Hf) _ IH]; intros r c Hr; simpl; [done|].
  apply IH. rewrite Hm, Hf. by constructor.
Qed.

(** What follows is the end of the line or an operator of [set]. *)
Definition followed (set : list Z) (ts : list token) : Prop := ts = [] \/ next_in set ts = true.

(** An operator of one set is not in another. *)
Ltac other_operator :=
  match goal with
  | H : followed _ ?ts |- next_in _ ?ts = false =>
      destruct H as [->|H]; [reflexivity|];
      destruct ts as [|? ?]; [reflexivity|]; cbn [next_in] in *;
      match goal with |- in_set ?s ?c = false => destruct (in_set s c) eqn:?; [exfalso|reflexivity] end;
      repeat match goal with E : in_set _ _ = true |- _ => progress in_set_lit E end; lia
  end.

Lemma followed_weaken ts : followed (lit ")&;") ts -> followed (lit "|)&;") ts.
Proof.
  intros [->|H]; [by left|]. right. destruct ts as [|t ts]; [done|]. cbn [next_in] in *.
  destruct (in_set (lit "|)&;") (token_head t)) eqn:E; [done|]. in_set_lit H. in_set_lit E. lia.
Qed.

Lemma left_word s w ts : left_at s (TWord w :: ts) -> word_at (s, s + length w)%nat w.
Proof.
  intros ((post & Hd) & _ & Hok). apply Forall_cons in Hok as [Hw _].
  rewrite render_cons in Hd. split_and!; [done|done|]. simpl in *. rewrite Hd, <- app_assoc. by eexists.
Qed.

Lemma left_app_ok s ts1 ts2 : left_at s (ts1 ++ ts2) -> Forall token_ok ts1.
Proof. intros (_ & _ & Hok). by apply Forall_app in Hok as [? _]. Qed.

Lemma left_bound s t ts : left_at s (t :: ts) -> (s + length (token_text t) + 1 <= es)%nat.
Proof. intros (_ & Hlen & _). rewrite render_cons, length_app in Hlen. simpl in Hlen. lia. Qed.

Definition redirs_tokens (rs : list (redir (list Z))) : list token := mjoin (redir_tokens <$> rs).

Lemma parseredirs_at k s racc rs ts :
  left_at s (redirs_tokens rs ++ ts) -> Forall (fun r => redir_kind (r_mode r) (r_fd r)) rs ->
  next_in (lit "<>") ts = false -> (es - s < k)%nat ->
  exists rs' s', parseredirs k buf s es racc = Pret (racc ++ rs', s')
    /\ Forall2 redir_at rs' rs /\ left_at s' ts /\ (s <= s')%nat.
Proof.
  revert k s racc. induction rs as [|[f m fd] rs IH]; intros [|k] s racc Hat Hk Hno Hf; try lia;
    cbn [parseredirs]; rewrite (peek_at _ _ _ _ _ Hat); cbn [pbind].
  - change (redirs_tokens [] ++ ts) with ts in *. rewrite Hno. cbn [negb]. exists [], s.
    rewrite app_nil_r. split_and!; [done|constructor|done|lia].
  - change (redirs_tokens (Redir f m fd :: rs) ++ ts)
      with (redir_token m :: TWord f :: redirs_tokens rs ++ ts) in *.
    apply Forall_cons in Hk as [Hkind Hk]. cbn [r_mode r_fd] in Hkind.
    assert (Hnext : next_in (lit "<>") (redir_token m :: TWord f :: redirs_tokens rs ++ ts) = true).
    { unfold redir_token. by repeat case_if. }
    rewrite Hnext. cbn [negb]. rewrite (gettoken_at _ _ _ _ _ Hat). cbn [pbind].
    pose proof (left_next _ _ _ _ _ Hat) as Hat1. pose proof (left_bound _ _ _ Hat1) as Hb.
    rewrite (gettoken_at _ _ _ _ _ Hat1). cbn [pbind token_code Z.eqb Pos.eqb negb].
    pose proof (left_word _ _ _ Hat1) as Hw. pose proof (left_next _ _ _ _ _ Hat1) as Hat2.
    set (w := (_, _)) in *. cbn [token_text] in *.
    replace (if _ =? 60 then _ else _) with (racc ++ [Redir w m fd]).
    2:{ destruct Hkind as [[-> ->]|[[-> ->]|[-> ->]]]; reflexivity. }
    destruct (IH k _ (racc ++ [Redir w m fd]) Hat2 Hk Hno) as (rs' & s' & -> & Hrs & Hat' & Hle); [lia|].
    exists (Redir w m fd :: rs'), s'. rewrite <- app_assoc. split_and!; [done| |done|lia].
    constructor; [|done]. by split_and!.
Qed.

(** A word is not an operator. *)
Lemma word_next set w ts :
  plain w -> (forall c, in_set set c = true -> in_set symbols c = true) -> next_in set (TWord w :: ts) = false.
Proof.
  intros [Hne Hp] Hset. destruct w as [|a w]; [done|]. apply Forall_cons in Hp as [(_ & _ & Hs) _].
  change (in_set set a = false). destruct (in_set set a) eqn:E; [|done]. apply Hset in E. congruence.
Qed.

Ltac operators :=
  let c := fresh "c" in let H := fresh "H" in let E := fresh "E" in
  intros c H; destruct (in_set symbols c) eqn:E; [reflexivity|exfalso];
  unfold symbols in E; in_set_lit H; in_set_lit E; lia.

Lemma parseargs_stop k s argv racc ts :
  left_at s ts -> followed (lit "|)&;") ts -> (0 < k)%nat ->
  parseargs k buf s es argv racc = Pret (argv, racc, s).
Proof.
  intros Hat Hfol Hk. destruct k as [|k]; [lia|]. cbn [parseargs]. rewrite (peek_at _ _ _ _ _ Hat). cbn [pbind].
  destruct Hfol as [->|H].
  - cbn [next_in]. by rewrite (gettoken_end _ _ _ Hat).
  - by rewrite H.
Qed.

Lemma parseargs_at k s argv racc w ws rs ts :
  left_at s ((TWord <$> w :: ws) ++ redirs_tokens rs ++ ts) ->
  Forall (fun r => redir_kind (r_mode r) (r_fd r)) rs -> followed (lit "|)&;") ts ->
  (length argv + S (length ws) < MAXARGS)%nat -> (es - s < k)%nat ->
  exists ws' rs' s', parseargs k buf s es argv racc = Pret (argv ++ ws', racc ++ rs', s')
    /\ Forall2 word_at ws' (w :: ws) /\ Forall2 redir_at rs' rs /\ left_at s' ts /\ (s <= s')%nat.
Proof.
  revert k s argv racc w. induction ws as [|w2 ws IH]; intros [|k] s argv racc w Hat Hk Hfol Hmax Hf; try lia;
    cbn [fmap list_fmap app] in Hat; pose proof Hat as (_ & _ & [Hw _]%Forall_cons); cbn [token_ok] in Hw;
    cbn [parseargs]; rewrite (peek_at _ _ _ _ _ Hat); cbn [pbind];
    rewrite word_next by (done || operators);
    rewrite (gettoken_at _ _ _ _ _ Hat); cbn [pbind token_code Z.eqb Pos.eqb negb];
    pose proof (left_word _ _ _ Hat) as Hword; pose proof (left_next _ _ _ _ _ Hat) as Hat1;
    pose proof (left_bound _ _ _ Hat) as Hb; cbn [token_text] in *;
    rewrite (proj2 (Nat.leb_gt _ _)) by (rewrite length_app; simpl in *; lia).
  - destruct (parseredirs_at k _ racc rs ts Hat1 Hk) as (rs' & s' & -> & Hrs & Hat' & Hle);
      [other_operator|lia|]. cbn [pbind]. rewrite (parseargs_stop _ _ _ _ _ Hat' Hfol) by lia.
    eexists [_], rs', s'. split_and!; [done|by constructor|done|done|lia].
  - destruct (parseredirs_at k _ racc [] _ Hat1) as (rs0 & s1 & -> & Hrs0 & Hat2 & Hle1);
      [done|apply word_next; [|operators]|lia|].
    { destruct Hat1 as (_ & _ & [H _]%Forall_cons). exact H. }
    inversion Hrs0; subst rs0. cbn [pbind]. rewrite app_nil_r.
    destruct (IH k s1 (argv ++ [(s, s + length w)%nat]) racc w2 Hat2 Hk Hfol)
      as (ws' & rs' & s' & -> & Hws & Hrs & Hat' & Hle); [rewrite length_app; simpl in *; lia|lia|].
    eexists (_ :: ws'), rs', s'. rewrite <- app_assoc. split_and!; [done|by constructor|done|done|lia].
Qed.

(** The functions of the parser read the commands of their level back. *)
Definition exec_reads (c : cmd (list Z)) : Prop := forall k s rs ts,
  left_at s (tokens LExec c ++ redirs_tokens rs ++ ts) ->
  Forall (fun r => redir_kind (r_mode r) (r_fd r)) rs -> followed (lit "|)&;") ts ->
  (4 * (es - s) + 2 <= k)%nat ->
  exists r s', parseexec k buf s es = Pret (r, s') /\ reads r (wrap c rs) /\ left_at s' ts /\ (s <= s')%nat.

Definition pipe_reads (c : cmd (list Z)) : Prop := forall k s ts,
  left_at s (tokens LPipe c ++ ts) -> followed (lit ")&;") ts -> (4 * (es - s) + 3 <= k)%nat ->
  exists r s', parsepipe k buf s es = Pret (r, s') /\ reads r c /\ left_at s' ts /\ (s <= s')%nat.

Definition back_reads (c : cmd (list Z)) : Prop := forall k s ts,
  left_at s (tokens LBack c ++ ts) -> followed (lit ")&;") ts -> (4 * (es - s) + 3 <= k)%nat ->
  exists r0 s0 r s' k', parsepipe k buf s es = Pret (r0, s0)
    /\ parseback k buf s0 es r0 = parseback k' buf s' es r
    /\ reads r c /\ left_at s' ts /\ (s <= s')%nat /\ (es - s' < k')%nat.

Definition line_reads (c : cmd (list Z)) : Prop := forall k s ts,
  left_at s (tokens LLine c ++ ts) -> followed (lit ")") ts -> (4 * (es - s) + 4 <= k)%nat ->
  exists r s', parseline k buf s es = Pret (r, s') /\ reads r c /\ left_at s' ts /\ (s <= s')%nat.

Lemma exec_reads_exec ws : (length ws < MAXARGS)%nat -> exec_reads (EXEC ws).
Proof.
  intros Hmax [|k] s rs ts Hat Hk Hfol Hf; [lia|]. cbn [tokens] in Hat. cbn [parseexec].
  rewrite (peek_at _ _ _ _ _ Hat). cbn [pbind].
  destruct ws as [|w ws]; cbn [fmap list_fmap app] in Hat |- *.
  - assert (Hno : next_in (lit "(") (redirs_tokens rs ++ ts) = false).
    { destruct rs as [|r rs]; [change (next_in (lit "(") ts = false); other_operator|].
      cbn. unfold redir_token. by repeat case_if. }
    rewrite Hno. destruct (parseredirs_at k s [] rs ts Hat Hk) as (rs' & s' & -> & Hrs & Hat' & Hle);
      [other_operator|lia|]. cbn [pbind app]. rewrite (parseargs_stop _ _ _ _ _ Hat' Hfol) by lia.
    cbn [pbind]. exists (wrap (EXEC []) rs'), s'. split_and!; [done| |done|done].
    apply reads_wrap; [by constructor|done].
  - pose proof Hat as (_ & _ & [Hw _]%Forall_cons). cbn [token_ok] in Hw.
    rewrite word_next by (done || operators).
    destruct (parseredirs_at k s [] [] _ Hat) as (rs0 & s1 & -> & Hrs0 & Hat1 & Hle1);
      [done|apply word_next; [done|operators]|lia|]. inversion Hrs0; subst rs0. cbn [pbind app].
    destruct (parseargs_at k s1 [] [] w ws rs ts Hat1 Hk Hfol)
      as (ws' & rs' & s' & -> & Hws & Hrs & Hat' & Hle); [simpl in *; lia|lia|]. cbn [pbind app].
    exists (wrap (EXEC ws') rs'), s'. split_and!; [done| |done|lia].
    apply reads_wrap; [by constructor|done].
Qed.

(** One operator: [peek] sees it and [gettoken] takes it. *)
Lemma left_sym s c ts : left_at s (TSym c :: ts) ->
  gettoken buf s es = Pret (c, (s, s + 1)%nat, (s + 1 + 1)%nat) /\ left_at (s + 1 + 1) ts
  /\ (s + 1 + 1 <= es)%nat.
Proof.
  intros Hat. split_and!; [by apply (gettoken_at buf es s (TSym c) ts)|by apply (left_next buf es s (TSym c) ts)|].
  by apply (left_bound s (TSym c) ts).
Qed.

Lemma exec_reads_block c :
  tokens LExec c = TSym 40 :: tokens LLine c ++ [TSym 41] -> line_reads c -> exec_reads c.
Proof.
  intros E HL [|[|k]] s rs ts Hat Hk Hfol Hf; [lia|lia|]. rewrite E in Hat. cbn [app] in Hat.
  rewrite <- app_assoc in Hat. cbn [app] in Hat. cbn [parseexec]. rewrite (peek_at _ _ _ _ _ Hat).
  change (next_in (lit "(") _) with true. cbn [pbind parseblock]. rewrite (peek_at _ _ _ _ _ Hat).
  change (next_in (lit "(") _) with true. cbn [pbind negb].
  destruct (left_sym _ _ _ Hat) as (-> & Hat1 & Hb1). cbn [pbind].
  destruct (HL k _ _ Hat1) as (r & s2 & -> & Hr & Hat2 & Hle2); [by right|lia|]. cbn [pbind].
  rewrite (peek_at _ _ _ _ _ Hat2). change (next_in (lit ")") _) with true. cbn [pbind negb].
  destruct (left_sym _ _ _ Hat2) as (-> & Hat3 & Hb3). cbn [pbind].
  destruct (parseredirs_at k _ [] rs ts Hat3 Hk) as (rs' & s' & -> & Hrs & Hat' & Hle);
    [other_operator|lia|]. cbn [pbind app]. exists (wrap r rs'), s'. split_and!; [done| |done|lia].
  by apply reads_wrap.
Qed.

Lemma exec_reads_redir c f m fd : redir_kind m fd -> exec_reads c -> exec_reads (REDIR c f m fd).
Proof.
  intros Hm HE k s rs ts Hat Hk Hfol Hf. apply (HE k s (Redir f m fd :: rs) ts); try done.
  - cbn [tokens] in Hat. rewrite <- app_assoc in Hat. exact Hat.
  - by constructor.
Qed.

Lemma pipe_reads_exec c : tokens LPipe c = tokens LExec c -> exec_reads c -> pipe_reads c.
Proof.
  intros E HE [|k] s ts Hat Hfol Hf; [lia|]. rewrite E in Hat. cbn [parsepipe].
  destruct (HE k s [] ts Hat) as (r & s' & -> & Hr & Hat' & Hle); [done|by apply followed_weaken|lia|].
  cbn [pbind]. rewrite (peek_at _ _ _ _ _ Hat'). cbn [pbind].
  assert (Hno : next_in (lit "|") ts = false) by other_operator. rewrite Hno.
  exists r, s'. by split_and!.
Qed.

Lemma pipe_reads_pipe l r : exec_reads l -> pipe_reads r -> pipe_reads (PIPE l r).
Proof.
  intros HE HP [|k] s ts Hat Hfol Hf; [lia|]. cbn [tokens paren] in Hat. rewrite <- app_assoc in Hat.
  cbn [app] in Hat. cbn [parsepipe].
  destruct (HE k s [] (TSym 124 :: tokens LPipe r ++ ts) Hat) as (rl & s1 & -> & Hl & Hat1 & Hle1);
    [done|by right|lia|].
  cbn [pbind]. rewrite (peek_at _ _ _ _ _ Hat1). change (next_in (lit "|") _) with true. cbn [pbind].
  destruct (left_sym _ _ _ Hat1) as (-> & Hat2 & Hb2). cbn [pbind].
  destruct (HP k _ ts Hat2 Hfol) as (rr & s' & -> & Hr & Hat' & Hle); [lia|]. cbn [pbind].
  exists (PIPE rl rr), s'. split_and!; [done|by constructor|done|lia].
Qed.

Lemma back_reads_pipe c : tokens LBack c = tokens LPipe c -> pipe_reads c -> back_reads c.
Proof.
  intros E HP k s ts Hat Hfol Hf. rewrite E in Hat.
  destruct (HP k s ts Hat Hfol Hf) as (r & s' & -> & Hr & Hat' & Hle).
  exists r, s', r, s', k. split_and!; try done. lia.
Qed.

Lemma back_reads_back c : back_reads c -> back_reads (BACK c).
Proof.
  intros HB k s ts Hat Hfol Hf. cbn [tokens paren] in Hat. rewrite <- app_assoc in Hat. cbn [app] in Hat.
  destruct (HB k s (TSym 38 :: ts) Hat) as (r0 & s0 & r & s1 & k1 & -> & Eb & Hr & Hat1 & Hle1 & Hk1);
    [by right|lia|].
  destruct (left_sym _ _ _ Hat1) as (Eg & Hat2 & Hb2).
  exists r0, s0, (BACK r), (s1 + 1 + 1)%nat, (k1 - 1)%nat. split_and!; [done| |by constructor|done|lia|lia].
  rewrite Eb. destruct k1 as [|k1]; [lia|]. cbn [parseback]. rewrite (peek_at _ _ _ _ _ Hat1).
  change (next_in (lit "&") _) with true. cbn [pbind negb]. rewrite Eg. cbn [pbind].
  by replace (S k1 - 1)%nat with k1 by lia.
Qed.

Lemma parseback_stop k s c ts :
  left_at s ts -> next_in (lit "&") ts = false -> (0 < k)%nat -> parseback k buf s es c = Pret (c, s).
Proof.
  intros Hat Hno Hk. destruct k as [|k]; [lia|]. cbn [parseback]. rewrite (peek_at _ _ _ _ _ Hat), Hno. done.
Qed.

Lemma line_reads_back c : tokens LLine c = tokens LBack c -> back_reads c -> line_reads c.
Proof.
  intros E HB [|k] s ts Hat Hfol Hf; [lia|]. rewrite E in Hat. cbn [parseline].
  assert (Hno : next_in (lit "&") ts = false /\ next_in (lit ";") ts = false) by (split; other_operator).
  destruct Hno as [Hno1 Hno2].
  destruct (HB k s ts Hat) as (r0 & s0 & r & s' & k1 & -> & Eb & Hr & Hat' & Hle & Hk1); [|lia|].
  { destruct Hfol as [->|Hfol]; [by left|]. right. destruct ts as [|t ts]; [done|]. cbn [next_in] in *.
    destruct (in_set (lit ")&;") _) eqn:E2; [done|]. in_set_lit Hfol. in_set_lit E2. lia. }
  cbn [pbind]. rewrite Eb, (parseback_stop _ _ _ _ Hat' Hno1) by lia. cbn [pbind].
  rewrite (peek_at _ _ _ _ _ Hat'), Hno2. cbn [pbind]. exists r, s'. by split_and!.
Qed.

Lemma line_reads_list l r : back_reads l -> line_reads r -> line_reads (LIST l r).
Proof.
  intros HB HL [|k] s ts Hat Hfol Hf; [lia|]. cbn [tokens paren] in Hat. rewrite <- app_assoc in Hat.
  cbn [app] in Hat. cbn [parseline].
  destruct (HB k s (TSym 59 :: tokens LLine r ++ ts) Hat)
    as (r0 & s0 & rl & s1 & k1 & -> & Eb & Hl & Hat1 & Hle1 & Hk1); [by right|lia|].
  cbn [pbind]. rewrite Eb, (parseback_stop _ _ _ _ Hat1) by (done || lia). cbn [pbind].
  rewrite (peek_at _ _ _ _ _ Hat1). change (next_in (lit ";") _) with true. cbn [pbind].
  destruct (left_sym _ _ _ Hat1) as (-> & Hat2 & Hb2). cbn [pbind].
  destruct (HL k _ ts Hat2 Hfol) as (rr & s' & -> & Hr & Hat' & Hle); [lia|]. cbn [pbind].
  exists (LIST rl rr), s'. split_and!; [done|by constructor|done|lia].
Qed.

Lemma parse_reads c :
  typeable c -> exec_reads c /\ pipe_reads c /\ back_reads c /\ line_reads c.
Proof.
  induction c as [ws|c IH f m fd|l IHl r IHr|l IHl r IHr|c IH]; intros Ht; cbn [typeable] in Ht.
  - assert (HE : exec_reads (EXEC ws)) by apply exec_reads_exec, Ht.
    pose proof (pipe_reads_exec (EXEC ws) eq_refl HE) as HP.
    pose proof (back_reads_pipe (EXEC ws) eq_refl HP) as HB. auto using line_reads_back.
  - destruct Ht as (Hc & _ & Hm). destruct (IH Hc) as (HE0 & _).
    pose proof (exec_reads_redir c f m fd Hm HE0) as HE.
    pose proof (pipe_reads_exec (REDIR c f m fd) eq_refl HE) as HP.
    pose proof (back_reads_pipe (REDIR c f m fd) eq_refl HP) as HB. auto using line_reads_back.
  - destruct Ht as [Hl Hr]. destruct (IHl Hl) as (HEl & _), (IHr Hr) as (_ & HPr & _).
    pose proof (pipe_reads_pipe l r HEl HPr) as HP.
    pose proof (back_reads_pipe (PIPE l r) eq_refl HP) as HB.
    pose proof (line_reads_back (PIPE l r) eq_refl HB) as HL. auto using exec_reads_block.
  - destruct Ht as [Hl Hr]. destruct (IHl Hl) as (_ & _ & HBl & _), (IHr Hr) as (_ & _ & _ & HLr).
    pose proof (line_reads_list l r HBl HLr) as HL.
    pose proof (exec_reads_block (LIST l r) eq_refl HL) as HE.
    pose proof (pipe_reads_exec (LIST l r) eq_refl HE) as HP. auto using back_reads_pipe.
  - destruct (IH Ht) as (_ & _ & HB0 & _). pose proof (back_reads_back c HB0) as HB.
    pose proof (line_reads_back (BACK c) eq_refl HB) as HL.
    pose proof (exec_reads_block (BACK c) eq_refl HL) as HE. auto using pipe_reads_exec.
Qed.

(** ** Terminating the words *)

(** [b] is the line with some of its spaces turned into NULs. *)
Definition cut (b : list Z) : Prop :=
  forall i, b !! i = buf !! i \/ (b !! i = Some 0 /\ buf !! i = Some 32).

Definition keeps_nuls (b b' : list Z) : Prop := forall i, b !! i = Some 0 -> b' !! i = Some 0.

Fixpoint words_of (r : cmd word) : list word :=
  match r with
  | EXEC ws => ws
  | REDIR r w _ _ => words_of r ++ [w]
  | PIPE l r | LIST l r => words_of l ++ words_of r
  | BACK r => words_of r
  end.

Definition ended (b : list Z) (r : cmd word) : Prop := Forall (fun w => b !! w.2 = Some 0) (words_of r).

Lemma word_end w txt : word_at w txt -> buf !! w.2 = Some 32.
Proof.
  intros (_ & -> & rest & Hd). rewrite <- lookup_drop, Hd, lookup_app_r, Nat.sub_diag by lia. done.
Qed.

Lemma cut_word b w txt :
  cut b -> word_at w txt ->
  set_char b w.2 0 = Some (<[w.2 := 0]> b) /\ cut (<[w.2 := 0]> b)
  /\ keeps_nuls b (<[w.2 := 0]> b) /\ <[w.2 := 0]> b !! w.2 = Some 0.
Proof.
  intros Hb Hw. apply word_end in Hw.
  assert (Hlt : (w.2 < length b)%nat).
  { apply lookup_lt_is_Some. destruct (Hb w.2) as [->|[-> _]]; by eauto. }
  split_and!.
  - by apply set_char_Some.
  - intros i. rewrite list_lookup_insert_if by done. case_decide; subst; [by right|apply Hb].
  - intros i Hi. rewrite list_lookup_insert_if by done. by case_decide.
  - by apply list_lookup_insert_eq.
Qed.

Lemma ended_keeps b b' r : ended b r -> keeps_nuls b b' -> ended b' r.
Proof. intros He Hk. eapply Forall_impl; [exact He|]. intros w. apply Hk. Qed.

Lemma nulterminate_reads r c b :
  reads r c -> cut b ->
  exists b', nulterminate r b = Pret b' /\ cut b' /\ keeps_nuls b b' /\ ended b' r.
Proof.
  intros Hr. revert b. unfold ended.
  induction Hr as [ws txts Hws|r c w txt m fd _ IH Hw|l r l' r' _ IHl _ IHr|l r l' r' _ IHl _ IHr|r c _ IH];
    intros b Hb; cbn [nulterminate words_of].
  - revert b Hb. induction Hws as [|w txt ws txts Hw _ IH]; intros b Hb.
    + exists b. split_and!; [done|done|by intros ?|constructor].
    + destruct (cut_word b w txt Hb Hw) as (E & Hb1 & Hk1 & Hz). rewrite E. cbn [inside pbind].
      destruct (IH _ Hb1) as (b' & -> & Hb' & Hk' & He'). exists b'.
      split_and!; [done|done|intros i Hi; auto|]. constructor; auto.
  - destruct (IH b Hb) as (b1 & -> & Hb1 & Hk1 & He1). cbn [pbind].
    destruct (cut_word b1 w txt Hb1 Hw) as (E & Hb2 & Hk2 & Hz). rewrite E. cbn [inside].
    eexists. split; [done|]. split_and!; [done|intros i Hi; auto|]. apply Forall_app.
    split; [by eapply (ended_keeps b1 _ r)|by constructor].
  - destruct (IHl b Hb) as (b1 & -> & Hb1 & Hk1 & He1). cbn [pbind].
    destruct (IHr b1 Hb1) as (b2 & -> & Hb2 & Hk2 & He2). exists b2.
    split_and!; [done|done|intros i Hi; auto|]. apply Forall_app. split; [by eapply (ended_keeps b1 _ l)|done].
  - destruct (IHl b Hb) as (b1 & -> & Hb1 & Hk1 & He1). cbn [pbind].
    destruct (IHr b1 Hb1) as (b2 & -> & Hb2 & Hk2 & He2). exists b2.
    split_and!; [done|done|intros i Hi; auto|]. apply Forall_app. split; [by eapply (ended_keeps b1 _ l)|done].
  - apply IH; done.
Qed.

Lemma cstr_word txt l :
  Forall (fun c => c <> 0) txt -> (forall j c, txt !! j = Some c -> l !! j = Some c) ->
  l !! length txt = Some 0 -> cstr l = txt.
Proof.
  revert l. induction txt as [|c txt IH]; intros l Hn Hl Hz.
  - destruct l; simpl in Hz; [done|]. by inversion Hz.
  - apply Forall_cons in Hn as [Hc Hn]. pose proof (Hl 0%nat c eq_refl) as H0.
    destruct l as [|x l]; [done|]. inversion H0; subst x. rewrite cstr_cons by done. f_equal.
    apply IH; [done| |done]. intros j d Hj. by apply (Hl (S j)).
Qed.

Lemma word_string b w txt :
  cut b -> word_at w txt -> b !! w.2 = Some 0 -> cstr (drop w.1 b) = txt.
Proof.
  intros Hb ([_ Hp] & Hw & rest & Hd) Hz. apply cstr_word.
  - eapply Forall_impl; [exact Hp|]. by intros c (? & _).
  - intros j c Hj. rewrite lookup_drop.
    assert (Hc : buf !! (w.1 + j)%nat = Some c)
      by (rewrite <- lookup_drop, Hd, lookup_app_l; [done|by eapply lookup_lt_Some]).
    destruct (Hb (w.1 + j)%nat) as [->|[_ H32]]; [done|]. rewrite Hc in H32. inversion H32; subst c.
    rewrite Forall_lookup in Hp. by destruct (Hp _ _ Hj) as (_ & ? & _).
  - by rewrite lookup_drop, <- Hw.
Qed.

Lemma strings_reads b r c : cut b -> reads r c -> ended b r -> strings b r = c.
Proof.
  intros Hb Hr. unfold ended, strings.
  induction Hr as [ws txts Hws|r c w txt m fd _ IH Hw|l r l' r' _ IHl _ IHr|l r l' r' _ IHl _ IHr|r c _ IH];
    cbn [words_of cmd_map]; intros He; rewrite ?Forall_app in He.
  - f_equal. induction Hws as [|w txt ws txts Hw _ IH]; [done|]. apply Forall_cons in He as [Hz He].
    simpl. f_equal; [by apply word_string|by apply IH].
  - destruct He as [He Hz]. rewrite IH by done. f_equal. apply word_string; [done|done|].
    by apply Forall_cons in Hz as [? _].
  - destruct He as [He1 He2]. by rewrite IHl, IHr.
  - destruct He as [He1 He2]. by rewrite IHl, IHr.
  - by rewrite IH.
Qed.
End parse.

Lemma redir_token_ok m : token_ok (redir_token m).
Proof.
  unfold redir_token. destruct (m =? O_RDONLY); [simpl; set_solver|].
  destruct (m =? _); simpl; [set_solver|done].
Qed.

Lemma tokens_ok lvl c : typeable c -> Forall token_ok (tokens lvl c).
Proof.
  assert (Hp : forall b l, Forall token_ok l -> Forall token_ok (paren b l)).
  { intros [] l Hl; [|done]. simpl. constructor; [simpl; set_solver|]. apply Forall_app.
    split; [done|]. repeat constructor. }
  revert lvl. induction c as [ws|c IH f m fd|l IHl r IHr|l IHl r IHr|c IH]; intros lvl Ht; cbn [tokens typeable] in *.
  - apply Forall_fmap. apply Ht.
  - destruct Ht as (Hc & Hf & _). apply Forall_app. split; [by apply IH|].
    apply Forall_cons. split; [apply redir_token_ok|]. by apply Forall_singleton.
  - apply Hp, Forall_app. split; [apply IHl, Ht|]. constructor; [simpl; set_solver|apply IHr, Ht].
  - apply Hp, Forall_app. split; [apply IHl, Ht|]. constructor; [simpl; set_solver|apply IHr, Ht].
  - apply Hp, Forall_app. split; [by apply IH|]. repeat constructor.
Qed.

Lemma render_plain ts : Forall token_ok ts -> Forall (fun c => c <> 0) (render ts).
Proof.
  induction ts as [|t ts IH]; intros Hok; [constructor|]. apply Forall_cons in Hok as [Ht Hok].
  rewrite render_cons. apply Forall_app. split; [|constructor; [done|by apply IH]].
  destruct t as [w|c|]; simpl in *.
  - destruct Ht as [_ Hp]. eapply Forall_impl; [exact Hp|]. by intros c (? & _).
  - constructor; [|done]. intros ->. set_solver.
  - by repeat constructor.
Qed.

(** C14. The parser reads back every command: the line that the printer makes of a
    command, with parentheses where the grammar needs them, parses without an error
    into a command that is the same, and after [nulterminate] each of its words is
    the string that was printed. So every combination of pipes, lists, background
    commands and redirections can be typed, and [parsecmd] implements the grammar. *)
Theorem parse_print c post :
  typeable c -> Z.of_nat (length (print_cmd c ++ 0 :: post)) < 2 ^ 31 ->
  exists r buf, parsecmd (print_cmd c ++ 0 :: post) = Pret (r, buf) /\ strings buf r = c.
Proof.
  intros Ht Hlen. unfold print_cmd in *. set (txt := render (tokens LLine c)) in *.
  pose proof (tokens_ok LLine c Ht) as Hok. pose proof (render_plain _ Hok) as Hnz. fold txt in Hnz.
  set (line := txt ++ 0 :: post) in *.
  assert (Hcs : cstr line = txt).
  { apply cstr_word; [done| |unfold line; by rewrite lookup_app_r, Nat.sub_diag by lia].
    intros j x Hj. unfold line. rewrite lookup_app_l; [done|by eapply lookup_lt_Some]. }
  unfold parsecmd, strlen. rewrite strlen_loop_spec; [|unfold terminated, line; set_solver|lia|lia].
  cbn [inside pbind]. rewrite Hcs, Z.add_0_l, Nat2Z.id. set (es := length txt).
  assert (Hat : left_at line es 0 (tokens LLine c ++ [])).
  { rewrite app_nil_r. split_and!; [|done|done]. by exists post. }
  destruct (parse_reads line es c Ht) as (_ & _ & _ & HL).
  destruct (HL (parse_fuel es) 0%nat [] Hat) as (r & s & -> & Hr & Hat' & _);
    [by left|unfold parse_fuel; lia|]. cbn [pbind]. rewrite (peek_at _ _ _ _ _ Hat'). cbn [pbind].
  assert (s = es) as -> by (destruct Hat' as (_ & H & _); simpl in H; lia). rewrite Nat.eqb_refl. cbn [negb].
  destruct (nulterminate_reads line r c line Hr) as (b & -> & Hcut & _ & He); [by left|]. cbn [pbind].
  exists r, b. split; [done|]. by apply (strings_reads line).
Qed.

Lemma parse_print_witness :
  let c := LIST (BACK (PIPE (EXEC [chars "ls"; chars "-l"])
                         (REDIR (LIST (EXEC [chars "a"]) (EXEC [chars "b"])) (chars "f") O_RDONLY 0)))
             (EXEC [chars "wc"]) in
  exists r buf, parsecmd (print_cmd c ++ 0 :: []) = Pret (r, buf) /\ strings buf r = c.
Proof.
  intros c. apply (parse_print c []).
  - repeat split; simpl; unfold MAXARGS; try lia; try (repeat constructor; discriminate); by left.
  - reflexivity.
Defined.
