(* ===== verification/Programs.v ===== *)
(** * The user programs: [src/user/cat.c], [echo.c], [wc.c], [ls.c], [ps.c], [kill.c],
    [ln.c], [mkdir.c], [rm.c], [zombie.c], [init.c], and the small test programs
    [forktest.c], [stressfs.c], [logstress.c], [dorphan.c], [forphan.c] and [grind.c]
    (its random numbers)

    Each as the tree of its system calls; [argv] is the list of the arguments, each
    an array that ends in a NUL. *)

From S2P Require Import Prelude Params FsTypes Kstring User Ulib.

Open Scope user_scope.

(** [read(fd, buf, n)] into a buffer of its own: the bytes read. *)
Notation uread fd n := (call (Uread fd n)).

(** ** cat.c *)

Fixpoint cat (k : nat) (fd : Z) : prog unit :=
  match k with
  | O => Pfuel
  | S k =>
      r ← uread fd 512;
      match r with
      | Some (c :: bs) =>
          n ← call (Uwrite 1 (c :: bs));
          if negb (n =? Z.of_nat (length (c :: bs))) then fprintf 2 "cat: write error\n" [];; Pexit 1
          else cat k fd
      | Some [] => Pret tt
      | None => fprintf 2 "cat: read error\n" [];; Pexit 1
      end
  end.

(** The files of the command line, with the body of the loop for each. *)
Fixpoint each_file (msg : string) (err : Z) (body : Z -> list Z -> prog unit) (files : list (list Z)) :
    prog unit :=
  match files with
  | [] => Pret tt
  | f :: files =>
      fd ← uopen f O_RDONLY;
      if fd <? 0 then fprintf err msg [UStr (Some f)];; Pexit 1 else
      body fd f;;
      call (Uclose fd);;
      each_file msg err body files
  end.

Definition cat_main `{Fuel} (argv : list (list Z)) : prog unit :=
  match tail argv with
  | [] => cat fuel 0;; Pexit 0
  | files => each_file "cat: cannot open %s\n" 2 (fun fd _ => cat fuel fd) files;; Pexit 0
  end.

(** ** echo.c *)

Fixpoint echo_loop (l : list (list Z)) : prog unit :=
  match l with
  | [] => Pexit 0
  | a :: l =>
      n ← inside (strlen a);
      call (Uwrite 1 (take (Z.to_nat n) a));;
      call (Uwrite 1 (match l with [] => [10] | _ => [32] end));;
      echo_loop l
  end.
Definition echo_main (argv : list (list Z)) : prog unit := echo_loop (tail argv).

(** ** wc.c *)

Record counts : Type := Counts { n_l : Z; n_w : Z; n_c : Z; inword : bool }.

(** The body of the loop over the characters of the buffer. *)
Definition wc_char (s : counts) (c : Z) : counts :=
  let s := Counts (n_l s) (n_w s) (s32 (n_c s + 1)) (inword s) in
  let s := if c =? 10 then Counts (s32 (n_l s + 1)) (n_w s) (n_c s) (inword s) else s in
  match strchr (lit " \r\t\n\v") c with
  | Some (Some _) => Counts (n_l s) (n_w s) (n_c s) false
  | _ => if negb (inword s) then Counts (n_l s) (s32 (n_w s + 1)) (n_c s) true else s
  end.

Fixpoint wc_loop (k : nat) (fd : Z) (s : counts) : prog counts :=
  match k with
  | O => Pfuel
  | S k =>
      r ← uread fd 512;
      match r with
      | Some (c :: bs) => wc_loop k fd (fold_left wc_char (c :: bs) s)
      | Some [] => Pret s
      | None => printf "wc: read error\n" [];; Pexit 1
      end
  end.

Definition wc `{Fuel} (fd : Z) (name : list Z) : prog unit :=
  s ← wc_loop fuel fd (Counts 0 0 0 false);
  printf "%d %d %d %s\n" [UInt (n_l s); UInt (n_w s); UInt (n_c s); UStr (Some name)].

Definition wc_main `{Fuel} (argv : list (list Z)) : prog unit :=
  match tail argv with
  | [] => wc 0 [0];; Pexit 0
  | files => each_file "wc: cannot open %s\n" 1 wc files;; Pexit 0
  end.

(** ** ls.c *)

(** [fmtname(path)]: the name after the last slash, padded with blanks to [DIRSIZ]. *)
Fixpoint after_slash (k : nat) (path : list Z) : list Z :=
  match k with
  | O => path
  | S j => if bool_decide (path !! j = Some 47) then drop k path else after_slash j path
  end.

Definition fmtname (path : list Z) : prog (list Z) :=
  n ← inside (strlen path);
  let p := after_slash (S (Z.to_nat n)) path in
  m ← inside (strlen p);
  if DIRSIZ <=? m then Pret p
  else Pret (take (Z.to_nat m) p ++ replicate (Z.to_nat (DIRSIZ - m)) 32 ++ [0]).

Definition ls_entry (name : list Z) (st : stat) : prog unit :=
  name ← fmtname name;
  printf "%s %d %d %d\n"
    [UStr (Some name); UInt (st_type st); UInt (st_ino st); UInt (s32 (st_size st))].

(** The entries of a directory; [buf] is the path with its slash. *)
Fixpoint ls_dir (k : nat) (fd : Z) (buf : list Z) : prog unit :=
  match k with
  | O => Pfuel
  | S k =>
      r ← uread fd sizeof_dirent;
      match r with
      | Some (a :: b :: name) =>
          if negb (Z.of_nat (length (a :: b :: name)) =? sizeof_dirent) then Pret tt else
          if a + 256 * b =? 0 then ls_dir k fd buf else
          let path := buf ++ name ++ [0] in
          st ← ustat path;
          match st with
          | None => printf "ls: cannot stat %s\n" [UStr (Some path)];; ls_dir k fd buf
          | Some st => ls_entry path st;; ls_dir k fd buf
          end
      | _ => Pret tt
      end
  end.

Definition ls `{Fuel} (path : list Z) : prog unit :=
  fd ← uopen path O_RDONLY;
  if fd <? 0 then fprintf 2 "ls: cannot open %s\n" [UStr (Some path)] else
  st ← call (Ufstat fd);
  match st with
  | None => fprintf 2 "ls: cannot stat %s\n" [UStr (Some path)];; call (Uclose fd);; Pret tt
  | Some st =>
      (if (st_type st =? T_DEVICE) || (st_type st =? T_FILE) then ls_entry path st
       else if st_type st =? T_DIR then
         n ← inside (strlen path);
         if 512 <? n + 1 + DIRSIZ + 1 then printf "ls: path too long\n" []
         else ls_dir fuel fd (take (Z.to_nat n) path ++ [47])
       else Pret tt);;
      call (Uclose fd);;
      Pret tt
  end.

Definition ls_main `{Fuel} (argv : list (list Z)) : prog unit :=
  match tail argv with
  | [] => ls (lit ".");; Pexit 0
  | files => pfor files ls;; Pexit 0
  end.

(** ** ps.c *)

Definition state_str (state : Z) : list Z :=
  match state with
  | 0 => lit "UNUSED   " | 1 => lit "USED     " | 2 => lit "SLEEPING "
  | 3 => lit "RUNNABLE " | 4 => lit "RUNNING  " | 5 => lit "ZOMBIE   "
  | _ => lit "???      "
  end.

Definition ps_line (ps : pstat) (i : nat) : prog unit :=
  used ← inside (isused ps !! i);
  if negb (truthy used) then Pret tt else
  state ← inside (pstate ps !! i);
  pid ← inside (ps_pid ps !! i);
  ppid ← inside (ps_ppid ps !! i);
  prio ← inside (ps_priority ps !! i);
  size ← inside (memsize ps !! i);
  name ← inside (pname ps !! i);
  printf "%d\t%d\t%d\t%s\t%d\t%s\n"
    [UInt pid; UInt ppid; UInt prio; UStr (Some (state_str state)); UInt size; UStr (Some name)].

Definition ps_main : prog unit :=
  r ← call Ugetpinfo;
  match r with
  | None => printf "Error: getinfo failed\n" [];; Pexit 1
  | Some ps =>
      printf "PID\tPPID\tPRIOR\tSTATE\t\tSIZE\tNAME\n" [];;
      pfor (seq 0 (Z.to_nat NPROC)) (ps_line ps);;
      Pexit 0
  end.

(** ** kill.c, ln.c, mkdir.c, rm.c, zombie.c *)

Definition kill_main (argv : list (list Z)) : prog unit :=
  match tail argv with
  | [] => fprintf 2 "usage: kill pid...\n" [];; Pexit 1
  | pids => pfor pids (fun a => n ← inside (atoi a); call (Ukill n);; Pret tt);; Pexit 0
  end.

Definition ln_main (argv : list (list Z)) : prog unit :=
  match argv with
  | [_; old; new] =>
      r ← call (Ulink (cstr old) (cstr new));
      pwhen (r <? 0) (fprintf 2 "link %s %s: failed\n" [UStr (Some old); UStr (Some new)]);;
      Pexit 0
  | _ => fprintf 2 "Usage: ln old new\n" [];; Pexit 1
  end.

(** [for(i = 1; i < argc; i++) if(op(argv[i]) < 0) { fprintf(2, msg, argv[i]); break; }] *)
Fixpoint each_until (op : list Z -> ucall Z) (msg : string) (l : list (list Z)) : prog unit :=
  match l with
  | [] => Pret tt
  | a :: l =>
      r ← call (op (cstr a));
      if r <? 0 then fprintf 2 msg [UStr (Some a)] else each_until op msg l
  end.

Definition mkdir_main (argv : list (list Z)) : prog unit :=
  match tail argv with
  | [] => fprintf 2 "Usage: mkdir files...\n" [];; Pexit 1
  | files => each_until Umkdir "mkdir: %s failed to create\n" files;; Pexit 0
  end.

Definition rm_main (argv : list (list Z)) : prog unit :=
  match tail argv with
  | [] => fprintf 2 "Usage: rm files...\n" [];; Pexit 1
  | files => each_until Uunlink "rm: %s failed to delete\n" files;; Pexit 0
  end.

Definition zombie_main : prog unit :=
  pid ← call Ufork;
  pwhen (0 <? pid) (call (Upause 5);; Pret tt);;
  Pexit 0.

(** ** init.c *)

(** [for(;;) { wpid = wait(0); ... }] *)
Fixpoint init_wait (k : nat) (pid : Z) : prog unit :=
  match k with
  | O => Pfuel
  | S k =>
      ' (wpid, _) ← call Uwait;
      if wpid =? pid then Pret tt
      else if wpid <? 0 then printf "init: wait returned an error\n" [];; Pexit 1
      else init_wait k pid
  end.

Fixpoint init_loop (k : nat) : prog unit :=
  match k with
  | O => Pfuel
  | S k =>
      printf "init: starting sh\n" [];;
      pid ← call Ufork;
      if pid <? 0 then printf "init: fork failed\n" [];; Pexit 1 else
      if pid =? 0 then
        call (Uexec (chars "sh") [chars "sh"]);;
        printf "init: exec sh failed\n" [];;
        Pexit 1
      else
        init_wait k pid;;
        init_loop k
  end.

Definition init_main `{Fuel} : prog unit :=
  fd ← uopen (lit "console") O_RDWR;
  pwhen (fd <? 0) (call (Umknod (chars "console") CONSOLE 0);; uopen (lit "console") O_RDWR;; Pret tt);;
  call (Udup 0);;
  call (Udup 0);;
  init_loop fuel.

(** ** forktest.c *)

Definition forktest_print (s : string) : prog unit := call (Uwrite 1 (chars s));; Pret tt.

(** [for(n=0; n<N; n++) ...]: how many children there are. *)
Fixpoint forktest_forks (k : nat) (n : Z) : prog Z :=
  match k with
  | O => Pret n
  | S k =>
      pid ← call Ufork;
      if pid <? 0 then Pret n
      else if pid =? 0 then Pexit 0
      else forktest_forks k (n + 1)
  end.

Definition forktest : prog unit :=
  forktest_print "fork test\n";;
  n ← forktest_forks 1000 0;
  if n =? 1000 then forktest_print "fork claimed to work N times!\n";; Pexit 1 else
  pfor (seq 0 (Z.to_nat n)) (fun _ =>
    ' (r, _) ← call Uwait;
    if r <? 0 then forktest_print "wait stopped early\n";; Pexit 1 else Pret tt);;
  ' (r, _) ← call Uwait;
  if negb (r =? -1) then forktest_print "wait got too many\n";; Pexit 1 else
  forktest_print "fork test OK\n".

Definition forktest_main : prog unit := forktest;; Pexit 0.

(** ** stressfs.c *)

(** [for(i = 0; i < 4; i++) if(fork() > 0) break;] *)
Fixpoint stress_forks (k : nat) (i : Z) : prog Z :=
  match k with
  | O => Pret i
  | S k => pid ← call Ufork; if 0 <? pid then Pret i else stress_forks k (i + 1)
  end.

Definition stressfs_main : prog unit :=
  let data := replicate 512 97 in
  printf "stressfs starting\n" [];;
  i ← stress_forks 4 0;
  printf "write %d\n" [UInt i];;
  let path := chars "stressfs" ++ [u8 (48 + i); 0] in
  fd ← uopen path (Z.lor O_CREATE O_RDWR);
  pfor (seq 0 20) (fun _ => call (Uwrite fd data);; Pret tt);;
  call (Uclose fd);;
  printf "read\n" [];;
  fd ← uopen path O_RDONLY;
  pfor (seq 0 20) (fun _ => call (Uread fd 512);; Pret tt);;
  call (Uclose fd);;
  call Uwait;;
  Pexit 0.

(** ** logstress.c *)

Definition LOGSTRESS_BUFSZ : nat := 500.
Definition LOGSTRESS_SZ : Z := 2000.

(** The child for [argv[i]]. *)
Definition logstress_child (arg0 : list Z) (i : Z) (f : list Z) : prog unit :=
  fd ← uopen f (Z.lor O_CREATE O_RDWR);
  if fd <? 0 then printf "%s: create %s failed\n" [UStr (Some arg0); UStr (Some f)];; Pexit 1 else
  buf ← inside (memset (replicate LOGSTRESS_BUFSZ 0) (48 + i) LOGSTRESS_SZ);
  pfor (seq 0 250) (fun _ =>
    n ← call (Uwrite fd (take (Z.to_nat LOGSTRESS_SZ) buf));
    pwhen (negb (n =? LOGSTRESS_SZ)) (printf "write failed %d\n" [UInt n];; Pexit 1));;
  Pexit 0.

Fixpoint logstress_forks (arg0 : list Z) (i : Z) (files : list (list Z)) : prog unit :=
  match files with
  | [] => Pret tt
  | f :: files =>
      pid ← call Ufork;
      if pid <? 0 then printf "%s: fork failed\n" [UStr (Some arg0)];; Pexit 1 else
      pwhen (pid =? 0) (logstress_child arg0 i f);;
      logstress_forks arg0 (i + 1) files
  end.

(** [start] exits with what [main] returns. *)
Definition logstress_main (argv : list (list Z)) : prog Z :=
  match argv with
  | [] => Pret 0
  | arg0 :: files =>
      logstress_forks arg0 1 files;;
      pfor files (fun _ =>
        ' (_, xstatus) ← call Uwait;
        pwhen (negb (xstatus =? 0)) (Pexit xstatus));;
      Pret 0
  end.

(** ** dorphan.c and forphan.c *)

(** [for(;;) pause(1000);] *)
Fixpoint pause_forever (k : nat) : prog unit :=
  match k with
  | O => Pfuel
  | S k => call (Upause 1000);; pause_forever k
  end.

Definition dorphan_main `{Fuel} (s : list Z) : prog unit :=
  r ← call (Umkdir (chars "dd"));
  if negb (r =? 0) then printf "%s: mkdir dd failed\n" [UStr (Some s)];; Pexit 1 else
  r ← call (Uchdir (chars "dd"));
  if negb (r =? 0) then printf "%s: chdir dd failed\n" [UStr (Some s)];; Pexit 1 else
  r ← call (Uunlink (chars "../dd"));
  if r <? 0 then printf "%s: unlink failed\n" [UStr (Some s)];; Pexit 1 else
  printf "wait for kill and reclaim\n" [];;
  pause_forever fuel.

Definition forphan_main `{Fuel} (s : list Z) : prog unit :=
  let ff := lit "file0" in
  fd ← uopen ff (Z.lor O_CREATE O_WRONLY);
  if fd <? 0 then printf "%s: open failed\n" [UStr (Some s)];; Pexit 1 else
  st ← call (Ufstat fd);
  match st with
  | None => fprintf 2 "%s: cannot stat %s\n" [UStr (Some s); UStr (Some (lit "ff"))];; Pexit 1
  | Some st =>
      r ← call (Uunlink (cstr ff));
      if r <? 0 then printf "%s: unlink failed\n" [UStr (Some s)];; Pexit 1 else
      r ← uopen ff O_RDONLY;
      if negb (r =? -1) then printf "%s: open successed\n" [UStr (Some s)];; Pexit 1 else
      printf "wait for kill and reclaim %d\n" [UInt (st_ino st)];;
      pause_forever fuel
  end.

(** ** grind.c: the random numbers *)

(** [do_rand(ctx)]: the new [*ctx], which is also the return value. [long] is 64 bits;
    [*ctx] is unsigned. *)
Definition do_rand (ctx : Z) : Z :=
  let x := ctx mod 0x7ffffffe + 1 in
  let hi := x / 127773 in
  let lo := x mod 127773 in
  let x := 16807 * lo - 2836 * hi in
  let x := if x <? 0 then x + 0x7fffffff else x in
  x - 1.

Close Scope user_scope.

(** ** wc counts lines, words and characters *)

Definition blank (c : Z) : bool := bool_decide (c ∈ [32; 13; 9; 10; 11]).

(** The pieces between the blanks of a text; its words are those that are not empty. *)
Fixpoint fields (l : list Z) : list (list Z) :=
  match l with
  | [] => [[]]
  | c :: l =>
      if blank c then [] :: fields l
      else match fields l with f :: fs => (c :: f) :: fs | [] => [[c]] end
  end.

Definition words (l : list Z) : Z := Z.of_nat (length (filter (fun f => f <> []) (fields l))).
Definition newlines (l : list Z) : Z := Z.of_nat (length (filter (fun c => c = 10) l)).

Lemma strchr_blank c :
  blank c = match strchr (lit " \r\t\n\v") c with Some (Some _) => true | _ => false end.
Proof.
  unfold blank. let v := eval vm_compute in (lit " \r\t\n\v") in change (lit " \r\t\n\v") with v.
  cbn [strchr]. destruct (Z.eqb_spec 32 c), (Z.eqb_spec 13 c), (Z.eqb_spec 9 c), (Z.eqb_spec 10 c), (Z.eqb_spec 11 c);
    subst; try reflexivity; try lia. apply bool_decide_eq_false. set_solver.
Qed.

(** The words that begin in [l] when [inw] says whether a word reaches its beginning. *)
Definition begun (inw : bool) (l : list Z) : Z :=
  words l - (if inw then if decide (head (fields l) = Some []) then 0 else 1 else 0).

Lemma fields_cons l : exists f fs, fields l = f :: fs.
Proof. destruct l as [|c l]; simpl; [by eauto|]. destruct (blank c), (fields l); by eauto. Qed.

Lemma begun_nil inw : begun inw [] = 0.
Proof. by destruct inw. Qed.

Lemma begun_cons inw c l :
  begun inw (c :: l) = if blank c then begun false l else (if inw then 0 else 1) + begun true l.
Proof.
  unfold begun, words. simpl. destruct (fields_cons l) as (f & fs & ->). destruct (blank c); simpl.
  - rewrite filter_cons_False by congruence. simpl. destruct inw; lia.
  - destruct f as [|a f]; simpl.
    + rewrite filter_cons_False by congruence. simpl length. destruct inw; lia.
    + destruct inw; lia.
Qed.

Lemma begun_range inw l : 0 <= begun inw l <= Z.of_nat (length l).
Proof.
  revert inw. induction l as [|c l IH]; intros inw; [by rewrite begun_nil|]. rewrite begun_cons.
  pose proof (IH false). pose proof (IH true). simpl length. destruct (blank c), inw; lia.
Qed.

Lemma newlines_cons c l : newlines (c :: l) = (if c =? 10 then 1 else 0) + newlines l.
Proof.
  unfold newlines. destruct (Z.eqb_spec c 10) as [->|Hc].
  - rewrite filter_cons_True by done. simpl length. lia.
  - by rewrite filter_cons_False.
Qed.

Lemma newlines_range l : 0 <= newlines l <= Z.of_nat (length l).
Proof. unfold newlines. pose proof (length_filter (fun c => c = 10) l). lia. Qed.

Lemma wc_char_spec a w n b c :
  0 <= a < 2 ^ 31 - 1 -> 0 <= w < 2 ^ 31 - 1 -> 0 <= n < 2 ^ 31 - 1 ->
  wc_char (Counts a w n b) c
  = Counts (a + if c =? 10 then 1 else 0) (w + if blank c then 0 else if b then 0 else 1) (n + 1)
      (negb (blank c)).
Proof.
  intros Ha Hw Hn. unfold wc_char. rewrite strchr_blank. cbn [n_l n_w n_c inword].
  destruct (c =? 10), (strchr _ c) as [[|]|], b; cbn [n_l n_w n_c inword negb];
    rewrite ?s32_small by lia; f_equal; lia.
Qed.

Lemma wc_fold l s :
  0 <= n_l s -> 0 <= n_w s -> 0 <= n_c s ->
  n_l s + Z.of_nat (length l) < 2 ^ 31 -> n_w s + Z.of_nat (length l) < 2 ^ 31 ->
  n_c s + Z.of_nat (length l) < 2 ^ 31 ->
  exists b, fold_left wc_char l s
    = Counts (n_l s + newlines l) (n_w s + begun (inword s) l) (n_c s + Z.of_nat (length l)) b.
Proof.
  revert s. induction l as [|c l IH]; intros [a w n b] Ha Hw Hn Hla Hlw Hln; cbn [fold_left n_l n_w n_c inword] in *.
  - exists b. rewrite begun_nil. unfold newlines. simpl. f_equal; lia.
  - cbn [length] in *. rewrite newlines_cons, begun_cons, wc_char_spec by lia.
    destruct (IH (Counts (a + if c =? 10 then 1 else 0) (w + if blank c then 0 else if b then 0 else 1)
      (n + 1) (negb (blank c)))) as (b2 & E2); cbn [n_l n_w n_c inword] in *;
      try (destruct (c =? 10), (blank c), b; lia).
    exists b2. rewrite E2. f_equal; destruct (blank c), b; simpl; lia.
Qed.

Lemma wc_loop_run k fd ps log s :
  Forall (fun p => p <> []) ps -> (length (mjoin ps) < k)%nat ->
  urun (stream_handler fd) (wc_loop k fd s) (Streams ps log)
  = UReturn (fold_left wc_char (mjoin ps) s) (Streams [] log).
Proof.
  revert ps s. induction k as [|k IH]; intros ps s Hps Hk; [lia|].
  cbn [wc_loop pbind call urun stream_handler]. rewrite Z.eqb_refl. cbn [in_left out_log].
  destruct ps as [|p ps]; [done|]. apply Forall_cons in Hps as [Hp Hps].
  destruct (take_piece_cons 512 p ps) as (x & ps' & -> & Hx & Ex & _ & Hps'); [lia|done|].
  destruct x as [|c x]; [done|].
  change (mjoin (p :: ps)) with (p ++ mjoin ps) in *. rewrite <- Ex in *. rewrite fold_left_app.
  apply IH; [by apply Hps'|]. rewrite length_app in Hk. simpl in Hk. lia.
Qed.

(** wc counts right: whatever the sizes of the reads, the numbers of lines, words and
    characters that it prints are the newlines, the non-empty pieces between blanks
    and the bytes of the input; a word that the end of a buffer cuts is counted once. *)
Theorem wc_counts k fd ps log :
  Forall (fun p => p <> []) ps -> (length (mjoin ps) < k)%nat -> Z.of_nat (length (mjoin ps)) < 2 ^ 31 ->
  exists b, urun (stream_handler fd) (wc_loop k fd (Counts 0 0 0 false)) (Streams ps log)
    = UReturn (Counts (newlines (mjoin ps)) (words (mjoin ps)) (Z.of_nat (length (mjoin ps))) b)
        (Streams [] log).
Proof.
  intros Hps Hk Hl. rewrite wc_loop_run by done.
  destruct (wc_fold (mjoin ps) (Counts 0 0 0 false)) as (b & ->); cbn [n_l n_w n_c inword]; try lia.
  exists b. unfold begun. rewrite Z.sub_0_r. done.
Qed.

Lemma wc_counts_witness :
  exists b, urun (stream_handler 0) (wc_loop 20 0 (Counts 0 0 0 false))
      (Streams [chars "ab c"; chars "d\n\nef"] []) = UReturn (Counts 2 3 9 b) (Streams [] []).
Proof.
  apply (wc_counts 20 0 [chars "ab c"; chars "d\n\nef"] []).
  - repeat constructor; discriminate.
  - vm_compute. lia.
  - reflexivity.
Defined.

(** ** do_rand() multiplies without overflow *)

(** The generator of grind computes [16807 * x mod (2^31 - 1)] on [x = *ctx mod (2^31 -
    2) + 1] by Schrage's decomposition, in which no intermediate value leaves 32 bits,
    and its result stays in the range it is reduced to. *)
Theorem do_rand_spec ctx :
  let x := ctx mod 0x7ffffffe + 1 in
  do_rand ctx = (16807 * x) mod 0x7fffffff - 1 /\ 0 <= do_rand ctx < 0x7ffffffe
  /\ - 2 ^ 31 <= 16807 * (x mod 127773) - 2836 * (x / 127773) < 2 ^ 31.
Proof.
  intros x. assert (Hx : 1 <= x <= 0x7ffffffe) by (unfold x; pose proof (Z.mod_pos_bound ctx 0x7ffffffe); lia).
  pose proof (Z.div_mod x 127773) as Hd. pose proof (Z.mod_pos_bound x 127773) as Hm.
  unfold do_rand. fold x. set (hi := x / 127773) in *. set (lo := x mod 127773) in *.
  set (y := 16807 * lo - 2836 * hi). assert (Hy : 16807 * x = hi * 0x7fffffff + y) by lia.
  assert (Hr : - 0x7fffffff < y < 0x7fffffff) by lia.
  assert (Hnz : y <> 0).
  { intros Hy0. assert (Hdiv : (16807 | 2836 * hi)) by (exists lo; lia).
    assert (Hh : hi mod 16807 = 0).
    { apply Z.mod_divide; [lia|]. apply (Z.gauss _ 2836); [done|reflexivity]. }
    pose proof (Z.div_mod hi 16807). assert (hi = 0 \/ hi = 16807) by lia. lia. }
  destruct (y <? 0) eqn:E; bool_to_prop.
  - replace ((16807 * x) mod 0x7fffffff) with (y + 0x7fffffff); [lia|].
    rewrite Hy. apply (Z.mod_unique _ _ (hi - 1)); lia.
  - replace ((16807 * x) mod 0x7fffffff) with y; [lia|].
    rewrite Hy. apply (Z.mod_unique _ _ hi); lia.
Qed.
