(* ===== verification/Usertests.v ===== *)
(** * The tests of the kernel: [src/user/usertests.c]

    Each test is the tree of its system calls, with the name [s] under which it runs;
    the driver runs the tests in processes of their own. The global array [buf] is
    zero when a test starts, because the driver does not write to it. The second part
    is about the verdict of the driver. *)

From S2P Require Import Prelude Bytes Params FsTypes Kstring User Ulib Umalloc.

Open Scope user_scope.

(** ** Notation for the calls *)

Definition unlink (path : list Z) : prog Z := call (Uunlink (cstr path)).
Definition mkdir (path : list Z) : prog Z := call (Umkdir (cstr path)).
Definition chdir (path : list Z) : prog Z := call (Uchdir (cstr path)).
Definition link (old new : list Z) : prog Z := call (Ulink (cstr old) (cstr new)).
Definition open (path : list Z) (omode : Z) : prog Z := uopen path omode.
Definition close (fd : Z) : prog Z := call (Uclose fd).
Definition fork : prog Z := call Ufork.
Definition write (fd : Z) (buf : list Z) : prog Z := call (Uwrite fd buf).
Definition exec (path : list Z) (argv : list (list Z)) : prog Z := call (Uexec (cstr path) (map cstr argv)).

(** [read(fd, buf, n)]: the return value, and the array after it. *)
Definition read (fd : Z) (buf : list Z) (n : Z) : prog (Z * list Z) :=
  r ← call (Uread fd n);
  Pret (match r with
        | Some bs => (Z.of_nat (length bs), bs ++ drop (length bs) buf)
        | None => (-1, buf)
        end).

(** [wait(&st)] and [wait(0)]: the status keeps its value when the call fails. *)
Definition wait_status (st : Z) : prog (Z * Z) :=
  ' (r, x) ← call Uwait; Pret (r, if r <? 0 then st else x).
Definition wait0 : prog Z := ' (r, _) ← call Uwait; Pret r.

(** The calls through a computed address, by their numbers in [syscall.h]. *)
Definition write_at (fd addr n : Z) : prog Z := call (Usys 16 [WInt fd; WInt addr; WInt n]).
Definition read_at (fd addr n : Z) : prog Z := call (Usys 5 [WInt fd; WInt addr; WInt n]).
Definition open_at (addr omode : Z) : prog Z := call (Usys 15 [WInt addr; WInt omode]).
Definition pipe_at (addr : Z) : prog Z := call (Usys 4 [WInt addr]).

Definition rdwr : Z := Z.lor O_CREATE O_RDWR.
Definition wronly : Z := Z.lor O_CREATE O_WRONLY.

(** [printf(...); exit(1);], and the same under a condition. *)
Definition failed {A} (fmt : string) (ap : list uarg) : prog A := printf fmt ap;; Pexit 1.
Definition check (b : bool) (fmt : string) (ap : list uarg) : prog unit := pwhen b (failed fmt ap).

(** [for(i = 0; i < n; i++)] *)
Definition count (n : nat) : list Z := map Z.of_nat (seq 0 n).

(** [for(p = from; p < to; p += step)] *)
Definition steps (from to step : Z) : list Z :=
  map (fun k => from + k * step) (count (Z.to_nat ((to - from + step - 1) / step))).

(** A loop over a list with a state, which the body leaves with [false]. *)
Fixpoint pfold {A S : Type} (l : list A) (s : S) (body : S -> A -> prog (bool * S)) : prog S :=
  match l with
  | [] => Pret s
  | x :: l => ' (more, s) ← body s x; if more : bool then pfold l s body else Pret s
  end.

(** A loop that the code does not bound. *)
Fixpoint ploop {S : Type} (k : nat) (s : S) (body : S -> prog (bool * S)) : prog S :=
  match k with
  | O => Pfuel
  | Datatypes.S k => ' (more, s) ← body s; if more : bool then ploop k s body else Pret s
  end.

(** [for(;;) ;] makes no call and never ends. *)
Definition forever {A} : prog A := Pfuel.

Definition BUFSZ : Z := (MAXOPBLOCKS + 2) * BSIZE.
Definition buf0 : list Z := replicate (Z.to_nat BUFSZ) 0.

(** [if(pipe(fds) < 0) ...]: what follows with the two descriptors. *)
Definition with_pipe {A} (bad : prog A) (k : Z -> Z -> prog A) : prog A :=
  r ← call Upipe;
  match r with None => bad | Some (fds0, fds1) => k fds0 fds1 end.

(** [printf("%s", a)] for the string at the address [a]. *)
Fixpoint puts_at (k : nat) (a : Z) : prog unit :=
  match k with
  | O => Pfuel
  | S k => c ← call (Uload a 1); if c =? 0 then Pret tt else putc 1 c;; puts_at k (u64 (a + 1))
  end.

Notation name s := (UStr (Some s)).

Section tests.
(** Where the compiler put the header [base] of [umalloc.c], the stack pointer, and the
    bytes of a local array that has not been initialised. *)
Context `{Fuel} (base sp : Z) (junk : list Z).

(** ** Tests that run fairly quickly *)

Definition addrs : list Z := [0x80000000; 0x3fffffe000; 0x3ffffff000; 0x4000000000; 0xffffffffffffffff].

Definition copyin (s : list Z) : prog unit :=
  pfor addrs (fun addr =>
    fd ← open (lit "copyin1") wronly;
    check (fd <? 0) "open(copyin1) failed\n" [];;
    n ← write_at fd addr 8192;
    check (0 <=? n) "write(fd, %p, 8192) returned %d, not -1\n" [UInt addr; UInt n];;
    close fd;;
    unlink (lit "copyin1");;
    n ← write_at 1 addr 8192;
    check (0 <? n) "write(1, %p, 8192) returned %d, not -1 or 0\n" [UInt addr; UInt n];;
    with_pipe (failed "pipe() failed\n" []) (fun fds0 fds1 =>
      n ← write_at fds1 addr 8192;
      check (0 <? n) "write(pipe, %p, 8192) returned %d, not -1 or 0\n" [UInt addr; UInt n];;
      close fds0;;
      close fds1;;
      Pret tt)).

Definition copyout (s : list Z) : prog unit :=
  pfor (0 :: addrs) (fun addr =>
    fd ← open (lit "README") 0;
    check (fd <? 0) "open(README) failed\n" [];;
    n ← read_at fd addr 8192;
    check (0 <? n) "read(fd, %p, 8192) returned %d, not -1 or 0\n" [UInt addr; UInt n];;
    close fd;;
    with_pipe (failed "pipe() failed\n" []) (fun fds0 fds1 =>
      n ← write fds1 (chars "x");
      check (negb (n =? 1)) "pipe write failed\n" [];;
      n ← read_at fds0 addr 8192;
      check (0 <? n) "read(pipe, %p, 8192) returned %d, not -1 or 0\n" [UInt addr; UInt n];;
      close fds0;;
      close fds1;;
      Pret tt)).

Definition copyinstr1 (s : list Z) : prog unit :=
  pfor addrs (fun addr =>
    fd ← open_at addr wronly;
    check (0 <=? fd) "open(%p) returned %d, not -1\n" [UInt addr; UInt fd]).

Definition copyinstr2 (s : list Z) : prog unit :=
  let b := replicate (Z.to_nat MAXPATH) 120 ++ [0] in
  ret ← unlink b;
  check (negb (ret =? -1)) "unlink(%s) returned %d, not -1\n" [name b; UInt ret];;
  fd ← open b wronly;
  check (negb (fd =? -1)) "open(%s) returned %d, not -1\n" [name b; UInt fd];;
  ret ← link b b;
  check (negb (ret =? -1)) "link(%s, %s) returned %d, not -1\n" [name b; name b; UInt ret];;
  ret ← exec b [lit "xx"];
  check (negb (ret =? -1)) "exec(%s) returned %d, not -1\n" [name b; UInt fd];;
  pid ← fork;
  check (pid <? 0) "fork failed\n" [];;
  pwhen (pid =? 0)
    (let big := replicate (Z.to_nat PGSIZE) 120 ++ [0] in
     ret ← exec (lit "echo") [big; big; big];
     check (negb (ret =? -1)) "exec(echo, BIG) returned %d, not -1\n" [UInt fd];;
     Pexit 747);;
  ' (_, st) ← wait_status 0;
  check (negb (st =? 747)) "exec(echo, BIG) succeeded, should have failed\n" [].

(** [if((top % PGSIZE) != 0) sbrk(PGSIZE - (top % PGSIZE));] *)
Definition round_break : prog unit :=
  top ← sbrk 0;
  pwhen (negb (top mod PGSIZE =? 0)) (sbrk (PGSIZE - top mod PGSIZE);; Pret tt).

Definition copyinstr3 (s : list Z) : prog unit :=
  sbrk 8192;;
  round_break;;
  top ← sbrk 0;
  check (truthy (top mod PGSIZE)) "oops\n" [];;
  let b := u64 (top - 1) in
  let returned (before : string) (n : nat) (x : Z) : prog unit :=
    printf before [];;
    puts_at fuel b;;
    pfor (seq 1 (n - 1)) (fun _ => printf ", " [];; puts_at fuel b);;
    printf ") returned %d, not -1\n" [UInt x];;
    Pexit 1 in
  call (Ustore b 1 120);;
  ret ← call (Usys 18 [WInt b]);
  pwhen (negb (ret =? -1)) (returned "unlink("%string 1%nat ret);;
  fd ← open_at b wronly;
  pwhen (negb (fd =? -1)) (returned "open("%string 1%nat fd);;
  ret ← call (Usys 19 [WInt b; WInt b]);
  pwhen (negb (ret =? -1)) (returned "link("%string 2%nat ret);;
  ret ← call (Usys 7 [WInt b; WArgv [WStr (chars "xx")]]);
  pwhen (negb (ret =? -1)) (returned "exec("%string 1%nat fd).

Definition rwsbrk (s : list Z) : prog unit :=
  a ← sbrk 8192;
  check (a =? SBRK_ERROR) "sbrk(rwsbrk) failed\n" [];;
  r ← sbrk (-8192);
  check (r =? SBRK_ERROR) "sbrk(rwsbrk) shrink failed\n" [];;
  fd ← open (lit "rwsbrk") wronly;
  check (fd <? 0) "open(rwsbrk) failed\n" [];;
  n ← write_at fd (u64 (a + PGSIZE)) 1024;
  check (0 <=? n) "write(fd, %p, 1024) returned %d, not -1\n" [UInt (u64 (a + PGSIZE)); UInt n];;
  close fd;;
  unlink (lit "rwsbrk");;
  fd ← open (lit "README") O_RDONLY;
  check (fd <? 0) "open(README) failed\n" [];;
  n ← read_at fd (u64 (a + PGSIZE)) 10;
  check (0 <=? n) "read(fd, %p, 10) returned %d, not -1\n" [UInt (u64 (a + PGSIZE)); UInt n];;
  close fd;;
  Pexit 0.

Definition truncate1 (s : list Z) : prog unit :=
  unlink (lit "truncfile");;
  fd1 ← open (lit "truncfile") (Z.lor wronly O_TRUNC);
  write fd1 (chars "abcd");;
  close fd1;;
  fd2 ← open (lit "truncfile") O_RDONLY;
  ' (n, _) ← read fd2 junk 32;
  check (negb (n =? 4)) "%s: read %d bytes, wanted 4\n" [name s; UInt n];;
  fd1 ← open (lit "truncfile") (Z.lor O_WRONLY O_TRUNC);
  fd3 ← open (lit "truncfile") O_RDONLY;
  ' (n, _) ← read fd3 junk 32;
  pwhen (negb (n =? 0)) (printf "aaa fd3=%d\n" [UInt fd3]);;
  check (negb (n =? 0)) "%s: read %d bytes, wanted 0\n" [name s; UInt n];;
  ' (n, _) ← read fd2 junk 32;
  pwhen (negb (n =? 0)) (printf "bbb fd2=%d\n" [UInt fd2]);;
  check (negb (n =? 0)) "%s: read %d bytes, wanted 0\n" [name s; UInt n];;
  write fd1 (chars "abcdef");;
  ' (n, _) ← read fd3 junk 32;
  check (negb (n =? 6)) "%s: read %d bytes, wanted 6\n" [name s; UInt n];;
  ' (n, _) ← read fd2 junk 32;
  check (negb (n =? 2)) "%s: read %d bytes, wanted 2\n" [name s; UInt n];;
  unlink (lit "truncfile");;
  close fd1;;
  close fd2;;
  close fd3;;
  Pret tt.

Definition truncate2 (s : list Z) : prog unit :=
  unlink (lit "truncfile");;
  fd1 ← open (lit "truncfile") (Z.lor wronly O_TRUNC);
  write fd1 (chars "abcd");;
  fd2 ← open (lit "truncfile") (Z.lor O_TRUNC O_WRONLY);
  n ← write fd1 (chars "x");
  check (negb (n =? -1)) "%s: write returned %d, expected -1\n" [name s; UInt n];;
  unlink (lit "truncfile");;
  close fd1;;
  close fd2;;
  Pret tt.

Definition truncate3 (s : list Z) : prog unit :=
  fd ← open (lit "truncfile") (Z.lor wronly O_TRUNC);
  close fd;;
  pid ← fork;
  check (pid <? 0) "%s: fork failed\n" [name s];;
  pwhen (pid =? 0)
    (pfor (seq 0 100) (fun _ =>
       fd ← open (lit "truncfile") O_WRONLY;
       check (fd <? 0) "%s: open failed\n" [name s];;
       n ← write fd (chars "1234567890");
       check (negb (n =? 10)) "%s: write got %d, expected 10\n" [name s; UInt n];;
       close fd;;
       fd ← open (lit "truncfile") O_RDONLY;
       read fd junk 32;;
       close fd;;
       Pret tt);;
     Pexit 0);;
  pfor (seq 0 150) (fun _ =>
    fd ← open (lit "truncfile") (Z.lor wronly O_TRUNC);
    check (fd <? 0) "%s: open failed\n" [name s];;
    n ← write fd (chars "xxx");
    check (negb (n =? 3)) "%s: write got %d, expected 3\n" [name s; UInt n];;
    close fd;;
    Pret tt);;
  ' (_, xstatus) ← call Uwait;
  unlink (lit "truncfile");;
  Pexit xstatus.

Definition iputtest (s : list Z) : prog unit :=
  r ← mkdir (lit "iputdir");
  check (r <? 0) "%s: mkdir failed\n" [name s];;
  r ← chdir (lit "iputdir");
  check (r <? 0) "%s: chdir iputdir failed\n" [name s];;
  r ← unlink (lit "../iputdir");
  check (r <? 0) "%s: unlink ../iputdir failed\n" [name s];;
  r ← chdir (lit "/");
  check (r <? 0) "%s: chdir / failed\n" [name s].

Definition exitiputtest (s : list Z) : prog unit :=
  pid ← fork;
  check (pid <? 0) "%s: fork failed\n" [name s];;
  pwhen (pid =? 0)
    (r ← mkdir (lit "iputdir");
     check (r <? 0) "%s: mkdir failed\n" [name s];;
     r ← chdir (lit "iputdir");
     check (r <? 0) "%s: child chdir failed\n" [name s];;
     r ← unlink (lit "../iputdir");
     check (r <? 0) "%s: unlink ../iputdir failed\n" [name s];;
     Pexit 0);;
  ' (_, xstatus) ← call Uwait;
  Pexit xstatus.

Definition openiputtest (s : list Z) : prog unit :=
  r ← mkdir (lit "oidir");
  check (r <? 0) "%s: mkdir oidir failed\n" [name s];;
  pid ← fork;
  check (pid <? 0) "%s: fork failed\n" [name s];;
  pwhen (pid =? 0)
    (fd ← open (lit "oidir") O_RDWR;
     check (0 <=? fd) "%s: open directory for write succeeded\n" [name s];;
     Pexit 0);;
  call (Upause 1);;
  r ← unlink (lit "oidir");
  check (negb (r =? 0)) "%s: unlink failed\n" [name s];;
  ' (_, xstatus) ← call Uwait;
  Pexit xstatus.

Definition opentest (s : list Z) : prog unit :=
  fd ← open (lit "echo") 0;
  check (fd <? 0) "%s: open echo failed!\n" [name s];;
  close fd;;
  fd ← open (lit "doesnotexist") 0;
  check (0 <=? fd) "%s: open doesnotexist succeeded!\n" [name s].

Definition writetest (s : list Z) : prog unit :=
  fd ← open (lit "small") rdwr;
  check (fd <? 0) "%s: error: creat small failed!\n" [name s];;
  pfor (count 100) (fun i =>
    n ← write fd (chars "aaaaaaaaaa");
    check (negb (n =? 10)) "%s: error: write aa %d new file failed\n" [name s; UInt i];;
    n ← write fd (chars "bbbbbbbbbb");
    check (negb (n =? 10)) "%s: error: write bb %d new file failed\n" [name s; UInt i]);;
  close fd;;
  fd ← open (lit "small") O_RDONLY;
  check (fd <? 0) "%s: error: open small failed!\n" [name s];;
  ' (i, _) ← read fd buf0 2000;
  check (negb (i =? 2000)) "%s: read failed\n" [name s];;
  close fd;;
  r ← unlink (lit "small");
  check (r <? 0) "%s: unlink small failed\n" [name s].

(** [((int * )buf)[0]] *)
Definition buf_int (buf : list Z) : Z := s32 (le_at 4 0 buf).

(** The loop that reads the file back, with [n] and [buf]. *)
Definition writebig_read (s : list Z) (fd : Z) (buf : list Z) : prog (Z * list Z) :=
  ploop fuel (0, buf) (fun '(n, buf) =>
    ' (i, buf) ← read fd buf BSIZE;
    if i =? 0 then
      check (negb (n =? MAXFILE)) "%s: read only %d blocks from big" [name s; UInt n];;
      Pret (false, (n, buf))
    else
      check (negb (i =? BSIZE)) "%s: read failed %d\n" [name s; UInt i];;
      check (negb (buf_int buf =? n)) "%s: read content of block %d is %d\n" [name s; UInt n; UInt (buf_int buf)];;
      Pret (true, (s32 (n + 1), buf))).

Definition writebig (s : list Z) : prog unit :=
  fd ← open (lit "big") rdwr;
  check (fd <? 0) "%s: error: creat big failed!\n" [name s];;
  buf ← pfold (count (Z.to_nat MAXFILE)) buf0 (fun buf i =>
    let buf := put_le 4 0 (u32 i) buf in
    n ← write fd (take (Z.to_nat BSIZE) buf);
    check (negb (n =? BSIZE)) "%s: error: write big file failed i=%d\n" [name s; UInt i];;
    Pret (true, buf));
  close fd;;
  fd ← open (lit "big") O_RDONLY;
  check (fd <? 0) "%s: error: open big failed!\n" [name s];;
  writebig_read s fd buf;;
  close fd;;
  r ← unlink (lit "big");
  check (r <? 0) "%s: unlink big failed\n" [name s].

(** [name[1] = '0' + i;] *)
Definition num_char (c : Z) : Z := u8 (48 + c).

Definition createtest (s : list Z) : prog unit :=
  pfor (count 52) (fun i => fd ← open [97; num_char i; 0] rdwr; close fd;; Pret tt);;
  pfor (count 52) (fun i => unlink [97; num_char i; 0];; Pret tt).

Definition dirtest (s : list Z) : prog unit :=
  r ← mkdir (lit "dir0");
  check (r <? 0) "%s: mkdir failed\n" [name s];;
  r ← chdir (lit "dir0");
  check (r <? 0) "%s: chdir dir0 failed\n" [name s];;
  r ← chdir (lit "..");
  check (r <? 0) "%s: chdir .. failed\n" [name s];;
  r ← unlink (lit "dir0");
  check (r <? 0) "%s: unlink dir0 failed\n" [name s].

Definition exectest (s : list Z) : prog unit :=
  unlink (lit "echo-ok");;
  pid ← fork;
  check (pid <? 0) "%s: fork failed\n" [name s];;
  pwhen (pid =? 0)
    (close 1;;
     fd ← open (lit "echo-ok") wronly;
     check (fd <? 0) "%s: create failed\n" [name s];;
     check (negb (fd =? 1)) "%s: wrong fd\n" [name s];;
     r ← exec (lit "echo") [lit "echo"; lit "OK"];
     check (r <? 0) "%s: exec echo failed\n" [name s]);;
  ' (r, xstatus) ← call Uwait;
  pwhen (negb (r =? pid)) (printf "%s: wait failed!\n" [name s]);;
  pwhen (negb (xstatus =? 0)) (Pexit xstatus);;
  fd ← open (lit "echo-ok") O_RDONLY;
  check (fd <? 0) "%s: open failed\n" [name s];;
  ' (n, buf) ← read fd junk 2;
  check (negb (n =? 2)) "%s: read failed\n" [name s];;
  unlink (lit "echo-ok");;
  if bool_decide (buf !! 0%nat = Some 79) && bool_decide (buf !! 1%nat = Some 75) then Pexit 0
  else failed "%s: wrong output\n" [name s].

(** The child: [buf[i] = seq++] in [char buf[]]. *)
Definition pipe1_child (s : list Z) (fds1 : Z) : prog unit :=
  pfor (count 5) (fun n =>
    r ← write fds1 (map (fun i => u8 (n * 1033 + i)) (count 1033));
    check (negb (r =? 1033)) "%s: pipe1 oops 1\n" [name s]);;
  Pexit 0.

(** The bytes read are those that follow [seq]. *)
Fixpoint in_sequence (l : list Z) (seq : Z) : bool :=
  match l with
  | [] => true
  | c :: l => (Z.land c 255 =? Z.land seq 255) && in_sequence l (s32 (seq + 1))
  end.

(** The loop of the parent, with [seq] and [cc]; [None] when the data is wrong. The sum
    [total] of the lengths is [seq]. *)
Definition pipe1_parent (fds0 : Z) : prog (option Z) :=
  ' (st, _) ← ploop fuel (Some 0, 1) (fun '(st, cc) =>
    match st with
    | None => Pret (false, (None, cc))
    | Some seq =>
        ' (n, buf) ← read fds0 buf0 cc;
        if n <=? 0 then Pret (false, (Some seq, cc))
        else if in_sequence (take (Z.to_nat n) buf) seq then
          Pret (true, (Some (s32 (seq + n)), if BUFSZ <? cc * 2 then BUFSZ else cc * 2))
        else Pret (false, (None, cc))
    end);
  Pret st.

Definition pipe1 (s : list Z) : prog unit :=
  with_pipe (failed "%s: pipe() failed\n" [name s]) (fun fds0 fds1 =>
    pid ← fork;
    if pid =? 0 then close fds0;; pipe1_child s fds1
    else if 0 <? pid then
      close fds1;;
      total ← pipe1_parent fds0;
      match total with
      | None => printf "%s: pipe1 oops 2\n" [name s]
      | Some total =>
          check (negb (total =? 5 * 1033)) "%s: pipe1 oops 3 total %d\n" [name s; UInt total];;
          close fds0;;
          ' (_, xstatus) ← call Uwait;
          Pexit xstatus
      end
    else failed "%s: fork() failed\n" [name s]).

Definition killstatus (s : list Z) : prog unit :=
  pfor (seq 0 100) (fun _ =>
    pid1 ← fork;
    check (pid1 <? 0) "%s: fork failed\n" [name s];;
    pwhen (pid1 =? 0) (ploop fuel tt (fun _ => call Ugetpid;; Pret (true, tt)));;
    call (Upause 1);;
    call (Ukill pid1);;
    ' (_, xst) ← call Uwait;
    check (negb (xst =? -1)) "%s: status should be -1\n" [name s]);;
  Pexit 0.

(** [pipe(pfds)]: when the call fails, the array keeps what was on the stack. *)
Definition preempt (s : list Z) : prog unit :=
  pid1 ← fork;
  check (pid1 <? 0) "%s: fork failed" [name s];;
  pwhen (pid1 =? 0) forever;;
  pid2 ← fork;
  check (pid2 <? 0) "%s: fork failed\n" [name s];;
  pwhen (pid2 =? 0) forever;;
  r ← call Upipe;
  let '(pfds0, pfds1) := default (s32 (le_at 4 0 junk), s32 (le_at 4 4 junk)) r in
  pid3 ← fork;
  check (pid3 <? 0) "%s: fork failed\n" [name s];;
  pwhen (pid3 =? 0)
    (close pfds0;;
     n ← write pfds1 (chars "x");
     pwhen (negb (n =? 1)) (printf "%s: preempt write error" [name s]);;
     close pfds1;;
     forever);;
  close pfds1;;
  ' (n, _) ← read pfds0 buf0 BUFSZ;
  if negb (n =? 1) then printf "%s: preempt read error" [name s] else
  close pfds0;;
  printf "kill... " [];;
  call (Ukill pid1);;
  call (Ukill pid2);;
  call (Ukill pid3);;
  printf "wait... " [];;
  wait0;;
  wait0;;
  wait0;;
  Pret tt.

Definition exitwait (s : list Z) : prog unit :=
  pfor (count 100) (fun i =>
    pid ← fork;
    check (pid <? 0) "%s: fork failed\n" [name s];;
    if truthy pid then
      ' (r, xstate) ← call Uwait;
      check (negb (r =? pid)) "%s: wait wrong pid\n" [name s];;
      check (negb (i =? xstate)) "%s: wait wrong exit status\n" [name s]
    else Pexit i).

Definition reparent (s : list Z) : prog unit :=
  master_pid ← call Ugetpid;
  pfor (seq 0 200) (fun _ =>
    pid ← fork;
    check (pid <? 0) "%s: fork failed\n" [name s];;
    if truthy pid then
      r ← wait0;
      check (negb (r =? pid)) "%s: wait wrong pid\n" [name s]
    else
      pid2 ← fork;
      pwhen (pid2 <? 0) (call (Ukill master_pid);; Pexit 1);;
      Pexit 0);;
  Pexit 0.

Definition twochildren (s : list Z) : prog unit :=
  pfor (seq 0 1000) (fun _ =>
    pid1 ← fork;
    check (pid1 <? 0) "%s: fork failed\n" [name s];;
    if pid1 =? 0 then Pexit 0
    else
      pid2 ← fork;
      check (pid2 <? 0) "%s: fork failed\n" [name s];;
      if pid2 =? 0 then Pexit 0
      else wait0;; wait0;; Pret tt).

Definition forkfork (s : list Z) : prog unit :=
  pfor (seq 0 2) (fun _ =>
    pid ← fork;
    check (pid <? 0) "%s: fork failed" [name s];;
    pwhen (pid =? 0)
      (pfor (seq 0 200) (fun _ =>
         pid1 ← fork;
         pwhen (pid1 <? 0) (Pexit 1);;
         pwhen (pid1 =? 0) (Pexit 0);;
         wait0;;
         Pret tt);;
       Pexit 0));;
  pfor (seq 0 2) (fun _ =>
    ' (_, xstatus) ← call Uwait;
    check (negb (xstatus =? 0)) "%s: fork in child failed" [name s]).

Definition forkforkfork (s : list Z) : prog unit :=
  unlink (lit "stopforking");;
  pid ← fork;
  check (pid <? 0) "%s: fork failed" [name s];;
  pwhen (pid =? 0)
    (ploop fuel tt (fun _ =>
       fd ← open (lit "stopforking") 0;
       pwhen (0 <=? fd) (Pexit 0);;
       r ← fork;
       pwhen (r <? 0) (fd ← open (lit "stopforking") rdwr; close fd;; Pret tt);;
       Pret (true, tt)));;
  call (Upause 20);;
  fd ← open (lit "stopforking") rdwr;
  close fd;;
  wait0;;
  call (Upause 10);;
  Pret tt.

Definition reparent2 (s : list Z) : prog unit :=
  pfor (seq 0 800) (fun _ =>
    pid1 ← fork;
    check (pid1 <? 0) "fork failed\n" [];;
    pwhen (pid1 =? 0) (fork;; fork;; Pexit 0);;
    wait0;;
    Pret tt);;
  Pexit 0.

(** The child of [mem]: a list of blocks, linked through their first words. *)
Definition mem_child (s : list Z) : prog unit :=
  ' (m1, h) ← ploop fuel (0, Heap ∅ 0) (fun '(m1, h) =>
    ' (m2, h) ← malloc base 10001 h;
    if m2 =? 0 then Pret (false, (m1, h))
    else call (Ustore m2 8 m1);; Pret (true, (m2, h)));
  ' (_, h) ← ploop fuel (m1, h) (fun '(m1, h) =>
    if m1 =? 0 then Pret (false, (m1, h))
    else
      m2 ← call (Uload m1 8);
      h ← free m1 h;
      Pret (true, (m2, h)));
  ' (m1, h) ← malloc base (1024 * 20) h;
  check (m1 =? 0) "%s: couldn't allocate mem?!!\n" [name s];;
  free m1 h;;
  Pexit 0.

Definition mem (s : list Z) : prog unit :=
  pid ← fork;
  if pid =? 0 then mem_child s
  else
    ' (_, xstatus) ← call Uwait;
    pwhen (xstatus =? -1) (Pexit 0);;
    Pexit xstatus.

Definition sharedfd (s : list Z) : prog unit :=
  unlink (lit "sharedfd");;
  fd ← open (lit "sharedfd") rdwr;
  check (fd <? 0) "%s: cannot open sharedfd for writing" [name s];;
  pid ← fork;
  let buf := replicate 10 (if pid =? 0 then 99 else 112) in
  pfor (seq 0 1000) (fun _ =>
    n ← write fd buf;
    check (negb (n =? 10)) "%s: write sharedfd failed\n" [name s]);;
  pwhen (pid =? 0) (Pexit 0);;
  ' (_, xstatus) ← call Uwait;
  pwhen (negb (xstatus =? 0)) (Pexit xstatus);;
  close fd;;
  fd ← open (lit "sharedfd") 0;
  check (fd <? 0) "%s: cannot open sharedfd for reading\n" [name s];;
  ' (nc, np, _) ← ploop fuel (0, 0, buf) (fun '(nc, np, buf) =>
    ' (n, buf) ← read fd buf 10;
    if n <=? 0 then Pret (false, (nc, np, buf))
    else
      let found (c : Z) : Z := Z.of_nat (length (filter (fun x => x = c) buf)) in
      Pret (true, (s32 (nc + found 99), s32 (np + found 112), buf)));
  close fd;;
  unlink (lit "sharedfd");;
  if (nc =? 10000) && (np =? 10000) then Pexit 0
  else failed "%s: nc/np test fails\n" [name s].

(** [{ "f0", "f1", "f2", "f3" }] *)
Definition fourfiles_name (pi : Z) : list Z := [102; num_char pi; 0].

(** [while((n = read(fd, buf, sizeof(buf))) > 0)]: the bytes read, all [c]. *)
Definition fourfiles_read (s : list Z) (fd c : Z) : prog Z :=
  ploop fuel 0 (fun total =>
    ' (n, buf) ← read fd buf0 BUFSZ;
    if n <=? 0 then Pret (false, total)
    else
      check (negb (forallb (fun x => x =? c) (take (Z.to_nat n) buf))) "%s: wrong char\n" [name s];;
      Pret (true, s32 (total + n))).

Definition fourfiles (s : list Z) : prog unit :=
  pfor (count 4) (fun pi =>
    let fname := fourfiles_name pi in
    unlink fname;;
    pid ← fork;
    check (pid <? 0) "%s: fork failed\n" [name s];;
    pwhen (pid =? 0)
      (fd ← open fname rdwr;
       check (fd <? 0) "%s: create failed\n" [name s];;
       pfor (seq 0 12) (fun _ =>
         n ← write fd (replicate 500 (num_char pi));
         check (negb (n =? 500)) "write failed %d\n" [UInt n]);;
       Pexit 0));;
  pfor (seq 0 4) (fun _ => ' (_, xstatus) ← call Uwait; pwhen (negb (xstatus =? 0)) (Pexit xstatus));;
  pfor (count 4) (fun i =>
    let fname := fourfiles_name i in
    fd ← open fname 0;
    total ← fourfiles_read s fd (num_char i);
    close fd;;
    check (negb (total =? 12 * 500)) "wrong length %d\n" [UInt total];;
    unlink fname;;
    Pret tt).

(** [name[0] = 'p' + pi; name[1] = '0' + i; name[2] = '\0';] *)
Definition createdelete_name (pi i : Z) : list Z := [u8 (112 + pi); num_char i; 0].

Definition createdelete (s : list Z) : prog unit :=
  pfor (count 4) (fun pi =>
    pid ← fork;
    check (pid <? 0) "%s: fork failed\n" [name s];;
    pwhen (pid =? 0)
      (pfor (count 20) (fun i =>
         fd ← open (createdelete_name pi i) rdwr;
         check (fd <? 0) "%s: create failed\n" [name s];;
         close fd;;
         pwhen ((0 <? i) && (i mod 2 =? 0))
           (r ← unlink (createdelete_name pi (i / 2));
            check (r <? 0) "%s: unlink failed\n" [name s]));;
       Pexit 0));;
  pfor (seq 0 4) (fun _ => ' (_, xstatus) ← call Uwait; pwhen (negb (xstatus =? 0)) (Pexit 1));;
  pfor (count 20) (fun i =>
    pfor (count 4) (fun pi =>
      let nm := createdelete_name pi i in
      fd ← open nm 0;
      (if ((i =? 0) || (10 <=? i)) && (fd <? 0) then
         failed "%s: oops createdelete %s didn't exist\n" [name s; name nm]
       else if (1 <=? i) && (i <? 10) && (0 <=? fd) then
         failed "%s: oops createdelete %s did exist\n" [name s; name nm]
       else Pret tt);;
      pwhen (0 <=? fd) (close fd;; Pret tt)));;
  pfor (count 20) (fun i => pfor (count 4) (fun pi => unlink (createdelete_name pi i);; Pret tt)).

Definition unlinkread (s : list Z) : prog unit :=
  fd ← open (lit "unlinkread") rdwr;
  check (fd <? 0) "%s: create unlinkread failed\n" [name s];;
  write fd (chars "hello");;
  close fd;;
  fd ← open (lit "unlinkread") O_RDWR;
  check (fd <? 0) "%s: open unlinkread failed\n" [name s];;
  r ← unlink (lit "unlinkread");
  check (negb (r =? 0)) "%s: unlink unlinkread failed\n" [name s];;
  fd1 ← open (lit "unlinkread") rdwr;
  write fd1 (chars "yyy");;
  close fd1;;
  ' (n, buf) ← read fd buf0 BUFSZ;
  check (negb (n =? 5)) "%s: unlinkread read failed" [name s];;
  check (negb (bool_decide (buf !! 0%nat = Some 104))) "%s: unlinkread wrong data\n" [name s];;
  n ← write fd (take 10 buf);
  check (negb (n =? 10)) "%s: unlinkread write failed\n" [name s];;
  close fd;;
  unlink (lit "unlinkread");;
  Pret tt.

Definition linktest (s : list Z) : prog unit :=
  unlink (lit "lf1");;
  unlink (lit "lf2");;
  fd ← open (lit "lf1") rdwr;
  check (fd <? 0) "%s: create lf1 failed\n" [name s];;
  n ← write fd (chars "hello");
  check (negb (n =? 5)) "%s: write lf1 failed\n" [name s];;
  close fd;;
  r ← link (lit "lf1") (lit "lf2");
  check (r <? 0) "%s: link lf1 lf2 failed\n" [name s];;
  unlink (lit "lf1");;
  r ← open (lit "lf1") 0;
  check (0 <=? r) "%s: unlinked lf1 but it is still there!\n" [name s];;
  fd ← open (lit "lf2") 0;
  check (fd <? 0) "%s: open lf2 failed\n" [name s];;
  ' (n, _) ← read fd buf0 BUFSZ;
  check (negb (n =? 5)) "%s: read lf2 failed\n" [name s];;
  close fd;;
  r ← link (lit "lf2") (lit "lf2");
  check (0 <=? r) "%s: link lf2 lf2 succeeded! oops\n" [name s];;
  unlink (lit "lf2");;
  r ← link (lit "lf2") (lit "lf1");
  check (0 <=? r) "%s: link non-existent succeeded! oops\n" [name s];;
  r ← link (lit ".") (lit "lf1");
  check (0 <=? r) "%s: link . lf1 succeeded! oops\n" [name s].

(** The listing of the directory, with [fa], [n] and the bytes of [de]. *)
Definition concreate_list (s : list Z) (fd : Z) : prog Z :=
  ' (_, n, _) ← ploop fuel (replicate 40 0, 0, take 16 junk) (fun '(fa, n, de) =>
    ' (r, de) ← read fd de sizeof_dirent;
    if r <=? 0 then Pret (false, (fa, n, de)) else
    let dname := drop 2 de in
    if le_at 2 0 de =? 0 then Pret (true, (fa, n, de)) else
    if bool_decide (dname !! 0%nat = Some 67) && bool_decide (dname !! 2%nat = Some 0) then
      c ← inside (dname !! 1%nat);
      let i := c - 48 in
      check ((i <? 0) || (40 <=? i)) "%s: concreate weird file %s\n" [name s; name dname];;
      x ← inside (fa !! Z.to_nat i);
      check (truthy x) "%s: concreate duplicate file %s\n" [name s; name dname];;
      Pret (true, (<[Z.to_nat i := 1]> fa, s32 (n + 1), de))
    else Pret (true, (fa, n, de)));
  Pret n.

Definition concreate (s : list Z) : prog unit :=
  pfor (count 40) (fun i =>
    let file := [67; num_char i; 0] in
    unlink file;;
    pid ← fork;
    (if truthy pid && (i mod 3 =? 1) then link (lit "C0") file;; Pret tt
     else if (pid =? 0) && (i mod 5 =? 1) then link (lit "C0") file;; Pret tt
     else
       fd ← open file rdwr;
       check (fd <? 0) "concreate create %s failed\n" [name file];;
       close fd;;
       Pret tt);;
    if pid =? 0 then Pexit 0
    else ' (_, xstatus) ← call Uwait; pwhen (negb (xstatus =? 0)) (Pexit 1));;
  fd ← open (lit ".") 0;
  n ← concreate_list s fd;
  close fd;;
  check (negb (n =? 40)) "%s: concreate not enough files in directory listing\n" [name s];;
  pfor (count 40) (fun i =>
    let file := [67; num_char i; 0] in
    pid ← fork;
    check (pid <? 0) "%s: fork failed\n" [name s];;
    (if ((i mod 3 =? 0) && (pid =? 0)) || ((i mod 3 =? 1) && negb (pid =? 0)) then
       pfor (seq 0 6) (fun _ => fd ← open file 0; close fd;; Pret tt)
     else pfor (seq 0 6) (fun _ => unlink file;; Pret tt));;
    if pid =? 0 then Pexit 0 else wait0;; Pret tt).

Definition linkunlink (s : list Z) : prog unit :=
  unlink (lit "x");;
  pid ← fork;
  check (pid <? 0) "%s: fork failed\n" [name s];;
  pfold (seq 0 100) (if truthy pid then 1 else 97) (fun x _ =>
    let x := u32 (x * 1103515245 + 12345) in
    (if x mod 3 =? 0 then fd ← open (lit "x") rdwr; close fd;; Pret tt
     else if x mod 3 =? 1 then link (lit "cat") (lit "x");; Pret tt
     else unlink (lit "x");; Pret tt);;
    Pret (true, x));;
  if truthy pid then wait0;; Pret tt else Pexit 0.

(** [subdir]: a tree is made, walked, refuses what is wrong, and is removed. *)
Definition subdir_make (s : list Z) : prog unit :=
  unlink (lit "ff");;
  r ← mkdir (lit "dd");
  check (negb (r =? 0)) "%s: mkdir dd failed\n" [name s];;
  fd ← open (lit "dd/ff") rdwr;
  check (fd <? 0) "%s: create dd/ff failed\n" [name s];;
  write fd (chars "ff");;
  close fd;;
  r ← unlink (lit "dd");
  check (0 <=? r) "%s: unlink dd (non-empty dir) succeeded!\n" [name s];;
  r ← mkdir (lit "/dd/dd");
  check (negb (r =? 0)) "%s: subdir mkdir dd/dd failed\n" [name s];;
  fd ← open (lit "dd/dd/ff") rdwr;
  check (fd <? 0) "%s: create dd/dd/ff failed\n" [name s];;
  write fd (chars "FF");;
  close fd;;
  fd ← open (lit "dd/dd/../ff") 0;
  check (fd <? 0) "%s: open dd/dd/../ff failed\n" [name s];;
  ' (cc, buf) ← read fd buf0 BUFSZ;
  check (negb (cc =? 2) || negb (bool_decide (buf !! 0%nat = Some 102))) "%s: dd/dd/../ff wrong content\n" [name s];;
  close fd;;
  r ← link (lit "dd/dd/ff") (lit "dd/dd/ffff");
  check (negb (r =? 0)) "%s: link dd/dd/ff dd/dd/ffff failed\n" [name s];;
  r ← unlink (lit "dd/dd/ff");
  check (negb (r =? 0)) "%s: unlink dd/dd/ff failed\n" [name s];;
  r ← open (lit "dd/dd/ff") O_RDONLY;
  check (0 <=? r) "%s: open (unlinked) dd/dd/ff succeeded\n" [name s].

Definition subdir_walk (s : list Z) : prog unit :=
  r ← chdir (lit "dd");
  check (negb (r =? 0)) "%s: chdir dd failed\n" [name s];;
  r ← chdir (lit "dd/../../dd");
  check (negb (r =? 0)) "%s: chdir dd/../../dd failed\n" [name s];;
  r ← chdir (lit "dd/../../../dd");
  check (negb (r =? 0)) "%s: chdir dd/../../../dd failed\n" [name s];;
  r ← chdir (lit "./..");
  check (negb (r =? 0)) "%s: chdir ./.. failed\n" [name s];;
  fd ← open (lit "dd/dd/ffff") 0;
  check (fd <? 0) "%s: open dd/dd/ffff failed\n" [name s];;
  ' (n, _) ← read fd buf0 BUFSZ;
  check (negb (n =? 2)) "%s: read dd/dd/ffff wrong len\n" [name s];;
  close fd;;
  r ← open (lit "dd/dd/ff") O_RDONLY;
  check (0 <=? r) "%s: open (unlinked) dd/dd/ff succeeded!\n" [name s].

Definition subdir_refuse (s : list Z) : prog unit :=
  r ← open (lit "dd/ff/ff") rdwr;
  check (0 <=? r) "%s: create dd/ff/ff succeeded!\n" [name s];;
  r ← open (lit "dd/xx/ff") rdwr;
  check (0 <=? r) "%s: create dd/xx/ff succeeded!\n" [name s];;
  r ← open (lit "dd") O_CREATE;
  check (0 <=? r) "%s: create dd succeeded!\n" [name s];;
  r ← open (lit "dd") O_RDWR;
  check (0 <=? r) "%s: open dd rdwr succeeded!\n" [name s];;
  r ← open (lit "dd") O_WRONLY;
  check (0 <=? r) "%s: open dd wronly succeeded!\n" [name s];;
  r ← link (lit "dd/ff/ff") (lit "dd/dd/xx");
  check (r =? 0) "%s: link dd/ff/ff dd/dd/xx succeeded!\n" [name s];;
  r ← link (lit "dd/xx/ff") (lit "dd/dd/xx");
  check (r =? 0) "%s: link dd/xx/ff dd/dd/xx succeeded!\n" [name s];;
  r ← link (lit "dd/ff") (lit "dd/dd/ffff");
  check (r =? 0) "%s: link dd/ff dd/dd/ffff succeeded!\n" [name s];;
  r ← mkdir (lit "dd/ff/ff");
  check (r =? 0) "%s: mkdir dd/ff/ff succeeded!\n" [name s];;
  r ← mkdir (lit "dd/xx/ff");
  check (r =? 0) "%s: mkdir dd/xx/ff succeeded!\n" [name s];;
  r ← mkdir (lit "dd/dd/ffff");
  check (r =? 0) "%s: mkdir dd/dd/ffff succeeded!\n" [name s];;
  r ← unlink (lit "dd/xx/ff");
  check (r =? 0) "%s: unlink dd/xx/ff succeeded!\n" [name s];;
  r ← unlink (lit "dd/ff/ff");
  check (r =? 0) "%s: unlink dd/ff/ff succeeded!\n" [name s];;
  r ← chdir (lit "dd/ff");
  check (r =? 0) "%s: chdir dd/ff succeeded!\n" [name s];;
  r ← chdir (lit "dd/xx");
  check (r =? 0) "%s: chdir dd/xx succeeded!\n" [name s].

Definition subdir_remove (s : list Z) : prog unit :=
  r ← unlink (lit "dd/dd/ffff");
  check (negb (r =? 0)) "%s: unlink dd/dd/ff failed\n" [name s];;
  r ← unlink (lit "dd/ff");
  check (negb (r =? 0)) "%s: unlink dd/ff failed\n" [name s];;
  r ← unlink (lit "dd");
  check (r =? 0) "%s: unlink non-empty dd succeeded!\n" [name s];;
  r ← unlink (lit "dd/dd");
  check (r <? 0) "%s: unlink dd/dd failed\n" [name s];;
  r ← unlink (lit "dd");
  check (r <? 0) "%s: unlink dd failed\n" [name s].

Definition subdir (s : list Z) : prog unit :=
  subdir_make s;; subdir_walk s;; subdir_refuse s;; subdir_remove s.

Definition bigwrite (s : list Z) : prog unit :=
  unlink (lit "bigwrite");;
  pfor (steps 499 ((MAXOPBLOCKS + 2) * BSIZE) 471) (fun sz =>
    fd ← open (lit "bigwrite") rdwr;
    check (fd <? 0) "%s: cannot create bigwrite\n" [name s];;
    pfor (seq 0 2) (fun _ =>
      cc ← write fd (take (Z.to_nat sz) buf0);
      check (negb (cc =? sz)) "%s: write(%d) ret %d\n" [name s; UInt sz; UInt cc]);;
    close fd;;
    unlink (lit "bigwrite");;
    Pret tt).

(** The loop that reads the file back, with [i], [total] and [buf]. *)
Definition bigfile_read (s : list Z) (fd : Z) : prog Z :=
  ' (_, total, _) ← ploop fuel (0, 0, buf0) (fun '(i, total, buf) =>
    ' (cc, buf) ← read fd buf 300;
    check (cc <? 0) "%s: read bigfile failed\n" [name s];;
    if cc =? 0 then Pret (false, (i, total, buf)) else
    check (negb (cc =? 300)) "%s: short read bigfile\n" [name s];;
    check (negb (bool_decide (buf !! 0%nat = Some (i / 2))) || negb (bool_decide (buf !! 299%nat = Some (i / 2))))
      "%s: read bigfile wrong data\n" [name s];;
    Pret (true, (s32 (i + 1), s32 (total + cc), buf)));
  Pret total.

Definition bigfile (s : list Z) : prog unit :=
  unlink (lit "bigfile.dat");;
  fd ← open (lit "bigfile.dat") rdwr;
  check (fd <? 0) "%s: cannot create bigfile" [name s];;
  pfor (count 20) (fun i =>
    n ← write fd (replicate 600 (u8 i));
    check (negb (n =? 600)) "%s: write bigfile failed\n" [name s]);;
  close fd;;
  fd ← open (lit "bigfile.dat") 0;
  check (fd <? 0) "%s: cannot open bigfile\n" [name s];;
  total ← bigfile_read s fd;
  close fd;;
  check (negb (total =? 20 * 600)) "%s: read bigfile wrong total\n" [name s];;
  unlink (lit "bigfile.dat");;
  Pret tt.

Definition fourteen (s : list Z) : prog unit :=
  r ← mkdir (lit "12345678901234");
  check (negb (r =? 0)) "%s: mkdir 12345678901234 failed\n" [name s];;
  r ← mkdir (lit "12345678901234/123456789012345");
  check (negb (r =? 0)) "%s: mkdir 12345678901234/123456789012345 failed\n" [name s];;
  fd ← open (lit "123456789012345/123456789012345/123456789012345") O_CREATE;
  check (fd <? 0) "%s: create 123456789012345/123456789012345/123456789012345 failed\n" [name s];;
  close fd;;
  fd ← open (lit "12345678901234/12345678901234/12345678901234") 0;
  check (fd <? 0) "%s: open 12345678901234/12345678901234/12345678901234 failed\n" [name s];;
  close fd;;
  r ← mkdir (lit "12345678901234/12345678901234");
  check (r =? 0) "%s: mkdir 12345678901234/12345678901234 succeeded!\n" [name s];;
  r ← mkdir (lit "123456789012345/12345678901234");
  check (r =? 0) "%s: mkdir 12345678901234/123456789012345 succeeded!\n" [name s];;
  unlink (lit "123456789012345/12345678901234");;
  unlink (lit "12345678901234/12345678901234");;
  unlink (lit "12345678901234/12345678901234/12345678901234");;
  unlink (lit "123456789012345/123456789012345/123456789012345");;
  unlink (lit "12345678901234/123456789012345");;
  unlink (lit "12345678901234");;
  Pret tt.

Definition rmdot (s : list Z) : prog unit :=
  r ← mkdir (lit "dots");
  check (negb (r =? 0)) "%s: mkdir dots failed\n" [name s];;
  r ← chdir (lit "dots");
  check (negb (r =? 0)) "%s: chdir dots failed\n" [name s];;
  r ← unlink (lit ".");
  check (r =? 0) "%s: rm . worked!\n" [name s];;
  r ← unlink (lit "..");
  check (r =? 0) "%s: rm .. worked!\n" [name s];;
  r ← chdir (lit "/");
  check (negb (r =? 0)) "%s: chdir / failed\n" [name s];;
  r ← unlink (lit "dots/.");
  check (r =? 0) "%s: unlink dots/. worked!\n" [name s];;
  r ← unlink (lit "dots/..");
  check (r =? 0) "%s: unlink dots/.. worked!\n" [name s];;
  r ← unlink (lit "dots");
  check (negb (r =? 0)) "%s: unlink dots failed!\n" [name s].

Definition dirfile (s : list Z) : prog unit :=
  fd ← open (lit "dirfile") O_CREATE;
  check (fd <? 0) "%s: create dirfile failed\n" [name s];;
  close fd;;
  r ← chdir (lit "dirfile");
  check (r =? 0) "%s: chdir dirfile succeeded!\n" [name s];;
  fd ← open (lit "dirfile/xx") 0;
  check (0 <=? fd) "%s: create dirfile/xx succeeded!\n" [name s];;
  fd ← open (lit "dirfile/xx") O_CREATE;
  check (0 <=? fd) "%s: create dirfile/xx succeeded!\n" [name s];;
  r ← mkdir (lit "dirfile/xx");
  check (r =? 0) "%s: mkdir dirfile/xx succeeded!\n" [name s];;
  r ← unlink (lit "dirfile/xx");
  check (r =? 0) "%s: unlink dirfile/xx succeeded!\n" [name s];;
  r ← link (lit "README") (lit "dirfile/xx");
  check (r =? 0) "%s: link to dirfile/xx succeeded!\n" [name s];;
  r ← unlink (lit "dirfile");
  check (negb (r =? 0)) "%s: unlink dirfile failed!\n" [name s];;
  fd ← open (lit ".") O_RDWR;
  check (0 <=? fd) "%s: open . for writing succeeded!\n" [name s];;
  fd ← open (lit ".") 0;
  r ← write fd (chars "x");
  check (0 <? r) "%s: write . succeeded!\n" [name s];;
  close fd;;
  Pret tt.

Definition iref (s : list Z) : prog unit :=
  pfor (seq 0 (S (Z.to_nat NINODE))) (fun _ =>
    r ← mkdir (lit "irefd");
    check (negb (r =? 0)) "%s: mkdir irefd failed\n" [name s];;
    r ← chdir (lit "irefd");
    check (negb (r =? 0)) "%s: chdir irefd failed\n" [name s];;
    mkdir [0];;
    link (lit "README") [0];;
    fd ← open [0] O_CREATE;
    pwhen (0 <=? fd) (close fd;; Pret tt);;
    fd ← open (lit "xx") O_CREATE;
    pwhen (0 <=? fd) (close fd;; Pret tt);;
    unlink (lit "xx");;
    Pret tt);;
  pfor (seq 0 (S (Z.to_nat NINODE))) (fun _ =>
    chdir (lit "..");;
    unlink (lit "irefd");;
    Pret tt);;
  chdir (lit "/");;
  Pret tt.

(** The loop that forks: the value of [n] at its end. *)
Definition forktest_forks : prog Z :=
  pfold (seq 0 1000) 0 (fun n _ =>
    pid ← fork;
    if pid <? 0 then Pret (false, n) else
    pwhen (pid =? 0) (Pexit 0);;
    Pret (true, n + 1)).

Definition forktest (s : list Z) : prog unit :=
  n ← forktest_forks;
  check (n =? 0) "%s: no fork at all!\n" [name s];;
  check (n =? 1000) "%s: fork claimed to work 1000 times!\n" [name s];;
  pfor (seq 0 (Z.to_nat n)) (fun _ =>
    r ← wait0;
    check (r <? 0) "%s: wait stopped early\n" [name s]);;
  r ← wait0;
  check (negb (r =? -1)) "%s: wait got too many\n" [name s].

Definition TOOMUCH : Z := 1024 * 1024 * 1024.
Definition BIG : Z := 100 * 1024 * 1024.

Definition sbrkbasic (s : list Z) : prog unit :=
  pid ← fork;
  check (pid <? 0) "fork failed in sbrkbasic\n" [];;
  pwhen (pid =? 0)
    (a ← sbrk TOOMUCH;
     pwhen (a =? SBRK_ERROR) (Pexit 0);;
     pfor (steps a (a + TOOMUCH) PGSIZE) (fun b => call (Ustore b 1 99));;
     Pexit 1);;
  ' (_, xstatus) ← call Uwait;
  check (xstatus =? 1) "%s: too much memory allocated!\n" [name s];;
  a ← sbrk 0;
  a ← pfold (count 5000) a (fun a i =>
    b ← sbrk 1;
    check (negb (b =? a)) "%s: sbrk test failed %d %p %p\n" [name s; UInt i; UInt a; UInt b];;
    call (Ustore b 1 1);;
    Pret (true, u64 (b + 1)));
  pid ← fork;
  check (pid <? 0) "%s: sbrk test fork failed\n" [name s];;
  sbrk 1;;
  c ← sbrk 1;
  check (negb (c =? u64 (a + 1))) "%s: sbrk test failed post-fork\n" [name s];;
  pwhen (pid =? 0) (Pexit 0);;
  ' (_, xstatus) ← call Uwait;
  Pexit xstatus.

Definition sbrkmuch (s : list Z) : prog unit :=
  oldbrk ← sbrk 0;
  a ← sbrk 0;
  p ← sbrk (s32 (BIG - a));
  check (negb (p =? a)) "%s: sbrk test failed to grow big address space; enough phys mem?\n" [name s];;
  let lastaddr := BIG - 1 in
  call (Ustore lastaddr 1 99);;
  a ← sbrk 0;
  c ← sbrk (- PGSIZE);
  check (c =? SBRK_ERROR) "%s: sbrk could not deallocate\n" [name s];;
  c ← sbrk 0;
  check (negb (c =? u64 (a - PGSIZE)))
    "%s: sbrk deallocation produced wrong address, a %p c %p\n" [name s; UInt a; UInt c];;
  a ← sbrk 0;
  c ← sbrk PGSIZE;
  bad ← (if negb (c =? a) then Pret true else top ← sbrk 0; Pret (negb (top =? u64 (a + PGSIZE))));
  check bad "%s: sbrk re-allocation failed, a %p c %p\n" [name s; UInt a; UInt c];;
  x ← call (Uload lastaddr 1);
  check (x =? 99) "%s: sbrk de-allocation didn't really deallocate\n" [name s];;
  a ← sbrk 0;
  top ← sbrk 0;
  c ← sbrk (s32 (- (top - oldbrk)));
  check (negb (c =? a)) "%s: sbrk downsize failed, a %p c %p\n" [name s; UInt a; UInt c].

(** [xstatus != -1]: the kernel did not kill the child. *)
Definition must_die : prog unit :=
  ' (_, xstatus) ← call Uwait;
  pwhen (negb (xstatus =? -1)) (Pexit 1).

Definition kernmem (s : list Z) : prog unit :=
  pfor (steps KERNBASE (KERNBASE + 2000000) 50000) (fun a =>
    pid ← fork;
    check (pid <? 0) "%s: fork failed\n" [name s];;
    pwhen (pid =? 0)
      (x ← call (Uload a 1);
       failed "%s: oops could read %p = %x\n" [name s; UInt a; UInt x]);;
    must_die).

(** [a] is [MAXVA << i], which is 0 as a 64-bit number from [i = 26] on. *)
Definition MAXVAplus (s : list Z) : prog unit :=
  pfor (map (Z.shiftl MAXVA) (count 26)) (fun a =>
    pid ← fork;
    check (pid <? 0) "%s: fork failed\n" [name s];;
    pwhen (pid =? 0)
      (call (Ustore a 1 99);;
       failed "%s: oops wrote %p\n" [name s; UInt a]);;
    must_die).

(** The ten children, with [pids], [scratch] and [failed]. *)
Definition sbrkfail_forks (fds0 fds1 : Z) : prog (list Z * bool) :=
  ' (pids, _, fail) ← pfold (seq 0 10) ([], default 0 (head junk), false) (fun '(pids, scratch, fail) _ =>
    pid ← fork;
    pwhen (pid =? 0)
      (top ← sbrk 0;
       a ← sbrk (s32 (BIG - top));
       write fds1 (chars (if a =? SBRK_ERROR then "0"%string else "1"%string));;
       ploop fuel tt (fun _ => call (Upause 1000);; Pret (true, tt)));;
    if negb (pid =? -1) then
      ' (_, b) ← read fds0 [scratch] 1;
      let scratch := default 0 (head b) in
      Pret (true, (pids ++ [pid], scratch, fail || (scratch =? 48)))
    else Pret (true, (pids ++ [pid], scratch, fail)));
  Pret (pids, fail).

Definition sbrkfail (s : list Z) : prog unit :=
  with_pipe (failed "%s: pipe() failed\n" [name s]) (fun fds0 fds1 =>
    ' (pids, fail) ← sbrkfail_forks fds0 fds1;
    pwhen (negb fail) (printf "%s: no allocation failed; allocate more?\n" [name s]);;
    c ← sbrk PGSIZE;
    pfor pids (fun pid => pwhen (negb (pid =? -1)) (call (Ukill pid);; wait0;; Pret tt));;
    check (c =? SBRK_ERROR) "%s: failed sbrk leaked memory\n" [name s];;
    pid ← fork;
    check (pid <? 0) "%s: fork failed\n" [name s];;
    pwhen (pid =? 0)
      (a ← sbrk (10 * BIG);
       pwhen (a =? SBRK_ERROR) (Pexit 0);;
       failed "%s: allocate a lot of memory succeeded %d\n" [name s; UInt (10 * BIG)]);;
    ' (_, xstatus) ← call Uwait;
    pwhen (negb (xstatus =? 0)) (Pexit 1)).

Definition sbrkarg (s : list Z) : prog unit :=
  a ← sbrk PGSIZE;
  fd ← open (lit "sbrk") wronly;
  unlink (lit "sbrk");;
  check (fd <? 0) "%s: open sbrk failed\n" [name s];;
  n ← write_at fd a PGSIZE;
  check (n <? 0) "%s: write sbrk failed\n" [name s];;
  close fd;;
  a ← sbrk PGSIZE;
  r ← pipe_at a;
  check (negb (r =? 0)) "%s: pipe() failed\n" [name s].

Definition validatetest (s : list Z) : prog unit :=
  pfor (steps 0 (1100 * 1024 + 1) PGSIZE) (fun p =>
    r ← call (Usys 19 [WStr (chars "nosuchfile"); WInt p]);
    check (negb (r =? -1)) "%s: link should not succeed\n" [name s]).

(** [char uninit[10000];] *)
Definition uninit : list Z := replicate 10000 0.

Definition bsstest (s : list Z) : prog unit :=
  pfor uninit (fun c => check (negb (c =? 0)) "%s: bss test failed\n" [name s]).

Definition bigargtest (s : list Z) : prog unit :=
  unlink (lit "bigarg-ok");;
  pid ← fork;
  (if pid =? 0 then
     let big := replicate 399 32 ++ [0] in
     exec (lit "echo") (replicate (Z.to_nat (MAXARG - 1)) big);;
     fd ← open (lit "bigarg-ok") O_CREATE;
     close fd;;
     Pexit 0
   else check (pid <? 0) "%s: bigargtest: fork failed\n" [name s]);;
  ' (_, xstatus) ← call Uwait;
  pwhen (negb (xstatus =? 0)) (Pexit xstatus);;
  fd ← open (lit "bigarg-ok") 0;
  check (fd <? 0) "%s: bigarg test failed!\n" [name s];;
  close fd;;
  Pret tt.

Definition fsfull_name (nfiles : Z) : list Z :=
  [102; num_char (nfiles / 1000); num_char (nfiles mod 1000 / 100); num_char (nfiles mod 100 / 10); num_char (nfiles mod 10); 0].

(** [while(1)]: the bytes that go into one file. *)
Definition fsfull_fill (fd : Z) : prog Z :=
  ploop fuel 0 (fun total =>
    cc ← write fd (take (Z.to_nat BSIZE) buf0);
    Pret (if cc <? BSIZE then (false, total) else (true, s32 (total + cc)))).

Definition fsfull : prog unit :=
  printf "fsfull test\n" [];;
  nfiles ← ploop fuel 0 (fun nfiles =>
    let nm := fsfull_name nfiles in
    printf "writing %s\n" [name nm];;
    fd ← open nm rdwr;
    if fd <? 0 then printf "open %s failed\n" [name nm];; Pret (false, nfiles) else
    total ← fsfull_fill fd;
    printf "wrote %d bytes\n" [UInt total];;
    close fd;;
    Pret (if total =? 0 then (false, nfiles) else (true, s32 (nfiles + 1))));
  pfor (reverse (count (S (Z.to_nat nfiles)))) (fun nfiles => unlink (fsfull_name nfiles);; Pret tt);;
  printf "fsfull test finished\n" [].

Definition argptest (s : list Z) : prog unit :=
  fd ← open (lit "init") O_RDONLY;
  check (fd <? 0) "%s: open failed\n" [name s];;
  top ← sbrk 0;
  read_at fd (u64 (top - 1)) (-1);;
  close fd;;
  Pret tt.

Definition stacktest (s : list Z) : prog unit :=
  pid ← fork;
  (if pid =? 0 then
     x ← call (Uload (u64 (sp - USERSTACK * PGSIZE)) 1);
     failed "%s: stacktest: read below stack %d\n" [name s; UInt x]
   else check (pid <? 0) "%s: fork failed\n" [name s]);;
  ' (_, xstatus) ← call Uwait;
  if xstatus =? -1 then Pexit 0 else Pexit xstatus.

Definition nowrite (s : list Z) : prog unit :=
  pfor (0 :: addrs) (fun addr =>
    pid ← fork;
    (if pid =? 0 then
       call (Ustore addr 4 10);;
       printf "%s: write to %p did not fail!\n" [name s; UInt addr];;
       Pexit 0
     else check (pid <? 0) "%s: fork failed\n" [name s]);;
    ' (_, xstatus) ← call Uwait;
    pwhen (xstatus =? 0) (Pexit 1));;
  Pexit 0.

Definition big : Z := 0xeaeb0b5b00002f5e.

Definition pgbug (s : list Z) : prog unit :=
  call (Usys 7 [WInt big; WArgv []]);;
  pipe_at big;;
  Pexit 0.

(** A child that moves its break and exits. *)
Definition sbrkbugs_child (body : prog unit) : prog unit :=
  pid ← fork;
  check (pid <? 0) "fork failed\n" [];;
  pwhen (pid =? 0) (body;; Pexit 0);;
  wait0;;
  Pret tt.

Definition sbrkbugs (s : list Z) : prog unit :=
  sbrkbugs_child (top ← sbrk 0; sbrk (s32 (- s32 top));; Pret tt);;
  sbrkbugs_child (top ← sbrk 0; sbrk (s32 (- (s32 top - 3500)));; Pret tt);;
  sbrkbugs_child (top ← sbrk 0; sbrk (s32 (10 * PGSIZE + 2048 - top));; sbrk (-10);; Pret tt);;
  Pexit 0.

Definition sbrklast (s : list Z) : prog unit :=
  round_break;;
  sbrk PGSIZE;;
  sbrk 10;;
  sbrk (-20);;
  top ← sbrk 0;
  let p := u64 (top - 64) in
  call (Ustore p 1 120);;
  call (Ustore (u64 (p + 1)) 1 0);;
  fd ← open_at p rdwr;
  write_at fd p 1;;
  close fd;;
  fd ← open_at p O_RDWR;
  call (Ustore p 1 0);;
  read_at fd p 1;;
  x ← call (Uload p 1);
  pwhen (negb (x =? 120)) (Pexit 1).

Definition sbrk8000 (s : list Z) : prog unit :=
  sbrk (s32 0x80000004);;
  top ← sbrk 0;
  x ← call (Uload (u64 (top - 1)) 1);
  call (Ustore (u64 (top - 1)) 1 (u8 (x + 1))).

Definition badarg (s : list Z) : prog unit :=
  pfor (count (Z.to_nat 50000)) (fun _ =>
    call (Usys 7 [WStr (chars "echo"); WArgv [WInt 0xffffffff]]);; Pret tt);;
  Pexit 0.

Definition REGION_SZ : Z := 1024 * 1024 * 1024.

Definition lazy_alloc (s : list Z) : prog unit :=
  prev_end ← sbrklazy REGION_SZ;
  check (prev_end =? SBRK_ERROR) "sbrklazy() failed\n" [];;
  let new_end := prev_end + REGION_SZ in
  pfor (steps (prev_end + PGSIZE) new_end (64 * PGSIZE)) (fun i => call (Ustore i 8 i));;
  pfor (steps (prev_end + PGSIZE) new_end (64 * PGSIZE)) (fun i =>
    x ← call (Uload i 8);
    check (negb (x =? i)) "failed to read value from memory\n" []);;
  Pexit 0.

Definition lazy_unmap (s : list Z) : prog unit :=
  prev_end ← sbrklazy REGION_SZ;
  check (prev_end =? SBRK_ERROR) "sbrklazy() failed\n" [];;
  let new_end := prev_end + REGION_SZ in
  pfor (steps (prev_end + PGSIZE) new_end (PGSIZE * PGSIZE)) (fun i => call (Ustore i 8 i));;
  pfor (steps (prev_end + PGSIZE) new_end (PGSIZE * PGSIZE)) (fun i =>
    pid ← fork;
    if pid <? 0 then failed "error forking\n" []
    else if pid =? 0 then
      sbrklazy (- REGION_SZ);;
      call (Ustore i 8 i);;
      Pexit 0
    else
      ' (_, status) ← call Uwait;
      check (status =? 0) "memory not unmapped\n" []);;
  Pexit 0.

Definition bad : list Z :=
  [0x3fffffc000; 0x3fffffd000; 0x3fffffe000; 0x3ffffff000; 0x4000000000; 0x8000000000].

Definition lazy_copy (s : list Z) : prog unit :=
  p ← sbrk 0;
  sbrklazy (4 * PGSIZE);;
  open_at (u64 (p + 8192)) 0;;
  xx ← sbrk 0;
  ret ← sbrk (s32 (- (xx + 1)));
  check (negb (ret =? xx)) "sbrk(sbrk(0)+1) returned %p, not old sz\n" [UInt ret];;
  pfor bad (fun a =>
    fd ← open (lit "README") 0;
    check (fd <? 0) "cannot open README\n" [];;
    n ← read_at fd a 512;
    check (0 <=? n) "read succeeded\n" [];;
    close fd;;
    fd ← open (lit "junk") (Z.lor rdwr O_TRUNC);
    check (fd <? 0) "cannot open junk\n" [];;
    n ← write_at fd a 512;
    check (0 <=? n) "write succeeded\n" [];;
    close fd;;
    Pret tt);;
  Pexit 0.

(** The comparisons [p < 0] and [p1 < 0] are on pointers, and never hold. *)
Definition lazy_sbrk (s : list Z) : prog unit :=
  p ← sbrk 0;
  p ← ploop fuel p (fun p =>
    if p <? MAXVA - 2 ^ 30 then
      sbrklazy (2 ^ 30);;
      p ← sbrklazy 0;
      Pret (true, p)
    else Pret (false, p));
  let n := s32 (TRAPFRAME - PGSIZE - p) in
  p1 ← sbrklazy n;
  check (negb (p1 =? p)) "sbrklazy(%d) returned %p, not expected %p\n" [UInt n; UInt p1; UInt p];;
  p ← sbrk PGSIZE;
  check (negb (p =? TRAPFRAME - PGSIZE))
    "sbrk(%d) returned %p, not expected TRAPFRAME-PGSIZE\n" [UInt PGSIZE; UInt p];;
  call (Ustore p 1 1);;
  x ← call (Uload (u64 (p + 1)) 1);
  check (negb (x =? 0)) "sbrk() returned non-zero-filled memory\n" [];;
  p ← sbrk 1;
  check (negb (p =? SBRK_ERROR)) "sbrk(1) returned %p, expected error\n" [UInt p];;
  p ← sbrklazy 1;
  check (negb (p =? SBRK_ERROR)) "sbrklazy(1) returned %p, expected error\n" [UInt p];;
  Pexit 0.

(** ** Tests that take a fair bit of time *)

Definition bigdir_name (i : Z) : list Z := [120; num_char (i / 64); num_char (i mod 64); 0].

Definition bigdir (s : list Z) : prog unit :=
  unlink (lit "bd");;
  fd ← open (lit "bd") O_CREATE;
  check (fd <? 0) "%s: bigdir create failed\n" [name s];;
  close fd;;
  pfor (count 500) (fun i =>
    r ← link (lit "bd") (bigdir_name i);
    check (negb (r =? 0)) "%s: bigdir i=%d link(bd, %s) failed\n" [name s; UInt i; name (bigdir_name i)]);;
  unlink (lit "bd");;
  pfor (count 500) (fun i =>
    r ← unlink (bigdir_name i);
    check (negb (r =? 0)) "%s: bigdir unlink failed" [name s]).

Definition manywrites_child (s : list Z) (ci : Z) : prog unit :=
  let nm := [98; u8 (97 + ci); 0] in
  unlink nm;;
  pfor (seq 0 30) (fun _ =>
    pfor (count (Z.to_nat (ci + 1))) (fun _ =>
      fd ← open nm rdwr;
      check (fd <? 0) "%s: cannot create %s\n" [name s; name nm];;
      cc ← write fd buf0;
      check (negb (cc =? BUFSZ)) "%s: write(%d) ret %d\n" [name s; UInt BUFSZ; UInt cc];;
      close fd;;
      Pret tt);;
    unlink nm;;
    Pret tt);;
  unlink nm;;
  Pexit 0.

Definition manywrites (s : list Z) : prog unit :=
  pfor (count 4) (fun ci =>
    pid ← fork;
    check (pid <? 0) "fork failed\n" [];;
    pwhen (pid =? 0) (manywrites_child s ci));;
  pfor (seq 0 4) (fun _ =>
    ' (_, st) ← wait_status 0;
    pwhen (negb (st =? 0)) (Pexit st));;
  Pexit 0.

Definition badwrite (s : list Z) : prog unit :=
  unlink (lit "junk");;
  pfor (seq 0 600) (fun _ =>
    fd ← open (lit "junk") wronly;
    check (fd <? 0) "open junk failed\n" [];;
    write_at fd 0xffffffffff 1;;
    close fd;;
    unlink (lit "junk");;
    Pret tt);;
  fd ← open (lit "junk") wronly;
  check (fd <? 0) "open junk failed\n" [];;
  n ← write fd (chars "x");
  check (negb (n =? 1)) "write failed\n" [];;
  close fd;;
  unlink (lit "junk");;
  Pexit 0.

Definition execout (s : list Z) : prog unit :=
  pfor (seq 0 15) (fun avail =>
    pid ← fork;
    if pid <? 0 then failed "fork failed\n" []
    else if pid =? 0 then
      ploop fuel tt (fun _ =>
        a ← sbrk PGSIZE;
        if a =? SBRK_ERROR then Pret (false, tt)
        else call (Ustore (u64 (a + PGSIZE - 1)) 1 1);; Pret (true, tt));;
      pfor (seq 0 avail) (fun _ => sbrk (- PGSIZE);; Pret tt);;
      close 1;;
      exec (lit "echo") [lit "echo"; lit "x"];;
      Pexit 0
    else wait0;; Pret tt);;
  Pexit 0.

(** [name[2] = '0' + (i / 32); name[3] = '0' + (i % 32);] after ["zz"] *)
Definition zz_name (i : Z) : list Z := [122; 122; num_char (i / 32); num_char (i mod 32); 0].
Definition big_name (i : Z) : list Z := [98; 105; 103; num_char i; 0].

(** Files [zz..] until one cannot be created. *)
Definition create_zz (nzz : nat) : prog unit :=
  pfold (count nzz) tt (fun _ i =>
    unlink (zz_name i);;
    fd ← open (zz_name i) (Z.lor rdwr O_TRUNC);
    if fd <? 0 then Pret (false, tt) else close fd;; Pret (true, tt)).
Definition unlink_zz (nzz : nat) : prog unit := pfor (count nzz) (fun i => unlink (zz_name i);; Pret tt).

(** [for(fi = 0; done == 0 && '0' + fi < 0177; fi++)]: the disk is filled. *)
Definition diskfull_fill (s : list Z) : prog unit :=
  pfold (count 79) tt (fun _ fi =>
    unlink (big_name fi);;
    fd ← open (big_name fi) (Z.lor rdwr O_TRUNC);
    if fd <? 0 then
      printf "%s: could not create file %s\n" [name s; name (big_name fi)];;
      Pret (false, tt)
    else
      more ← pfold (seq 0 (Z.to_nat MAXFILE)) true (fun _ _ =>
        n ← write fd (take (Z.to_nat BSIZE) junk);
        if negb (n =? BSIZE) then close fd;; Pret (false, false) else Pret (true, true));
      close fd;;
      Pret (more, tt)).

Definition diskfull (s : list Z) : prog unit :=
  unlink (lit "diskfulldir");;
  diskfull_fill s;;
  create_zz 128;;
  r ← mkdir (lit "diskfulldir");
  pwhen (r =? 0) (printf "%s: mkdir(diskfulldir) unexpectedly succeeded!\n" [name s]);;
  unlink (lit "diskfulldir");;
  unlink_zz 128;;
  pfor (count 79) (fun i => unlink (big_name i);; Pret tt).

Definition outofinodes (s : list Z) : prog unit :=
  create_zz (32 * 32);;
  unlink_zz (32 * 32).

(** ** Driving the tests *)

Record test : Type := Test { test_f : list Z -> prog unit; test_s : list Z }.

Definition quicktests : list test := [
    Test copyin (lit "copyin"); Test copyout (lit "copyout"); Test copyinstr1 (lit "copyinstr1");
    Test copyinstr2 (lit "copyinstr2"); Test copyinstr3 (lit "copyinstr3"); Test rwsbrk (lit "rwsbrk");
    Test truncate1 (lit "truncate1"); Test truncate2 (lit "truncate2"); Test truncate3 (lit "truncate3");
    Test openiputtest (lit "openiput"); Test exitiputtest (lit "exitiput"); Test iputtest (lit "iput");
    Test opentest (lit "opentest"); Test writetest (lit "writetest"); Test writebig (lit "writebig");
    Test createtest (lit "createtest"); Test dirtest (lit "dirtest"); Test exectest (lit "exectest");
    Test pipe1 (lit "pipe1"); Test killstatus (lit "killstatus"); Test preempt (lit "preempt");
    Test exitwait (lit "exitwait"); Test reparent (lit "reparent"); Test twochildren (lit "twochildren");
    Test forkfork (lit "forkfork"); Test forkforkfork (lit "forkforkfork");
    Test reparent2 (lit "reparent2"); Test mem (lit "mem"); Test sharedfd (lit "sharedfd");
    Test fourfiles (lit "fourfiles"); Test createdelete (lit "createdelete");
    Test unlinkread (lit "unlinkread"); Test linktest (lit "linktest"); Test concreate (lit "concreate");
    Test linkunlink (lit "linkunlink"); Test subdir (lit "subdir"); Test bigwrite (lit "bigwrite");
    Test bigfile (lit "bigfile"); Test fourteen (lit "fourteen"); Test rmdot (lit "rmdot");
    Test dirfile (lit "dirfile"); Test iref (lit "iref"); Test forktest (lit "forktest");
    Test sbrkbasic (lit "sbrkbasic"); Test sbrkmuch (lit "sbrkmuch"); Test kernmem (lit "kernmem");
    Test MAXVAplus (lit "MAXVAplus"); Test sbrkfail (lit "sbrkfail"); Test sbrkarg (lit "sbrkarg");
    Test validatetest (lit "validatetest"); Test bsstest (lit "bsstest");
    Test bigargtest (lit "bigargtest"); Test argptest (lit "argptest"); Test stacktest (lit "stacktest");
    Test nowrite (lit "nowrite"); Test pgbug (lit "pgbug"); Test sbrkbugs (lit "sbrkbugs");
    Test sbrklast (lit "sbrklast"); Test sbrk8000 (lit "sbrk8000"); Test badarg (lit "badarg");
    Test lazy_alloc (lit "lazy_alloc"); Test lazy_unmap (lit "lazy_unmap");
    Test lazy_copy (lit "lazy_copy"); Test lazy_sbrk (lit "lazy_sbrk")
  ].

Definition slowtests : list test := [
    Test bigdir (lit "bigdir"); Test manywrites (lit "manywrites"); Test badwrite (lit "badwrite");
    Test execout (lit "execout"); Test diskfull (lit "diskfull"); Test outofinodes (lit "outofinodes")
  ].

Definition run (f : list Z -> prog unit) (s : list Z) : prog bool :=
  printf "test %s: " [name s];;
  pid ← fork;
  check (pid <? 0) "runtest: fork error\n" [];;
  if pid =? 0 then f s;; Pexit 0
  else
    ' (_, xstatus) ← call Uwait;
    (if negb (xstatus =? 0) then printf "FAILED\n" [] else printf "OK\n" []);;
    Pret (xstatus =? 0).

(** [(justone == 0) || strcmp(t->s, justone) == 0] *)
Definition wanted (justone : option (list Z)) (t : test) : prog bool :=
  match justone with
  | None => Pret true
  | Some justone => c ← inside (strcmp (test_s t) justone); Pret (c =? 0)
  end.

Fixpoint runtests_loop (tests : list test) (justone : option (list Z)) (continuous ntests : Z) : prog Z :=
  match tests with
  | [] => Pret ntests
  | t :: tests =>
      b ← wanted justone t;
      if b : bool then
        ok ← run (test_f t) (test_s t);
        if negb ok && negb (continuous =? 2) then printf "SOME TESTS FAILED\n" [];; Pret (-1)
        else runtests_loop tests justone continuous (s32 (ntests + 1))
      else runtests_loop tests justone continuous ntests
  end.

Definition runtests (tests : list test) (justone : option (list Z)) (continuous : Z) : prog Z :=
  runtests_loop tests justone continuous 0.

Definition countfree : prog Z :=
  sz0 ← sbrk 0;
  n ← ploop fuel 0 (fun n =>
    a ← sbrk PGSIZE;
    if a =? SBRK_ERROR then Pret (false, n) else Pret (true, s32 (n + 1)));
  top ← sbrk 0;
  sbrk (s32 (- (top - sz0)));;
  Pret n.

(** One table of tests in [drivetests]: [None] when it returns 1, else [ntests]. *)
Definition drive_table (tests : list test) (justone : option (list Z)) (continuous ntests : Z) :
    prog (option Z) :=
  n ← runtests tests justone continuous;
  if n <? 0 then Pret (if negb (continuous =? 2) then None else Some ntests)
  else Pret (Some (s32 (ntests + n))).

(** The body of the loop of [drivetests]: whether the loop goes on, else its value. *)
Definition drive_round (quick : bool) (continuous : Z) (justone : option (list Z)) : prog (option Z) :=
  printf "usertests starting\n" [];;
  free0 ← countfree;
  n ← drive_table quicktests justone continuous 0;
  match n with
  | None => Pret (Some 1)
  | Some ntests =>
      n ← (if quick then Pret (Some ntests) else
           pwhen (bool_decide (justone = None)) (printf "usertests slow tests starting\n" []);;
           drive_table slowtests justone continuous ntests);
      match n with
      | None => Pret (Some 1)
      | Some ntests =>
          free1 ← countfree;
          pwhen (free1 <? free0)
            (printf "FAILED -- lost some free pages %d (out of %d)\n" [UInt free1; UInt free0]);;
          if (free1 <? free0) && negb (continuous =? 2) then Pret (Some 1) else
          if negb (bool_decide (justone = None)) && (ntests =? 0) then
            printf "NO TESTS EXECUTED\n" [];; Pret (Some 1)
          else Pret (if truthy continuous then None else Some 0)
      end
  end.

Fixpoint drivetests_loop (k : nat) (quick : bool) (continuous : Z) (justone : option (list Z)) : prog Z :=
  match k with
  | O => Pfuel
  | S k =>
      r ← drive_round quick continuous justone;
      match r with Some r => Pret r | None => drivetests_loop k quick continuous justone end
  end.

Definition drivetests (quick : bool) (continuous : Z) (justone : option (list Z)) : prog Z :=
  drivetests_loop fuel quick continuous justone.

(** The end of [main]. *)
Definition verdict (quick : bool) (continuous : Z) (justone : option (list Z)) : prog unit :=
  r ← drivetests quick continuous justone;
  pwhen (truthy r) (Pexit 1);;
  printf "ALL TESTS PASSED\n" [];;
  Pexit 0.

Definition usage : prog unit := failed "Usage: usertests [-c] [-C] [-q] [testname]\n" [].

Definition usertests_main (argv : list (list Z)) : prog unit :=
  match argv with
  | [] | [_] => verdict false 0 None
  | [_; a] =>
      q ← inside (strcmp a (lit "-q"));
      if q =? 0 then verdict true 0 None else
      c ← inside (strcmp a (lit "-c"));
      if c =? 0 then verdict false 1 None else
      c ← inside (strcmp a (lit "-C"));
      if c =? 0 then verdict false 2 None else
      c ← inside (head a);
      if negb (c =? 45) then verdict false 0 (Some a) else usage
  | _ => usage
  end.

End tests.

Close Scope user_scope.
