(* ===== verification/TestsSpec.v ===== *)
(** * The verdict of the tests: [main] of [src/user/usertests.c]

    The driver decides from the exit statuses of its children and from the number of
    free pages. [test_handler] is the part of the kernel that the driver sees when its
    children end in a given way: [main] exits with 0 exactly when every test that was
    asked for exited with 0 and no page was lost. *)

From S2P Require Import Prelude Bytes Params FsTypes Kstring User Ulib Umalloc Usertests.

(** The free pages, the break of the driver, and how the children to come will end:
    the exit status and the number of pages that are not given back. *)
Record tworld : Type := TW { tw_pages : Z; tw_brk : Z; tw_next : list (Z * Z) }.

Definition test_handler : handler tworld :=
  fun X c =>
    match c in ucall X return tworld -> option (X * tworld) with
    | Ufork => fun w => Some (1, w)
    | Uwait => fun w =>
        match tw_next w with
        | [] => None
        | (st, lost) :: next => Some ((1, st), TW (tw_pages w - lost) (tw_brk w) next)
        end
    | Uwrite _ buf => fun w => Some (Z.of_nat (length buf), w)
    | Usbrk n _ => fun w =>
        if n / PGSIZE <=? tw_pages w
        then Some (tw_brk w, TW (tw_pages w - n / PGSIZE) (tw_brk w + n) (tw_next w))
        else Some (SBRK_ERROR, w)
    | _ => fun _ => None
    end.

(** ** Output *)

(** [m] only prints. *)
Definition prints (m : prog unit) : Prop := forall w, urun test_handler m w = UReturn tt w.

Lemma prints_bind {A} (m : prog unit) (f : unit -> prog A) w :
  prints m -> urun test_handler (pbind m f) w = urun test_handler (f tt) w.
Proof. intros Hm. by rewrite urun_bind, Hm. Qed.

Lemma prints_seq (m n : prog unit) : prints m -> prints n -> prints (pbind m (fun _ => n)).
Proof. intros Hm Hn w. by rewrite prints_bind. Qed.

Lemma prints_putc fd c : prints (putc fd c).
Proof. done. Qed.

Lemma prints_pfor {A} (l : list A) f : (forall x, prints (f x)) -> prints (pfor l f).
Proof. intros Hf. induction l; simpl; [done|]. by apply prints_seq. Qed.

Lemma prints_uputs fd s : 0 ∈ s -> prints (uputs fd s).
Proof.
  induction s as [|c s IH]; intros Hs; [set_solver|]. cbn [uputs].
  destruct (Z.eqb_spec c 0) as [|Hc]; [done|]. apply prints_seq; [done|]. set_solver.
Qed.

(** The digits of a number below [10 ^ m] fit. *)
Lemma udigits_some m : forall k x buf, 0 <= x < 10 ^ Z.of_nat m -> (m < k)%nat -> (length buf + m < 20)%nat ->
  exists l, udigits k x 10 buf = Some l /\ (length l <= length buf + m + 1)%nat.
Proof.
  induction m as [|m IH]; intros k x buf Hx Hk Hl; (destruct k as [|k]; [lia|]); cbn [udigits];
    rewrite (proj2 (Z.ltb_lt _ _)) by lia.
  - assert (x = 0) as -> by lia. simpl. eexists. split; [done|]. rewrite length_app. simpl. lia.
  - destruct (Z.eqb_spec (x / 10) 0); cbn [negb].
    + eexists. split; [done|]. rewrite length_app. simpl. lia.
    + destruct (IH k (x / 10) (buf ++ [udigit (x mod 10)])) as (l & E & Hlen).
      * rewrite Nat2Z.inj_succ, Z.pow_succ_r in Hx by lia. Z.to_euclidean_division_equations. lia.
      * lia.
      * rewrite length_app. simpl. lia.
      * rewrite length_app in Hlen. simpl in Hlen. exists l. split; [done|]. lia.
Qed.

Lemma prints_printint fd n : 0 <= n < 10 ^ 10 -> prints (printint fd n 10 true).
Proof.
  intros Hn. unfold printint, uprintint_chars. rewrite (proj2 (Z.ltb_ge n 0)) by lia. cbn [andb].
  rewrite u64_small by lia.
  destruct (udigits_some 10 64 n []) as (l & E & _); [done|simpl; lia..|]. rewrite E. cbn [inside pbind].
  by apply prints_pfor.
Qed.

(** ** The formats of the driver *)

Lemma prints_plain k c fmt args :
  c <> 0 -> u8 c <> 37 -> prints (vprintf_loop k 1 false fmt args) ->
  prints (vprintf_loop (S k) 1 false (c :: fmt) args).
Proof.
  intros H0 H1 Hp. cbn [vprintf_loop]. rewrite (proj2 (Z.eqb_neq c 0)), (proj2 (Z.eqb_neq (u8 c) 37)) by done.
  by apply prints_seq.
Qed.

Lemma prints_end k fmt args : prints (vprintf_loop (S k) 1 false (0 :: fmt) args).
Proof. done. Qed.

(** The conversions [%s] and [%d]; two characters follow. *)
Lemma prints_s k c1 c2 fmt s args :
  0 ∈ s -> prints (vprintf_loop k 1 false (c1 :: c2 :: fmt) args) ->
  prints (vprintf_loop (S (S k)) 1 false (37 :: 115 :: c1 :: c2 :: fmt) (UStr (Some s) :: args)).
Proof.
  intros Hs Hp w. set (r := c1 :: c2 :: fmt) in *.
  assert (E : vprintf_loop (S (S k)) 1 false (37 :: 115 :: r) (UStr (Some s) :: args) =
    pbind (if truthy (u8 c1) then Pret (u8 c2) else Pret 0) (fun _ =>
      pbind (pbind (uputs 1 s) (fun _ => Pret (0%nat, args)))
        (fun '(n, args) => vprintf_loop k 1 false (drop n r) args))).
  { cbn [vprintf_loop]. change (u8 37 =? 37) with true. cbn [negb]. change (115 =? 0) with false.
    change (u8 115) with 115. change (truthy 115) with true. cbn [r lookup list_lookup inside pbind].
    destruct (truthy (u8 c1)); cbn [pbind]; change (uconversion 1 115 (u8 c1) ?x (?a :: ?b)) with
      (pbind (uputs 1 s) (fun _ => Pret (0%nat, args))); done. }
  rewrite E. destruct (truthy (u8 c1)); cbn [pbind]; rewrite urun_bind, prints_bind by (by apply prints_uputs); apply Hp.
Qed.

Lemma prints_d k c1 c2 fmt n args :
  0 <= n < 2 ^ 31 -> prints (vprintf_loop k 1 false (c1 :: c2 :: fmt) args) ->
  prints (vprintf_loop (S (S k)) 1 false (37 :: 100 :: c1 :: c2 :: fmt) (UInt n :: args)).
Proof.
  intros Hn Hp w. set (r := c1 :: c2 :: fmt) in *.
  assert (E : vprintf_loop (S (S k)) 1 false (37 :: 100 :: r) (UInt n :: args) =
    pbind (if truthy (u8 c1) then Pret (u8 c2) else Pret 0) (fun _ =>
      pbind (pbind (printint 1 (s32 n) 10 true) (fun _ => Pret (0%nat, args)))
        (fun '(n, args) => vprintf_loop k 1 false (drop n r) args))).
  { cbn [vprintf_loop]. change (u8 37 =? 37) with true. cbn [negb]. change (100 =? 0) with false.
    change (u8 100) with 100. change (truthy 100) with true. cbn [r lookup list_lookup inside pbind].
    destruct (truthy (u8 c1)); cbn [pbind]; change (uconversion 1 100 (u8 c1) ?x (?a :: ?b)) with
      (pbind (printint 1 (s32 n) 10 true) (fun _ => Pret (0%nat, args))); done. }
  rewrite E. rewrite s32_small by lia.
  destruct (truthy (u8 c1)); cbn [pbind]; rewrite urun_bind, prints_bind by (apply prints_printint; lia); apply Hp.
Qed.

(** A literal format: the characters one by one. *)
Ltac print_lit :=
  unfold printf, vprintf; match goal with |- context [lit ?s] =>
    let l := eval vm_compute in (lit s) in change (lit s) with l end; cbn [length];
  repeat lazymatch goal with
  | |- prints (vprintf_loop (S ?k) _ _ (0 :: ?f) ?a) => exact (prints_end k f a)
  | |- prints (vprintf_loop (S (S ?k)) _ _ (37 :: 115 :: ?c :: ?d :: ?f) (UStr (Some ?s) :: ?a)) =>
      refine (prints_s k c d f s a _ _); [assumption|]
  | |- prints (vprintf_loop (S (S ?k)) _ _ (37 :: 100 :: ?c :: ?d :: ?f) (UInt ?n :: ?a)) =>
      refine (prints_d k c d f n a _ _); [assumption|]
  | |- prints (vprintf_loop (S ?k) _ _ (?c :: ?f) ?a) =>
      refine (prints_plain k c f a _ _ _); [discriminate|discriminate|]
  end.

Lemma prints_test s : 0 ∈ s -> prints (printf "test %s: " [UStr (Some s)]).
Proof. intros Hs. print_lit. Qed.

Lemma prints_lost n m : 0 <= n < 2 ^ 31 -> 0 <= m < 2 ^ 31 ->
  prints (printf "FAILED -- lost some free pages %d (out of %d)\n" [UInt n; UInt m]).
Proof. intros Hn Hm. print_lit. Qed.

Lemma prints_starting : prints (printf "usertests starting\n" []).
Proof. done. Qed.

(** ** Counting the free pages *)

Lemma sbrk_run n w :
  urun test_handler (sbrk n) w =
    if n / PGSIZE <=? tw_pages w
    then UReturn (tw_brk w) (TW (tw_pages w - n / PGSIZE) (tw_brk w + n) (tw_next w))
    else UReturn SBRK_ERROR w.
Proof. cbn [urun sbrk call test_handler]. by destruct (_ <=? _). Qed.

Definition break_ok (brk pages : Z) : Prop := 0 <= brk /\ 0 <= pages < 2 ^ 19 /\ brk + pages * PGSIZE < 2 ^ 64 - 1.

Lemma countfree_loop k : forall n pages brk next, break_ok brk pages -> 0 <= n -> n + pages < 2 ^ 31 ->
  (Z.to_nat pages < k)%nat ->
  urun test_handler (ploop k n (fun n => pbind (sbrk PGSIZE) (fun a =>
    if a =? SBRK_ERROR then Pret (false, n) else Pret (true, s32 (n + 1))))) (TW pages brk next)
  = UReturn (n + pages) (TW 0 (brk + pages * PGSIZE) next).
Proof.
  induction k as [|k IH]; intros n pages brk next (Hb & Hp & Hbp) Hn Hnp Hk; [lia|]. cbn [ploop].
  rewrite !urun_bind, sbrk_run. change (PGSIZE / PGSIZE) with 1. cbn [tw_pages tw_brk tw_next].
  change PGSIZE with 4096 in *. destruct (Z.leb_spec 1 pages).
  - cbn [ubind]. assert (brk <> SBRK_ERROR) by (change SBRK_ERROR with (2 ^ 64 - 1); lia).
    rewrite (proj2 (Z.eqb_neq _ _)) by done. cbn [urun ubind]. rewrite s32_small by lia.
    rewrite IH by (unfold break_ok; change PGSIZE with 4096; lia). f_equal; [lia|]. f_equal. lia.
  - cbn [ubind]. rewrite Z.eqb_refl. cbn [urun ubind]. f_equal; [lia|]. f_equal; lia.
Qed.

Lemma countfree_run `{Fuel} pages brk next :
  break_ok brk pages -> (Z.to_nat pages < fuel)%nat ->
  urun test_handler countfree (TW pages brk next) = UReturn pages (TW pages brk next).
Proof.
  intros Hb Hf. destruct Hb as (H1 & H2 & H3) eqn:E; clear E. unfold countfree. rewrite urun_bind, sbrk_run.
  change (0 / PGSIZE) with 0. cbn [tw_pages tw_brk tw_next]. rewrite (proj2 (Z.leb_le _ _)) by lia. cbn [ubind].
  rewrite Z.sub_0_r, Z.add_0_r, urun_bind, countfree_loop by (done || lia). cbn [ubind].
  rewrite urun_bind, sbrk_run. cbn [tw_pages tw_brk tw_next ubind].
  change (0 / PGSIZE <=? 0) with true. change (0 - 0 / PGSIZE) with 0. cbn [ubind]. rewrite Z.add_0_r.
  replace (- (brk + pages * PGSIZE - brk)) with (- pages * PGSIZE) by lia.
  change PGSIZE with 4096 in *. rewrite s32_small by lia. rewrite urun_bind, sbrk_run. cbn [tw_pages tw_brk tw_next].
  change PGSIZE with 4096. rewrite Z.div_mul by lia. rewrite (proj2 (Z.leb_le _ _)) by lia. cbn [ubind urun].
  f_equal. f_equal; lia.
Qed.

(** ** Running the tests *)

(** How children end: all with 0, and the pages that they do not give back. *)
Definition all_ok (outs : list (Z * Z)) : bool := forallb (fun o => o.1 =? 0) outs.
Definition lost (outs : list (Z * Z)) : Z := foldr (fun o n => o.2 + n) 0 outs.

Lemma lost_app outs outs' : lost (outs ++ outs') = lost outs + lost outs'.
Proof. induction outs; simpl; lia. Qed.

Lemma all_ok_app outs outs' : all_ok (outs ++ outs') = all_ok outs && all_ok outs'.
Proof. apply forallb_app. Qed.

Lemma run_run f s st l next pages brk :
  0 ∈ s -> urun test_handler (run f s) (TW pages brk ((st, l) :: next)) = UReturn (st =? 0) (TW (pages - l) brk next).
Proof.
  intros Hs. unfold run, check. rewrite prints_bind by by apply prints_test.
  cbn [pbind call fork urun test_handler check pwhen tw_next tw_pages tw_brk]. change (1 <? 0) with false.
  change (1 =? 0) with false. cbn [pwhen pbind call urun test_handler tw_next tw_pages tw_brk].
  rewrite prints_bind; [done|]. by destruct (st =? 0).
Qed.

(** The name of a test is the one asked for, if one is. *)
Definition picks (justone : option (list Z)) (t : test) : bool :=
  match justone with
  | None => true
  | Some j => match strcmp (test_s t) j with Some c => c =? 0 | None => false end
  end.

Definition named (t : test) : Prop := 0 ∈ test_s t.

Lemma strcmp_total p q : 0 ∈ p -> 0 ∈ q -> is_Some (strcmp p q).
Proof.
  revert q. induction p as [|a p IH]; intros [|b q] Hp Hq; try set_solver. cbn [strcmp].
  destruct (truthy a && (a =? b)) eqn:E; [|done]. apply andb_true_iff in E as [Ha ->%Z.eqb_eq].
  assert (b <> 0) by (by intros ->). apply IH; set_solver.
Qed.

Lemma wanted_eq justone t : named t -> (forall j, justone = Some j -> 0 ∈ j) -> wanted justone t = Pret (picks justone t).
Proof.
  intros Ht Hj. destruct justone as [j|]; [|done]. unfold wanted, picks.
  destruct (strcmp_total (test_s t) j) as [c ->]; [done|by apply Hj|]. done.
Qed.

Definition chosen (justone : option (list Z)) (tests : list test) : list test :=
  List.filter (picks justone) tests.

Lemma runtests_run justone tests : forall n pages brk outs next,
  Forall named tests -> (forall j, justone = Some j -> 0 ∈ j) ->
  length outs = length (chosen justone tests) -> 0 <= n -> n + Z.of_nat (length tests) < 2 ^ 31 ->
  if all_ok outs
  then urun test_handler (runtests_loop tests justone 0 n) (TW pages brk (outs ++ next))
       = UReturn (n + Z.of_nat (length outs)) (TW (pages - lost outs) brk next)
  else exists w, urun test_handler (runtests_loop tests justone 0 n) (TW pages brk (outs ++ next)) = UReturn (-1) w.
Proof.
  induction tests as [|t tests IH]; intros n pages brk outs next Ht Hj Hl Hn Hlen.
  - destruct outs; [|done]. simpl. f_equal; [lia|]. f_equal. lia.
  - inversion Ht as [|?? Ht1 Ht2]; subst. cbn [length] in Hlen. cbn [chosen List.filter] in Hl.
    cbn [runtests_loop]. rewrite (wanted_eq _ _ Ht1 Hj). cbn [pbind].
    destruct (picks justone t); [|apply IH; try done; lia].
    destruct outs as [|[st l] outs]; [done|]. cbn [all_ok forallb fst lost foldr snd app length].
    rewrite urun_bind, (run_run _ _ st l _ _ _ Ht1). cbn [ubind]. change (0 =? 2) with false.
    destruct (st =? 0); cbn [negb andb].
    + rewrite s32_small by lia. specialize (IH (n + 1) (pages - l) brk outs next Ht2 Hj).
      injection Hl as Hl. specialize (IH Hl ltac:(lia) ltac:(lia)). destruct (forallb _ outs) eqn:E.
      * unfold all_ok in IH. rewrite E in IH. rewrite IH. f_equal; [lia|]. f_equal. fold (lost outs). lia.
      * unfold all_ok in IH. by rewrite E in IH.
    + eexists. by rewrite prints_bind by done.
Qed.

(** ** The verdict *)

Lemma lit_nul s : 0 ∈ lit s.
Proof. unfold lit. set_solver. Qed.

Section verdict.
Context `{Fuel} (base sp : Z) (junk : list Z).

Lemma quick_named : Forall named (quicktests base sp junk).
Proof. unfold quicktests. repeat (constructor; [apply lit_nul|]). constructor. Qed.

Lemma slow_named : Forall named (slowtests junk).
Proof. unfold slowtests. repeat (constructor; [apply lit_nul|]). constructor. Qed.

(** The tests that the driver runs. *)
Definition asked (quick : bool) (justone : option (list Z)) : list test :=
  chosen justone (quicktests base sp junk ++ if quick then [] else slowtests junk).

Lemma table_run tests justone n pages brk outs next :
  Forall named tests -> (forall j, justone = Some j -> 0 ∈ j) ->
  length outs = length (chosen justone tests) -> (length tests < 100)%nat -> 0 <= n < 100 ->
  if all_ok outs
  then urun test_handler (drive_table tests justone 0 n) (TW pages brk (outs ++ next))
       = UReturn (Some (n + Z.of_nat (length outs))) (TW (pages - lost outs) brk next)
  else exists w, urun test_handler (drive_table tests justone 0 n) (TW pages brk (outs ++ next)) = UReturn None w.
Proof.
  intros Ht Hj Hl Hlen Hn. pose proof (runtests_run justone tests 0 pages brk outs next Ht Hj Hl) as Hr.
  specialize (Hr ltac:(lia) ltac:(lia)). unfold drive_table. fold (runtests tests justone 0) in Hr.
  assert (Hle : (length outs <= length tests)%nat) by (rewrite Hl; apply List.filter_length_le).
  destruct (all_ok outs).
  - rewrite urun_bind, Hr. cbn [ubind urun]. rewrite (proj2 (Z.ltb_ge _ _)) by lia. cbn [urun].
    rewrite s32_small by lia. f_equal; f_equal; lia.
  - destruct Hr as [w Hr]. exists w. by rewrite urun_bind, Hr.
Qed.

(** After the tables: the pages are counted again. *)
Definition ending (justone : option (list Z)) (free0 ntests : Z) : prog (option Z) :=
  pbind countfree (fun free1 =>
  pbind (pwhen (free1 <? free0)
    (printf "FAILED -- lost some free pages %d (out of %d)\n" [UInt free1; UInt free0])) (fun _ =>
  if (free1 <? free0) && negb (0 =? 2) then Pret (Some 1) else
  if negb (bool_decide (justone = None)) && (ntests =? 0) then
    pbind (printf "NO TESTS EXECUTED\n" []) (fun _ => Pret (Some 1))
  else Pret (if truthy 0 then None else Some 0))).

Lemma ending_run justone pages brk gone n next :
  break_ok brk (pages - gone) -> (Z.to_nat (pages - gone) < fuel)%nat -> 0 <= gone -> pages < 2 ^ 19 ->
  urun test_handler (ending justone pages n) (TW (pages - gone) brk next)
  = UReturn (Some (if (gone =? 0) && (bool_decide (justone = None) || negb (n =? 0)) then 0 else 1))
      (TW (pages - gone) brk next).
Proof.
  intros Hb Hf Hg Hp. unfold ending. rewrite urun_bind, countfree_run by done. cbn [ubind].
  rewrite prints_bind; cycle 1.
  { destruct (_ <? _); [|done]. apply prints_lost; destruct Hb; lia. }
  destruct (Z.eqb_spec gone 0) as [->|Hne].
  - rewrite (proj2 (Z.ltb_ge _ _)) by lia. cbn [andb]. destruct (bool_decide _), (n =? 0); cbn [negb andb orb urun];
      try done; by rewrite prints_bind by done.
  - by rewrite (proj2 (Z.ltb_lt _ _)) by lia.
Qed.

Lemma all_tests : length (quicktests base sp junk) = 64%nat /\ length (slowtests junk) = 6%nat.
Proof. done. Qed.

(** The second table. *)
Definition slow_part (quick : bool) (justone : option (list Z)) (ntests : Z) : prog (option Z) :=
  if quick then Pret (Some ntests) else
  pbind (pwhen (bool_decide (justone = None)) (printf "usertests slow tests starting\n" []))
    (fun _ => drive_table (slowtests junk) justone 0 ntests).

Lemma slow_run (quick : bool) justone n pages brk outs :
  (forall j, justone = Some j -> 0 ∈ j) -> 0 <= n < 100 ->
  length outs = length (chosen justone (if quick then [] else slowtests junk)) ->
  if all_ok outs
  then urun test_handler (slow_part quick justone n) (TW pages brk outs)
       = UReturn (Some (n + Z.of_nat (length outs))) (TW (pages - lost outs) brk [])
  else exists w, urun test_handler (slow_part quick justone n) (TW pages brk outs) = UReturn None w.
Proof.
  intros Hj Hn Hl. unfold slow_part. destruct quick.
  - destruct outs; [|done]. simpl. f_equal; f_equal; lia.
  - rewrite prints_bind by (by case_bool_decide).
    pose proof (table_run _ justone n pages brk outs [] slow_named Hj Hl) as Ht. rewrite app_nil_r in Ht.
    apply Ht; [simpl; lia|done].
Qed.

(** The verdict on the ends [outs] of the children. *)
Definition passed (outs : list (Z * Z)) : bool :=
  all_ok outs && (lost outs =? 0) && negb (bool_decide (outs = [])).

Lemma lost_nonneg outs : Forall (fun o : Z * Z => 0 <= o.2) outs -> 0 <= lost outs.
Proof. induction 1; simpl; lia. Qed.

Lemma round_split (quick : bool) justone pages brk o1 o2 :
  break_ok brk pages -> (Z.to_nat pages < fuel)%nat -> (forall j, justone = Some j -> 0 ∈ j) ->
  Forall (fun o : Z * Z => 0 <= o.2) (o1 ++ o2) -> lost (o1 ++ o2) <= pages ->
  length o1 = length (chosen justone (quicktests base sp junk)) ->
  length o2 = length (chosen justone (if quick then [] else slowtests junk)) ->
  exists w, urun test_handler (drive_round base sp junk quick 0 justone) (TW pages brk (o1 ++ o2))
    = UReturn (Some (if passed (o1 ++ o2) then 0 else 1)) w.
Proof.
  intros Hb Hf Hj Hpos Hlost Ho1 Ho2. destruct all_tests as [L1 L2].
  pose proof (lost_nonneg _ Hpos) as Hnn. apply Forall_app in Hpos as [Hp1%lost_nonneg Hp2%lost_nonneg].
  assert (Hle : (length o1 <= 64)%nat) by (rewrite Ho1, <- L1; apply List.filter_length_le).
  unfold drive_round, passed. rewrite prints_bind, urun_bind, countfree_run by (done || apply prints_starting).
  rewrite all_ok_app. rewrite lost_app in *. cbn [ubind]. rewrite urun_bind.
  pose proof (table_run _ justone 0 pages brk o1 o2 quick_named Hj Ho1 ltac:(lia) ltac:(lia)) as Ht.
  destruct (all_ok o1); [|destruct Ht as [w ->]; by exists w]. rewrite Ht. cbn [ubind andb]. clear Ht.
  rewrite urun_bind. fold (slow_part quick justone (0 + Z.of_nat (length o1))).
  pose proof (slow_run quick justone (0 + Z.of_nat (length o1)) (pages - lost o1) brk o2 Hj ltac:(lia) Ho2) as Ht.
  destruct (all_ok o2); [|destruct Ht as [w ->]; by exists w]. rewrite Ht. cbn [ubind andb]. clear Ht.
  eexists. replace (pages - lost o1 - lost o2) with (pages - (lost o1 + lost o2)) by lia.
  destruct Hb as (Hb1 & Hb2 & Hb3). change PGSIZE with 4096 in Hb3.
  etransitivity; [apply ending_run; [unfold break_ok; change PGSIZE with 4096; lia|lia..]|].
  do 3 f_equal. destruct (lost o1 + lost o2 =? 0); [|done]. cbn [andb]. f_equal.
  destruct o1; [destruct o2|]; [|rewrite (proj2 (Z.eqb_neq _ _)) by (simpl; lia); by rewrite orb_true_r..].
  destruct justone as [j|]; [done|]. by unfold chosen in Ho1; simpl in Ho1.
Qed.

Lemma asked_split (quick : bool) justone (outs : list (Z * Z)) :
  length outs = length (asked quick justone) ->
  exists o1 o2, outs = o1 ++ o2 /\ length o1 = length (chosen justone (quicktests base sp junk))
    /\ length o2 = length (chosen justone (if quick then [] else slowtests junk)).
Proof.
  unfold asked, chosen. rewrite List.filter_app, length_app.
  generalize (length (List.filter (picks justone) (quicktests base sp junk))) as n1.
  generalize (length (List.filter (picks justone) (if quick then [] else slowtests junk))) as n2.
  intros n2 n1 Hl. exists (take n1 outs), (drop n1 outs). rewrite take_drop, length_take, length_drop.
  split_and!; [done|lia..].
Qed.

Lemma prints_passed : prints (printf "ALL TESTS PASSED\n" []).
Proof. done. Qed.

Lemma loop_run k quick justone w r w' :
  (0 < k)%nat -> urun test_handler (drive_round base sp junk quick 0 justone) w = UReturn (Some r) w' ->
  urun test_handler (drivetests_loop base sp junk k quick 0 justone) w = UReturn r w'.
Proof. intros Hk E. destruct k; [lia|]. cbn [drivetests_loop]. by rewrite urun_bind, E. Qed.

Lemma verdict_run quick justone w (b : bool) w' :
  (0 < fuel)%nat ->
  urun test_handler (drive_round base sp junk quick 0 justone) w = UReturn (Some (if b then 0 else 1)) w' ->
  urun test_handler (verdict base sp junk quick 0 justone) w = UExit (if b then 0 else 1) w'.
Proof.
  intros Hf E. apply (loop_run fuel) in E; [|done]. unfold verdict. rewrite urun_bind.
  change (drivetests base sp junk quick 0 justone) with (drivetests_loop base sp junk fuel quick 0 justone).
  rewrite E. cbn [ubind]. destruct b; [|done]. change (truthy 0) with false. cbn [pwhen pbind].
  rewrite prints_bind by apply prints_passed. done.
Qed.

(** What the command line asks for: all tests, the quick ones, or one. *)
Definition asks (argv : list (list Z)) (quick : bool) (justone : option (list Z)) : Prop :=
  match argv with
  | [_] => quick = false /\ justone = None
  | [_; a] =>
      a = lit "-q" /\ quick = true /\ justone = None
      \/ (exists c l, a = c :: l /\ byte c /\ c <> 45 /\ 0 ∈ a) /\ quick = false /\ justone = Some a
  | _ => False
  end.

Lemma main_verdict argv quick justone :
  asks argv quick justone ->
  usertests_main base sp junk argv = verdict base sp junk quick 0 justone
  /\ forall j, justone = Some j -> 0 ∈ j.
Proof.
  intros Ha. destruct argv as [|p [|a [|]]]; try done.
  - by destruct Ha as [-> ->].
  - destruct Ha as [(-> & -> & ->)|((c & l & -> & Hc & H45 & H0) & -> & ->)]; [done|].
    split; [|by intros j [= <-]]. unfold byte in Hc. cbn [usertests_main].
    assert (E : forall q, strcmp (c :: l) (45 :: q) = Some (c - 45)).
    { intros q. cbn [strcmp]. rewrite (proj2 (Z.eqb_neq c 45)), andb_false_r by done.
      unfold u8. by rewrite Z.mod_small by lia. }
    change (lit "-q") with (45 :: lit "q"). change (lit "-c") with (45 :: lit "c").
    change (lit "-C") with (45 :: lit "C").
    rewrite !E. cbn [inside pbind head]. rewrite (proj2 (Z.eqb_neq (c - 45) 0)) by lia.
    by rewrite (proj2 (Z.eqb_neq c 45)) by done.
Qed.
End verdict.

(** C25. [usertests] reports truly. Whatever the children of the driver do, given the exit
    status of each and the pages that each does not give back, [main] ends with status
    0 exactly when at least one test was asked for, all of them exited with 0 and no
    page was lost, and else with status 1; for all tests, [-q] and one test by name. *)
Theorem usertests_verdict `{Fuel} base sp junk argv quick justone pages brk outs :
  asks argv quick justone -> break_ok brk pages -> (Z.to_nat pages < fuel)%nat ->
  length outs = length (asked base sp junk quick justone) ->
  Forall (fun o : Z * Z => 0 <= o.2) outs -> lost outs <= pages ->
  exists w, urun test_handler (usertests_main base sp junk argv) (TW pages brk outs)
    = UExit (if passed outs then 0 else 1) w.
Proof.
  intros Ha Hb Hf Hlen Hpos Hlost. destruct (main_verdict base sp junk _ _ _ Ha) as [-> Hj]. clear Ha.
  apply asked_split in Hlen as (o1 & o2 & -> & Ho1 & Ho2).
  destruct (round_split base sp junk quick justone pages brk o1 o2 Hb Hf Hj Hpos Hlost Ho1 Ho2) as [w E].
  exists w. apply verdict_run; [lia|done].
Qed.

Lemma usertests_verdict_witness :
  exists w, urun test_handler (@usertests_main 100%nat 0 0 [] [lit "usertests"; lit "rmdot"]) (TW 50 8192 [(0, 1)])
    = UExit 1 w.
Proof.
  apply (@usertests_verdict 100%nat 0 0 [] [lit "usertests"; lit "rmdot"] false (Some (lit "rmdot")) 50 8192 [(0, 1)]).
  - right. split; [|done]. exists 114, (tail (lit "rmdot")). split; [done|].
    split; [unfold byte; lia|]. split; [lia|apply lit_nul].
  - by vm_compute.
  - vm_compute. lia.
  - by vm_compute.
  - repeat constructor. done.
  - done.
Defined.
