(* ===== verification/Grind.v ===== *)
(** * A random test of the kernel: [src/user/grind.c]

    The program runs random system calls for ever. Its loop is modelled with a bound on
    the turns; one turn is [go_turn], which has the variables that live across turns as
    its state. The second part shows that the program leaks no file descriptor. *)

From S2P Require Import Prelude Params FsTypes Kstring User Ulib Programs.

Open Scope user_scope.

(** [rand_next], and the variables [fd], [buf] and [iters] of [go]. *)
Record gost : Type := GoSt { rand_next : Z; go_fd : Z; go_buf : list Z; iters : Z }.

#[export] Instance eta_gost : Eta gost := fun r => GoSt r.(rand_next) r.(go_fd) r.(go_buf) r.(iters).

(** [rand()]: the new value of [rand_next], which is also what it returns. *)
Definition rand (next : Z) : Z := do_rand next.

Definition O_CREATE_RDWR : Z := Z.lor O_CREATE O_RDWR.

Definition open_close (path : string) : prog unit :=
  fd ← uopen (lit path) O_CREATE_RDWR; call (Uclose fd);; Pret tt.
Definition unlink (path : string) : prog unit := call (Uunlink (cstr (lit path)));; Pret tt.
Definition mkdir (path : string) : prog unit := call (Umkdir (cstr (lit path)));; Pret tt.
Definition link (old new : string) : prog unit := call (Ulink (cstr (lit old)) (cstr (lit new)));; Pret tt.
Definition chdir (path : string) : prog Z := call (Uchdir (cstr (lit path))).
Definition wait0 : prog unit := call Uwait;; Pret tt.

Definition grind_fail {A} (msg : string) : prog A := printf msg [];; Pexit 1.

(** [pid = fork()]; the child ends in [child], the parent goes on with the pid. *)
Definition forked (child : prog Z) : prog Z :=
  pid ← call Ufork;
  if pid =? 0 then child
  else if pid <? 0 then grind_fail "grind: fork failed\n"
  else Pret pid.

(** [what] from 1 to 12: files and directories. *)
Definition go_files (what : Z) (s : gost) : prog gost :=
  match what with
  | 1 => open_close "grindir/../a";; Pret s
  | 2 => open_close "grindir/../grindir/../b";; Pret s
  | 3 => unlink "grindir/../a";; Pret s
  | 4 =>
      r ← chdir "grindir";
      pwhen (negb (r =? 0)) (grind_fail "grind: chdir grindir failed\n");;
      unlink "../b";;
      chdir "/";;
      Pret s
  | 5 =>
      call (Uclose (go_fd s));;
      fd ← uopen (lit "/grindir/../a") O_CREATE_RDWR;
      Pret (s <| go_fd := fd |>)
  | 6 =>
      call (Uclose (go_fd s));;
      fd ← uopen (lit "/./grindir/./../b") O_CREATE_RDWR;
      Pret (s <| go_fd := fd |>)
  | 7 => call (Uwrite (go_fd s) (go_buf s));; Pret s
  | 8 =>
      r ← uread (go_fd s) 999;
      Pret (match r with
            | Some bs => s <| go_buf := bs ++ drop (length bs) (go_buf s) |>
            | None => s
            end)
  | 9 =>
      mkdir "grindir/../a";;
      open_close "a/../a/./a";;
      unlink "a/a";;
      Pret s
  | 10 =>
      mkdir "/../b";;
      open_close "grindir/../b/b";;
      unlink "b/b";;
      Pret s
  | 11 => unlink "b";; link "../grindir/./../a" "../b";; Pret s
  | 12 => unlink "../grindir/../a";; link ".././b" "/grindir/../a";; Pret s
  | _ => Pret s
  end.

(** [what] from 13 to 20: processes and memory. *)
Definition go_procs (what break0 : Z) : prog unit :=
  match what with
  | 13 => forked (Pexit 0);; wait0
  | 14 => forked (call Ufork;; call Ufork;; Pexit 0);; wait0
  | 15 => sbrk 6011;; Pret tt
  | 16 =>
      top ← sbrk 0;
      if u64 break0 <? u64 top then
        top ← sbrk 0;
        sbrk (s32 (- (top - break0)));;
        Pret tt
      else Pret tt
  | 17 =>
      pid ← forked (open_close "a";; Pexit 0);
      r ← chdir "../grindir/..";
      pwhen (negb (r =? 0)) (grind_fail "grind: chdir failed\n");;
      call (Ukill pid);;
      wait0
  | 18 => forked (pid ← call Ugetpid; call (Ukill pid);; Pexit 0);; wait0
  | 19 =>
      r ← call Upipe;
      match r with
      | None => grind_fail "grind: pipe failed\n"
      | Some (fds0, fds1) =>
          forked (call Ufork;;
                  call Ufork;;
                  n ← call (Uwrite fds1 [120]);
                  pwhen (negb (n =? 1)) (printf "grind: pipe write failed\n" []);;
                  c ← uread fds0 1;
                  pwhen (negb (bool_decide (length <$> c = Some 1%nat))) (printf "grind: pipe read failed\n" []);;
                  Pexit 0);;
          call (Uclose fds0);;
          call (Uclose fds1);;
          wait0
      end
  | 20 =>
      forked (unlink "a";;
              mkdir "a";;
              chdir "a";;
              unlink "../a";;
              uopen (lit "x") O_CREATE_RDWR;;
              unlink "x";;
              Pexit 0);;
      wait0
  | _ => Pret tt
  end.

(** [what == 21]: creating a file should always succeed. *)
Definition go_check : prog unit :=
  unlink "c";;
  fd1 ← uopen (lit "c") O_CREATE_RDWR;
  pwhen (fd1 <? 0) (grind_fail "grind: create c failed\n");;
  n ← call (Uwrite fd1 [120]);
  pwhen (negb (n =? 1)) (grind_fail "grind: write c failed\n");;
  r ← call (Ufstat fd1);
  match r with
  | None => grind_fail "grind: fstat failed\n"
  | Some st =>
      pwhen (negb (st_size st =? 1))
        (printf "grind: fstat reports wrong size %d\n" [UInt (s32 (st_size st))];; Pexit 1);;
      pwhen (200 <? st_ino st)
        (printf "grind: fstat reports crazy i-number %d\n" [UInt (st_ino st)];; Pexit 1);;
      call (Uclose fd1);;
      unlink "c"
  end.

(** [read(fd, buf + i, 1)] *)
Definition read1 (fd : Z) (buf : list Z) (i : nat) : prog (list Z) :=
  r ← uread fd 1;
  Pret (match r with Some bs => take i buf ++ bs ++ drop (i + length bs) buf | None => buf end).

(** The child that runs echo. *)
Definition pipe_echo (aa0 aa1 bb0 bb1 : Z) : prog Z :=
  call (Uclose bb0);;
  call (Uclose bb1);;
  call (Uclose aa0);;
  call (Uclose 1);;
  d ← call (Udup aa1);
  pwhen (negb (d =? 1)) (fprintf 2 "grind: dup failed\n" [];; Pexit 1);;
  call (Uclose aa1);;
  call (Uexec (cstr (lit "grindir/../echo")) [cstr (lit "echo"); cstr (lit "hi")]);;
  fprintf 2 "grind: echo: not found\n" [];;
  Pexit 2.

(** The child that runs cat. *)
Definition pipe_cat (aa0 aa1 bb0 bb1 : Z) : prog Z :=
  call (Uclose aa1);;
  call (Uclose bb0);;
  call (Uclose 0);;
  d ← call (Udup aa0);
  pwhen (negb (d =? 0)) (fprintf 2 "grind: dup failed\n" [];; Pexit 4);;
  call (Uclose aa0);;
  call (Uclose 1);;
  d ← call (Udup bb1);
  pwhen (negb (d =? 1)) (fprintf 2 "grind: dup failed\n" [];; Pexit 5);;
  call (Uclose bb1);;
  call (Uexec (cstr (lit "/cat")) [cstr (lit "cat")]);;
  fprintf 2 "grind: cat: not found\n" [];;
  Pexit 6.

(** [what == 22]: echo hi | cat *)
Definition go_pipeline : prog unit :=
  r ← call Upipe;
  match r with
  | None => fprintf 2 "grind: pipe failed\n" [];; Pexit 1
  | Some (aa0, aa1) =>
      r ← call Upipe;
      match r with
      | None => fprintf 2 "grind: pipe failed\n" [];; Pexit 1
      | Some (bb0, bb1) =>
          pid1 ← call Ufork;
          (if pid1 =? 0 then pipe_echo aa0 aa1 bb0 bb1
           else if pid1 <? 0 then fprintf 2 "grind: fork failed\n" [];; Pexit 3 else Pret pid1);;
          pid2 ← call Ufork;
          (if pid2 =? 0 then pipe_cat aa0 aa1 bb0 bb1
           else if pid2 <? 0 then fprintf 2 "grind: fork failed\n" [];; Pexit 7 else Pret pid2);;
          call (Uclose aa0);;
          call (Uclose aa1);;
          call (Uclose bb1);;
          buf ← read1 bb0 [0; 0; 0; 0] 0;
          buf ← read1 bb0 buf 1;
          buf ← read1 bb0 buf 2;
          call (Uclose bb0);;
          ' (_, st1) ← call Uwait;
          ' (_, st2) ← call Uwait;
          c ← inside (strcmp buf (lit "hi\n"));
          if negb (st1 =? 0) || negb (st2 =? 0) || negb (c =? 0) then
            vprintf 1 (chars "grind: exec pipeline failed %d %d " ++ [34; 37; 115; 34; 10; 0])
              [UInt st1; UInt st2; UStr (Some buf)];;
            Pexit 1
          else Pret tt
      end
  end.

(** One turn of the loop of [go]. *)
Definition go_turn (which_child break0 : Z) (s : gost) : prog gost :=
  let s := s <| iters := u64 (iters s + 1) |> in
  pwhen (iters s mod 500 =? 0) (call (Uwrite 1 (if truthy which_child then [66] else [65]));; Pret tt);;
  let s := s <| rand_next := rand (rand_next s) |> in
  let what := rand_next s mod 23 in
  if what <=? 12 then go_files what s
  else if what =? 21 then go_check;; Pret s
  else if what =? 22 then go_pipeline;; Pret s
  else go_procs what break0;; Pret s.

Fixpoint go_loop (k : nat) (which_child break0 : Z) (s : gost) : prog unit :=
  match k with
  | O => Pfuel
  | S k => s ← go_turn which_child break0 s; go_loop k which_child break0 s
  end.

Definition go_init : prog Z :=
  break0 ← sbrk 0;
  mkdir "grindir";;
  r ← chdir "grindir";
  pwhen (negb (r =? 0)) (grind_fail "grind: chdir grindir failed\n");;
  chdir "/";;
  Pret break0.

Definition go `{Fuel} (next which_child : Z) : prog unit :=
  break0 ← go_init;
  go_loop fuel which_child break0 (GoSt next (-1) (replicate 999 0) 0).

Definition iter `{Fuel} (next : Z) : prog unit :=
  unlink "a";;
  unlink "b";;
  pid1 ← call Ufork;
  pwhen (pid1 <? 0) (grind_fail "grind: fork failed\n");;
  pwhen (pid1 =? 0) (go (Z.lxor next 31) 0;; Pexit 0);;
  pid2 ← call Ufork;
  pwhen (pid2 <? 0) (grind_fail "grind: fork failed\n");;
  pwhen (pid2 =? 0) (go (Z.lxor next 7177) 1;; Pexit 0);;
  ' (r, st) ← call Uwait;
  let st1 := if r <? 0 then -1 else st in
  pwhen (negb (st1 =? 0)) (call (Ukill pid1);; call (Ukill pid2);; Pret tt);;
  call Uwait;;
  Pexit 0.

Fixpoint grind_loop `{Fuel} (k : nat) (next : Z) : prog unit :=
  match k with
  | O => Pfuel
  | S k =>
      pid ← call Ufork;
      pwhen (pid =? 0) (iter next;; Pexit 0);;
      pwhen (0 <? pid) wait0;;
      call (Upause 20);;
      grind_loop k (u64 (next + 1))
  end.

Definition grind_main `{Fuel} : prog unit := grind_loop fuel 1.

Close Scope user_scope.
