(* ===== verification/Fds.v ===== *)
(** * The file descriptors of user programs

    What a program does to its table of file descriptors, whatever the kernel answers:
    [fd_post] is the strongest statement about the table that holds on every branch of
    the tree of system calls. The loop of grind keeps at most one descriptor of its own. *)

From S2P Require Import Prelude Params FsTypes Kstring User Ulib Programs Grind.

(** The answers that a call can get when the descriptors in [T] are open, and the
    descriptors that are open after it. *)
Definition new_fd (T : gset Z) (x : Z) (T' : gset Z) : Prop :=
  (x < 0 /\ T' = T) \/ (0 <= x /\ x ∉ T /\ T' = {[x]} ∪ T).

Definition fd_answer {X : Type} (c : ucall X) : gset Z -> X -> gset Z -> Prop :=
  match c in ucall X return gset Z -> X -> gset Z -> Prop with
  | Uopen _ _ => new_fd
  | Udup _ => new_fd
  | Usys _ _ => fun _ _ _ => True
  | Upipe => fun T x T' =>
      match x with
      | None => T' = T
      | Some (r, w) => 0 <= r /\ 0 <= w /\ r <> w /\ r ∉ T /\ w ∉ T /\ T' = {[r; w]} ∪ T
      end
  | Uclose fd => fun T _ T' => T' = T ∖ {[fd]}
  | _ => fun T _ T' => T' = T
  end.

(** Every way to return from [m] ends with [Q]. *)
Fixpoint fd_post {A : Type} (m : prog A) (T : gset Z) (Q : A -> gset Z -> Prop) : Prop :=
  match m with
  | Pret a => Q a T
  | Pexit _ | Pfault | Pfuel => True
  | Pcall c k => forall x T', fd_answer c T x T' -> fd_post (k x) T' Q
  end.

Lemma fd_bind {A B} (m : prog A) (f : A -> prog B) T Q :
  fd_post m T (fun a T' => fd_post (f a) T' Q) -> fd_post (pbind m f) T Q.
Proof. revert T. induction m as [| | | |X c k IH]; simpl; auto. Qed.

Lemma fd_mono {A} (m : prog A) T (P Q : A -> gset Z -> Prop) :
  fd_post m T P -> (forall a T', P a T' -> Q a T') -> fd_post m T Q.
Proof. revert T. induction m as [| | | |X c k IH]; simpl; eauto. Qed.

(** A program that never returns. *)
Definition dies {A} (m : prog A) : Prop := forall T Q, fd_post m T Q.

Lemma dies_exit {A} status : dies (Pexit status : prog A).
Proof. done. Qed.

Lemma dies_bind {A B} (m : prog A) (f : A -> prog B) : (forall a, dies (f a)) -> dies (pbind m f).
Proof. intros Hf. induction m as [| | | |X c k IH]; intros T Q; simpl; [by apply Hf|done..|]. intros. by apply IH. Qed.

Lemma dies_first {A B} (m : prog A) (f : A -> prog B) : dies m -> dies (pbind m f).
Proof. intros Hm T Q. by apply fd_bind. Qed.

Lemma dies_if {A} (b : bool) (m n : prog A) : dies m -> dies n -> dies (if b then m else n).
Proof. by destruct b. Qed.

Create HintDb fds.
#[export] Hint Resolve dies_exit dies_bind dies_if : fds.

(** A guard that ends the program. *)
Lemma fd_guard b (m : prog unit) T (Q : unit -> gset Z -> Prop) : dies m -> Q tt T -> fd_post (pwhen b m) T Q.
Proof. intros Hm HQ. destruct b; simpl; [apply Hm|done]. Qed.

(** A call that leaves the table as it is. *)
Definition keeps {X} (c : ucall X) : Prop := forall T x T', fd_answer c T x T' -> T' = T.

Lemma fd_keep {A X} (c : ucall X) (k : X -> prog A) T Q :
  keeps c -> (forall x, fd_post (k x) T Q) -> fd_post (pbind (call c) k) T Q.
Proof. intros Hc HQ. simpl. intros x T' H. apply Hc in H as ->. apply HQ. Qed.

Lemma fd_forked child T (Q : Z -> gset Z -> Prop) :
  dies child -> (forall pid, Q pid T) -> fd_post (forked child) T Q.
Proof.
  intros Hc HQ. unfold forked. apply fd_keep; [by intros ???|]. intros pid.
  destruct (pid =? 0); [by apply Hc|]. destruct (pid <? 0); [|simpl; auto].
  apply dies_bind. auto with fds.
Qed.

(** ** grind *)

(** Apart from [T0], only [fd] is open. *)
Definition held (T0 : gset Z) (s : gost) (T : gset Z) : Prop :=
  if go_fd s <? 0 then T = T0 else go_fd s ∉ T0 /\ T = {[go_fd s]} ∪ T0.

Definition fds_ok (T : gset Z) : Prop := forall x, x ∈ T -> 0 <= x.

Lemma held_ok T0 s T : fds_ok T0 -> held T0 s T -> fds_ok T.
Proof.
  unfold held. intros H0. destruct (Z.ltb_spec (go_fd s) 0); [by intros ->|]. intros [_ ->] x Hx.
  apply elem_of_union in Hx as [Hx|Hx]; [|auto]. apply elem_of_singleton in Hx as ->. done.
Qed.

(** A new descriptor that is closed again. *)
Lemma new_fd_close T x T' : fds_ok T -> new_fd T x T' -> T' ∖ {[x]} = T.
Proof.
  intros Hok [[Hx ->]|(_ & Hx & ->)]; [|set_solver]. apply difference_disjoint_L. intros y Hy Hyx.
  apply elem_of_singleton in Hyx as ->. apply Hok in Hy. lia.
Qed.

Ltac keep := apply fd_keep; [by intros ? ? ?|intros ?].

Lemma fd_call {X} (c : ucall X) T (Q : X -> gset Z -> Prop) :
  (forall x T', fd_answer c T x T' -> Q x T') -> fd_post (call c) T Q.
Proof. done. Qed.

Lemma fd_open_close path T (Q : unit -> gset Z -> Prop) : fds_ok T -> Q tt T -> fd_post (open_close path) T Q.
Proof.
  intros Hok HQ. unfold open_close, uopen. apply fd_bind, fd_call. intros x T1 H1.
  apply fd_bind, fd_call. intros y T2 H2. simpl in H1, H2. rewrite (new_fd_close T x T1) in H2 by done. by subst.
Qed.

Lemma fd_unlink path T (Q : unit -> gset Z -> Prop) : Q tt T -> fd_post (unlink path) T Q.
Proof. intros HQ. unfold unlink. by keep. Qed.
Lemma fd_mkdir path T (Q : unit -> gset Z -> Prop) : Q tt T -> fd_post (mkdir path) T Q.
Proof. intros HQ. unfold mkdir. by keep. Qed.
Lemma fd_link old new T (Q : unit -> gset Z -> Prop) : Q tt T -> fd_post (link old new) T Q.
Proof. intros HQ. unfold link. by keep. Qed.
Lemma fd_wait0 T (Q : unit -> gset Z -> Prop) : Q tt T -> fd_post wait0 T Q.
Proof. intros HQ. unfold wait0. by keep. Qed.
Lemma fd_chdir path T (Q : Z -> gset Z -> Prop) : (forall r, Q r T) -> fd_post (chdir path) T Q.
Proof. intros HQ. unfold chdir. apply fd_call. intros x T' ->. apply HQ. Qed.
Lemma fd_sbrk n T (Q : Z -> gset Z -> Prop) : (forall r, Q r T) -> fd_post (sbrk n) T Q.
Proof. intros HQ. unfold sbrk. apply fd_call. intros x T' ->. apply HQ. Qed.
Lemma fd_ret {A} (a : A) T (Q : A -> gset Z -> Prop) : Q a T -> fd_post (Pret a) T Q.
Proof. done. Qed.
Lemma dies_fail {A} msg : dies (grind_fail msg : prog A).
Proof. apply dies_bind. auto with fds. Qed.
#[export] Hint Resolve dies_fail : fds.

(** One step of a program whose calls keep the table. *)
Ltac fd_step :=
  match goal with
  | |- fd_post (pbind (pwhen _ _) _) _ _ => apply fd_bind, fd_guard; [by auto 20 with fds|]
  | |- fd_post (pbind (call _) _) _ _ => apply fd_keep; [by intros ? ? ?|intros ?]
  | |- fd_post (pbind _ _) _ _ => apply fd_bind
  | |- fd_post (open_close _) _ _ => apply fd_open_close; [done|]
  | |- fd_post (unlink _) _ _ => apply fd_unlink
  | |- fd_post (mkdir _) _ _ => apply fd_mkdir
  | |- fd_post (link _ _) _ _ => apply fd_link
  | |- fd_post (chdir _) _ _ => apply fd_chdir; intros ?
  | |- fd_post (sbrk _) _ _ => apply fd_sbrk; intros ?
  | |- fd_post wait0 _ _ => apply fd_wait0
  | |- fd_post (forked _) _ _ => apply fd_forked; [by auto 20 with fds|intros ?]
  | |- fd_post (Pret _) _ _ => apply fd_ret
  | |- fd_post (if ?b then _ else _) _ _ => destruct b
  end.

Lemma go_procs_fds what break0 T (Q : unit -> gset Z -> Prop) :
  fds_ok T -> Q tt T -> fd_post (go_procs what break0) T Q.
Proof.
  intros Hok HQ. unfold go_procs.
  destruct what as [|p|p]; [by repeat fd_step| |by repeat fd_step].
  do 5 (destruct p as [p|p|]; try by repeat fd_step).
  apply fd_bind, fd_call. intros [[r w]|] T1 H1; [|by auto with fds]. destruct H1 as (_ & _ & _ & Hr & Hw & ->).
  fd_step. fd_step. do 2 (apply fd_bind, fd_call; intros ? ? ->). fd_step.
  by replace (_ ∖ {[r]} ∖ {[w]}) with T by set_solver.
Qed.

Lemma go_check_fds T (Q : unit -> gset Z -> Prop) : fds_ok T -> Q tt T -> fd_post go_check T Q.
Proof.
  intros Hok HQ. unfold go_check, uopen. do 2 fd_step. apply fd_bind, fd_call. intros fd1 T1 H1. simpl in H1.
  repeat fd_step. destruct x0 as [st|]; [|by auto with fds]. do 2 fd_step. apply fd_bind, fd_call. intros ? T2 H2.
  simpl in H2. rewrite (new_fd_close T fd1 T1) in H2 by done. subst. by fd_step.
Qed.

Lemma fd_child (pid : Z) child fail T (Q : Z -> gset Z -> Prop) :
  dies child -> dies fail -> Q pid T ->
  fd_post (if pid =? 0 then child else if pid <? 0 then fail else Pret pid) T Q.
Proof. intros Hc Hf HQ. destruct (pid =? 0); [by apply Hc|]. by destruct (pid <? 0); [apply Hf|]. Qed.

Lemma fd_read1 fd buf i T (Q : list Z -> gset Z -> Prop) : (forall b, Q b T) -> fd_post (read1 fd buf i) T Q.
Proof. intros HQ. unfold read1. fd_step. apply HQ. Qed.

Lemma fd_inside {A} (o : option A) T (Q : A -> gset Z -> Prop) : (forall a, Q a T) -> fd_post (inside o) T Q.
Proof. intros HQ. by destruct o; simpl. Qed.

Lemma dies_echo a0 a1 b0 b1 : dies (pipe_echo a0 a1 b0 b1).
Proof. unfold pipe_echo. auto 20 with fds. Qed.
Lemma dies_cat a0 a1 b0 b1 : dies (pipe_cat a0 a1 b0 b1).
Proof. unfold pipe_cat. auto 20 with fds. Qed.

Lemma go_pipeline_fds T (Q : unit -> gset Z -> Prop) : fds_ok T -> Q tt T -> fd_post go_pipeline T Q.
Proof.
  intros Hok HQ. unfold go_pipeline.
  apply fd_bind, fd_call. intros [[a0 a1]|] T1 H1; [|by apply dies_bind; auto with fds].
  destruct H1 as (_ & _ & ? & ? & ? & ->).
  apply fd_bind, fd_call. intros [[b0 b1]|] T2 H2; [|by apply dies_bind; auto with fds].
  destruct H2 as (_ & _ & ? & ? & ? & ->).
  fd_step. apply fd_bind, fd_child; [apply dies_echo|by auto with fds|].
  fd_step. apply fd_bind, fd_child; [apply dies_cat|by auto with fds|].
  do 3 (apply fd_bind, fd_call; intros ? ? ->). do 3 (apply fd_bind, fd_read1; intros ?).
  apply fd_bind, fd_call. intros ? ? ->.
  do 2 (apply fd_keep; [by intros ? ? ?|]; intros [? ?]).
  apply fd_bind, fd_inside. intros c. fd_step; [by apply dies_bind; auto with fds|]. fd_step.
  by replace (_ ∖ {[a0]} ∖ {[a1]} ∖ {[b1]} ∖ {[b0]}) with T by set_solver.
Qed.

(** The descriptor [fd] of the loop, opened again. *)
Lemma reopen_fds path s T0 T (Q : gost -> gset Z -> Prop) :
  fds_ok T0 -> held T0 s T -> (forall s' T', held T0 s' T' -> Q s' T') ->
  fd_post (pbind (call (Uclose (go_fd s))) (fun _ =>
           pbind (uopen path O_CREATE_RDWR) (fun fd => Pret (s <| go_fd := fd |>)))) T Q.
Proof.
  intros Hok Hh HQ. apply fd_bind, fd_call. intros ? T1 ->.
  replace (T ∖ {[go_fd s]}) with T0.
  - unfold uopen. apply fd_bind, fd_call. intros fd T2 H2. simpl in H2. apply fd_ret, HQ. unfold held. cbn.
    destruct H2 as [[Hx ->]|(Hx & Hn & ->)].
    + by rewrite (proj2 (Z.ltb_lt fd 0)).
    + by rewrite (proj2 (Z.ltb_ge fd 0)).
  - symmetry. unfold held in Hh. destruct (Z.ltb_spec (go_fd s) 0) as [Hn|Hn].
    + subst T. eapply (new_fd_close T0); [done|by left].
    + destruct Hh as [? ->]. set_solver.
Qed.

Lemma go_files_fds what s T0 T (Q : gost -> gset Z -> Prop) :
  fds_ok T0 -> held T0 s T -> (forall s' T', held T0 s' T' -> Q s' T') -> fd_post (go_files what s) T Q.
Proof.
  intros Hok Hh HQ. pose proof (held_ok _ _ _ Hok Hh). unfold go_files.
  destruct what as [|p|p]; [by repeat fd_step; apply HQ| |by repeat fd_step; apply HQ].
  do 4 (destruct p as [p|p|]; try (by apply (reopen_fds _ s T0)); try by repeat fd_step; apply HQ).
  do 2 fd_step. apply HQ. by destruct x.
Qed.

Lemma go_turn_fds which_child break0 s T0 T (Q : gost -> gset Z -> Prop) :
  fds_ok T0 -> held T0 s T -> (forall s' T', held T0 s' T' -> Q s' T') -> fd_post (go_turn which_child break0 s) T Q.
Proof.
  intros Hok Hh HQ. pose proof (held_ok _ _ _ Hok Hh) as HT. unfold go_turn. apply fd_bind.
  set (s1 := s <| iters := _ |>). set (s2 := s1 <| rand_next := _ |>).
  assert (H2 : held T0 s2 T) by done.
  assert (Hrest : fd_post (if rand_next s2 mod 23 <=? 12 then go_files (rand_next s2 mod 23) s2
    else if rand_next s2 mod 23 =? 21 then pbind go_check (fun _ => Pret s2)
    else if rand_next s2 mod 23 =? 22 then pbind go_pipeline (fun _ => Pret s2)
    else pbind (go_procs (rand_next s2 mod 23) break0) (fun _ => Pret s2)) T Q).
  { fd_step; [by apply (go_files_fds _ _ T0)|].
    fd_step; [apply fd_bind, go_check_fds; [done|by apply HQ]|].
    fd_step; [apply fd_bind, go_pipeline_fds; [done|by apply HQ]|].
    apply fd_bind, go_procs_fds; [done|by apply HQ]. }
  destruct (iters s1 mod 500 =? 0); [|exact Hrest]. cbn [pwhen]. fd_step. exact Hrest.
Qed.

(** The first [n] turns of the loop. *)
Fixpoint go_turns (n : nat) (which_child break0 : Z) (s : gost) : prog gost :=
  match n with
  | O => Pret s
  | S n => pbind (go_turn which_child break0 s) (go_turns n which_child break0)
  end.

(** The loop of [go] leaks no file descriptor: after any number of turns, whatever the
    kernel answered, the descriptors that were open at the start are open, and of the
    others at most [fd]. *)
Theorem go_no_leak n which_child break0 next T0 :
  fds_ok T0 -> fd_post (go_turns n which_child break0 (GoSt next (-1) (replicate 999 0) 0)) T0 (held T0).
Proof.
  intros Hok. assert (H : forall s T, held T0 s T -> fd_post (go_turns n which_child break0 s) T (held T0)); [|by apply H].
  induction n as [|n IH]; intros s T Hh; [done|]. cbn [go_turns]. apply fd_bind. by eapply go_turn_fds.
Qed.
