(* ===== verification/Mkfs.v ===== *)
(** * Building the disk image: [src/mkfs/mkfs.c]

    The program that runs on the build host and makes the file system that the kernel
    mounts. It is modelled for a little-endian host. The image is the list of its
    blocks; the files of the host are what their reads return. What it prints is left
    out. The variables [nlog] and [nblocks] are [mk_nlog] and [mk_nblocks] here, as the
    super block has fields of these names. *)

From S2P Require Import Prelude Bytes Params FsTypes Kstring Fs Dir.

(** ** The state and the host *)

Record mkst : Type := MkSt {
  mk_img : list (list Z);
  mk_sb : superblock;
  freeinode : Z;
  freeblock : Z;
  mk_calls : nat;
}.

#[export] Instance eta_mkst : Eta mkst :=
  fun r => MkSt r.(mk_img) r.(mk_sb) r.(freeinode) r.(freeblock) r.(mk_calls).

(** [exit(code)], and [abort()] in a failed [assert]. *)
Inductive mkout (A : Type) : Type :=
| MkOk (a : A) (s : mkst)
| MkExit (code : Z) (s : mkst)
| MkAbort.
Arguments MkOk {A} a s.
Arguments MkExit {A} code s.
Arguments MkAbort {A}.

Definition mk (A : Type) : Type := mkst -> mkout A.

Definition mret {A} (a : A) : mk A := fun s => MkOk a s.
Definition mbind {A B} (m : mk A) (f : A -> mk B) : mk B :=
  fun s => match m s with
           | MkOk a s => f a s
           | MkExit c s => MkExit c s
           | MkAbort => MkAbort
           end.

Declare Scope mkfs_scope.
Delimit Scope mkfs_scope with mkfs.
Notation "x ← y ; z" := (mbind y (fun x => z))
  (at level 20, y at level 100, z at level 200, only parsing) : mkfs_scope.
Notation "' x ← y ; z" := (mbind y (fun x => z))
  (at level 20, x pattern, y at level 100, z at level 200, only parsing) : mkfs_scope.
Notation "y ;; z" := (mbind y (fun _ => z))
  (at level 100, z at level 200, only parsing, right associativity) : mkfs_scope.

Definition mget {A} (f : mkst -> A) : mk A := fun s => MkOk (f s) s.
Definition mmod (f : mkst -> mkst) : mk unit := fun s => MkOk tt (f s).
Definition mexit {A} (code : Z) : mk A := fun s => MkExit code s.
Definition massert (b : bool) : mk unit := if b then mret tt else fun _ => MkAbort.

(** An access that must stay inside its array. *)
Definition minside {A} (o : option A) : mk A :=
  match o with Some a => mret a | None => fun _ => MkAbort end.

Definition NINODES : Z := 200.
Definition nbitmap : Z := FSSIZE / BPB + 1.
Definition ninodeblocks : Z := NINODES / IPB + 1.
Definition mk_nlog : Z := LOGBLOCKS + 1.
Definition nmeta : Z := 2 + mk_nlog + ninodeblocks + nbitmap.
Definition mk_nblocks : Z := FSSIZE - nmeta.

(** The bytes [a[i] = x >> (8 * i)] of an integer, read back as one. *)
Definition xshort (x : Z) : Z := le_of_bytes (le_bytes 2 x).
Definition xint (x : Z) : Z := le_of_bytes (le_bytes 4 x).

Open Scope mkfs_scope.

(** [perror(s); exit(1);] *)
Definition die {A} : mk A := mexit 1.

Section mkfs.

(** The host: whether the [k]-th call on the image fails, whether the image can be
    created, and the results of the reads of a file, if it can be opened. *)
Context (io_fails : nat -> bool) (h_creat : list Z -> bool) (h_open : list Z -> option (list (list Z))).

Definition io_call : mk unit :=
  k ← mget mk_calls;
  mmod (fun s => s <| mk_calls := S k |>);;
  if io_fails k then die else mret tt.

(** The block at the offset [sec * BSIZE]. *)
Definition sect (sec : Z) : nat := Z.to_nat (u32 (sec * BSIZE) / BSIZE).

(** A write of a block, beyond the end of the file as well. *)
Definition put_block (k : nat) (buf : list Z) (img : list (list Z)) : list (list Z) :=
  if (k <? length img)%nat then <[k := buf]> img
  else img ++ replicate (k - length img) zero_block ++ [buf].

Definition wsect (sec : Z) (buf : list Z) : mk unit :=
  io_call;;
  io_call;;
  mmod (fun s => s <| mk_img := put_block (sect sec) buf (mk_img s) |>).

Definition rsect (sec : Z) : mk (list Z) :=
  io_call;;
  io_call;;
  b ← mget (fun s => mk_img s !! sect sec);
  match b with Some buf => mret buf | None => die end.

Definition winode (inum : Z) (ip : dinode) : mk unit :=
  sb ← mget mk_sb;
  let bn := IBLOCK inum sb in
  buf ← rsect bn;
  wsect bn (put_dinode (dinode_off inum) ip buf).

Definition rinode (inum : Z) : mk dinode :=
  sb ← mget mk_sb;
  let bn := IBLOCK inum sb in
  buf ← rsect bn;
  mret (dinode_at (dinode_off inum) buf).

Definition ialloc (type : Z) : mk Z :=
  inum ← mget freeinode;
  mmod (fun s => s <| freeinode := u32 (inum + 1) |>);;
  winode inum (Dinode (s16 (xshort type)) 0 0 (s16 (xshort 1)) (xint 0)
                 (replicate (Z.to_nat (NDIRECT + 1)) 0));;
  mret inum.

Definition balloc (used : Z) : mk unit :=
  massert (used <? BPB);;
  sb ← mget mk_sb;
  wsect (bmapstart sb) (fold_left (fun buf i => set_bit i buf) (seqZ 0 used) zero_block).

(** [freeblock++] *)
Definition new_block : mk Z :=
  fb ← mget freeblock;
  mmod (fun s => s <| freeblock := u32 (fb + 1) |>);;
  mret fb.

(** The block [x] for block [fbn] of the file, allocated when it is 0, and the inode. *)
Definition iappend_block (din : dinode) (fbn : Z) : mk (Z * dinode) :=
  let set i a := Dinode (di_type din) (di_major din) (di_minor din) (di_nlink din) (di_size din)
                   (<[Z.to_nat i := a]> (di_addrs din)) in
  if fbn <? NDIRECT then
    a ← minside (di_addrs din !! Z.to_nat fbn);
    if xint a =? 0 then fb ← new_block; mret (xint (xint fb), set fbn (xint fb))
    else mret (xint a, din)
  else
    a ← minside (di_addrs din !! Z.to_nat NDIRECT);
    ' (ind, din) ← (if xint a =? 0 then fb ← new_block; mret (xint (xint fb), set NDIRECT (xint fb))
                    else mret (xint a, din));
    indirect ← rsect ind;
    let e := le_at 4 (4 * (fbn - NDIRECT)) indirect in
    if e =? 0 then
      fb ← new_block;
      wsect ind (put_le 4 (4 * (fbn - NDIRECT)) (xint fb) indirect);;
      mret (xint (xint fb), din)
    else mret (xint e, din).

(** The loop of [iappend]: [n] is the length of [p]. *)
Fixpoint iappend_loop (k : nat) (p : list Z) (off : Z) (din : dinode) : mk (Z * dinode) :=
  match k with
  | O => fun _ => MkAbort
  | S k =>
      let n := Z.of_nat (length p) in
      if 0 <? n then
        let fbn := off / BSIZE in
        massert (fbn <? MAXFILE);;
        ' (x, din) ← iappend_block din fbn;
        let n1 := Z.min n (u32 ((fbn + 1) * BSIZE - off)) in
        buf ← rsect x;
        wsect x (splice (Z.to_nat (off - fbn * BSIZE)) (take (Z.to_nat n1) p) buf);;
        iappend_loop k (drop (Z.to_nat n1) p) (u32 (off + n1)) din
      else mret (off, din)
  end.

Definition iappend (inum : Z) (p : list Z) : mk unit :=
  din ← rinode inum;
  ' (off, din) ← iappend_loop (S (length p)) p (xint (di_size din)) din;
  winode inum (Dinode (di_type din) (di_major din) (di_minor din) (di_nlink din) (xint off) (di_addrs din)).

Fixpoint mfor {A} (l : list A) (body : A -> mk unit) : mk unit :=
  match l with
  | [] => mret tt
  | x :: l => body x;; mfor l body
  end.

(** The name of a file in the image: without ["user/"] and a leading ['_']. *)
Definition shortname (arg : list Z) : mk (list Z) :=
  c ← minside (strncmp 5 arg [117; 115; 101; 114; 47; 0]);
  let short := if c =? 0 then drop 5 arg else arg in
  massert (bool_decide (47 ∉ cstr short));;
  mret short.

(** [while((cc = read(fd, buf, sizeof(buf))) > 0) iappend(inum, buf, cc);] *)
Fixpoint copy_file (inum : Z) (reads : list (list Z)) : mk unit :=
  match reads with
  | [] => mret tt
  | [] :: _ => mret tt
  | buf :: reads => iappend inum buf;; copy_file inum reads
  end.

Definition add_file (rootino : Z) (arg : list Z) : mk unit :=
  short ← shortname arg;
  match h_open (cstr arg) with
  | None => die
  | Some reads =>
      c ← minside (head short);
      let short := if c =? 95 then tail short else short in
      massert (Z.of_nat (length (cstr short)) <=? DIRSIZ);;
      inum ← ialloc T_FILE;
      nm ← minside (strncpy name_zero short DIRSIZ);
      iappend rootino (dirent_bytes (Dirent (xshort inum) nm));;
      copy_file inum reads
  end.

(** An entry of the root directory with the name ["."] or [".."]. *)
Definition dot_entry (inum : Z) (name : list Z) : dirent :=
  Dirent (xshort inum) (splice 0 name name_zero).

Definition main (argv : list (list Z)) : mk unit :=
  if (length argv <? 2)%nat then mexit 1 else
  massert (BSIZE mod sizeof_dinode =? 0);;
  massert (BSIZE mod sizeof_dirent =? 0);;
  image ← minside (argv !! 1%nat);
  if negb (h_creat (cstr image)) then die else
  let sb := Superblock FSMAGIC (xint FSSIZE) (xint mk_nblocks) (xint NINODES) (xint mk_nlog)
              (xint 2) (xint (2 + mk_nlog)) (xint (2 + mk_nlog + ninodeblocks)) in
  mmod (fun s => s <| mk_img := [] |> <| mk_sb := sb |> <| freeblock := nmeta |>);;
  mfor (seqZ 0 FSSIZE) (fun i => wsect i zero_block);;
  wsect 1 (put_uints 0 [magic sb; sb_size sb; nblocks sb; ninodes sb; nlog sb; logstart sb;
                        inodestart sb; bmapstart sb] zero_block);;
  rootino ← ialloc T_DIR;
  massert (rootino =? ROOTINO);;
  iappend rootino (dirent_bytes (dot_entry rootino [46; 0]));;
  iappend rootino (dirent_bytes (dot_entry rootino [46; 46; 0]));;
  mfor (drop 2 argv) (add_file rootino);;
  din ← rinode rootino;
  let off := xint (di_size din) in
  let off := u32 ((off / BSIZE + 1) * BSIZE) in
  winode rootino (Dinode (di_type din) (di_major din) (di_minor din) (di_nlink din) (xint off) (di_addrs din));;
  fb ← mget freeblock;
  balloc (s32 fb);;
  mexit 0.
End mkfs.

Close Scope mkfs_scope.

(** [mkfs] starts with the static values of its variables. *)
Definition mkst_zero : mkst := MkSt [] (Superblock 0 0 0 0 0 0 0 0) 1 0 0.
