(* ===== verification/MkfsSpec.v ===== *)
(** * The image that mkfs builds

    [src/mkfs/mkfs.c] makes a file system that the kernel reads: the content of every
    inode, in the sense of [FsSpec], is the content of its file, the root directory has
    an entry for each file, and the free map marks the blocks in use. *)

From S2P Require Import Prelude Bytes Params FsTypes Machine Spinlock ProcCore Mem Kstring Pres PresVm Services.
From S2P Require Import Proc FsCore Sleeplock Calm Bio Lru BioSpec Log LogSpec Fs Dir FsSpec FsWrite FsAlloc.
From S2P Require Import Mkfs.

(** ** One file

    The file with the block addresses [addrs] has [nb] blocks, all in [own], with the
    bytes of [content] followed by zeroes. *)
Record file_in (rd : Z -> list Z) (addrs : list Z) (nb : Z) (content : list Z) (own : gset Z) : Prop := {
  fi_addrs : Z.of_nat (length addrs) = NDIRECT + 1;
  fi_range : Forall (fun a => 0 <= a < 2 ^ 31) addrs;
  fi_nb : 0 <= nb <= MAXFILE;
  fi_fit : Z.of_nat (length content) <= nb * BSIZE;
  fi_pos b : b ∈ own -> 0 < b < 2 ^ 31 /\ Z.of_nat (length (rd b)) = BSIZE;
  fi_own i : 0 <= i < nb -> block_addr rd addrs i ∈ own;
  fi_ind : NDIRECT < nb -> default 0 (addrs !! Z.to_nat NDIRECT) ∈ own;
  fi_inj i j : 0 <= i < nb -> 0 <= j < nb -> block_addr rd addrs i = block_addr rd addrs j -> i = j;
  fi_sep i : 0 <= i < nb -> NDIRECT < nb ->
    block_addr rd addrs i <> default 0 (addrs !! Z.to_nat NDIRECT);
  fi_free i : nb <= i < NDIRECT -> addrs !! Z.to_nat i = Some 0;
  fi_free_ind : nb <= NDIRECT -> addrs !! Z.to_nat NDIRECT = Some 0;
  fi_free_entry i : NDIRECT < nb -> nb <= i < MAXFILE -> block_addr rd addrs i = 0;
  fi_byte j : 0 <= j < nb * BSIZE -> file_byte rd addrs j = default 0 (content !! Z.to_nat j);
}.

Lemma blocks_lt i nb : i * BSIZE < nb * BSIZE -> i < nb.
Proof. change BSIZE with 1024. lia. Qed.

Lemma lt_blocks i nb : i < nb -> i * BSIZE < nb * BSIZE.
Proof. change BSIZE with 1024. lia. Qed.

Section file_in.
Context {rd : Z -> list Z} {addrs : list Z} {nb : Z} {content : list Z} {own : gset Z}.
Context (Hf : file_in rd addrs nb content own).

Lemma file_in_mapped : mapped (gset_to_gmap [] own) rd addrs (nb * BSIZE).
Proof.
  pose proof (fi_nb _ _ _ _ _ Hf) as Hnb. split.
  - change BSIZE with 1024. lia.
  - apply Hf.
  - intros i Hi Hlt. apply blocks_lt in Hlt. pose proof (fi_own _ _ _ _ _ Hf i ltac:(lia)) as Ho.
    destruct (fi_pos _ _ _ _ _ Hf _ Ho) as [? ?]. split_and!; [lia| |done].
    exists []. by rewrite lookup_gset_to_gmap, option_guard_True.
  - intros a Hlt Ha. apply blocks_lt in Hlt. pose proof (fi_ind _ _ _ _ _ Hf Hlt) as Ho. rewrite Ha in Ho.
    simpl in Ho. destruct (fi_pos _ _ _ _ _ Hf _ Ho) as [? ?]. split; [lia|].
    exists []. by rewrite lookup_gset_to_gmap, option_guard_True.
Qed.

Lemma file_in_separate : separate rd addrs (nb * BSIZE).
Proof.
  split.
  - intros i Hi Hlt. apply blocks_lt in Hlt. pose proof (fi_own _ _ _ _ _ Hf i ltac:(lia)) as Ho.
    destruct (fi_pos _ _ _ _ _ Hf _ Ho). lia.
  - intros i j Hi Hli Hj Hlj. apply blocks_lt in Hli, Hlj. apply Hf; lia.
  - intros i Hi Hlt Hn. apply blocks_lt in Hlt, Hn. apply Hf; lia.
Qed.

(** What happens outside of its blocks does not matter to a file. *)
Lemma file_in_frame rd' : (forall b, b ∈ own -> rd' b = rd b) -> file_in rd' addrs nb content own.
Proof.
  intros He.
  assert (Ha : forall i, 0 <= i < MAXFILE -> i < nb \/ NDIRECT < nb -> block_addr rd' addrs i = block_addr rd addrs i).
  { intros i Hi Hn. unfold block_addr. destruct (Z.ltb_spec i NDIRECT); [done|].
    rewrite He; [done|]. apply Hf. destruct Hn; lia. }
  destruct Hf as [F1 F2 F3 F4 F5 F6 F7 F8 F9 F10 F11 F12 F13]. split; try done.
  - intros b Hb. rewrite He by done. auto.
  - intros i Hi. rewrite Ha by lia. auto.
  - intros i j Hi Hj. rewrite !Ha by lia. auto.
  - intros i Hi Hn. rewrite Ha by lia. auto.
  - intros i Hn Hi. rewrite Ha by (try lia; change NDIRECT with 12 in *; lia). auto.
  - intros j Hj. rewrite <- F13 by done. unfold file_byte.
    assert (0 <= j / BSIZE < nb) by (change BSIZE with 1024 in *; Z.to_euclidean_division_equations; lia).
    rewrite Ha by lia. rewrite He; [done|]. apply F6. lia.
Qed.

(** The bytes [chunk] are added inside the last block. *)
Lemma file_in_extend chunk :
  let off := Z.of_nat (length content) in
  chunk <> [] -> off + Z.of_nat (length chunk) <= nb * BSIZE ->
  off mod BSIZE + Z.of_nat (length chunk) <= BSIZE ->
  let a := block_addr rd addrs (off / BSIZE) in
  file_in (upd_block rd a (splice (Z.to_nat (off mod BSIZE)) chunk (rd a))) addrs nb (content ++ chunk) own
  /\ a ∈ own.
Proof.
  intros off Hne Hfit Hin a.
  pose proof (written_block addrs (nb * BSIZE) _ rd off chunk file_in_mapped file_in_separate ltac:(lia) Hfit Hne Hin) as W.
  fold a in W. cbv zeta in W. set (rd' := upd_block _ _ _) in *.
  assert (Hq : 0 <= off / BSIZE < nb).
  { assert (0 < Z.of_nat (length chunk)) by (destruct chunk; [done|simpl; lia]).
    change BSIZE with 1024 in *. Z.to_euclidean_division_equations. lia. }
  assert (Ho : a ∈ own) by (apply Hf; done). split; [|done].
  assert (Hind : NDIRECT < nb -> rd' (default 0 (addrs !! Z.to_nat NDIRECT)) = rd (default 0 (addrs !! Z.to_nat NDIRECT))).
  { intros Hn. apply W. intros i Hi Hlt. apply blocks_lt in Hlt. apply not_eq_sym, Hf; lia. }
  destruct W as [W1 W2 W3 W4]. destruct Hf as [F1 F2 F3 F4 F5 F6 F7 F8 F9 F10 F11 F12 F13]. split; try done.
  - rewrite length_app. lia.
  - intros b Hb. rewrite W3. auto.
  - intros i Hi. rewrite W1 by (try lia; apply lt_blocks; lia). auto.
  - intros i j Hi Hj. rewrite !W1 by (try lia; apply lt_blocks; lia). auto.
  - intros i Hi Hn. rewrite W1 by (try lia; apply lt_blocks; lia). auto.
  - intros i Hn Hi. unfold block_addr. rewrite Hind by done. fold (block_addr rd addrs i). by apply F12.
  - intros j Hj. rewrite W2, F13 by done. case_decide as Hd.
    + rewrite lookup_app_r by lia. do 2 f_equal. lia.
    + destruct (decide (j < off)) as [Hlt|Hge]; [by rewrite lookup_app_l by lia|].
      rewrite !lookup_ge_None_2; [done|rewrite length_app; lia|lia].
Qed.

Lemma fi_len_addrs : length addrs = 13%nat.
Proof. pose proof (fi_addrs _ _ _ _ _ Hf) as E. change (NDIRECT + 1) with 13 in E. lia. Qed.

(** The bytes of a block that is still zero. *)
Lemma zero_byte i : default 0 (zero_block !! i) = 0.
Proof using Type. clear. unfold zero_block. destruct (_ !! i) as [c|] eqn:E; [|done]. by apply lookup_replicate in E as [-> _]. Qed.

(** The bytes of one more block. *)
Lemma next_bytes rd' addrs' :
  (forall i, 0 <= i < nb -> block_addr rd' addrs' i = block_addr rd addrs i
     /\ rd' (block_addr rd addrs i) = rd (block_addr rd addrs i)) ->
  rd' (block_addr rd' addrs' nb) = zero_block ->
  forall j, 0 <= j < (nb + 1) * BSIZE -> file_byte rd' addrs' j = default 0 (content !! Z.to_nat j).
Proof.
  intros Hold Hnew j Hj. destruct (Z.ltb_spec j (nb * BSIZE)) as [Hlt|Hge].
  - rewrite <- (fi_byte _ _ _ _ _ Hf) by lia. unfold file_byte.
    assert (Hq : 0 <= j / BSIZE < nb) by (change BSIZE with 1024 in *; Z.to_euclidean_division_equations; lia).
    destruct (Hold _ Hq) as [-> ->]. done.
  - pose proof (fi_fit _ _ _ _ _ Hf). rewrite lookup_ge_None_2 by lia. unfold file_byte.
    replace (j / BSIZE) with nb by (change BSIZE with 1024 in *; Z.to_euclidean_division_equations; lia).
    rewrite Hnew. apply zero_byte.
Qed.

(** A new direct block. *)
Lemma file_in_direct fb :
  nb < NDIRECT -> fb ∉ own -> 0 < fb < 2 ^ 31 -> rd fb = zero_block ->
  file_in rd (<[Z.to_nat nb := fb]> addrs) (nb + 1) content ({[fb]} ∪ own).
Proof.
  intros Hd Hfb Hr Hz. pose proof fi_len_addrs as Hlen. pose proof (fi_nb _ _ _ _ _ Hf) as Hnb.
  change NDIRECT with 12 in Hd.
  assert (Ha : forall i, 0 <= i < nb -> block_addr rd (<[Z.to_nat nb := fb]> addrs) i = block_addr rd addrs i).
  { intros i Hi. unfold block_addr. rewrite (proj2 (Z.ltb_lt i NDIRECT)) by (change NDIRECT with 12; lia).
    by rewrite list_lookup_insert_ne by lia. }
  assert (Hn : block_addr rd (<[Z.to_nat nb := fb]> addrs) nb = fb).
  { unfold block_addr. rewrite (proj2 (Z.ltb_lt nb NDIRECT)) by (change NDIRECT with 12; lia).
    by rewrite list_lookup_insert_eq by lia. }
  assert (Hbytes := next_bytes rd (<[Z.to_nat nb := fb]> addrs)).
  destruct Hf as [F1 F2 F3 F4 F5 F6 F7 F8 F9 F10 F11 F12 F13]. split.
  - by rewrite length_insert.
  - apply Forall_insert; [done|lia].
  - change MAXFILE with 268. lia.
  - change BSIZE with 1024 in *. lia.
  - intros b Hb. apply elem_of_union in Hb as [->%elem_of_singleton|Hb]; [|auto]. rewrite Hz. by split; [lia|].
  - intros i Hi. destruct (decide (i = nb)) as [->|]; [rewrite Hn; set_solver|].
    rewrite Ha by lia. apply elem_of_union_r, F6. lia.
  - change NDIRECT with 12. lia.
  - intros i j Hi Hj. destruct (decide (i = nb)) as [->|], (decide (j = nb)) as [->|]; [done|..].
    + rewrite Hn, Ha by lia. intros E. destruct Hfb. rewrite E. apply F6. lia.
    + rewrite Hn, Ha by lia. intros E. destruct Hfb. rewrite <- E. apply F6. lia.
    + rewrite !Ha by lia. apply F8; lia.
  - change NDIRECT with 12. lia.
  - intros i Hi. rewrite list_lookup_insert_ne by lia. apply F10. lia.
  - intros _. change NDIRECT with 12. rewrite list_lookup_insert_ne by lia. apply F11. change NDIRECT with 12. lia.
  - change NDIRECT with 12. lia.
  - apply Hbytes; [|by rewrite Hn]. intros i Hi. by rewrite Ha.
Qed.

(** The indirect block [ind] of a file that needs one: a new one, or that of the file. *)
Definition indirect_ready (ind : Z) : Prop :=
  (nb = NDIRECT /\ ind ∉ own /\ 0 < ind < 2 ^ 31 /\ rd ind = zero_block)
  \/ (NDIRECT < nb /\ addrs !! Z.to_nat NDIRECT = Some ind).

Lemma le_at_zero n o : le_at n o zero_block = 0.
Proof using Type.
  clear. unfold le_at, slice, zero_block. rewrite drop_replicate, take_replicate.
  induction (n `min` _)%nat as [|k IH]; simpl; [done|]. rewrite IH. done.
Qed.

Lemma indirect_entry ind :
  NDIRECT <= nb < MAXFILE -> indirect_ready ind ->
  Z.of_nat (length (rd ind)) = BSIZE
  /\ forall i, nb <= i < MAXFILE -> le_at 4 (4 * (i - NDIRECT)) (rd ind) = 0.
Proof.
  intros Hn [(-> & _ & _ & Hz)|[Hlt Ha]].
  - rewrite Hz. split; [done|]. intros. apply le_at_zero.
  - pose proof (fi_ind _ _ _ _ _ Hf Hlt) as Ho. rewrite Ha in Ho. split; [by apply Hf|]. intros i Hi.
    pose proof (fi_free_entry _ _ _ _ _ Hf i Hlt Hi) as E. unfold block_addr in E.
    rewrite (proj2 (Z.ltb_ge i NDIRECT)), Ha in E by lia. exact E.
Qed.

(** A new block that the indirect block lists. *)
Section indirect.
Context (ind fb : Z) (Hn : NDIRECT <= nb < MAXFILE) (Hi : indirect_ready ind).
Context (Hfb : fb ∉ own) (Hne : fb <> ind) (Hr : 0 < fb < 2 ^ 31) (Hz : rd fb = zero_block).

Let addrs' := <[Z.to_nat NDIRECT := ind]> addrs.
Let rd' := upd_block rd ind (put_le 4 (4 * (nb - NDIRECT)) fb (rd ind)).

Lemma indirect_range : 0 < ind < 2 ^ 31.
Proof using Hf Hi.
  destruct Hi as [(_ & _ & ? & _)|[Hlt Ha]]; [done|].
  pose proof (fi_ind _ _ _ _ _ Hf Hlt) as Ho. rewrite Ha in Ho. by apply Hf.
Qed.

Lemma indirect_addr : default 0 (addrs' !! Z.to_nat NDIRECT) = ind.
Proof using Hf.
  unfold addrs'. rewrite list_lookup_insert_eq; [done|]. rewrite fi_len_addrs. change NDIRECT with 12. lia.
Qed.

Lemma indirect_old i : 0 <= i < nb -> block_addr rd' addrs' i = block_addr rd addrs i.
Proof using Hf Hn Hi.
  intros Hlt. unfold block_addr. rewrite indirect_addr. change NDIRECT with 12 in *.
  destruct (Z.ltb_spec i 12) as [Hd|Hd].
  - unfold addrs'. change NDIRECT with 12. by rewrite list_lookup_insert_ne by lia.
  - destruct (indirect_entry ind Hn Hi) as [Hl _]. destruct Hi as [(? & _)|[_ Ha]]; change NDIRECT with 12 in *; [lia|]. rewrite Ha. simpl.
    unfold rd', upd_block. rewrite decide_True by done. apply le_at_put_le_ne; try lia.
    change MAXFILE with 268 in *. change BSIZE with 1024 in *. lia.
Qed.

Lemma indirect_new : block_addr rd' addrs' nb = fb.
Proof using Hf Hn Hi Hr.
  unfold block_addr. rewrite (proj2 (Z.ltb_ge nb NDIRECT)), indirect_addr by lia.
  unfold rd', upd_block. rewrite decide_True by done.
  destruct (indirect_entry ind Hn Hi) as [Hl _]. rewrite le_at_put_le_eq.
  - apply Z.mod_small. change (256 ^ Z.of_nat 4) with (2 ^ 32). lia.
  - change NDIRECT with 12 in *. change MAXFILE with 268 in *. change BSIZE with 1024 in *. lia.
Qed.

Lemma indirect_apart i : 0 <= i < nb -> block_addr rd addrs i <> ind.
Proof using Hf Hi.
  intros Hlt E. destruct Hi as [(_ & Ho & _)|[Hn' Ha]].
  - apply Ho. rewrite <- E. by apply Hf.
  - eapply (fi_sep _ _ _ _ _ Hf i); [done..|]. by rewrite Ha.
Qed.

Lemma file_in_indirect : file_in rd' addrs' (nb + 1) content ({[fb]} ∪ ({[ind]} ∪ own)).
Proof using Hf Hn Hi Hfb Hne Hr Hz.
  pose proof fi_len_addrs as Hlen. pose proof indirect_range as Hir. destruct (indirect_entry ind Hn Hi) as [Hl He].
  assert (Hrd : forall b, b <> ind -> rd' b = rd b) by (intros b Hb; unfold rd', upd_block; by rewrite decide_False).
  assert (Hlb : length (rd' ind) = length (rd ind)).
  { unfold rd', upd_block. rewrite decide_True by done. apply length_put_le.
    change NDIRECT with 12 in *. change MAXFILE with 268 in *. change BSIZE with 1024 in *. lia. }
  assert (Hbytes := next_bytes rd' addrs').
  destruct Hf as [F1 F2 F3 F4 F5 F6 F7 F8 F9 F10 F11 F12 F13]. split.
  - unfold addrs'. by rewrite length_insert.
  - apply Forall_insert; [done|lia].
  - lia.
  - change BSIZE with 1024 in *. lia.
  - intros b Hb. destruct (decide (b = ind)) as [->|Hbi]; [rewrite Hlb; split; [lia|done]|].
    rewrite Hrd by done. destruct (decide (b = fb)) as [->|]; [rewrite Hz; by split; [lia|]|].
    apply F5. set_solver.
  - intros i Hlt. destruct (decide (i = nb)) as [->|]; [rewrite indirect_new; set_solver|].
    rewrite indirect_old by lia. do 2 apply elem_of_union_r. apply F6. lia.
  - intros _. rewrite indirect_addr. set_solver.
  - intros i j Hli Hlj. destruct (decide (i = nb)) as [->|], (decide (j = nb)) as [->|]; [done|..].
    + rewrite indirect_new, indirect_old by lia. intros E. destruct Hfb. rewrite E. apply F6. lia.
    + rewrite indirect_new, indirect_old by lia. intros E. destruct Hfb. rewrite <- E. apply F6. lia.
    + rewrite !indirect_old by lia. apply F8; lia.
  - intros i Hlt _. rewrite indirect_addr. destruct (decide (i = nb)) as [->|]; [by rewrite indirect_new|].
    rewrite indirect_old by lia. apply indirect_apart. lia.
  - lia.
  - lia.
  - intros i _ Hlt. unfold block_addr. rewrite (proj2 (Z.ltb_ge i NDIRECT)), indirect_addr by lia.
    unfold rd', upd_block. rewrite decide_True by done. rewrite le_at_put_le_ne; try lia; [apply He; lia|].
    change NDIRECT with 12 in *. change MAXFILE with 268 in *. change BSIZE with 1024 in *. lia.
  - apply Hbytes.
    + intros i Hlt. rewrite indirect_old by done. split; [done|]. apply Hrd. by apply indirect_apart.
    + rewrite indirect_new, Hrd; done.
Qed.
End indirect.
End file_in.

(** ** The program *)

Lemma xint_id a : 0 <= a < 2 ^ 32 -> xint a = a.
Proof. intros Ha. unfold xint. rewrite le_of_bytes_le_bytes. by apply Z.mod_small. Qed.

Lemma s16_small a : 0 <= a < 2 ^ 15 -> s16 a = a.
Proof. intros Ha. unfold s16. rewrite Z.mod_small by lia. lia. Qed.

Lemma xshort_id a : 0 <= a < 2 ^ 16 -> xshort a = a.
Proof. intros Ha. unfold xshort. rewrite le_of_bytes_le_bytes. by apply Z.mod_small. Qed.

Definition mk_super : superblock := Superblock FSMAGIC 2000 1953 200 31 2 33 46.

(** The image has the blocks [rd]. *)
Record at_ (s : mkst) (rd : Z -> list Z) (fi fb : Z) : Prop := {
  at_sb : mk_sb s = mk_super;
  at_fi : freeinode s = fi;
  at_fb : freeblock s = fb;
  at_len : Z.of_nat (length (mk_img s)) = FSSIZE;
  at_img b : 0 <= b < FSSIZE -> mk_img s !! Z.to_nat b = Some (rd b);
  at_out b : ~ 0 <= b < FSSIZE -> rd b = zero_block;
  at_bytes b : Forall byte (rd b);
}.

Lemma byte_zero_block : Forall byte zero_block.
Proof. apply Forall_replicate. split; reflexivity || discriminate. Qed.

Lemma byte_splice o u l : Forall byte u -> Forall byte l -> Forall byte (splice o u l).
Proof.
  intros Hu Hl. unfold splice. apply Forall_app. split; [by apply Forall_take|]. apply Forall_app.
  split; [done|by apply Forall_drop].
Qed.

Lemma byte_put_le n o v l : Forall byte l -> Forall byte (put_le n o v l).
Proof. intros Hl. unfold put_le. apply byte_splice; [apply le_bytes_byte|done]. Qed.

Lemma byte_put_uints o vs l : Forall byte l -> Forall byte (put_uints o vs l).
Proof. revert o l. induction vs as [|v vs IH]; intros o l Hl; simpl; [done|]. by apply IH, byte_put_le. Qed.

Lemma byte_put_dinode o d l : Forall byte l -> Forall byte (put_dinode o d l).
Proof. intros Hl. unfold put_dinode. by repeat (apply byte_put_uints || apply byte_put_le). Qed.

Section program.
Context (io_fails : nat -> bool).

(** The program ends with [Q], or exits with 1 because a call of the host failed. *)
Definition wp {A} (m : mk A) (s : mkst) (Q : A -> mkst -> Prop) : Prop :=
  match m s with
  | MkOk a s => Q a s
  | MkExit c _ => c = 1 /\ exists k, io_fails k = true
  | MkAbort => False
  end.

#[global] Arguments wp : simpl never.

Lemma wp_bind {A B} (m : mk A) (f : A -> mk B) s Q :
  wp m s (fun a s => wp (f a) s Q) -> wp (mbind m f) s Q.
Proof. unfold wp, mbind. by destruct (m s). Qed.

Lemma wp_mono {A} (m : mk A) s (P Q : A -> mkst -> Prop) :
  wp m s P -> (forall a s', P a s' -> Q a s') -> wp m s Q.
Proof. unfold wp. destruct (m s); auto. Qed.

Lemma wp_ret {A} (a : A) s (Q : A -> mkst -> Prop) : Q a s -> wp (mret a) s Q.
Proof. done. Qed.

Lemma wp_get {A} (f : mkst -> A) s (Q : A -> mkst -> Prop) : Q (f s) s -> wp (mget f) s Q.
Proof. done. Qed.

Lemma wp_assert b s (Q : unit -> mkst -> Prop) : b = true -> Q tt s -> wp (massert b) s Q.
Proof. by intros ->. Qed.

Lemma wp_inside {A} (o : option A) a s (Q : A -> mkst -> Prop) : o = Some a -> Q a s -> wp (minside o) s Q.
Proof. by intros ->. Qed.

Lemma wp_io s rd fi fb (Q : unit -> mkst -> Prop) :
  at_ s rd fi fb -> (forall s', mk_img s' = mk_img s -> at_ s' rd fi fb -> Q tt s') -> wp (io_call io_fails) s Q.
Proof.
  intros Hat HQ. unfold io_call, wp, mbind, mget, mmod, mret, die, mexit.
  destruct (io_fails (mk_calls s)) eqn:E; [by split; [|exists (mk_calls s)]|].
  apply HQ; [done|]. by destruct Hat.
Qed.

Lemma sect_small b : 0 <= b < FSSIZE -> sect b = Z.to_nat b.
Proof.
  intros Hb. unfold sect. change FSSIZE with 2000 in Hb. change BSIZE with 1024.
  rewrite u32_small by lia. by rewrite Z.div_mul.
Qed.

Lemma wp_rsect s rd fi fb b (Q : list Z -> mkst -> Prop) :
  at_ s rd fi fb -> 0 <= b < FSSIZE -> (forall s', at_ s' rd fi fb -> Q (rd b) s') ->
  wp (rsect io_fails b) s Q.
Proof.
  intros Hat Hb HQ. unfold rsect. apply wp_bind. eapply wp_io; [done|]. intros s1 _ H1.
  apply wp_bind. eapply wp_io; [done|]. intros s2 _ H2. apply wp_bind, wp_get.
  rewrite sect_small, (at_img _ _ _ _ H2) by done. apply wp_ret. auto.
Qed.

Lemma at_put s rd fi fb b buf :
  at_ s rd fi fb -> 0 <= b < FSSIZE -> Forall byte buf ->
  at_ (s <| mk_img := put_block (sect b) buf (mk_img s) |>) (upd_block rd b buf) fi fb.
Proof.
  intros [H1 H2 H3 H4 H5 H6 H7] Hb Hbuf. rewrite sect_small by done. unfold put_block.
  rewrite (proj2 (Nat.ltb_lt _ _)) by lia. split; try done.
  - simpl. by rewrite length_insert.
  - intros b' Hb'. simpl. unfold upd_block. case_decide as E.
    + subst. apply list_lookup_insert_eq. lia.
    + rewrite list_lookup_insert_ne by lia. auto.
  - intros b' Hb'. unfold upd_block. rewrite decide_False by (intros ->; done). auto.
  - intros b'. unfold upd_block. by case_decide.
Qed.

Lemma wp_wsect s rd fi fb b buf (Q : unit -> mkst -> Prop) :
  at_ s rd fi fb -> 0 <= b < FSSIZE -> Forall byte buf -> (forall s', at_ s' (upd_block rd b buf) fi fb -> Q tt s') ->
  wp (wsect io_fails b buf) s Q.
Proof.
  intros Hat Hb Hbuf HQ. unfold wsect. apply wp_bind. eapply wp_io; [done|]. intros s1 _ H1.
  apply wp_bind. eapply wp_io; [done|]. intros s2 _ H2. apply HQ. by apply at_put.
Qed.

Lemma wp_new_block s rd fi fb (Q : Z -> mkst -> Prop) :
  at_ s rd fi fb -> 0 <= fb < FSSIZE -> (forall s', at_ s' rd fi (fb + 1) -> Q fb s') -> wp new_block s Q.
Proof.
  intros Hat Hb HQ. unfold new_block. apply wp_bind, wp_get. rewrite (at_fb _ _ _ _ Hat).
  change FSSIZE with 2000 in Hb. rewrite u32_small by lia. apply wp_bind. unfold wp, mmod. apply wp_ret, HQ.
  by destruct Hat.
Qed.

(** ** Inodes in the image *)

Definition iblock (inum : Z) : Z := 33 + inum / 16.

Lemma IBLOCK_eq inum : 0 <= inum < 208 -> IBLOCK inum mk_super = iblock inum /\ 33 <= iblock inum < 46.
Proof.
  intros Hi. unfold IBLOCK, iblock. change IPB with 16. change (inodestart mk_super) with 33.
  assert (0 <= inum / 16 < 13) by (Z.to_euclidean_division_equations; lia).
  rewrite u32_small by lia. lia.
Qed.

Definition dinode_in (rd : Z -> list Z) (inum : Z) : dinode := dinode_at (dinode_off inum) (rd (iblock inum)).

Lemma wp_rinode s rd fi fb inum (Q : dinode -> mkst -> Prop) :
  at_ s rd fi fb -> 0 <= inum < 208 -> (forall s', at_ s' rd fi fb -> Q (dinode_in rd inum) s') ->
  wp (rinode io_fails inum) s Q.
Proof.
  intros Hat Hi HQ. destruct (IBLOCK_eq inum Hi) as [E Hr]. unfold rinode. apply wp_bind, wp_get.
  rewrite (at_sb _ _ _ _ Hat), E. apply wp_bind. eapply wp_rsect; [done|change FSSIZE with 2000; lia|].
  intros s' Hs'. apply wp_ret. by apply HQ.
Qed.

Lemma wp_winode s rd fi fb inum d (Q : unit -> mkst -> Prop) :
  at_ s rd fi fb -> 0 <= inum < 208 ->
  (forall s', at_ s' (upd_block rd (iblock inum) (put_dinode (dinode_off inum) d (rd (iblock inum)))) fi fb -> Q tt s') ->
  wp (winode io_fails inum d) s Q.
Proof.
  intros Hat Hi HQ. destruct (IBLOCK_eq inum Hi) as [E Hr]. unfold winode. apply wp_bind, wp_get.
  rewrite (at_sb _ _ _ _ Hat), E. apply wp_bind. eapply wp_rsect; [done|change FSSIZE with 2000; lia|].
  intros s1 H1. eapply wp_wsect; [done|change FSSIZE with 2000; lia|apply byte_put_dinode, H1|]. done.
Qed.
End program.

(** ** Appending *)

(** The blocks of a file of [n] bytes, and the blocks it takes with the indirect one. *)
Definition nblk (n : Z) : Z := (n + (BSIZE - 1)) / BSIZE.
Definition taken (nb : Z) : Z := nb + (if NDIRECT <? nb then 1 else 0).

(** A file in the image: its blocks were given out, the blocks from [fb] on were not. *)
Record filing (rd : Z -> list Z) (fb : Z) (addrs : list Z) (nb : Z) (c : list Z) (own : gset Z) : Prop := {
  fl_file : file_in rd addrs nb c own;
  fl_own b : b ∈ own -> nmeta <= b < fb;
  fl_zero b : fb <= b < FSSIZE -> rd b = zero_block;
  fl_fb : nmeta <= fb <= FSSIZE;
}.

(** Only blocks of the file, and new blocks, changed. *)
Record grew (rd : Z -> list Z) (fb : Z) (own : gset Z) (rd' : Z -> list Z) (fb' : Z) (own' : gset Z) : Prop := {
  gr_fb : fb <= fb';
  gr_own b : b ∈ own' -> b ∈ own \/ fb <= b < fb';
  gr_frame b : b < fb -> b ∉ own -> rd' b = rd b;
}.

Lemma grew_refl rd fb own : grew rd fb own rd fb own.
Proof. split; [lia|auto|done]. Qed.

Lemma grew_trans rd1 fb1 o1 rd2 fb2 o2 rd3 fb3 o3 :
  grew rd1 fb1 o1 rd2 fb2 o2 -> grew rd2 fb2 o2 rd3 fb3 o3 -> grew rd1 fb1 o1 rd3 fb3 o3.
Proof.
  intros [A1 A2 A3] [B1 B2 B3]. split; [lia| |].
  - intros b Hb. destruct (B2 b Hb) as [Hb2|?]; [|lia]. destruct (A2 b Hb2); [auto|lia].
  - intros b Hlt Hn. rewrite B3, A3; [done|done|done|lia|]. intros Hb. destruct (A2 b Hb); [done|lia].
Qed.

Definition with_addrs (d : dinode) (addrs : list Z) : dinode :=
  Dinode (di_type d) (di_major d) (di_minor d) (di_nlink d) (di_size d) addrs.

Section append.
Context (io_fails : nat -> bool).
Notation wp := (wp io_fails).

Lemma fresh rd fb addrs nb c own : filing rd fb addrs nb c own -> fb < FSSIZE ->
  fb ∉ own /\ 0 < fb < 2 ^ 31 /\ rd fb = zero_block.
Proof using Type.
  intros [_ Ho Hz Hb] Hlt. split_and!.
  - intros Hin. apply Ho in Hin. lia.
  - change nmeta with 47 in Hb. lia.
  - change FSSIZE with 2000 in Hlt. lia.
  - apply Hz. lia.
Qed.

(** The last block of the file exists already. *)
Lemma iappend_old s rd fi fb d nb c own fbn (Q : Z * dinode -> mkst -> Prop) :
  at_ s rd fi fb -> filing rd fb (di_addrs d) nb c own -> 0 <= fbn < nb ->
  (forall s', at_ s' rd fi fb -> Q (block_addr rd (di_addrs d) fbn, d) s') ->
  wp (iappend_block io_fails d fbn) s Q.
Proof using Type.
  intros Hat [Hf Ho Hz Hb] Hn HQ. pose proof (fi_len_addrs Hf) as Hlen.
  pose proof (fi_own _ _ _ _ _ Hf fbn Hn) as Hown. destruct (fi_pos _ _ _ _ _ Hf _ Hown) as [Hpos _].
  unfold iappend_block. unfold block_addr in *. destruct (Z.ltb_spec fbn NDIRECT) as [Hd|Hd].
  - destruct (lookup_lt_is_Some_2 (di_addrs d) (Z.to_nat fbn)) as [a Ha]; [change NDIRECT with 12 in *; lia|].
    rewrite Ha in Hown, Hpos, HQ. simpl in Hown, Hpos, HQ. apply wp_bind. eapply wp_inside; [done|]; cbv beta. rewrite xint_id by lia.
    rewrite (proj2 (Z.eqb_neq a 0)) by lia. apply wp_ret. auto.
  - destruct (lookup_lt_is_Some_2 (di_addrs d) (Z.to_nat NDIRECT)) as [a Ha]; [change NDIRECT with 12 in *; lia|].
    pose proof (fi_ind _ _ _ _ _ Hf ltac:(lia)) as Hi. rewrite Ha in Hown, Hpos, HQ, Hi. simpl in Hown, Hpos, HQ, Hi.
    destruct (fi_pos _ _ _ _ _ Hf _ Hi) as [Hap _]. pose proof (Ho _ Hi).
    apply wp_bind. eapply wp_inside; [done|]; cbv beta. rewrite xint_id by lia. rewrite (proj2 (Z.eqb_neq a 0)) by lia.
    apply wp_bind, wp_ret. cbv iota beta. apply wp_bind. eapply wp_rsect; [done|change nmeta with 47 in *; lia|]. intros s1 H1.
    cbv zeta. rewrite (proj2 (Z.eqb_neq _ 0)) by lia. apply wp_ret. rewrite xint_id by lia. auto.
Qed.

(** A new direct block. *)
Lemma iappend_direct s rd fi fb d nb c own (Q : Z * dinode -> mkst -> Prop) :
  at_ s rd fi fb -> filing rd fb (di_addrs d) nb c own -> nb < NDIRECT -> fb < FSSIZE ->
  (forall s' addrs', at_ s' rd fi (fb + 1) -> filing rd (fb + 1) addrs' (nb + 1) c ({[fb]} ∪ own) ->
     Q (block_addr rd addrs' nb, with_addrs d addrs') s') ->
  wp (iappend_block io_fails d nb) s Q.
Proof using Type.
  intros Hat Hfl Hd Hlt HQ. destruct (fresh _ _ _ _ _ _ Hfl Hlt) as (F1 & F2 & F3).
  destruct Hfl as [Hf Ho Hz Hb]. pose proof (fi_nb _ _ _ _ _ Hf) as Hnb. pose proof (fi_len_addrs Hf) as Hlen.
  unfold iappend_block. rewrite (proj2 (Z.ltb_lt _ _)) by done. apply wp_bind.
  eapply wp_inside; [apply (fi_free _ _ _ _ _ Hf); lia|]; cbv beta. change (xint 0 =? 0) with true. cbv iota.
  apply wp_bind. eapply wp_new_block; [done|change nmeta with 47 in *; lia|]. intros s1 H1. apply wp_ret.
  rewrite !xint_id by (rewrite ?xint_id; lia).
  replace fb with (block_addr rd (<[Z.to_nat nb := fb]> (di_addrs d)) nb) at 1.
  2:{ unfold block_addr. rewrite (proj2 (Z.ltb_lt _ _)) by done. rewrite list_lookup_insert_eq; [done|].
      change NDIRECT with 12 in *. lia. }
  apply (HQ s1); [done|]. split.
  - by apply file_in_direct.
  - intros b Hin. apply elem_of_union in Hin as [->%elem_of_singleton|Hin]; [lia|]. apply Ho in Hin. lia.
  - intros b Hb'. apply Hz. lia.
  - change nmeta with 47 in *. lia.
Qed.

(** A new block of the indirect block [ind], which is in [di_addrs d]. *)
Lemma iappend_entry s rd fi fb d0 d nb c own ind (Q : Z * dinode -> mkst -> Prop) :
  at_ s rd fi fb -> file_in rd (di_addrs d0) nb c own -> NDIRECT <= nb < MAXFILE ->
  (forall b, b ∈ own -> nmeta <= b < fb) -> (forall b, fb <= b < FSSIZE -> rd b = zero_block) ->
  nmeta <= fb < FSSIZE -> nmeta <= ind < fb ->
  indirect_ready (rd := rd) (addrs := di_addrs d0) (nb := nb) (own := own) ind ->
  d = with_addrs d0 (<[Z.to_nat NDIRECT := ind]> (di_addrs d0)) ->
  (forall s' rd', at_ s' rd' fi (fb + 1) ->
     filing rd' (fb + 1) (di_addrs d) (nb + 1) c ({[fb]} ∪ ({[ind]} ∪ own)) ->
     (forall b, b <> ind -> rd' b = rd b) ->
     Q (block_addr rd' (di_addrs d) nb, d) s') ->
  wp (indirect ← rsect io_fails ind;
      let e := le_at 4 (4 * (nb - NDIRECT)) indirect in
      if e =? 0 then
        fb ← new_block;
        wsect io_fails ind (put_le 4 (4 * (nb - NDIRECT)) (xint fb) indirect);;
        mret (xint (xint fb), d)
      else mret (xint e, d))%mkfs s Q.
Proof using Type.
  intros Hat Hf Hn Ho Hz Hb Hi Hr Hd HQ.
  assert (Hfb : fb ∉ own) by (intros Hin; apply Ho in Hin; lia).
  assert (Hzf : rd fb = zero_block) by (apply Hz; lia).
  destruct (indirect_entry Hf ind Hn Hr) as [Hl He].
  change nmeta with 47 in *. change FSSIZE with 2000 in *.
  apply wp_bind. eapply wp_rsect; [done|change FSSIZE with 2000; lia|]. intros s1 H1. cbv zeta. rewrite He by lia.
  change (0 =? 0) with true. cbv iota. apply wp_bind.
  eapply wp_new_block; [done|change FSSIZE with 2000; lia|]. intros s2 H2. apply wp_bind.
  eapply wp_wsect; [done|change FSSIZE with 2000; lia|apply byte_put_le, H1|]. intros s3 H3. apply wp_ret.
  rewrite !xint_id in * by (rewrite ?xint_id; lia).
  pose proof (file_in_indirect Hf ind fb Hn Hr Hfb ltac:(lia) ltac:(lia) Hzf) as Hnew.
  pose proof (indirect_new Hf ind fb Hn Hr ltac:(lia)) as Ha.
  assert (Hda : di_addrs d = <[Z.to_nat NDIRECT := ind]> (di_addrs d0)) by by rewrite Hd.
  rewrite <- Hda in Hnew, Ha. rewrite <- Ha at 1. apply (HQ s3); [done| |].
  - split; [done| | |change nmeta with 47; change FSSIZE with 2000; lia].
    + intros b Hin. change nmeta with 47. rewrite !elem_of_union, !elem_of_singleton in Hin.
      destruct Hin as [->|[->|Hin]]; [lia|lia|]. apply Ho in Hin. lia.
    + intros b Hb'. change FSSIZE with 2000 in Hb'. unfold upd_block. rewrite decide_False by lia. apply Hz. lia.
  - intros b Hne. unfold upd_block. by rewrite decide_False.
Qed.

Lemma with_addrs_id d : with_addrs d (di_addrs d) = d.
Proof using Type. by destruct d. Qed.

Lemma grew_new rd fb own rd' fb' own' :
  fb <= fb' -> (forall b, b ∈ own' -> b ∈ own \/ fb <= b < fb') ->
  (forall b, b < fb -> b ∉ own -> rd' b = rd b) -> grew rd fb own rd' fb' own'.
Proof using Type. by split. Qed.

(** A new block, when an indirect block is needed. *)
Lemma iappend_indirect s rd fi fb d nb c own (Q : Z * dinode -> mkst -> Prop) :
  at_ s rd fi fb -> filing rd fb (di_addrs d) nb c own -> NDIRECT <= nb < MAXFILE ->
  fb + taken (nb + 1) - taken nb <= FSSIZE ->
  (forall s' rd' fb' addrs' own', at_ s' rd' fi fb' -> filing rd' fb' addrs' (nb + 1) c own' ->
     grew rd fb own rd' fb' own' -> fb' = fb + taken (nb + 1) - taken nb ->
     Q (block_addr rd' addrs' nb, with_addrs d addrs') s') ->
  wp (iappend_block io_fails d nb) s Q.
Proof using Type.
  intros Hat Hfl Hn Hroom HQ. pose proof Hfl as [Hf Ho Hz Hb]. pose proof (fi_len_addrs Hf) as Hlen.
  unfold iappend_block. rewrite (proj2 (Z.ltb_ge _ _)) by lia. unfold taken in *.
  rewrite (proj2 (Z.ltb_lt NDIRECT (nb + 1))) in * by lia.
  destruct (Z.ltb_spec NDIRECT nb) as [Hlt|Hge].
  - destruct (lookup_lt_is_Some_2 (di_addrs d) (Z.to_nat NDIRECT)) as [a Ha]; [change NDIRECT with 12 in *; lia|].
    pose proof (fi_ind _ _ _ _ _ Hf ltac:(lia)) as Hi. rewrite Ha in Hi. simpl in Hi.
    destruct (fi_pos _ _ _ _ _ Hf _ Hi) as [Hap _]. pose proof (Ho _ Hi) as Har.
    apply wp_bind. eapply wp_inside; [done|]; cbv beta. rewrite xint_id by lia. rewrite (proj2 (Z.eqb_neq a 0)) by lia.
    apply wp_bind, wp_ret. cbv iota beta.
    eapply (iappend_entry s rd fi fb d d nb c own a); try done; try lia; [by right| |].
    { rewrite list_insert_id by done. by rewrite with_addrs_id. }
    intros s' rd' Hs' Hfl' Hfr. rewrite <- (with_addrs_id d) at 2. eapply HQ; [done|done| |lia].
    apply grew_new; [lia| |].
    + intros b Hin. rewrite !elem_of_union, !elem_of_singleton in Hin. destruct Hin as [->|[->|?]]; auto. right; lia.
    + intros b Hbl Hbo. apply Hfr. by intros ->.
  - assert (nb = NDIRECT) as -> by lia. apply wp_bind.
    eapply wp_inside; [apply (fi_free_ind _ _ _ _ _ Hf); lia|]; cbv beta. change (xint 0 =? 0) with true. cbv iota.
    apply wp_bind. apply wp_bind. eapply wp_new_block; [done|change nmeta with 47 in *; lia|]. intros s1 H1.
    apply wp_ret. cbv beta iota. change FSSIZE with 2000 in *. change nmeta with 47 in *.
    rewrite !xint_id by (rewrite ?xint_id; lia).
    eapply (iappend_entry s1 rd fi (fb + 1) d _ NDIRECT c own fb); try done;
      try (change FSSIZE with 2000; change nmeta with 47; lia).
    + intros b Hin. apply Ho in Hin. change nmeta with 47. lia.
    + intros b Hbr. change FSSIZE with 2000 in Hbr. apply Hz. lia.
    + left. split_and!; [done| |lia|lia|apply Hz; lia]. intros Hin. apply Ho in Hin. lia.
    + intros s' rd' Hs' Hfl' Hfr. simpl di_addrs in *. apply (HQ s' rd' (fb + 1 + 1) _ _ Hs' Hfl'); [|lia].
      apply grew_new; [lia| |].
      * intros b Hin. rewrite !elem_of_union, !elem_of_singleton in Hin. destruct Hin as [->|[->|?]]; auto; right; lia.
      * intros b Hbl Hbo. apply Hfr. lia.
Qed.

(** The block of the file for its next byte. *)
Lemma iappend_block_run s rd fi fb d nb c own fbn (Q : Z * dinode -> mkst -> Prop) :
  at_ s rd fi fb -> filing rd fb (di_addrs d) nb c own -> nb = nblk (Z.of_nat (length c)) ->
  fbn = Z.of_nat (length c) / BSIZE -> fbn < MAXFILE -> fb + taken (fbn + 1) - taken nb <= FSSIZE ->
  (forall s' rd' fb' addrs' own', at_ s' rd' fi fb' -> filing rd' fb' addrs' (fbn + 1) c own' ->
     grew rd fb own rd' fb' own' -> fb' = fb + taken (fbn + 1) - taken nb ->
     Q (block_addr rd' addrs' fbn, with_addrs d addrs') s') ->
  wp (iappend_block io_fails d fbn) s Q.
Proof using Type.
  intros Hat Hfl Hnb Hfbn Hmax Hroom HQ.
  assert (Hcase : fbn + 1 = nb \/ fbn = nb).
  { unfold nblk in Hnb. change BSIZE with 1024 in *. Z.to_euclidean_division_equations. lia. }
  assert (H0 : 0 <= fbn) by (rewrite Hfbn; apply Z.div_pos; [lia|done]).
  destruct Hcase as [E|E].
  - rewrite E in *. eapply iappend_old; [done|done|lia|]. intros s' Hs'.
    rewrite <- (with_addrs_id d) at 2. eapply HQ; [done|done|apply grew_refl|lia].
  - rewrite E in *. destruct (Z.ltb_spec nb NDIRECT) as [Hd|Hd].
    + assert (Ht : taken (nb + 1) = taken nb + 1).
      { unfold taken. rewrite !(proj2 (Z.ltb_ge NDIRECT _)) by lia. lia. }
      eapply iappend_direct; [done|done|done|lia|]. intros s' addrs' Hs' Hfl'. eapply HQ; [done|done| |lia].
      apply grew_new; [lia| |done]. intros b Hin. rewrite elem_of_union, elem_of_singleton in Hin.
      destruct Hin as [->|?]; auto. right. lia.
    + eapply iappend_indirect; [done|done|lia|done|]. intros. eauto.
Qed.

Lemma taken_mono m n : m <= n -> taken m <= taken n.
Proof using Type. intros H. unfold taken. destruct (Z.ltb_spec NDIRECT m), (Z.ltb_spec NDIRECT n); lia. Qed.

Lemma nblk_mono m n : m <= n -> nblk m <= nblk n.
Proof using Type. intros H. unfold nblk. change BSIZE with 1024. Z.to_euclidean_division_equations. lia. Qed.

(** The part of a chunk that fits in the block [fbn] of the next byte. *)
Lemma chunk_arith off n :
  0 <= off -> 0 < n ->
  let fbn := off / BSIZE in
  let n1 := Z.min n ((fbn + 1) * BSIZE - off) in
  0 < n1 <= n /\ off - fbn * BSIZE = off mod BSIZE /\ off mod BSIZE + n1 <= BSIZE
  /\ off + n1 <= (fbn + 1) * BSIZE /\ fbn + 1 = nblk (off + n1) /\ 0 <= fbn
  /\ 0 <= (fbn + 1) * BSIZE - off <= BSIZE.
Proof using Type.
  intros H0 Hn. cbv zeta. unfold nblk. change BSIZE with 1024.
  Z.to_euclidean_division_equations. lia.
Qed.

Lemma iappend_loop_run k s rd fi fb d nb c own p (Q : Z * dinode -> mkst -> Prop) :
  at_ s rd fi fb -> filing rd fb (di_addrs d) nb c own -> nb = nblk (Z.of_nat (length c)) ->
  Forall byte p -> (length p < k)%nat -> Z.of_nat (length (c ++ p)) <= MAXFILE * BSIZE ->
  let nb' := nblk (Z.of_nat (length (c ++ p))) in
  fb + taken nb' - taken nb <= FSSIZE ->
  (forall s' rd' fb' addrs' own', at_ s' rd' fi fb' -> filing rd' fb' addrs' nb' (c ++ p) own' ->
     grew rd fb own rd' fb' own' -> fb' = fb + taken nb' - taken nb ->
     Q (Z.of_nat (length (c ++ p)), with_addrs d addrs') s') ->
  wp (iappend_loop io_fails k p (Z.of_nat (length c)) d) s Q.
Proof using Type.
  revert s rd fb d nb c own p.
  induction k as [|k IH]; intros s rd fb d nb c own p Hat Hfl Hnb Hby Hk Hmax nb' Hroom HQ; [lia|].
  cbn [iappend_loop]. destruct (decide (p = [])) as [->|Hp].
  { assert (Enb : nb' = nb) by (unfold nb'; by rewrite app_nil_r). clearbody nb'. subst nb'.
    rewrite app_nil_r in HQ. simpl. apply wp_ret. rewrite <- (with_addrs_id d).
    apply (HQ s rd fb (di_addrs d) own); [done|done|apply grew_refl|lia]. }
  set (off := Z.of_nat (length c)) in *. set (n := Z.of_nat (length p)).
  assert (Hn : 0 < n) by (unfold n; destruct p; [done|simpl; lia]).
  rewrite (proj2 (Z.ltb_lt 0 n)) by done.
  assert (Hcp : Z.of_nat (length (c ++ p)) = off + n) by (rewrite length_app; unfold off, n; lia).
  rewrite Hcp in Hmax.
  change (MAXFILE * BSIZE) with 274432 in Hmax.
  destruct (chunk_arith off n ltac:(lia) Hn) as (C1 & C2 & C3 & C4 & C5 & C6 & C7).
  set (fbn := off / BSIZE) in *. cbv zeta.
  rewrite (u32_small ((fbn + 1) * BSIZE - off)) by (change BSIZE with 1024 in *; lia). set (n1 := Z.min n ((fbn + 1) * BSIZE - off)) in *.
  assert (Hfm : fbn < MAXFILE).
  { change MAXFILE with 268. unfold fbn. change BSIZE with 1024. Z.to_euclidean_division_equations. lia. }
  assert (Hle : fbn + 1 <= nb').
  { unfold nb'. rewrite C5, Hcp. apply nblk_mono. lia. }
  apply wp_bind, wp_assert; [lia|]. apply wp_bind.
  pose proof (taken_mono _ _ Hle) as Htm.
  eapply iappend_block_run; [done|done|done|done|done|lia|]. intros s1 rd1 fb1 addrs1 own1 H1 Hf1 G1 E1. cbv beta iota.
  set (x := block_addr rd1 addrs1 fbn) in *.
  assert (Hlc : Z.of_nat (length (take (Z.to_nat n1) p)) = n1) by (rewrite length_take; lia).
  destruct (file_in_extend (fl_file _ _ _ _ _ _ Hf1) (take (Z.to_nat n1) p)) as [Hf2 Hx].
  { intros E. rewrite E in Hlc. simpl in Hlc. lia. } { rewrite Hlc. fold off. lia. } { rewrite Hlc. fold off. lia. }
  fold off in Hf2, Hx. fold fbn in Hf2, Hx. fold x in Hf2, Hx.
  pose proof (fl_own _ _ _ _ _ _ Hf1 x Hx) as Hxr. pose proof (fl_fb _ _ _ _ _ _ Hf1) as Hfb1.
  change nmeta with 47 in Hxr.
  apply wp_bind. eapply wp_rsect; [done|lia|]. intros s2 H2. apply wp_bind.
  eapply wp_wsect; [done|lia|apply byte_splice; [by apply Forall_take|apply H1]|]. intros s3 H3. rewrite C2 in H3. set (rd3 := upd_block rd1 x _) in *.
  assert (Hc3 : c ++ p = (c ++ take (Z.to_nat n1) p) ++ drop (Z.to_nat n1) p) by by rewrite <- app_assoc, take_drop.
  assert (Hl3 : off + n1 = Z.of_nat (length (c ++ take (Z.to_nat n1) p))) by (rewrite length_app; unfold off; lia).
  rewrite u32_small by lia. rewrite Hl3.
  assert (Hf3 : filing rd3 fb1 addrs1 (fbn + 1) (c ++ take (Z.to_nat n1) p) own1).
  { split; [done|apply Hf1| |done]. intros b Hb. unfold rd3, upd_block. rewrite decide_False by lia. by apply Hf1. }
  assert (G3 : grew rd1 fb1 own1 rd3 fb1 own1).
  { split; [lia|auto|]. intros b _ Hb. unfold rd3, upd_block. rewrite decide_False; [done|]. by intros ->. }
  eapply (IH s3 rd3 fb1 (with_addrs d addrs1) (fbn + 1) (c ++ take (Z.to_nat n1) p) own1 (drop (Z.to_nat n1) p));
    rewrite <- ?Hc3; try done.
  - by rewrite <- Hl3.
  - by apply Forall_drop.
  - rewrite length_drop. lia.
  - rewrite Hcp. change (MAXFILE * BSIZE) with 274432. lia.
  - fold nb'. lia.
  - intros s' rd' fb' addrs' own' H' Hf' G' E'. fold nb' in Hf', E'.
    apply (HQ s' rd' fb' addrs' own'); [done|done| |lia].
    eapply grew_trans; [exact G1|]. by eapply grew_trans.
Qed.
End append.

(** ** All the inodes *)

Lemma dinode_at_other o o' d l :
  0 <= o -> 0 <= o' -> o + sizeof_dinode <= o' \/ o' + sizeof_dinode <= o -> dinode_ok d ->
  o + sizeof_dinode <= Z.of_nat (length l) -> dinode_at o' (put_dinode o d l) = dinode_at o' l.
Proof.
  intros Ho Ho' Hd Hok Hl. destruct (put_dinode_spec o d l Ho Hok Hl) as (_ & _ & N).
  change sizeof_dinode with 64 in *. unfold dinode_at. rewrite !N by (try lia; simpl; lia).
  f_equal. unfold uints_at. apply list_fmap_ext. intros i x Hi. apply lookup_seq in Hi as [-> Hi].
  change (Z.to_nat (NDIRECT + 1)) with 13%nat in Hi. apply N; simpl; lia.
Qed.

(** Writing inode [i] leaves inode [j] as it is. *)
Lemma dinode_in_other rd i j d :
  0 <= i < 208 -> 0 <= j < 208 -> i <> j -> dinode_ok d -> Z.of_nat (length (rd (iblock i))) = BSIZE ->
  dinode_in (upd_block rd (iblock i) (put_dinode (dinode_off i) d (rd (iblock i)))) j = dinode_in rd j.
Proof.
  intros Hi Hj Hne Hok Hl. unfold dinode_in, upd_block. case_decide as E; [|done]. rewrite E.
  destruct (dinode_off_fits i ltac:(lia)) as [? ?], (dinode_off_fits j ltac:(lia)) as [? ?].
  apply dinode_at_other; try done; [|lia]. unfold iblock, dinode_off in *. change IPB with 16 in *.
  change sizeof_dinode with 64 in *. Z.to_euclidean_division_equations. lia.
Qed.

Lemma dinode_in_same rd i d :
  0 <= i < 208 -> dinode_ok d -> Z.of_nat (length (rd (iblock i))) = BSIZE ->
  dinode_in (upd_block rd (iblock i) (put_dinode (dinode_off i) d (rd (iblock i)))) i = d.
Proof.
  intros Hi Hok Hl. unfold dinode_in, upd_block. rewrite decide_True by done.
  destruct (dinode_off_fits i ltac:(lia)) as [? ?]. apply put_dinode_spec; [done|done|lia].
Qed.

Notation files := (list (Z * list Z)).
Notation places := (list (list Z * gset Z)).

(** The blocks that the files take. *)
Definition file_blocks (c : list Z) : Z := taken (nblk (Z.of_nat (length c))).
Definition total (F : files) : Z := foldr (fun x t => file_blocks x.2 + t) 0 F.

Lemma taken_pos n : 0 <= n -> 0 <= taken n.
Proof. intros. unfold taken. destruct (NDIRECT <? n); lia. Qed.

Lemma file_blocks_pos c : 0 <= file_blocks c.
Proof. apply taken_pos. unfold nblk. apply Z.div_pos; [change BSIZE with 1024; lia|done]. Qed.

Lemma total_app F G : total (F ++ G) = total F + total G.
Proof. induction F as [|x F IH]; simpl; [done|]. rewrite IH. lia. Qed.

Lemma total_insert F k x y :
  F !! k = Some x -> total (<[k := y]> F) = total F - file_blocks x.2 + file_blocks y.2.
Proof.
  revert k. induction F as [|z F IH]; intros [|k] Hk; simpl in *; try done.
  - injection Hk as ->. lia.
  - rewrite (IH k) by done. lia.
Qed.

Definition inode_of (ty : Z) (c addrs : list Z) : dinode := Dinode ty 0 0 1 (Z.of_nat (length c)) addrs.

(** The super block, and the blocks before the inodes: the log is empty. *)
Definition super_block : list Z :=
  put_uints 0 [magic mk_super; sb_size mk_super; nblocks mk_super; ninodes mk_super; nlog mk_super;
               logstart mk_super; inodestart mk_super; bmapstart mk_super] zero_block.
Definition head_block (b : Z) : list Z := if b =? 1 then super_block else zero_block.

(** Inode [k + 1] of the image has type and content [F !! k], in the blocks [O !! k]. *)
Record image_ok (rd : Z -> list Z) (fb : Z) (F : files) (O : places) : Prop := {
  im_len : length O = length F;
  im_room : (length F <= 207)%nat;
  im_types k ty c : F !! k = Some (ty, c) -> 0 <= ty < 2 ^ 15;
  im_file k ty c addrs own : F !! k = Some (ty, c) -> O !! k = Some (addrs, own) ->
    dinode_in rd (Z.of_nat k + 1) = inode_of ty c addrs
    /\ filing rd fb addrs (nblk (Z.of_nat (length c))) c own;
  im_apart j k a1 o1 a2 o2 : O !! j = Some (a1, o1) -> O !! k = Some (a2, o2) -> j <> k -> o1 ## o2;
  im_head b : 0 <= b < 33 -> rd b = head_block b;
  im_inodes b : 33 <= b < 46 -> Z.of_nat (length (rd b)) = BSIZE;
  im_fb : fb = nmeta + total F;
  im_zero b : fb <= b < FSSIZE -> rd b = zero_block;
}.

Lemma inode_of_ok rd fb nb ty c own addrs :
  0 <= ty < 2 ^ 15 -> filing rd fb addrs nb c own -> dinode_ok (inode_of ty c addrs).
Proof.
  intros Hty [Hf _ _ _]. pose proof (fi_fit _ _ _ _ _ Hf) as Hfit. pose proof (fi_nb _ _ _ _ _ Hf) as Hnb.
  change MAXFILE with 268 in Hnb. change BSIZE with 1024 in Hfit. split; [|split; [|split]]; simpl.
  - intros v Hv. rewrite !elem_of_cons in Hv. destruct Hv as [->|[->|[->|[->|Hv]]]]; try lia. by apply elem_of_nil in Hv.
  - lia.
  - apply Hf.
  - eapply Forall_impl; [apply Hf|]. simpl. lia.
Qed.

(** A file that the change does not concern. *)
Lemma filing_frame rd rd' fb fb' addrs nb c own :
  filing rd fb addrs nb c own -> (forall b, b ∈ own -> rd' b = rd b) -> fb <= fb' <= FSSIZE ->
  (forall b, fb' <= b < FSSIZE -> rd' b = zero_block) -> filing rd' fb' addrs nb c own.
Proof.
  intros [Hf Ho Hz Hb] He Hfb Hz'. split; [by apply (file_in_frame Hf)| |done|lia].
  intros b Hin. apply Ho in Hin. lia.
Qed.

Section inodes.
Context (io_fails : nat -> bool).
Notation wp := (wp io_fails).

(** The image when file [k] has grown and its inode is written back. *)
Lemma image_grown rd fb F O k ty c addrs own c' addrs' own' rd1 fb1 :
  image_ok rd fb F O -> F !! k = Some (ty, c) -> O !! k = Some (addrs, own) ->
  filing rd1 fb1 addrs' (nblk (Z.of_nat (length c'))) c' own' -> grew rd fb own rd1 fb1 own' ->
  fb1 = fb + file_blocks c' - file_blocks c ->
  let ib := iblock (Z.of_nat k + 1) in
  image_ok (upd_block rd1 ib (put_dinode (dinode_off (Z.of_nat k + 1)) (inode_of ty c' addrs') (rd1 ib))) fb1
    (<[k := (ty, c')]> F) (<[k := (addrs', own')]> O).
Proof using Type.
  intros [I1 I0 I2 I3 I4 I8 I5 I6 I7] HF HO Hfl [G1 G2 G3] Hfb ib.
  destruct (I3 _ _ _ _ _ HF HO) as [Hd Hfl0]. pose proof (fl_fb _ _ _ _ _ _ Hfl) as Hb1.
  pose proof (fl_fb _ _ _ _ _ _ Hfl0) as Hb0. change nmeta with 47 in Hb0, Hb1.
  pose proof (lookup_lt_Some _ _ _ HF) as Hkl.
  destruct (IBLOCK_eq (Z.of_nat k + 1) ltac:(lia)) as [_ Hib]. fold ib in Hib.
  pose proof (inode_of_ok _ _ _ ty _ _ _ (I2 _ _ _ HF) Hfl) as Hok.
  assert (Hin : forall b, 0 <= b < 46 -> rd1 b = rd b).
  { intros b Hb. apply G3; [lia|]. intros Hin. apply (fl_own _ _ _ _ _ _ Hfl0) in Hin. change nmeta with 47 in Hin. lia. }
  assert (Hlib : Z.of_nat (length (rd1 ib)) = BSIZE) by (rewrite Hin by lia; apply I5; lia).
  set (D := put_dinode _ _ _). set (rd2 := upd_block rd1 ib D).
  assert (HD : length D = length (rd1 ib)).
  { destruct (dinode_off_fits (Z.of_nat k + 1) ltac:(lia)). apply put_dinode_spec; [done|done|lia]. }
  assert (H2 : forall b, 47 <= b -> rd2 b = rd1 b).
  { intros b Hb. unfold rd2, upd_block. by rewrite decide_False by lia. }
  split.
  - by rewrite !length_insert.
  - by rewrite length_insert.
  - intros j ty' c0 Hj. apply list_lookup_insert_Some in Hj as [(-> & [= <- <-] & _)|[_ Hj]]; by eapply I2.
  - intros j ty' c0 a0 o0 Hj Hjo.
    apply list_lookup_insert_Some in Hj as [(<- & [= <- <-] & _)|[Hne Hj]].
    + rewrite list_lookup_insert_eq in Hjo by lia. injection Hjo as <- <-. split.
      * by apply dinode_in_same; [lia|..].
      * eapply filing_frame; [done| |lia|]; intros b Hb; [|rewrite H2 by lia; by apply Hfl].
        apply H2. apply (fl_own _ _ _ _ _ _ Hfl) in Hb. change nmeta with 47 in Hb. lia.
    + rewrite list_lookup_insert_ne in Hjo by done. destruct (I3 _ _ _ _ _ Hj Hjo) as [Hdj Hfj].
      pose proof (lookup_lt_Some _ _ _ Hj) as Hjl. split.
      * unfold rd2, D, ib. rewrite dinode_in_other by (try done; lia). rewrite <- Hdj. unfold dinode_in.
        f_equal. apply Hin. destruct (IBLOCK_eq (Z.of_nat j + 1)); lia.
      * eapply filing_frame; [done| |lia|]; intros b Hb; [|rewrite H2 by lia; by apply Hfl].
        pose proof (fl_own _ _ _ _ _ _ Hfj b Hb) as Hbr. change nmeta with 47 in Hbr.
        rewrite H2 by lia. apply G3; [lia|]. intros Hbo. by eapply (I4 j k _ _ _ _ Hjo HO).
  - enough (A : forall j a2 o2, O !! j = Some (a2, o2) -> j <> k -> own' ## o2).
    { intros j l a1 o1 a2 o2 H1 H2'. apply list_lookup_insert_Some in H1 as [(<- & [= <- <-] & _)|[? H1]];
        apply list_lookup_insert_Some in H2' as [(<- & [= <- <-] & _)|[? H2']]; intros Hjl; try done.
      - by eapply A.
      - symmetry. by eapply A.
      - by eapply I4. }
    intros j a2 o2 Hj Hne b Hb1' Hb2. destruct (lookup_lt_is_Some_2 F j) as [[ty2 c2] Hj2].
    { rewrite <- I1. by eapply lookup_lt_Some. }
    destruct (I3 _ _ _ _ _ Hj2 Hj) as [_ Hfj]. pose proof (fl_own _ _ _ _ _ _ Hfj b Hb2) as Hbr.
    destruct (G2 b Hb1') as [Hbo|Hbn]; [|lia]. by eapply (I4 k j _ _ _ _ HO Hj).
  - intros b Hb. unfold rd2, upd_block. rewrite decide_False by lia. rewrite Hin by lia. by apply I8.
  - intros b Hb. unfold rd2, upd_block. case_decide; [by rewrite HD|]. rewrite Hin by lia. by apply I5.
  - rewrite (total_insert _ _ _ _ HF). simpl. lia.
  - intros b Hb. rewrite H2 by lia. by apply Hfl.
Qed.

(** [iappend] appends to the content of one file and leaves the others. *)
Lemma iappend_run s rd fi fb F O k ty c p (Q : unit -> mkst -> Prop) :
  at_ s rd fi fb -> image_ok rd fb F O -> F !! k = Some (ty, c) ->
  Forall byte p -> Z.of_nat (length (c ++ p)) <= MAXFILE * BSIZE ->
  nmeta + total (<[k := (ty, c ++ p)]> F) <= FSSIZE ->
  (forall s' rd' fb' O', at_ s' rd' fi fb' -> image_ok rd' fb' (<[k := (ty, c ++ p)]> F) O' -> Q tt s') ->
  wp (iappend io_fails (Z.of_nat k + 1) p) s Q.
Proof using Type.
  intros Hat Him HF Hby Hmax Hroom HQ. pose proof (lookup_lt_Some _ _ _ HF) as Hk.
  pose proof (im_room _ _ _ _ Him) as Hr. pose proof (im_fb _ _ _ _ Him) as Hfb.
  destruct (lookup_lt_is_Some_2 O k) as [[addrs own] HO]; [by rewrite (im_len _ _ _ _ Him)|].
  destruct (im_file _ _ _ _ Him _ _ _ _ _ HF HO) as [Hd Hfl].
  rewrite (total_insert _ _ _ _ HF) in Hroom. simpl in Hroom. unfold file_blocks in Hroom.
  change (MAXFILE * BSIZE) with 274432 in Hmax. pose proof Hmax as Hmax0. rewrite length_app in Hmax0.
  unfold iappend. apply wp_bind. eapply wp_rinode; [done|lia|]. intros s1 H1. rewrite Hd.
  apply wp_bind. cbn [inode_of di_size]. rewrite xint_id by lia.
  eapply (iappend_loop_run io_fails _ _ rd fi fb _ _ c own p); [done|exact Hfl|done|done|lia|done|lia|].
  intros s2 rd2 fb2 addrs2 own2 H2 Hfl2 Hgr Hfb2. cbn [with_addrs di_type di_major di_minor di_nlink di_addrs inode_of].
  eapply wp_winode; [done|lia|]. intros s3 H3. rewrite xint_id in H3 by lia.
  eapply HQ; [exact H3|]. by eapply image_grown.
Qed.

Lemma filing_empty rd fb :
  nmeta <= fb <= FSSIZE -> (forall b, fb <= b < FSSIZE -> rd b = zero_block) ->
  filing rd fb (replicate (Z.to_nat (NDIRECT + 1)) 0) 0 [] ∅.
Proof using Type.
  intros Hfb Hz. change (Z.to_nat (NDIRECT + 1)) with 13%nat. split; [|set_solver|done|done].
  change nmeta with 47 in Hfb. change FSSIZE with 2000 in Hfb.
  split; try (intros; change NDIRECT with 12 in *; change BSIZE with 1024 in *; exfalso; lia); try done.
  - repeat constructor; lia.
  - intros i Hi. change NDIRECT with 12 in *. apply lookup_replicate_2. lia.
Qed.

(** A new inode without content. *)
Lemma image_new rd fb F O ty :
  image_ok rd fb F O -> (length F < 207)%nat -> 0 <= ty < 2 ^ 15 ->  nmeta <= fb <= FSSIZE ->
  let i := Z.of_nat (length F) + 1 in
  let addrs := replicate (Z.to_nat (NDIRECT + 1)) 0 in
  image_ok (upd_block rd (iblock i) (put_dinode (dinode_off i) (inode_of ty [] addrs) (rd (iblock i)))) fb
    (F ++ [(ty, [])]) (O ++ [(addrs, ∅)]).
Proof using Type.
  intros [I1 I0 I2 I3 I4 I8 I5 I6 I7] Hk Hty Hfb i addrs. change nmeta with 47 in Hfb.
  destruct (IBLOCK_eq i ltac:(lia)) as [_ Hib].
  pose proof (I5 _ Hib) as Hlib.
  assert (Hok : dinode_ok (inode_of ty [] addrs)).
  { split; [|split; [|split]]; simpl; [|lia|done|].
    - intros v Hv. rewrite !elem_of_cons in Hv. destruct Hv as [->|[->|[->|[->|Hv]]]]; try lia. by apply elem_of_nil in Hv.
    - repeat constructor; lia. }
  set (D := put_dinode _ _ _). set (rd2 := upd_block rd (iblock i) D).
  assert (HD : length D = length (rd (iblock i))).
  { destruct (dinode_off_fits i ltac:(lia)). apply put_dinode_spec; [done|done|lia]. }
  assert (H2 : forall b, 47 <= b -> rd2 b = rd b).
  { intros b Hb. unfold rd2, upd_block. by rewrite decide_False by lia. }
  split.
  - by rewrite !length_app, I1.
  - rewrite length_app. simpl. lia.
  - intros j ty' c Hj. apply lookup_app_Some in Hj as [Hj|[_ Hj]]; [by eapply I2|].
    by apply list_lookup_singleton_Some in Hj as [_ [= <- <-]].
  - intros j ty' c a o Hj Ho. apply lookup_app_Some in Hj as [Hj|[Hl Hj]].
    + rewrite lookup_app_l in Ho by (rewrite I1; by eapply lookup_lt_Some).
      destruct (I3 _ _ _ _ _ Hj Ho) as [Hdj Hfj]. apply lookup_lt_Some in Hj. split.
      * unfold rd2, D. by rewrite dinode_in_other by (try done; lia).
      * eapply filing_frame; [done| |lia|]; intros b Hb; rewrite H2; try done; try lia; [|by apply I7].
        apply (fl_own _ _ _ _ _ _ Hfj) in Hb. change nmeta with 47 in Hb. lia.
    + apply list_lookup_singleton_Some in Hj as [Hj [= <- <-]]. assert (j = length F) as -> by lia.
      rewrite lookup_app_r in Ho by lia. rewrite I1, Nat.sub_diag in Ho. injection Ho as <- <-. split.
      * apply dinode_in_same; [lia|done|done].
      * apply filing_empty; [done|]. intros b Hb. rewrite H2 by lia. by apply I7.
  - intros j l a1 o1 a2 o2 H1 H3 Hne. apply lookup_app_Some in H1 as [H1|[? H1]].
    + apply lookup_app_Some in H3 as [H3|[? H3]]; [by eapply I4|].
      apply list_lookup_singleton_Some in H3 as [_ [= <- <-]]. apply disjoint_empty_r.
    + apply list_lookup_singleton_Some in H1 as [_ [= <- <-]]. apply disjoint_empty_l.
  - intros b Hb. unfold rd2, upd_block. rewrite decide_False by lia. by apply I8.
  - intros b Hb. unfold rd2, upd_block. case_decide; [by rewrite HD|]. by apply I5.
  - rewrite total_app. change (total [(ty, [])]) with 0. lia.
  - intros b Hb. rewrite H2 by lia. by apply I7.
Qed.

(** [ialloc] takes the next inode. *)
Lemma ialloc_run s rd fi fb F O ty (Q : Z -> mkst -> Prop) :
  at_ s rd fi fb -> image_ok rd fb F O -> fi = Z.of_nat (length F) + 1 -> (length F < 207)%nat ->
  0 <= ty < 2 ^ 15 -> nmeta <= fb <= FSSIZE ->
  (forall s' rd' O', at_ s' rd' (fi + 1) fb -> image_ok rd' fb (F ++ [(ty, [])]) O' -> Q fi s') ->
  wp (ialloc io_fails ty) s Q.
Proof using Type.
  intros Hat Him Hfi Hl Hty Hfb HQ. unfold ialloc. apply wp_bind, wp_get. rewrite (at_fi _ _ _ _ Hat).
  apply wp_bind. rewrite u32_small by lia. set (s1 := s <| freeinode := fi + 1 |>).
  assert (H1 : at_ s1 rd (fi + 1) fb) by (destruct Hat; by split).
  change (wp (mbind (winode io_fails fi (Dinode (s16 (xshort ty)) 0 0 (s16 (xshort 1)) (xint 0)
    (replicate (Z.to_nat (NDIRECT + 1)) 0))) (fun _ => mret fi)) s1 Q).
  apply wp_bind. eapply wp_winode; [done|lia|]. intros s2 H2. apply wp_ret.
  rewrite !xshort_id, !s16_small, xint_id in H2 by lia.
  eapply HQ; [exact H2|]. subst fi. by apply (image_new rd fb F O ty).
Qed.
End inodes.
