(* ===== verification/MkfsImage.v ===== *)
(** The image that mkfs/mkfs.c builds: the names of the files, the loop over the
    arguments, the free map, and the theorem that the kernel finds in the image the
    super block, the root directory and the files that were named on the command line. *)

From stdpp Require Import list gmap sets.
From Stdlib Require Import ZArith Lia.
From S2P Require Import Prelude Bytes Params FsTypes Machine Spinlock ProcCore Mem Kstring Pres PresVm Services.
From S2P Require Import Proc FsCore Sleeplock Calm Bio Lru BioSpec Log LogSpec Fs Dir FsSpec FsWrite FsAlloc.
From S2P Require Import Path Mkfs MkfsSpec.
Open Scope Z_scope.

(** ** Names *)

(** The name without ["user/"]. *)
Definition no_user (s : list Z) : list Z :=
  if bool_decide (take 5 s = [117; 115; 101; 114; 47]) then drop 5 s else s.

(** The name without the leading underscore. *)
Definition no_underscore (s : list Z) : list Z :=
  if bool_decide (head s = Some 95) then tail s else s.

(** A name in a directory entry. *)
Definition entry_name (s : list Z) : list Z := s ++ replicate (Z.to_nat DIRSIZ - length s) 0.

(** What is read before the end of the file. *)
Fixpoint copied (reads : list (list Z)) : list Z :=
  match reads with
  | [] | [] :: _ => []
  | buf :: reads => buf ++ copied reads
  end.

Lemma pad_zeros n m : (n <= m)%nat -> pad n (replicate m 0) = Some (replicate m 0).
Proof.
  revert m. induction n as [|n IH]; intros [|m] Hn; simpl; try done; [lia|]. rewrite IH by lia. done.
Qed.

Lemma strncpy_name s : 0 ∉ s -> Z.of_nat (length s) <= DIRSIZ -> strncpy name_zero (s ++ [0]) DIRSIZ = Some (entry_name s).
Proof.
  unfold strncpy, name_zero, entry_name. change DIRSIZ with 14. intros Hs Hl.
  assert (H : forall n, (length s <= n)%nat ->
    strncpy_loop n (replicate n 0) (s ++ [0]) = Some (s ++ replicate (n - length s) 0)); [|apply H; lia].
  clear Hl. induction s as [|c s IH]; intros n Hn.
  - destruct n as [|n]; simpl; [done|]. by rewrite pad_zeros.
  - apply not_elem_of_cons in Hs as [Hc Hs]. destruct n as [|n]; simpl in *; [lia|].
    destruct (Z.eqb_spec c 0) as [->|_]; [done|]. rewrite IH by (done || lia). done.
Qed.

Lemma short_names str : Forall (fun c => 0 < c < 256) str -> 0 ∉ str /\ 0 ∉ no_user str.
Proof.
  intros Hb. assert (H0 : 0 ∉ str). { intros H. apply (proj1 (Forall_forall _ _) Hb) in H. lia. }
  split; [done|]. unfold no_user. case_bool_decide; [|done]. intros H'. apply H0. rewrite <- (take_drop 5 str). set_solver.
Qed.

Lemma underscore_names u :
  0 ∉ u -> exists c0, head (u ++ [0]) = Some c0
    /\ (if c0 =? 95 then tail (u ++ [0]) else u ++ [0]) = no_underscore u ++ [0] /\ 0 ∉ no_underscore u.
Proof.
  unfold no_underscore. destruct u as [|c0 u]; intros H0; [by exists 0|]. exists c0. split; [done|]. simpl.
  destruct (Z.eqb_spec c0 95) as [->|Hc]; [rewrite bool_decide_true by done|rewrite bool_decide_false by congruence];
    split; set_solver.
Qed.

Section names.
Context (io_fails : nat -> bool).
Notation wp := (wp io_fails).

Lemma shortname_run str s (Q : list Z -> mkst -> Prop) :
  Forall (fun c => 0 < c < 256) str -> 47 ∉ no_user str -> Q (no_user str ++ [0]) s ->
  wp (shortname (str ++ [0])) s Q.
Proof using Type.
  intros Hb Hn HQ.
  destruct (short_names str Hb) as [H0 H0u].
  destruct (strncmp_zero 5 (str ++ [0]) [117; 115; 101; 114; 47; 0]) as (c & Hc & Hz).
  { unfold terminated. set_solver. }
  { unfold terminated. set_solver. }
  { apply Forall_app. split; [|repeat constructor; lia]. eapply Forall_impl; [exact Hb|]. simpl. lia. }
  { repeat constructor; lia. }
  rewrite cstr_nul in Hz by done. change (take 5 (cstr [117; 115; 101; 114; 47; 0])) with [117; 115; 101; 114; 47] in Hz.
  unfold shortname. apply wp_bind. eapply wp_inside; [exact Hc|]. cbv beta.
  assert (Es : (if c =? 0 then drop 5 (str ++ [0]) else str ++ [0]) = no_user str ++ [0]).
  { unfold no_user. destruct (Z.eqb_spec c 0) as [Ec|Ec].
    - rewrite bool_decide_true by tauto. apply drop_app_le.
      apply Hz in Ec. apply (f_equal length) in Ec. rewrite length_take in Ec. cbn [length] in Ec. lia.
    - rewrite bool_decide_false by tauto. done. }
  rewrite Es. apply wp_bind, wp_assert; [|by apply wp_ret]. rewrite cstr_nul by done. by apply bool_decide_true.
Qed.
End names.

(** ** The files *)

(** A command-line argument [arg], and the name and the content of the file. *)
Definition host_file (h_open : list Z -> option (list (list Z))) (arg : list Z) (x : list Z * list Z) : Prop :=
  exists str reads,
    arg = str ++ [0] /\ Forall (fun c => 0 < c < 256) str /\ 47 ∉ no_user str
    /\ x.1 = no_underscore (no_user str) /\ Z.of_nat (length x.1) <= DIRSIZ
    /\ h_open str = Some reads /\ x.2 = copied reads /\ Forall byte (copied reads).

(** The entries of the root directory. *)
Definition root_entries (names : list (list Z)) : list dirent :=
  Dirent 1 (entry_name [46]) :: Dirent 1 (entry_name [46; 46])
  :: imap (fun k nm => Dirent (Z.of_nat k + 2) (entry_name nm)) names.

Definition root_bytes (names : list (list Z)) : list Z := concat (dirent_bytes <$> root_entries names).

(** The inodes: the root directory, then the files. *)
Definition built (fs : list (list Z * list Z)) : list (Z * list Z) :=
  (T_DIR, root_bytes (fs.*1)) :: ((fun x => (T_FILE, x.2)) <$> fs).

(** The files fit in an image: 206 of them, as inodes 2 to 207. *)
Record fits (fs : list (list Z * list Z)) : Prop := {
  fit_inodes : (length fs <= 206)%nat;
  fit_names x : x ∈ fs -> Z.of_nat (length x.1) <= DIRSIZ;
  fit_size x : x ∈ fs -> Z.of_nat (length x.2) <= MAXFILE * BSIZE;
  fit_total : nmeta + total (built fs) <= FSSIZE;
}.

Lemma file_blocks_mono c p : file_blocks c <= file_blocks (c ++ p).
Proof. unfold file_blocks. apply taken_mono, nblk_mono. rewrite length_app. lia. Qed.

Lemma total_pos F : 0 <= total F.
Proof. induction F as [|x F IH]; simpl; [done|]. pose proof (file_blocks_pos x.2). lia. Qed.

Lemma root_bytes_app names ms :
  root_bytes (names ++ ms)
  = root_bytes names
    ++ concat (dirent_bytes <$> imap (fun k nm => Dirent (Z.of_nat (length names + k) + 2) (entry_name nm)) ms).
Proof.
  unfold root_bytes. rewrite <- concat_app, <- fmap_app. do 2 f_equal. unfold root_entries.
  by rewrite imap_app.
Qed.

Lemma root_bytes_snoc names nm :
  root_bytes (names ++ [nm])
  = root_bytes names ++ dirent_bytes (Dirent (Z.of_nat (length names) + 2) (entry_name nm)).
Proof.
  rewrite root_bytes_app. f_equal. simpl. by rewrite Nat.add_0_r, app_nil_r.
Qed.

Lemma length_dirent i nm : (length nm <= Z.to_nat DIRSIZ)%nat -> length (dirent_bytes (Dirent i (entry_name nm))) = 16%nat.
Proof.
  unfold dirent_bytes, entry_name. change (Z.to_nat DIRSIZ) with 14%nat. intros Hl. cbn [de_inum de_name].
  rewrite !length_app, length_replicate, length_le_bytes. lia.
Qed.

Lemma length_root names :
  Forall (fun nm => Z.of_nat (length nm) <= DIRSIZ) names ->
  Z.of_nat (length (root_bytes names)) = 16 * (2 + Z.of_nat (length names)).
Proof.
  induction names as [|nm names IH] using rev_ind; [done|]. intros [Hn Hl]%Forall_app.
  pose proof (proj1 (Forall_singleton _ _) Hl) as Hl1. rewrite root_bytes_snoc, !length_app. cbv beta in Hl1. change DIRSIZ with 14 in Hl1.
  rewrite length_dirent by (change (Z.to_nat DIRSIZ) with 14%nat; lia). cbn [length]. specialize (IH Hn). lia.
Qed.

Lemma byte_dirent i nm : Forall byte nm -> Forall byte (dirent_bytes (Dirent i (entry_name nm))).
Proof.
  intros Hn. unfold dirent_bytes, entry_name. cbn [de_inum de_name]. apply Forall_app. split; [apply le_bytes_byte|].
  apply Forall_app. split; [done|]. apply Forall_replicate. unfold byte. lia.
Qed.

Lemma byte_names str : Forall (fun c => 0 < c < 256) str -> Forall byte (no_underscore (no_user str)).
Proof.
  intros Hb. assert (H : Forall byte str) by (eapply Forall_impl; [exact Hb|]; unfold byte; simpl; lia).
  assert (Hu : Forall byte (no_user str)) by (unfold no_user; case_bool_decide; [by apply Forall_drop|done]).
  unfold no_underscore. case_bool_decide; [by apply Forall_tail|done].
Qed.

Lemma fits_root fs : fits fs -> Z.of_nat (length (root_bytes fs.*1)) <= 16 * 208.
Proof.
  intros [H1 H2 _ _]. rewrite length_root; [rewrite length_fmap; lia|].
  apply Forall_fmap, Forall_forall. intros x Hx. by apply H2.
Qed.

Section files.
Context (io_fails : nat -> bool).
Notation wp := (wp io_fails).

(** [copy_file] appends what is read up to the end of the file. *)
Lemma copy_file_run reads : forall s rd fi fb F O k ty c (Q : unit -> mkst -> Prop),
  at_ s rd fi fb -> image_ok rd fb F O -> F !! k = Some (ty, c) -> Forall byte (copied reads) ->
  Z.of_nat (length (c ++ copied reads)) <= MAXFILE * BSIZE ->
  nmeta + total (<[k := (ty, c ++ copied reads)]> F) <= FSSIZE ->
  (forall s' rd' fb' O', at_ s' rd' fi fb' -> image_ok rd' fb' (<[k := (ty, c ++ copied reads)]> F) O' -> Q tt s') ->
  wp (copy_file io_fails (Z.of_nat k + 1) reads) s Q.
Proof using Type.
  induction reads as [|buf reads IH]; intros s rd fi fb F O k ty c Q Hat Him HF Hby Hmax Hroom HQ.
  { simpl in *. rewrite app_nil_r, (list_insert_id _ _ _ HF) in HQ. by eapply HQ. }
  destruct buf as [|b buf].
  { simpl in *. rewrite app_nil_r, (list_insert_id _ _ _ HF) in HQ. by eapply HQ. }
  cbn [copied] in *. set (p := b :: buf) in *. apply Forall_app in Hby as [Hbp Hbr]. cbn [copy_file].
  change (wp (mbind (iappend io_fails (Z.of_nat k + 1) p) (fun _ => copy_file io_fails (Z.of_nat k + 1) reads)) s Q).
  apply wp_bind. rewrite app_assoc in *. pose proof (file_blocks_mono (c ++ p) (copied reads)) as Hm.
  rewrite (total_insert _ _ _ _ HF) in Hroom. cbn [snd] in Hroom.
  eapply (iappend_run io_fails s rd fi fb F O k ty c p); [done|done|done|done| | |].
  - rewrite length_app in Hmax. lia.
  - rewrite (total_insert _ _ _ _ HF). cbn [snd]. lia.
  - intros s1 rd1 fb1 O1 H1 Him1. pose proof (lookup_lt_Some _ _ _ HF) as Hk.
    assert (HF1 : <[k:=(ty, c ++ p)]> F !! k = Some (ty, c ++ p)) by by apply list_lookup_insert_eq.
    eapply IH; [exact H1|exact Him1|exact HF1|done|done| |].
    + rewrite list_insert_insert_eq, (total_insert _ _ _ _ HF). cbn [snd]. lia.
    + intros s2 rd2 fb2 O2. rewrite list_insert_insert_eq. apply HQ.
Qed.

Lemma fits_prefix fs gs : fits (fs ++ gs) -> fits fs.
Proof using Type.
  intros [H1 H2 H3 H4]. rewrite length_app in H1. split; [lia|set_solver|set_solver|].
  unfold built in *. rewrite !fmap_app in H4. simpl in *. rewrite total_app in H4.
  pose proof (total_pos ((fun x => (T_FILE, x.2)) <$> gs)).
  assert (E : file_blocks (root_bytes fs.*1) <= file_blocks (root_bytes (fs.*1 ++ gs.*1))); [|lia].
  rewrite root_bytes_app. apply file_blocks_mono.
Qed.

(** The inode, the entry and the content of a file with name [nm]. *)
Lemma add_entry_run s rd fi fb O fs nm reads (Q : unit -> mkst -> Prop) :
  at_ s rd fi fb -> image_ok rd fb (built fs) O -> fi = Z.of_nat (length fs) + 2 ->
  0 ∉ nm -> Forall byte nm -> Forall byte (copied reads) -> fits (fs ++ [(nm, copied reads)]) ->
  (forall s' rd' fb' O', at_ s' rd' (fi + 1) fb' ->
     image_ok rd' fb' (built (fs ++ [(nm, copied reads)])) O' -> Q tt s') ->
  wp (mbind (ialloc io_fails T_FILE) (fun inum =>
      mbind (minside (strncpy name_zero (nm ++ [0]) DIRSIZ)) (fun name =>
      mbind (iappend io_fails ROOTINO (dirent_bytes (Dirent (xshort inum) name))) (fun _ =>
      copy_file io_fails inum reads)))) s Q.
Proof using Type.
  intros Hat Him Hfi Hnm Hbn Hbr Hfit HQ. pose proof (fits_root _ Hfit) as Hroot.
  pose proof (fit_total _ (fits_prefix _ _ Hfit)) as G0. destruct Hfit as [G1 G2 G3 G4].
  rewrite length_app in G1. cbn [length] in G1. specialize (G2 (nm, copied reads)). specialize (G3 (nm, copied reads)).
  cbn [fst snd] in G2, G3. specialize (G2 ltac:(set_solver)). specialize (G3 ltac:(set_solver)).
  rewrite fmap_app in Hroot. simpl fmap in Hroot.
  pose proof (root_bytes_snoc fs.*1 nm) as Er. rewrite length_fmap in Er.
  assert (El : length (built fs) = S (length fs)) by (unfold built; simpl; by rewrite length_fmap).
  assert (Efb : nmeta <= fb <= FSSIZE).
  { pose proof (im_fb _ _ _ _ Him). pose proof (total_pos (built fs)). lia. }
  assert (Eb : built (fs ++ [(nm, copied reads)]) = <[S (length fs) := (T_FILE, [] ++ copied reads)]>
    (<[0%nat := (T_DIR, root_bytes (fs.*1 ++ [nm]))]> (built fs ++ [(T_FILE, [])]))).
  { unfold built. rewrite !fmap_app. simpl. f_equal.
    by rewrite insert_app_r_alt, length_fmap, Nat.sub_diag by (by rewrite length_fmap). }
  set (F2 := <[0%nat := _]> _) in Eb.
  assert (HF2 : F2 !! S (length fs) = Some (T_FILE, [])).
  { unfold F2, built. simpl. rewrite lookup_app_r, length_fmap, Nat.sub_diag by (by rewrite length_fmap). done. }
  assert (Ht : total F2 <= total (built (fs ++ [(nm, copied reads)]))).
  { rewrite Eb, (total_insert _ _ _ _ HF2). cbn [snd]. pose proof (file_blocks_pos ([] ++ copied reads)).
    change (file_blocks []) with 0. lia. }
  apply wp_bind. eapply ialloc_run; [done|done|rewrite El; lia|lia|done|done|].
  intros s1 rd1 O1 H1 Him1. apply wp_bind. eapply wp_inside; [by apply strncpy_name|]. cbv beta.
  apply wp_bind. rewrite xshort_id by lia. subst fi.
  eapply (iappend_run io_fails s1 rd1 _ fb _ O1 0 T_DIR (root_bytes fs.*1)); [done|done|done|by apply byte_dirent| | |].
  { rewrite <- Er. change (MAXFILE * BSIZE) with 274432. lia. }
  { rewrite <- Er. fold F2. lia. }
  intros s2 rd2 fb2 O2 H2 Him2. rewrite <- Er in Him2. fold F2 in Him2.
  replace (Z.of_nat (length fs) + 2) with (Z.of_nat (S (length fs)) + 1) by lia.
  eapply (copy_file_run reads _ _ _ _ _ _ _ _ _ _ H2 Him2 HF2); [done|done|by rewrite <- Eb|].
  rewrite <- Eb. done.
Qed.

Context (h_open : list Z -> option (list (list Z))).

(** One argument of the command line. *)
Lemma add_file_run s rd fi fb O fs arg x (Q : unit -> mkst -> Prop) :
  at_ s rd fi fb -> image_ok rd fb (built fs) O -> fi = Z.of_nat (length fs) + 2 ->
  host_file h_open arg x -> fits (fs ++ [x]) ->
  (forall s' rd' fb' O', at_ s' rd' (fi + 1) fb' -> image_ok rd' fb' (built (fs ++ [x])) O' -> Q tt s') ->
  wp (add_file io_fails h_open ROOTINO arg) s Q.
Proof using Type.
  intros Hat Him Hfi (str & reads & -> & Hb & Hsl & Hx1 & Hlx & Hop & Hx2 & Hby) Hfit HQ.
  destruct x as [nm c]. cbn [fst snd] in Hx1, Hx2, Hlx. subst c.
  destruct (short_names str Hb) as [H0 Hu]. destruct (underscore_names (no_user str) Hu) as (c0 & Hc0 & Hsn & Hn0).
  unfold add_file. apply wp_bind. apply shortname_run; [done|done|].
  rewrite cstr_nul, Hop by done. apply wp_bind. eapply wp_inside; [exact Hc0|]. cbv beta zeta. rewrite Hsn.
  rewrite <- Hx1 in Hn0 |- *. rewrite cstr_nul by done. apply wp_bind, wp_assert; [by apply Z.leb_le|].
  eapply add_entry_run; try done. rewrite Hx1. by apply byte_names.
Qed.

(** The loop over the arguments. *)
Lemma add_files_run args : forall s rd fi fb O fs gs (Q : unit -> mkst -> Prop),
  at_ s rd fi fb -> image_ok rd fb (built fs) O -> fi = Z.of_nat (length fs) + 2 ->
  Forall2 (host_file h_open) args gs -> fits (fs ++ gs) ->
  (forall s' rd' fi' fb' O', at_ s' rd' fi' fb' -> image_ok rd' fb' (built (fs ++ gs)) O' -> Q tt s') ->
  wp (mfor args (add_file io_fails h_open ROOTINO)) s Q.
Proof using Type.
  induction args as [|arg args IH]; intros s rd fi fb O fs gs Q Hat Him Hfi Ha Hfit HQ; cbn [mfor].
  - apply Forall2_nil_inv_l in Ha as ->. rewrite app_nil_r in HQ. apply wp_ret. by eapply HQ.
  - apply Forall2_cons_inv_l in Ha as (x & gs' & Hx & Ha & ->). rewrite cons_middle, app_assoc in Hfit, HQ.
    apply wp_bind. eapply add_file_run; [done|done|done|done|by eapply fits_prefix|].
    intros s1 rd1 fb1 O1 H1 Him1. eapply IH; [exact H1|exact Him1| |done|done|done].
    rewrite length_app. simpl. lia.
Qed.
End files.

(** ** The free map *)

Lemma bit_zero j : bit zero_block j = false.
Proof.
  unfold bit, byte_at, zero_block.
  destruct (replicate (Z.to_nat BSIZE) 0 !! Z.to_nat (j / 8)) eqn:E; simpl; [|apply Z.testbit_0_l].
  apply lookup_replicate in E as [-> _]. apply Z.testbit_0_l.
Qed.

(** The loop of [balloc] sets the bits of the first [n] blocks. *)
Lemma first_bits n :
  0 <= n < BPB ->
  let data := fold_left (fun buf i => set_bit i buf) (seqZ 0 n) zero_block in
  Z.of_nat (length data) = BSIZE /\ forall j, 0 <= j < BPB -> bit data j = (j <? n).
Proof.
  intros Hn. cbv zeta. replace n with (Z.of_nat (Z.to_nat n)) in * by lia.
  induction (Z.to_nat n) as [|k IH].
  - split; [done|]. intros j Hj. simpl. rewrite bit_zero. symmetry. apply Z.ltb_ge. lia.
  - destruct IH as [Hl IH]; [lia|]. rewrite seqZ_S, fold_left_app. cbn [fold_left]. rewrite Z.add_0_l.
    set (data := fold_left _ _ _) in *. split; [unfold set_bit; by rewrite length_insert|].
    intros j Hj. rewrite (set_bit_bit data Hl) by lia. case_decide as E.
    + symmetry. apply Z.ltb_lt. lia.
    + rewrite IH by done. destruct (Z.ltb_spec j (Z.of_nat k)), (Z.ltb_spec j (Z.of_nat (S k))); lia || done.
Qed.

Lemma log2_byte v : 0 <= v < 256 -> Z.log2 v < 8.
Proof. intros Hv. destruct (Z.eq_dec v 0) as [->|Hn]; [done|]. apply Z.log2_lt_pow2; [lia|]. change (2 ^ 8) with 256. lia. Qed.

Lemma byte_bits n : Forall byte (fold_left (fun buf i => set_bit i buf) (seqZ 0 n) zero_block).
Proof.
  generalize byte_zero_block. generalize zero_block. induction (seqZ 0 n) as [|i l IH]; intros buf Hb; simpl; [done|].
  apply IH. unfold set_bit. apply Forall_insert; [done|]. unfold byte_at, byte.
  assert (Hv : 0 <= default 0 (buf !! Z.to_nat (i / 8)) < 256).
  { destruct (buf !! Z.to_nat (i / 8)) as [v|] eqn:E; simpl; [|lia]. by apply (proj1 (Forall_lookup _ _) Hb _ _ E). }
  set (v := default 0 _) in *. pose proof (Z.mod_pos_bound i 8 eq_refl) as Hm.
  assert (Hs : 0 <= Z.shiftl 1 (i mod 8) < 256).
  { rewrite Z.shiftl_1_l. split; [apply Z.pow_nonneg; lia|]. change 256 with (2 ^ 8). apply Z.pow_lt_mono_r; lia. }
  split; [apply Z.lor_nonneg; lia|]. destruct (Z.eq_dec (Z.lor v (Z.shiftl 1 (i mod 8))) 0) as [->|Hn]; [lia|].
  change 256 with (2 ^ 8). apply Z.log2_lt_pow2; [pose proof (Z.lor_nonneg v (Z.shiftl 1 (i mod 8))); lia|].
  rewrite Z.log2_lor by lia. apply Z.max_lub_lt; by apply log2_byte.
Qed.

(** ** The whole program *)

(** The disk with the blocks of an image. *)
Definition disk_of (img : list (list Z)) : image := kmap Z.of_nat (map_seq 0 img).

Lemma disk_of_lookup img b : disk_of img !! b = if decide (0 <= b) then img !! Z.to_nat b else None.
Proof.
  unfold disk_of. case_decide as Hb.
  - replace b with (Z.of_nat (Z.to_nat b)) at 1 by lia. by rewrite lookup_kmap, lookup_map_seq_0 by apply _.
  - apply (lookup_kmap_None Z.of_nat). intros i ->. lia.
Qed.

Lemma disk_of_at s rd fi fb b : at_ s rd fi fb -> rd b = default zero_block (disk_of (mk_img s) !! b).
Proof.
  intros Hat. rewrite disk_of_lookup. destruct (decide (0 <= b < FSSIZE)) as [Hb|Hb].
  - rewrite decide_True by lia. by rewrite (at_img _ _ _ _ Hat b Hb).
  - rewrite (at_out _ _ _ _ Hat b Hb). case_decide; [|done]. rewrite lookup_ge_None_2; [done|].
    pose proof (at_len _ _ _ _ Hat). lia.
Qed.

(** An inode as the kernel finds it: by the super block of the image. *)
Definition disk_inode (rd : Z -> list Z) (inum : Z) : dinode :=
  dinode_at (dinode_off inum) (rd (IBLOCK inum (superblock_of (rd 1)))).

(** The size of the root directory is rounded up. *)
Definition root_size (n : nat) : Z := (16 * (2 + Z.of_nat n) / BSIZE + 1) * BSIZE.

(** A file of [len] bytes has its blocks among the first [fb] of the data blocks. *)
Definition blocks_before (rd : Z -> list Z) (addrs : list Z) (len fb : Z) : Prop :=
  (forall i, 0 <= i < nblk len -> nmeta <= block_addr rd addrs i < fb
     /\ Z.of_nat (length (rd (block_addr rd addrs i))) = BSIZE)
  /\ (NDIRECT < nblk len -> nmeta <= default 0 (addrs !! Z.to_nat NDIRECT) < fb).

(** The blocks of a file of [len] bytes, the indirect block last, and the blocks of the
    root directory and of all the files, as the inodes of the image name them. *)
Definition block_list (rd : Z -> list Z) (addrs : list Z) (len : Z) : list Z :=
  (block_addr rd addrs <$> seqZ 0 (nblk len))
  ++ (if NDIRECT <? nblk len then [default 0 (addrs !! Z.to_nat NDIRECT)] else []).

Definition all_blocks (rd : Z -> list Z) (fs : list (list Z * list Z)) : list (list Z) :=
  imap (fun k x => block_list rd (di_addrs (disk_inode rd (Z.of_nat k + 1))) (Z.of_nat (length x.2))) (built fs).

(** The image of the files [fs]: the blocks before [fb] are in use, which are the blocks
    of the meta data and those of the root directory and the files, each of them once. *)
Record image_of (rd : Z -> list Z) (fb : Z) (fs : list (list Z * list Z)) : Prop := {
  io_super : superblock_of (rd 1) = mk_super;
  io_log : rd (logstart mk_super) = zero_block;
  io_bytes b : Forall byte (rd b);
  io_used a : 0 <= a < FSSIZE -> used rd mk_super a = (a <? fb);
  io_fb : nmeta <= fb <= FSSIZE;
  io_given : concat (all_blocks rd fs) ≡ₚ seqZ nmeta (fb - nmeta);
  io_root : exists addrs,
    disk_inode rd ROOTINO = Dinode T_DIR 0 0 1 (root_size (length fs)) addrs
    /\ (forall k e, root_entries fs.*1 !! k = Some e -> dir_entry rd addrs k = e)
    /\ (forall k, (2 + length fs <= k)%nat -> 16 * (Z.of_nat k + 1) <= nblk (16 * (2 + Z.of_nat (length fs))) * BSIZE ->
          de_inum (dir_entry rd addrs k) = 0)
    /\ blocks_before rd addrs (16 * (2 + Z.of_nat (length fs))) fb;
  io_files k nm c : fs !! k = Some (nm, c) -> exists addrs,
    let n := Z.of_nat (length c) in
    disk_inode rd (Z.of_nat k + 2) = Dinode T_FILE 0 0 1 n addrs
    /\ file_bytes rd addrs 0 n = c /\ blocks_before rd addrs n fb;
}.

Lemma filing_bytes rd fb addrs c own o n :
  filing rd fb addrs (nblk (Z.of_nat (length c))) c own -> 0 <= o -> 0 <= n -> o + n <= Z.of_nat (length c) ->
  file_bytes rd addrs o n = slice (Z.to_nat o) (Z.to_nat n) c.
Proof.
  intros [Hf _ _ _] Ho Hn Hl. pose proof (fi_fit _ _ _ _ _ Hf). apply list_eq. intros i. unfold file_bytes, slice.
  rewrite list_lookup_fmap, lookup_take, lookup_drop. case_decide as Hi.
  - rewrite lookup_seqZ_lt by lia. simpl. rewrite (fi_byte _ _ _ _ _ Hf) by lia.
    destruct (lookup_lt_is_Some_2 c (Z.to_nat o + i)) as [v Hv]; [lia|].
    replace (Z.to_nat (o + Z.of_nat i)) with (Z.to_nat o + i)%nat by lia. by rewrite Hv.
  - by rewrite lookup_seqZ_ge by lia.
Qed.

Lemma filing_before rd fb addrs c own :
  filing rd fb addrs (nblk (Z.of_nat (length c))) c own -> blocks_before rd addrs (Z.of_nat (length c)) fb.
Proof.
  intros [Hf Ho _ _]. split.
  - intros i Hi. pose proof (fi_own _ _ _ _ _ Hf i Hi) as Hin. split; [by apply Ho|]. by apply (fi_pos _ _ _ _ _ Hf).
  - intros Hi. apply Ho. by apply (fi_ind _ _ _ _ _ Hf).
Qed.

(** The blocks of a file are distinct, are its own, and are as many as it takes. *)
Lemma filing_blocks rd fb addrs c own :
  let l := block_list rd addrs (Z.of_nat (length c)) in
  filing rd fb addrs (nblk (Z.of_nat (length c))) c own ->
  NoDup l /\ (forall b, b ∈ l -> b ∈ own) /\ Z.of_nat (length l) = file_blocks c.
Proof.
  intros l [Hf _ _ _]. subst l. unfold block_list, file_blocks, taken. set (nb := nblk _) in *.
  pose proof (fi_nb _ _ _ _ _ Hf) as Hnb.
  assert (Hin : forall b, b ∈ block_addr rd addrs <$> seqZ 0 nb <-> exists i, b = block_addr rd addrs i /\ 0 <= i < nb).
  { intros b. rewrite list_elem_of_fmap. apply exist_proper. intros i. by rewrite elem_of_seqZ, Z.add_0_l. }
  split_and!.
  - apply NoDup_app. split_and!.
    + apply NoDup_fmap_2_strong; [|apply NoDup_seqZ]. intros i j Hi%elem_of_seqZ Hj%elem_of_seqZ. apply Hf; lia.
    + intros b (i & -> & Hi)%Hin. destruct (Z.ltb_spec NDIRECT nb); [|apply not_elem_of_nil].
      rewrite list_elem_of_singleton. by apply Hf.
    + destruct (NDIRECT <? nb); [apply NoDup_singleton|apply NoDup_nil_2].
  - intros b [(i & -> & Hi)%Hin|Hb]%elem_of_app; [by apply Hf|].
    destruct (Z.ltb_spec NDIRECT nb); [|by apply elem_of_nil in Hb]. apply list_elem_of_singleton in Hb as ->. by apply Hf.
  - rewrite length_app, length_fmap, length_seqZ. destruct (NDIRECT <? nb); simpl; lia.
Qed.

(** Lists without repetition that share no element. *)
Lemma NoDup_concat (L : list (list Z)) :
  (forall k l, L !! k = Some l -> NoDup l) ->
  (forall j k l l' b, L !! j = Some l -> L !! k = Some l' -> j <> k -> b ∈ l -> b ∉ l') -> NoDup (concat L).
Proof.
  induction L as [|l L IH]; intros Hn Hd; simpl; [apply NoDup_nil_2|]. apply NoDup_app. split_and!.
  - by apply (Hn 0%nat).
  - intros b Hb Hc. apply list_elem_of_In, in_concat in Hc as (l' & Hl' & Hbl).
    apply list_elem_of_In, list_elem_of_lookup in Hl' as [k Hk].
    by apply (Hd 0%nat (S k) l l' b eq_refl Hk ltac:(done) Hb), list_elem_of_In.
  - apply IH; [intros k; apply (Hn (S k))|]. intros j k l1 l2 b Hj Hk Hne. apply (Hd (S j) (S k)); [done|done|congruence].
Qed.

Lemma concat_total (L : list (list Z)) (F : list (Z * list Z)) :
  length L = length F ->
  (forall k l x, L !! k = Some l -> F !! k = Some x -> Z.of_nat (length l) = file_blocks x.2) ->
  Z.of_nat (length (concat L)) = total F.
Proof.
  revert F. induction L as [|l L IH]; intros [|x F] Hl Hs; try done. simpl. rewrite length_app, Nat2Z.inj_add.
  rewrite (Hs 0%nat l x) by done. f_equal. apply IH; [by injection Hl|]. intros k. apply (Hs (S k)).
Qed.

(** Beyond the content, the last block is zero. *)
Lemma filing_beyond rd fb addrs c own k :
  filing rd fb addrs (nblk (Z.of_nat (length c))) c own -> Z.of_nat (length c) <= 16 * Z.of_nat k ->
  16 * (Z.of_nat k + 1) <= nblk (Z.of_nat (length c)) * BSIZE -> de_inum (dir_entry rd addrs k) = 0.
Proof.
  intros [Hf _ _ _] Hl Hk. assert (E : file_bytes rd addrs (16 * Z.of_nat k) 16 = replicate 16 0).
  { unfold file_bytes. apply list_eq. intros i. rewrite list_lookup_fmap. destruct (decide (i < 16)%nat) as [Hi|Hi].
    - rewrite lookup_seqZ_lt by lia. cbn [fmap option_fmap option_map]. rewrite (fi_byte _ _ _ _ _ Hf) by lia.
      rewrite lookup_ge_None_2 by lia. symmetry. by apply lookup_replicate_2.
    - rewrite lookup_seqZ_ge by lia. symmetry. apply lookup_replicate_None. lia. }
  unfold dir_entry. change sizeof_dirent with 16. by rewrite E.
Qed.

Lemma slice_concat {A} n (L : list (list A)) : forall k x,
  Forall (fun l => length l = n) L -> L !! k = Some x -> slice (n * k) n (concat L) = x.
Proof.
  induction L as [|y L IH]; intros k x HL Hk; [done|]. apply Forall_cons in HL as [Hy HL]. unfold slice in *.
  destruct k as [|k]; simpl in *.
  - injection Hk as <-. rewrite Nat.mul_0_r, drop_0, take_app_le by lia. apply take_ge. lia.
  - rewrite <- (IH k x HL Hk). f_equal. replace (n * S k)%nat with (length y + n * k)%nat by lia.
    by rewrite drop_app_add.
Qed.

Lemma dirent_round de :
  0 <= de_inum de < 2 ^ 16 -> length (de_name de) = 14%nat -> dirent_of (dirent_bytes de) = de.
Proof.
  intros Hi Hl. destruct de as [i nm]. cbn [de_inum de_name] in *. unfold dirent_of, dirent_bytes. cbn [de_inum de_name].
  f_equal.
  - unfold le_at, slice. change (Z.to_nat 0) with 0%nat. rewrite drop_0. rewrite take_app_le by (rewrite length_le_bytes; lia).
    rewrite take_ge by (rewrite length_le_bytes; lia). rewrite le_of_bytes_le_bytes. by apply Z.mod_small.
  - unfold slice. rewrite drop_app_le by (rewrite length_le_bytes; lia).
    rewrite drop_ge by (rewrite length_le_bytes; lia). simpl. apply take_ge. by rewrite Hl.
Qed.

Lemma root_entries_ok names :
  Forall (fun nm => Z.of_nat (length nm) <= DIRSIZ) names -> (length names <= 206)%nat ->
  Forall (fun de => 0 <= de_inum de < 2 ^ 16 /\ length (de_name de) = 14%nat) (root_entries names).
Proof.
  intros Hn Hl. apply Forall_cons. split; [done|]. apply Forall_cons. split; [done|].
  apply Forall_lookup. intros k de Hk. rewrite list_lookup_imap in Hk. apply fmap_Some in Hk as (nm & Hk & ->).
  pose proof (lookup_lt_Some _ _ _ Hk). pose proof (proj1 (Forall_lookup _ _) Hn _ _ Hk) as Hd. cbv beta in Hd.
  change DIRSIZ with 14 in Hd. cbn [de_inum de_name]. split; [lia|]. unfold entry_name.
  rewrite length_app, length_replicate. change (Z.to_nat DIRSIZ) with 14%nat. lia.
Qed.

(** The kernel reads the entries that were appended. *)
Lemma filing_entries rd fb addrs own names k e :
  Forall (fun nm => Z.of_nat (length nm) <= DIRSIZ) names -> (length names <= 206)%nat ->
  filing rd fb addrs (nblk (Z.of_nat (length (root_bytes names)))) (root_bytes names) own ->
  root_entries names !! k = Some e -> dir_entry rd addrs k = e.
Proof.
  intros Hn Hl Hf Hk. pose proof (root_entries_ok names Hn Hl) as Hok. pose proof (lookup_lt_Some _ _ _ Hk) as Hlt.
  unfold root_entries in Hlt. simpl in Hlt. rewrite length_imap in Hlt.
  unfold dir_entry. change sizeof_dirent with 16.
  rewrite (filing_bytes _ _ _ _ _ _ _ Hf) by (rewrite ?length_root by done; lia). unfold root_bytes.
  replace (Z.to_nat (16 * Z.of_nat k)) with (16 * k)%nat by lia. change (Z.to_nat 16) with 16%nat.
  rewrite (slice_concat 16 _ k (dirent_bytes e)).
  - destruct (proj1 (Forall_lookup _ _) Hok _ _ Hk). by apply dirent_round.
  - apply Forall_fmap. eapply Forall_impl; [exact Hok|]. intros de [_ Hd]. cbv beta. unfold compose, dirent_bytes.
    rewrite length_app, length_le_bytes, Hd. done.
  - by rewrite list_lookup_fmap, Hk.
Qed.

(** The blocks that the last steps write, the inode of the root directory and the free
    map, belong to no file. *)
Section finish.
Context (rd : Z -> list Z) (fb : Z) (fs : list (list Z * list Z)) (O : list (list Z * gset Z)).
Context (addrs : list Z) (own : gset Z).
Context (Him : image_ok rd fb (built fs) O) (Hfit : fits fs) (HO : O !! 0%nat = Some (addrs, own)).
Context (Hbytes : forall b, Forall byte (rd b)).

Let d := Dinode T_DIR 0 0 1 (root_size (length fs)) addrs.
Let rd1 := upd_block rd (iblock ROOTINO) (put_dinode (dinode_off ROOTINO) d (rd (iblock ROOTINO))).
Let rd2 := upd_block rd1 46 (fold_left (fun buf i => set_bit i buf) (seqZ 0 fb) zero_block).

Lemma finish_fb : 47 <= fb <= 2000.
Proof using Him Hfit.
  pose proof (im_fb _ _ _ _ Him). pose proof (total_pos (built fs)). pose proof (fit_total _ Hfit).
  change nmeta with 47 in *. change FSSIZE with 2000 in *. lia.
Qed.

Lemma finish_other b : 0 <= b -> b <> 33 -> b <> 46 -> rd2 b = rd b.
Proof using Type. intros ? ? ?. unfold rd2, rd1, upd_block. by rewrite !decide_False. Qed.

Lemma finish_super : superblock_of (rd2 1) = mk_super.
Proof using Him. rewrite finish_other, (im_head _ _ _ _ Him) by lia. vm_compute. reflexivity. Qed.

Lemma finish_filing k ty c a o :
  built fs !! k = Some (ty, c) -> O !! k = Some (a, o) -> filing rd2 fb a (nblk (Z.of_nat (length c))) c o.
Proof using Him Hfit.
  intros Hk Ho. destruct (im_file _ _ _ _ Him _ _ _ _ _ Hk Ho) as [_ Hf]. pose proof finish_fb.
  eapply filing_frame; [exact Hf| |split; [lia|change FSSIZE with 2000; lia]|].
  - intros b Hb. apply (fl_own _ _ _ _ _ _ Hf) in Hb. change nmeta with 47 in Hb. apply finish_other; lia.
  - intros b Hb. rewrite finish_other by lia. by apply (im_zero _ _ _ _ Him).
Qed.

Lemma finish_inode j : 0 <= j < 208 -> disk_inode rd2 j = if decide (j = ROOTINO) then d else dinode_in rd j.
Proof using Him Hfit HO.
  intros Hj. unfold disk_inode. rewrite finish_super. destruct (IBLOCK_eq j Hj) as [-> Hj'].
  replace (rd2 (iblock j)) with (rd1 (iblock j)) by (unfold rd2, upd_block; by rewrite decide_False by lia).
  fold (dinode_in rd1 j). assert (Hl : Z.of_nat (length (rd (iblock ROOTINO))) = BSIZE) by by apply (im_inodes _ _ _ _ Him).
  assert (Hok : dinode_ok d).
  { pose proof (inode_of_ok _ _ _ T_DIR _ _ _ ltac:(done) (finish_filing 0%nat T_DIR _ _ _ eq_refl HO)) as (K1 & K2 & K3).
    split; [exact K1|]. split; [|done]. pose proof (fit_inodes _ Hfit). simpl. unfold root_size. change BSIZE with 1024.
    Z.to_euclidean_division_equations. lia. }
  unfold rd1. case_decide as E; [subst j; by apply dinode_in_same|]. apply dinode_in_other; done || lia.
Qed.

Lemma finish_used a : 0 <= a < FSSIZE -> used rd2 mk_super a = (a <? fb).
Proof using Him Hfit.
  intros Ha. change FSSIZE with 2000 in Ha. pose proof finish_fb.
  destruct (first_bits fb) as [_ Hbits]; [change BPB with 8192; lia|].
  unfold used, BBLOCK. change (bmapstart mk_super) with 46. change BPB with 8192 in *.
  rewrite Z.div_small, Z.mod_small by lia. unfold rd2, upd_block. rewrite decide_True by done. apply Hbits. lia.
Qed.

Lemma finish_bytes b : Forall byte (rd2 b).
Proof using Hbytes.
  unfold rd2, rd1, upd_block. repeat case_decide; [apply byte_bits|by apply byte_put_dinode|done].
Qed.

(** The block list of every inode, and the set of blocks that it was given. *)
Lemma finish_blocks k l :
  all_blocks rd2 fs !! k = Some l ->
  exists ty c a o, built fs !! k = Some (ty, c) /\ O !! k = Some (a, o)
    /\ l = block_list rd2 a (Z.of_nat (length c)) /\ filing rd2 fb a (nblk (Z.of_nat (length c))) c o.
Proof using Him Hfit HO.
  unfold all_blocks. rewrite list_lookup_imap. intros ([ty c] & Hk & ->)%fmap_Some.
  pose proof (lookup_lt_Some _ _ _ Hk) as Hlt. pose proof (im_room _ _ _ _ Him) as Hroom.
  destruct (lookup_lt_is_Some_2 O k) as [[a o] Ho]; [by rewrite (im_len _ _ _ _ Him)|].
  exists ty, c, a, o. split_and!; [done|done| |by apply (finish_filing k ty)].
  rewrite finish_inode by lia. simpl. do 2 f_equal. case_decide as E.
  - unfold ROOTINO in E. replace k with 0%nat in Ho by lia. rewrite HO in Ho. by injection Ho as -> ->.
  - destruct (im_file _ _ _ _ Him _ _ _ _ _ Hk Ho) as [-> _]. done.
Qed.

Lemma finish_given : concat (all_blocks rd2 fs) ≡ₚ seqZ nmeta (fb - nmeta).
Proof using Him Hfit HO.
  apply submseteq_length_Permutation.
  - apply NoDup_submseteq.
    + apply NoDup_concat.
      * intros k l (ty & c & a & o & _ & _ & -> & Hf)%finish_blocks. by eapply filing_blocks.
      * intros j k l l' b (t1 & c1 & a1 & o1 & _ & O1 & -> & F1)%finish_blocks
          (t2 & c2 & a2 & o2 & _ & O2 & -> & F2)%finish_blocks Hne H1 H2.
        apply (filing_blocks _ _ _ _ _ F1) in H1. apply (filing_blocks _ _ _ _ _ F2) in H2.
        exact (proj1 (elem_of_disjoint _ _) (im_apart _ _ _ _ Him _ _ _ _ _ _ O1 O2 Hne) _ H1 H2).
    + intros b Hb. apply list_elem_of_In, in_concat in Hb as (l & Hl & Hbl).
      apply list_elem_of_In, list_elem_of_lookup in Hl as [k (ty & c & a & o & _ & _ & -> & Hf)%finish_blocks].
      apply list_elem_of_In, (filing_blocks _ _ _ _ _ Hf), (fl_own _ _ _ _ _ _ Hf) in Hbl.
      apply elem_of_seqZ. lia.
  - rewrite length_seqZ. assert (E : Z.of_nat (length (concat (all_blocks rd2 fs))) = total (built fs)).
    { apply concat_total; [apply length_imap|].
      intros k l x (ty & c & a & o & Hk & _ & -> & Hf)%finish_blocks Hx. rewrite Hk in Hx. injection Hx as <-.
      by eapply filing_blocks. }
    pose proof (im_fb _ _ _ _ Him). lia.
Qed.

Lemma image_finish : image_of rd2 fb fs.
Proof using Him Hfit HO Hbytes.
  pose proof (fit_inodes _ Hfit) as G1. assert (Hl1 : (length fs.*1 <= 206)%nat) by by rewrite length_fmap.
  pose proof (finish_filing 0%nat T_DIR _ _ _ eq_refl HO) as Hroot.
  assert (Hnames : Forall (fun nm => Z.of_nat (length nm) <= DIRSIZ) fs.*1).
  { apply Forall_fmap, Forall_forall. intros x Hx. by apply (fit_names _ Hfit). }
  assert (Hlr : Z.of_nat (length (root_bytes fs.*1)) = 16 * (2 + Z.of_nat (length fs))).
  { by rewrite length_root, length_fmap. }
  split; [apply finish_super| |apply finish_bytes|apply finish_used|apply finish_fb|apply finish_given| |].
  - change (logstart mk_super) with 2. rewrite finish_other, (im_head _ _ _ _ Him) by lia. done.
  - exists addrs. split_and!.
    + by rewrite finish_inode by done.
    + intros k e Hk. by eapply filing_entries.
    + intros k Hk Hk'. eapply filing_beyond; [exact Hroot| |]; rewrite Hlr; [lia|done].
    + rewrite <- Hlr. by eapply filing_before.
  - intros k nm c Hk. pose proof (lookup_lt_Some _ _ _ Hk) as Hlk.
    assert (Hb : built fs !! S k = Some (T_FILE, c)) by (unfold built; simpl; by rewrite list_lookup_fmap, Hk).
    destruct (lookup_lt_is_Some_2 O (S k)) as [[a o] Ho].
    { rewrite (im_len _ _ _ _ Him). by eapply lookup_lt_Some. }
    pose proof (finish_filing _ _ _ _ _ Hb Ho) as Hf. exists a. split_and!.
    + rewrite finish_inode, decide_False by (unfold ROOTINO; lia).
      destruct (im_file _ _ _ _ Him _ _ _ _ _ Hb Ho) as [E _]. etransitivity; [|exact E]. f_equal. lia.
    + rewrite (filing_bytes _ _ _ _ _ _ _ Hf) by lia. unfold slice. rewrite drop_0. apply take_ge. lia.
    + by eapply filing_before.
Qed.
End finish.

Section whole.
Context (io_fails : nat -> bool).
Notation wp := (wp io_fails).

(** The program exits with 0 and [Q], or with 1 because a call of the host failed. *)
Definition exits (m : mk unit) (s : mkst) (Q : mkst -> Prop) : Prop :=
  match m s with
  | MkOk _ _ | MkAbort => False
  | MkExit c s' => (c = 0 /\ Q s') \/ (c = 1 /\ exists k, io_fails k = true)
  end.

Lemma exits_inv m s Q :
  exits m s Q -> exists c s', m s = MkExit c s' /\ ((c = 0 /\ Q s') \/ (c = 1 /\ exists k, io_fails k = true)).
Proof using Type. unfold exits. destruct (m s) as [| c s' |]; [done| |done]. by exists c, s'. Qed.

Lemma exits_bind {A} (m : mk A) f s Q : wp m s (fun a s' => exits (f a) s' Q) -> exits (mbind m f) s Q.
Proof using Type. unfold MkfsSpec.wp, exits, mbind. destruct (m s); auto. Qed.

Lemma wp_io_raw s (Q : unit -> mkst -> Prop) :
  (forall k, Q tt (s <| mk_calls := k |>)) -> wp (io_call io_fails) s Q.
Proof using Type.
  intros HQ. unfold io_call, MkfsSpec.wp, mbind, mget, mmod, mret, die, mexit.
  destruct (io_fails (mk_calls s)) eqn:E; [by split; [|exists (mk_calls s)]|]. apply HQ.
Qed.

(** The loop that writes the blocks of the image for the first time. *)
Lemma zero_run n : forall k s sb fi fb (Q : unit -> mkst -> Prop),
  mk_img s = replicate k zero_block -> mk_sb s = sb -> freeinode s = fi -> freeblock s = fb ->
  Z.of_nat (k + n) <= FSSIZE ->
  (forall s', mk_img s' = replicate (k + n) zero_block -> mk_sb s' = sb -> freeinode s' = fi -> freeblock s' = fb -> Q tt s') ->
  wp (mfor (seqZ (Z.of_nat k) (Z.of_nat n)) (fun i => wsect io_fails i zero_block)) s Q.
Proof using Type.
  induction n as [|n IH]; intros k s sb fi fb Q H1 H2 H3 H4 Hn HQ.
  { simpl. apply wp_ret, HQ; try done. by rewrite Nat.add_0_r. }
  rewrite seqZ_cons by lia. cbn [mfor]. apply wp_bind. unfold wsect. apply wp_bind, wp_io_raw. intros c1.
  apply wp_bind, wp_io_raw. intros c2. unfold MkfsSpec.wp at 1, mmod.
  rewrite sect_small by lia. replace (Z.succ (Z.of_nat k)) with (Z.of_nat (S k)) by lia.
  replace (Z.pred (Z.of_nat (S n))) with (Z.of_nat n) by lia.
  apply (IH (S k) _ sb fi fb); try done; [|lia|by rewrite Nat.add_succ_comm].
  cbn. rewrite H1, Nat2Z.id. unfold put_block. rewrite length_replicate, (proj2 (Nat.ltb_ge _ _)), Nat.sub_diag by lia.
  simpl. by rewrite <- replicate_cons_app.
Qed.

(** The image before the first inode. *)
Lemma image_start : image_ok (upd_block (fun _ => zero_block) 1 super_block) nmeta [] [].
Proof using Type.
  split; try done.
  - simpl. lia.
  - intros b Hb. unfold upd_block, head_block. case_decide as E; [by subst|].
    by rewrite (proj2 (Z.eqb_neq b 1)) by congruence.
  - intros b Hb. unfold upd_block. by rewrite decide_False by lia.
  - intros b Hb. change nmeta with 47 in Hb. unfold upd_block. by rewrite decide_False by lia.
Qed.

(** The root directory with its first two entries. *)
Lemma dots_run s (K : Z -> mk unit) (Q : mkst -> Prop) :
  at_ s (upd_block (fun _ => zero_block) 1 super_block) 1 nmeta ->
  (forall s' rd' fb' O', at_ s' rd' 2 fb' -> image_ok rd' fb' (built []) O' -> exits (K ROOTINO) s' Q) ->
  exits (mbind (ialloc io_fails T_DIR) (fun rootino =>
         mbind (massert (rootino =? ROOTINO)) (fun _ =>
         mbind (iappend io_fails rootino (dirent_bytes (dot_entry rootino [46; 0]))) (fun _ =>
         mbind (iappend io_fails rootino (dirent_bytes (dot_entry rootino [46; 46; 0]))) (fun _ => K rootino))))) s Q.
Proof using Type.
  intros Hat HQ. apply exits_bind.
  eapply (ialloc_run io_fails _ _ _ _ [] []); [exact Hat|apply image_start|done|simpl; lia|done|done|].
  intros s1 rd1 O1 H1 I1. apply exits_bind, wp_assert; [done|]. apply exits_bind.
  eapply (iappend_run io_fails _ _ _ _ _ _ 0%nat); [exact H1|exact I1|done|by apply (byte_dirent 1 [46]); repeat constructor|done|done|].
  intros s2 rd2 fb2 O2 H2 I2. apply exits_bind.
  eapply (iappend_run io_fails _ _ _ _ _ _ 0%nat); [exact H2|exact I2|done|by apply (byte_dirent 1 [46; 46]); repeat constructor|done|done|].
  intros s3 rd3 fb3 O3 H3 I3. eapply HQ; [exact H3|exact I3].
Qed.

(** The last steps: the size of the root directory and the free map. *)
Lemma finish_run s rd fi fb O fs (Q : mkst -> Prop) :
  at_ s rd fi fb -> image_ok rd fb (built fs) O -> fits fs ->
  (forall s' rd' fi, at_ s' rd' fi fb -> image_of rd' fb fs -> Q s') ->
  exits (mbind (rinode io_fails ROOTINO) (fun din =>
         let off := xint (di_size din) in
         let off := u32 ((off / BSIZE + 1) * BSIZE) in
         mbind (winode io_fails ROOTINO
                  (Dinode (di_type din) (di_major din) (di_minor din) (di_nlink din) (xint off) (di_addrs din))) (fun _ =>
         mbind (mget freeblock) (fun fb =>
         mbind (balloc io_fails (s32 fb)) (fun _ => mexit 0))))) s Q.
Proof using Type.
  intros Hat Him Hfit HQ. pose proof (finish_fb _ _ _ _ Him Hfit) as Hfb.
  destruct (lookup_lt_is_Some_2 O 0%nat) as [[addrs own] HO]; [rewrite (im_len _ _ _ _ Him); simpl; lia|].
  destruct (im_file _ _ _ _ Him 0%nat T_DIR _ _ _ eq_refl HO) as [Hd Hfl].
  pose proof (fits_root _ Hfit) as Hr.
  assert (Hn : Z.of_nat (length (root_bytes fs.*1)) = 16 * (2 + Z.of_nat (length fs))).
  { rewrite length_root, length_fmap; [done|]. apply Forall_fmap, Forall_forall. intros x Hx. by apply (fit_names _ Hfit). }
  apply exits_bind. eapply wp_rinode; [done|done|]. intros s1 H1.
  change (Z.of_nat 0 + 1) with ROOTINO in Hd. rewrite Hd. cbv zeta. cbn [inode_of di_size di_type di_major di_minor di_nlink di_addrs].
  rewrite (xint_id (Z.of_nat _)) by lia. rewrite Hn. fold (root_size (length fs)).
  assert (Hrs : 0 <= root_size (length fs) < 2 ^ 31).
  { unfold root_size. change BSIZE with 1024. Z.to_euclidean_division_equations. lia. }
  rewrite u32_small, xint_id by lia. apply exits_bind. eapply wp_winode; [done|done|]. intros s2 H2.
  apply exits_bind, wp_get. rewrite (at_fb _ _ _ _ H2), s32_small by lia. apply exits_bind. unfold balloc.
  apply wp_bind, wp_assert; [apply Z.ltb_lt; change BPB with 8192; lia|]. apply wp_bind, wp_get. rewrite (at_sb _ _ _ _ H2).
  eapply wp_wsect; [exact H2|done|apply byte_bits|]. intros s3 H3. left. split; [done|].
  change (bmapstart mk_super) with 46 in H3.
  eapply HQ; [exact H3|]. exact (image_finish rd fb fs O addrs own Him Hfit HO (at_bytes _ _ _ _ Hat)).
Qed.

Context (h_creat : list Z -> bool) (h_open : list Z -> option (list (list Z))).

Lemma main_run prog image args fs :
  h_creat (cstr image) = true -> Forall2 (host_file h_open) args fs -> fits fs ->
  exits (Mkfs.main io_fails h_creat h_open (prog :: image :: args)) mkst_zero
    (fun s => exists rd fi fb, at_ s rd fi fb /\ image_of rd fb fs).
Proof using Type.
  intros Hc Hargs Hfit. unfold Mkfs.main. cbn [length Nat.ltb Nat.leb].
  apply exits_bind, wp_assert; [done|]. apply exits_bind, wp_assert; [done|].
  apply exits_bind. eapply wp_inside; [done|]. cbv beta. rewrite Hc. cbn [negb].
  apply exits_bind. unfold MkfsSpec.wp at 1, mmod. apply exits_bind.
  eapply (zero_run 2000 0); [done|done|done|done|done|]. intros s1 E1 E2 E3 E4.
  assert (H1 : at_ s1 (fun _ => zero_block) 1 nmeta).
  { split; [by rewrite E2|done|done|by rewrite E1, length_replicate| |done|intros b; apply byte_zero_block].
    intros b Hb. rewrite E1. apply lookup_replicate_2. change FSSIZE with 2000 in Hb. lia. }
  apply exits_bind. eapply wp_wsect; [exact H1|done|apply (byte_put_uints 0 _ _ byte_zero_block)|]. intros s2 H2.
  apply dots_run; [exact H2|]. intros s3 rd3 fb3 O3 H3 I3. apply exits_bind.
  eapply (add_files_run io_fails h_open args _ _ _ _ _ [] fs); [exact H3|exact I3|done|done|done|].
  intros s4 rd4 fi4 fb4 O4 H4 I4. eapply finish_run; [exact H4|exact I4|done|].
  intros s5 rd5 fi5 H5 I5. by exists rd5, fi5, fb4.
Qed.
End whole.

(** C5. [mkfs] with arguments whose names and contents fit the image ends with exit 0,
    or with exit 1 when a call of the host failed. On exit 0 the kernel finds in the image
    the super block, an empty log, the root directory with an entry for each file, each
    file with its content byte for byte, and a free map in which exactly the blocks that
    were given out are in use: the meta data before block [nmeta], and the blocks of the
    root directory and of the files with their indirect blocks, no two of which are the
    same and which fill the blocks from [nmeta] to the last block in use. *)
Theorem mkfs_builds io_fails h_creat h_open prog image args fs :
  h_creat (cstr image) = true -> Forall2 (host_file h_open) args fs -> fits fs ->
  exists c s, Mkfs.main io_fails h_creat h_open (prog :: image :: args) mkst_zero = MkExit c s
    /\ (c = 0 /\ (exists rd fb, length (mk_img s) = Z.to_nat FSSIZE
                    /\ (forall b, rd b = default zero_block (disk_of (mk_img s) !! b)) /\ image_of rd fb fs)
        \/ c = 1 /\ exists k, io_fails k = true).
Proof.
  intros Hc Ha Hf. destruct (exits_inv _ _ _ _ (main_run io_fails h_creat h_open prog image args fs Hc Ha Hf))
    as (c & s & E & H). exists c, s. split; [done|].
  destruct H as [(Hc0 & rd & fi & fb & Hat & Himg)|H]; [left; split; [done|]|by right].
  exists rd, fb. split_and!; [pose proof (at_len _ _ _ _ Hat); lia|intros b; by eapply disk_of_at|done].
Qed.

(** A host with a file ["user/_a"] and a file ["b"], both with the content ["hi\n"]. *)
Definition host_open (name : list Z) : option (list (list Z)) := Some [[104; 105]; [10]; []].
Definition host_args : list (list Z) := [[117; 115; 101; 114; 47; 95; 97; 0]; [98; 0]].
Definition host_files : list (list Z * list Z) := [([97], [104; 105; 10]); ([98], [104; 105; 10])].

Lemma host_files_open : Forall2 (host_file host_open) host_args host_files.
Proof.
  repeat constructor.
  - exists [117; 115; 101; 114; 47; 95; 97], [[104; 105]; [10]; []].
    split_and!; [reflexivity|repeat constructor; lia|vm_compute; set_solver|reflexivity|vm_compute; congruence|reflexivity|reflexivity|].
    apply (bool_decide_eq_true_1 _). vm_compute. reflexivity.
  - exists [98], [[104; 105]; [10]; []].
    split_and!; [reflexivity|repeat constructor; lia|vm_compute; set_solver|reflexivity|vm_compute; congruence|reflexivity|reflexivity|].
    apply (bool_decide_eq_true_1 _). vm_compute. reflexivity.
Qed.

Lemma host_files_fit : fits host_files.
Proof.
  split.
  - simpl. lia.
  - intros x Hx. unfold host_files in Hx. rewrite !elem_of_cons in Hx.
    destruct Hx as [->|[->|Hx]]; [vm_compute; congruence..|by apply elem_of_nil in Hx].
  - intros x Hx. unfold host_files in Hx. rewrite !elem_of_cons in Hx.
    destruct Hx as [->|[->|Hx]]; [vm_compute; congruence..|by apply elem_of_nil in Hx].
  - vm_compute. congruence.
Qed.

Lemma mkfs_builds_witness :
  exists s rd fb, Mkfs.main (fun _ => false) (fun _ => true) host_open ([0] :: [105; 0] :: host_args) mkst_zero = MkExit 0 s
    /\ (forall b, rd b = default zero_block (disk_of (mk_img s) !! b)) /\ image_of rd fb host_files.
Proof.
  destruct (mkfs_builds (fun _ => false) (fun _ => true) host_open [0] [105; 0] host_args host_files
    eq_refl host_files_open host_files_fit) as (c & s & E & [(-> & rd & fb & _ & Hrd & Himg)|(_ & k & Hk)]).
  - exists s, rd, fb. split; [exact E|]. split; [exact Hrd|exact Himg].
  - discriminate Hk.
Defined.
