(* ===== verification/Mount.v ===== *)
(** * The kernel on the image of mkfs

    The image builder and the kernel put together: the image that [mkfs/mkfs.c] builds
    is a disk on which [namei], [ilock] and [readi] of [kernel/fs.c] find every file of
    the command line under its name and read back its content. *)

From S2P Require Import Prelude Bytes Params FsTypes Machine Spinlock ProcCore Mem Kstring Pres PresVm Services.
From S2P Require Import Proc FsCore Sleeplock Calm Bio Lru BioSpec Log LogSpec Fs Dir FsSpec FsWrite FsAlloc.
From S2P Require Import Path Mkfs MkfsSpec MkfsImage.

(** The names are not empty, and different from each other and from ["."] and [".."]. *)
Definition names_ok (names : list (list Z)) : Prop := NoDup ([46] :: [46; 46] :: names) /\ [] ∉ names.

(** What [mkfs] checks of a name. *)
Definition plain (nm : list Z) : Prop := 0 ∉ nm /\ 47 ∉ nm /\ Z.of_nat (length nm) <= DIRSIZ /\ Forall byte nm.

Lemma host_names h_open args fs : Forall2 (host_file h_open) args fs -> Forall plain fs.*1.
Proof.
  induction 1 as [|arg x args fs (str & reads & _ & Hb & Hsl & Hx & Hl & _) _ IH]; constructor; [|done].
  destruct (short_names str Hb) as [_ Hu]. rewrite Hx in *. destruct (underscore_names _ Hu) as (_ & _ & _ & H0).
  split_and!; [done| |done|by apply byte_names]. unfold no_underscore. case_bool_decide; [|done].
  intros Hin. apply Hsl. destruct (no_user str); [done|]. by apply elem_of_cons; right.
Qed.

Lemma elems_plain nm : 47 ∉ nm -> nm <> [] -> elems nm = [nm].
Proof.
  intros Hs Hne. unfold elems. assert (H : forall s cur, 47 ∉ s -> elems_from cur s = flush (cur ++ s)).
  { induction s as [|c s IH]; intros cur Hc; simpl; [by rewrite app_nil_r|]. apply not_elem_of_cons in Hc as [Hc Hs'].
    rewrite (proj2 (Z.eqb_neq c 47)) by congruence. rewrite IH by done. by rewrite <- app_assoc. }
  rewrite H by done. by destruct nm.
Qed.

Lemma cstr_entry nm : 0 ∉ nm -> Z.of_nat (length nm) <= DIRSIZ -> cstr (entry_name nm) = nm.
Proof.
  intros H0 Hl. unfold entry_name. destruct (Z.to_nat DIRSIZ - length nm)%nat; simpl.
  - by rewrite app_nil_r, cstr_free.
  - by apply cstr_nul.
Qed.

(** Entry [i] of the root directory has name [i] of the list. *)
Lemma root_entry names i e :
  root_entries names !! i = Some e ->
  exists nm, ([46] :: [46; 46] :: names) !! i = Some nm /\ de_name e = entry_name nm
    /\ de_inum e = (if (i <? 2)%nat then 1 else Z.of_nat i).
Proof.
  unfold root_entries. destruct i as [|[|i]]; simpl.
  - intros [= <-]. by exists [46].
  - intros [= <-]. by exists [46; 46].
  - rewrite list_lookup_imap. intros (nm & Hi & ->)%fmap_Some. exists nm. split_and!; [done|done|]. simpl. lia.
Qed.

Lemma seq_first P n j :
  (j < n)%nat -> P j = true -> (forall i, (i < j)%nat -> P i = false) -> List.find P (seq 0 n) = Some j.
Proof.
  intros Hj HP Hi. replace n with (j + S (n - S j))%nat by lia. rewrite seq_app. simpl.
  assert (E : List.find P (seq 0 j) = None).
  { destruct (List.find P (seq 0 j)) as [i|] eqn:E; [|done]. apply find_lt in E as [H1 H2]. rewrite Hi in H2 by done. done. }
  revert E. generalize (seq 0 j). intros l. induction l as [|i l IH]; simpl; [by rewrite HP|].
  by destruct (P i); [|apply IH].
Qed.

Section mount.
Context (D : image) (rd : Z -> list Z) (fb : Z) (fs : list (list Z * list Z)).
Context (Himg : image_of rd fb fs) (HD : forall b, 0 <= b < FSSIZE -> is_Some (D !! b)).
Context (Hn : (length fs <= 206)%nat).

Lemma mount_inode i : inode_at rd mk_super i = disk_inode rd i.
Proof using Himg. unfold inode_at, disk_inode. by rewrite (io_super _ _ _ Himg). Qed.

(** The blocks of a file are on the disk. *)
Lemma before_mapped addrs len size :
  blocks_before rd addrs len fb -> length addrs = 13%nat -> size <= MAXFILE * BSIZE -> size <= nblk len * BSIZE ->
  mapped D rd addrs size.
Proof using Himg HD.
  clear Hn. intros [Hb Hi] Hl Hmax Hsz. pose proof (io_fb _ _ _ Himg) as Hfb. change nmeta with 47 in *. change FSSIZE with 2000 in *.
  change BSIZE with 1024 in *. split; [done|by rewrite Hl| |].
  - intros fbn H0 Hlt. change BSIZE with 1024 in Hlt. destruct (Hb fbn) as [Hr Hlen]; [lia|].
    split_and!; [lia|apply HD; lia|done].
  - intros a Hlt Ha. rewrite Ha in Hi. simpl in Hi. change NDIRECT with 12 in Hlt, Hi. change BSIZE with 1024 in Hlt.
    specialize (Hi ltac:(lia)). split; [lia|apply HD; lia].
Qed.

Lemma length_inode_addrs i : length (di_addrs (inode_at rd mk_super i)) = 13%nat.
Proof using Type. unfold inode_at, dinode_at, uints_at. cbn [di_addrs]. by rewrite length_fmap, length_seq. Qed.

(** The root directory does not end with its last block: the size that [mkfs] gives it
    is then the size of its blocks. *)
Context (Hround : (2 + Z.of_nat (length fs)) mod 64 <> 0).

Lemma root_size_blocks : root_size (length fs) = nblk (16 * (2 + Z.of_nat (length fs))) * BSIZE.
Proof using Hround. clear Hn. unfold root_size, nblk. change BSIZE with 1024. Z.to_euclidean_division_equations. lia. Qed.

Definition mounted (i : Z) : Prop := 1 <= i < 2 + Z.of_nat (length fs).

Lemma mounted_inode i :
  mounted i -> exists size addrs, inode_at rd mk_super i = Dinode (if i =? 1 then T_DIR else T_FILE) 0 0 1 size addrs.
Proof using Himg.
  clear Hn Hround. intros Hi. rewrite mount_inode. destruct (Z.eqb_spec i 1) as [->|Hne].
  - destruct (io_root _ _ _ Himg) as (addrs & E & _). by exists (root_size (length fs)), addrs.
  - unfold mounted in Hi. destruct (lookup_lt_is_Some_2 fs (Z.to_nat (i - 2))) as [[nm c] Hk]; [lia|].
    destruct (io_files _ _ _ Himg _ _ _ Hk) as (addrs & E & _). exists (Z.of_nat (length c)), addrs. rewrite <- E. f_equal. lia.
Qed.

Lemma mount_live : live_ok D rd mk_super mounted.
Proof using Himg HD Hn Hround.
  split.
  - apply (io_bytes _ _ _ Himg).
  - intros i Hi. apply HD. destruct (IBLOCK_eq i) as [-> Hb]; [unfold mounted in Hi; lia|]. change FSSIZE with 2000. lia.
  - intros i Hi. destruct (mounted_inode i Hi) as (size & addrs & ->). by destruct (i =? 1).
  - intros i Hi. by destruct (mounted_inode i Hi) as (size & addrs & ->).
  - intros i Hi Ht. destruct (mounted_inode i Hi) as (size & addrs & E). rewrite E in Ht.
    destruct (Z.eqb_spec i 1) as [->|Hne]; [|done]. pose proof (length_inode_addrs 1) as Hl. rewrite mount_inode in *.
    destruct (io_root _ _ _ Himg) as (a & E1 & _ & _ & Hb). change ROOTINO with 1 in E1. rewrite E1 in *. cbn [di_addrs di_size] in *.
    assert (Hsz : 0 <= root_size (length fs) <= 4096).
    { unfold root_size. change BSIZE with 1024. Z.to_euclidean_division_equations. lia. }
    split_and!; [|lia|].
    + apply (before_mapped _ (16 * (2 + Z.of_nat (length fs)))); try done; [change (MAXFILE * BSIZE) with 274432; lia|].
      rewrite root_size_blocks. lia.
    + unfold root_size. change BSIZE with (64 * sizeof_dirent). rewrite Z.mul_assoc. by rewrite Z.mod_mul.
  - intros i j Hi Ht. destruct (mounted_inode i Hi) as (size & addrs & E). rewrite E in Ht.
    destruct (Z.eqb_spec i 1) as [->|Hne]; [|done]. rewrite mount_inode in *.
    destruct (io_root _ _ _ Himg) as (a & E1 & He & Hz & _). change ROOTINO with 1 in E1. rewrite E1. cbn [di_addrs di_size].
    rewrite root_size_blocks. intros Hj Hd. destruct (decide (j < 2 + length fs)%nat) as [Hlt|Hge].
    + destruct (lookup_lt_is_Some_2 (root_entries fs.*1) j) as [e Hej].
      { unfold root_entries. simpl. rewrite length_imap, length_fmap. lia. }
      rewrite (He j e Hej). destruct (root_entry _ _ _ Hej) as (_ & _ & _ & ->). unfold mounted.
      destruct (Nat.ltb_spec j 2); lia.
    + exfalso. apply Hd, Hz; [lia|]. change sizeof_dirent with 16 in Hj. change BSIZE with 1024 in *.
      Z.to_euclidean_division_equations. lia.
Qed.

Context (Hplain : Forall plain fs.*1) (Hnames : names_ok fs.*1).

(** The name of file [k] is found at entry [k + 2]. *)
Lemma mount_find k nm c addrs :
  fs !! k = Some (nm, c) -> (forall k e, root_entries fs.*1 !! k = Some e -> dir_entry rd addrs k = e) ->
  dir_find rd addrs (root_size (length fs)) nm = Some (k + 2)%nat.
Proof using Hround Hplain Hnames.
  clear Hn Himg HD. intros Hk He. pose proof (lookup_lt_Some _ _ _ Hk) as Hlt.
  assert (Hkn : ([46] :: [46; 46] :: fs.*1) !! (k + 2)%nat = Some nm).
  { replace (k + 2)%nat with (S (S k)) by lia. simpl. by rewrite list_lookup_fmap, Hk. }
  assert (Hpl : forall i u, ([46] :: [46; 46] :: fs.*1) !! i = Some u -> 0 ∉ u /\ Z.of_nat (length u) <= DIRSIZ).
  { intros [|[|i]] u; simpl; [intros [= <-]; split; [set_solver|done]..|]. intros Hu.
    destruct (proj1 (Forall_lookup _ _) Hplain _ _ Hu) as (? & _ & ? & _). done. }
  destruct (Hpl _ _ Hkn) as [H0 Hl]. change DIRSIZ with 14 in Hl.
  assert (Hm : forall i e, root_entries fs.*1 !! i = Some e ->
    de_matches nm (dir_entry rd addrs i) = bool_decide (i = (k + 2)%nat)).
  { intros i e Hi. rewrite (He i e Hi). destruct (root_entry _ _ _ Hi) as (u & Hu & Hnm & Hin). destruct (Hpl _ _ Hu) as [Hu0 Hul].
    unfold de_matches. rewrite Hnm, cstr_entry, (take_ge nm), cstr_free by (done || change (Z.to_nat DIRSIZ) with 14%nat; lia).
    rewrite Hin. assert (Ez : ((if (i <? 2)%nat then 1 else Z.of_nat i) =? 0) = false).
    { destruct (Nat.ltb_spec i 2); [done|]. apply Z.eqb_neq. lia. }
    rewrite Ez. cbn [negb andb]. apply bool_decide_ext. split; [|intros ->; congruence].
    intros ->. symmetry. by eapply NoDup_lookup; [apply (proj1 Hnames)|..]. }
  assert (Hex : forall i, (i <= k + 2)%nat -> is_Some (root_entries fs.*1 !! i)).
  { intros i Hi. apply lookup_lt_is_Some_2. unfold root_entries. simpl. rewrite length_imap, length_fmap. lia. }
  unfold dir_find. apply seq_first.
  - rewrite root_size_blocks. unfold nblk. change BSIZE with 1024. change sizeof_dirent with 16.
    Z.to_euclidean_division_equations. lia.
  - destruct (Hex (k + 2)%nat) as [e E]; [lia|]. rewrite (Hm _ _ E). by apply bool_decide_true.
  - intros i Hi. destruct (Hex i) as [e E]; [lia|]. rewrite (Hm _ _ E). apply bool_decide_false. lia.
Qed.

Lemma mount_resolve k nm c :
  fs !! k = Some (nm, c) -> resolve rd mk_super ROOTINO (elems nm) = Some (Z.of_nat k + 2).
Proof using Himg Hround Hplain Hnames.
  clear Hn. intros Hk. assert (Hin : fs.*1 !! k = Some nm) by by rewrite list_lookup_fmap, Hk.
  destruct (proj1 (Forall_lookup _ _) Hplain _ _ Hin) as (_ & H47 & _).
  rewrite elems_plain; [|done|intros ->; by apply (proj2 Hnames), (list_elem_of_lookup_2 _ k)].
  cbn [resolve]. rewrite mount_inode. destruct (io_root _ _ _ Himg) as (addrs & -> & He & _). cbn [di_type di_addrs di_size].
  rewrite Z.eqb_refl, (mount_find k nm c) by done.
  destruct (lookup_lt_is_Some_2 (root_entries fs.*1) (k + 2)) as [e E].
  { unfold root_entries. simpl. rewrite length_imap, length_fmap. apply lookup_lt_Some in Hk. lia. }
  rewrite (He _ _ E). destruct (root_entry _ _ _ E) as (_ & _ & _ & ->).
  rewrite (proj2 (Nat.ltb_ge _ _)) by lia. f_equal. lia.
Qed.

Context `{Fuel} (pid : Z) (s : kstate) (Hcalm : calm pid s) (Hfuel : (0 < fuel)%nat).
Context (A : blocks_in_use) (Hroom : (size A < bhead)%nat).
Context (Hrc : forall bn rc d, A !! bn = Some (rc, d) -> rc < 900).

(** The kernel finds file [k] and reads it. *)
Lemma mount_reads f l k nm c :
  table_ok pid A D rd mk_super f l None -> room (refs (fs_inodes f)) -> fs !! k = Some (nm, c) ->
  Z.of_nat (length c) <= MAXFILE * BSIZE ->
  exists ip f1 f2 f3, namei (47 :: nm ++ [0]) (s ⊕ f) = Ret (Some ip) (s ⊕ f1)
    /\ ilock ip (s ⊕ f1) = Ret tt (s ⊕ f2)
    /\ readi ip KernDst 0 (Z.of_nat (length c)) (s ⊕ f2) = Ret (Z.of_nat (length c), c) (s ⊕ f3).
Proof.
  intros Ht HR Hk Hmax. assert (Hin : fs.*1 !! k = Some nm) by by rewrite list_lookup_fmap, Hk.
  destruct (proj1 (Forall_lookup _ _) Hplain _ _ Hin) as (H0 & _ & _ & Hby). pose proof (lookup_lt_Some _ _ _ Hk) as Hlt.
  pose proof (namei_run pid s Hcalm Hfuel A Hroom Hrc D rd mk_super mounted mount_live f l nm Ht HR
    ltac:(unfold mounted, ROOTINO; lia) H0 Hby) as Hnm.
  rewrite (mount_resolve k nm c Hk) in Hnm. destruct Hnm as (ip & f1 & l1 & E1 & Hh).
  pose proof Hh as (Ht1 & x & Hx & Hd & Hi & _). pose proof (held_ref _ _ _ _ _ _ _ _ _ _ _ Hh HR Hx) as Hr.
  destruct (ilock_run pid s Hcalm Hfuel A Hroom Hrc D rd mk_super mounted mount_live f1 l1 ip x Ht1 Hx (proj1 Hr) Hd)
    as (f2 & l2 & x2 & E2 & Ht2 & I2 & Hx2 & _); [rewrite Hi; unfold mounted; lia|].
  rewrite Hi, mount_inode in Hx2. destruct (io_files _ _ _ Himg _ _ _ Hk) as (addrs & Ed & Ec & Hb). cbv zeta in Ed, Ec, Hb.
  pose proof (length_inode_addrs (Z.of_nat k + 2)) as Hla. rewrite mount_inode, Ed in Hla. cbn [di_addrs] in Hla.
  rewrite Ed in Hx2. destruct (tk_disk _ _ _ _ _ _ _ _ Ht2) as (Hbl & Hvw & _).
  assert (Hf : i_dev x2 = ROOTDEV /\ i_size x2 = Z.of_nat (length c) /\ i_addrs x2 = addrs) by (rewrite Hx2; done).
  destruct Hf as (F1 & F2 & F3). change (MAXFILE * BSIZE) with 274432 in Hmax.
  destruct (readi_run pid s Hcalm Hfuel A Hroom Hrc ip x2 F1 f2 l2 0 (Z.of_nat (length c))) as (f3 & l3 & E3 & _);
    [apply Ht2|rewrite I2; apply list_lookup_insert_eq; by eapply lookup_lt_Some| |lia|lia|lia|lia|].
  { rewrite F2, F3, Hbl, Hvw. apply (before_mapped _ (Z.of_nat (length c))); [done|done|done|].
    unfold nblk. change BSIZE with 1024. Z.to_euclidean_division_equations. lia. }
  rewrite F2, F3, Hvw in E3. assert (Er : readable (Z.of_nat (length c)) 0 (Z.of_nat (length c)) = Z.of_nat (length c)).
  { unfold readable. rewrite (proj2 (Z.ltb_ge _ _)) by lia. lia. }
  rewrite Er, Ec in E3. by exists ip, f1, f2, f3.
Qed.
End mount.

(** Only the contents of the blocks matter. *)
Lemma image_of_eq rd rd' fb fs : (forall b, rd b = rd' b) -> image_of rd fb fs -> image_of rd' fb fs.
Proof.
  intros E [I1 I2 I3 I4 I5 I6 (addrs & R1 & R2 & R3 & R4) I7].
  assert (Edi : forall i, disk_inode rd' i = disk_inode rd i) by (intros i; unfold disk_inode; by rewrite !E).
  assert (Ebb : forall a n, blocks_before rd a n fb -> blocks_before rd' a n fb).
  { intros a n [B1 B2]. split; [|done]. intros i. rewrite <- (block_addr_eq _ _ E), <- E. apply B1. }
  split; rewrite <- ?E; try done.
  - intros b. rewrite <- E. apply I3.
  - intros a Ha. rewrite <- I4 by done. unfold used. by rewrite E.
  - rewrite <- I6. unfold all_blocks, block_list. erewrite imap_ext; [reflexivity|]. intros k x _. cbv beta.
    rewrite Edi. f_equal. apply list_fmap_ext. intros i b _. by apply block_addr_eq.
  - exists addrs. rewrite Edi. split_and!; [done| | |by apply Ebb]; intros k; rewrite <- (dir_entry_eq _ _ E); auto.
  - intros k nm c Hk. destruct (I7 k nm c Hk) as (a & F1 & F2 & F3). exists a. rewrite Edi.
    split_and!; [done|by rewrite <- (file_bytes_ext _ _ _ _ _ E)|by apply Ebb].
Qed.

(** C3. What [mkfs] puts into the image, the kernel reads back: after a successful run on
    arguments that fit, with different names and a number of files that does not fill
    the last block of the root directory, a kernel that has the image as its disk and
    two free entries in its inode table resolves ["/name"] of every file with [namei],
    locks the inode with [ilock], and [readi] returns exactly the content of the file. *)
Theorem mkfs_then_read `{Fuel} io_fails h_creat h_open prog image args fs st pid s f l k nm c :
  h_creat (cstr image) = true -> Forall2 (host_file h_open) args fs -> fits fs -> names_ok fs.*1 ->
  (2 + Z.of_nat (length fs)) mod 64 <> 0 ->
  Mkfs.main io_fails h_creat h_open (prog :: image :: args) mkst_zero = MkExit 0 st ->
  (0 < fuel)%nat -> calm pid s -> table_ok pid ∅ (disk_of (mk_img st)) (view f ∅) mk_super f l None ->
  room (refs (fs_inodes f)) -> fs !! k = Some (nm, c) ->
  exists ip f1 f2 f3, namei (47 :: nm ++ [0]) (s ⊕ f) = Ret (Some ip) (s ⊕ f1)
    /\ ilock ip (s ⊕ f1) = Ret tt (s ⊕ f2)
    /\ readi ip KernDst 0 (Z.of_nat (length c)) (s ⊕ f2) = Ret (Z.of_nat (length c), c) (s ⊕ f3).
Proof.
  intros Hc Ha Hfit Hnames Hround Hmain Hfuel Hcalm Ht HR Hk.
  destruct (exits_inv _ _ _ _ (main_run io_fails h_creat h_open prog image args fs Hc Ha Hfit)) as (c0 & st0 & E0 & Hrun).
  rewrite Hmain in E0. injection E0 as <- <-. destruct Hrun as [(_ & rd & fi & fb & Hat & Himg)|[? _]]; [|done].
  assert (Hrd : forall b, rd b = view f ∅ b).
  { intros b. rewrite (disk_of_at _ _ _ _ b Hat). unfold view. rewrite lookup_empty.
    by rewrite (proj1 (tk_disk _ _ _ _ _ _ _ _ Ht)). }
  apply (image_of_eq _ _ _ _ Hrd) in Himg.
  assert (HD : forall b, 0 <= b < FSSIZE -> is_Some (disk_of (mk_img st) !! b)).
  { intros b Hb. rewrite disk_of_lookup, decide_True by lia. rewrite (at_img _ _ _ _ Hat b Hb). by eexists. }
  eapply (mount_reads (disk_of (mk_img st)) (view f ∅) fb fs Himg HD (fit_inodes _ Hfit) Hround (host_names _ _ _ Ha) Hnames
    pid s Hcalm Hfuel ∅); try done; [vm_compute; lia|]. apply (fit_size _ Hfit (nm, c)). by apply (list_elem_of_lookup_2 _ k).
Qed.

Section example.
#[local] Instance mount_fuel : Fuel := 1%nat.

Lemma mkfs_then_read_witness :
  exists st f ip f1 f2 f3,
    Mkfs.main (fun _ => false) (fun _ => true) host_open ([0] :: [105; 0] :: host_args) mkst_zero = MkExit 0 st
    /\ fs_blocks f = disk_of (mk_img st)
    /\ namei (47 :: [97] ++ [0]) (calm_state ⊕ f) = Ret (Some ip) (calm_state ⊕ f1)
    /\ ilock ip (calm_state ⊕ f1) = Ret tt (calm_state ⊕ f2)
    /\ readi ip KernDst 0 3 (calm_state ⊕ f2) = Ret (3, [104; 105; 10]) (calm_state ⊕ f3).
Proof.
  destruct (exits_inv _ _ _ _ (main_run (fun _ => false) (fun _ => true) host_open [0] [105; 0] host_args host_files
    eq_refl host_files_open host_files_fit)) as (c & st & Em & [[-> _]|(_ & k & Hk)]); [|discriminate Hk].
  destruct (fresh_table (disk_of (mk_img st)) mk_super) as (f & Ht & Hr & _).
  destruct (mkfs_then_read (fun _ => false) (fun _ => true) host_open [0] [105; 0] host_args host_files st 1 calm_state f (reverse bufids)
    0%nat [97] [104; 105; 10] eq_refl host_files_open host_files_fit) as (ip & f1 & f2 & f3 & E1 & E2 & E3).
  - split; apply (bool_decide_eq_true_1 _); vm_compute; reflexivity.
  - vm_compute. discriminate.
  - exact Em.
  - exact (le_n 1).
  - exact calm_state_calm.
  - exact Ht.
  - rewrite Hr. split; [apply Forall_replicate; lia|]. exists 0%nat, 1%nat.
    split_and!; [discriminate|reflexivity|reflexivity].
  - reflexivity.
  - exists st, f, ip, f1, f2, f3. split; [exact Em|]. split; [exact (proj1 (tk_disk _ _ _ _ _ _ _ _ Ht))|].
    split; [exact E1|]. split; [exact E2|exact E3].
Defined.
End example.
